(* ===== verification/_CoqProject ===== *)
-Q . S2P
Prelude.v
GoStrings.v
Regex.v
GoWords.v
GoValue.v
Json.v
Wire.v
Typed.v
Uuid.v
Types.v
SchemaWire.v
Validation.v
Template.v
Plan.v
Profile.v
ProfileWire.v
Router.v
Registry.v
Planner.v
PlanWire.v
Providers.v
Streaming.v
Channel.v
Factory.v
Policy.v
SkillFiles.v
AuditTrail.v
Mcp.v
McpWire.v
Telemetry.v
Retrieval.v
Safety.v
Concurrent.v
Runtime.v
Contracts.v
Reports.v
ProviderWire.v
ServiceWire.v
System.v
