(* ===== verification/Prelude.v ===== *)
(** * openbotstack-core, verified

    ** The program and this development

    openbotstack-core is the library an AI assistant platform is built on: it
    selects a model provider, asks it for a plan, checks the plan, prepares its
    steps, validates what they take and give, decides what a tenant may do, and
    records what happened. A request goes through the parts as follows. The profile
    of the assistant is merged from three scopes and rendered into a prompt
    ([Profile]); the planner builds its prompt, has the router choose a provider
    ([Router]), streams or fetches the answer ([Factory], [Providers], [Streaming],
    [Channel]) and turns it into a plan within its limits ([Planner], [Plan]); each
    step is prepared by substituting the results of earlier steps ([Template]), its
    input and output are validated against schemas ([Validation]), and its results
    are gathered ([Runtime]). Around that stand the policy enforcer ([Policy]), the
    registries of skills and capabilities ([Registry], [SkillFiles]), the audit
    trail ([AuditTrail]), the MCP server ([Mcp]), telemetry ([Telemetry]),
    retrieval ([Retrieval]) and the safety filter ([Safety]). Operations that share
    state and may interleave are treated in [Concurrent], [Channel] and [Runtime].
    What crosses the boundary of the program as JSON is treated in [Json], [Wire] and
    the files that end in Wire; [ServiceWire] follows a plan from the text a service
    streams to the caller of the planner.

    ** Files, and what they model

    Shared:
    - [Prelude]: the scope [go_scope], the hint databases [go] and [go_rw], error
      sequencing, sorting, the order of loops over maps, 64-bit arithmetic.
    - [GoStrings], [GoWords], [Regex], [GoValue]: the parts of Go's standard library
      the code uses, namely [strings]; [regexp], as a language of expressions with a
      matcher that is proved against a relation; and dynamic values with [float64],
      [%v], [encoding/json]'s Marshal and error values.
    - [Json]: [encoding/json] on documents and dynamic values: the printer, the
      scanner with its limit on nesting, strings with their escapes, numerals.
    - [Wire]: [encoding/json] on Go types, as a class [Wire] with an instance for
      each kind of type and [struct_wire] for structs with tags; the law [WireLaws]
      that what is written is read back, which every instance discharges; how deep a
      type nests and whether its values can always be written. [Typed]: the
      invariant of whatever is read.
    - [Uuid]: the part of the vendored uuid library the program calls, random
      identifiers with their text forms.
    - [Types]: [src/ai/types], the records of messages, schemas, requests and
      responses and the functions on content blocks. [SchemaWire]: JSON schemas as
      JSON, by depth.

    Components, each translating the functions of the files named, one definition
    per function and under its name where Rocq allows it:
    - [Validation]: [src/validation/schema.go]. [validateSchema] with its parts; what
      they compute as one recursive reading ([conforms]), and the full reading of JSON
      Schema stated apart from them ([satisfies]).
    - [Template]: [src/execution/template/engine.go]. [Resolve], [segments] for the
      expression [templateRe], [ExtractReferencedSteps], [CoerceStringNumbers].
    - [Plan]: [src/execution/plan.go] and its support types. Argument maps live in
      a store by location, so that the sharing [Clone] breaks is visible. The state
      of a plan is the record [ExecutionPlan] with its frozen flag. [PlanWire]: plans
      as JSON, the maps the decoder makes, and the planner's parser on text.
    - [Profile]: [src/control/profile], the merge with its permission matrix, the
      vocabularies and the rendered prompts. [ProfileWire]: profiles as JSON.
    - [Router]: [src/ai/router/router.go]. A class of operations, [ModelRouter],
      with [DefaultRouter] as its instance, which the planner is proved against.
    - [Planner]: [src/planner], prompts, limits, the exchange with the model, [Plan]
      and [Replan].
    - [Providers], [Streaming], [Channel], [Factory]: [src/ai/providers]. Requests
      and the retry loop; the readers of server-sent events; the goroutine and
      channel that deliver their chunks; the provider types. [ProviderWire]: the
      requests and answers of both services as JSON, the codecs that the clients take
      as parameters. [ServiceWire]: the documents requests are to be sent as, and a
      service that streams a plan.
    - [Policy]: [src/control/policy/policy.go]. State: rules by tenant.
    - [Registry], [SkillFiles]: [src/registry/skills] and [src/capability]. State:
      the generic map store and the list of callbacks; manifests, the host API,
      SKILL.md files and skill identifiers.
    - [AuditTrail]: [src/audit], events, envelopes, the emitter. [Reports]:
      envelopes and compliance reports as JSON, the signature chain's records.
    - [Mcp]: [src/mcp], the JSON-RPC dispatcher over a tool provider. [McpWire]: the
      messages as JSON, the documents requests are to be answered with, the client's
      types.
    - [Telemetry]: [src/telemetry], the meter and spans.
    - [Retrieval]: [src/ai/retrieval/pipeline.go].
    - [Safety]: [src/ai/safety/safety.go].
    - [Concurrent]: the registry ([in_memory_registry.go]) with its two locks and
      callbacks that call it again, and the emitter ([emitter.go]), under threads that
      interleave.
    - [Runtime]: [execution_context.go] under concurrent steps, the assistant, the
      user and the model access of tools.
    - [Contracts]: the records, constants, errors and interfaces the repository
      declares for the programs around it ([src/execution], [src/access/ratelimit],
      [src/control/agent], [src/memory/abstraction], [src/telemetry]). An interface
      is a class of operations; the registries, the meter and the planner are the
      instances of theirs.
    - [System]: what the theorems come to when components meet: profiles in the
      request to the model, prepared arguments before the validator, identifiers in
      a validated plan, the planner at the end of a concurrent stream.

    ** Conventions

    State is passed explicitly. A function that returns an error returns
    [result error A] or [option error]; error values keep their format and what
    they wrap, so that [errors.Is] is a function on them. A nil pointer is [None].
    Go's [int] and [int64] are [Z] and wrapped by [wrap64] where they can overflow;
    [float64] is the binary64 type with its own arithmetic. Strings are byte
    strings. A loop over a map takes its order from the class [MapRange], which
    promises no more than a permutation of the entries: what is proved holds for
    every order, and where the order matters a theorem says so. A sort by
    [sort.Slice] is any function with its documented laws ([Retrieval.SliceSort]).

    Concurrency is interleaving. A pool of threads ([Concurrent.pool_step]) takes
    steps in any order. For the skill registry the locks are part of the state: a
    thread is the stack of its calls, each acquiring, holding and releasing them
    step by step, and a callback pushes the calls it makes. Elsewhere a thread is
    cut where the code releases a lock or calls out; [Channel.StreamChannel] has one
    goroutine, a consumer and a context. A theorem about a pool quantifies
    over all schedules.

    Recursion is structural, over lists of lines, attempts or threads, with three
    exceptions that carry fuel: [Plan.group_loop] has one unit for each step, each
    round consuming at least one, and the theorem that the batches make up the plan
    shows it to be enough; [Regex.star_run] has one for each byte left, and
    [Regex.run_spec] shows that no match is missed; [GoValue.dec_search] tries
    decimals of up to 17 digits, enough for any binary64 value to read back by the
    standard, and gives [None] if it were not. Termination of the emitter's operations
    and of the stream's goroutine is proved as well-foundedness of their steps; the
    registry's calls, whose callbacks may call it for ever, are proved free of
    deadlock. The scanner of [Json] has one unit
    for each byte and [Json.parse_print] shows it enough for every printed document;
    the recursion of schemas through maps and slices is cut at a depth, which
    [SchemaWire.schema_fuel] shows not to matter past the nesting of a document.

    ** What is proved

    - Equivalence with a declarative reading: the schema validator decides the full
      reading of schemas that name the types they constrain, and its verdict does not
      depend on the order of maps; scope validation is the permission matrix; template
      resolution is substitution at the matches of the declared expression, and the
      scanner is that expression; coerced arguments are what their texts read as.
    - Refinement: the merge of profiles follows the matrix field by field; a metrics
      snapshot is the history of what was recorded; every schedule of a stream's
      goroutine, channel and consumer delivers what the sequential reader does; what a
      provider sends is the text of the document of its request, and what the MCP
      server answers is the document its method asks for.
    - Functional behaviour, error branches included: plan validation and batches,
      routing, policy decisions by priority, retries and error kinds of model
      calls, assembly of streamed text and tool calls, embeddings by index, finding
      the plan in a model's answer, retrieval of the best chunks, masking of personal
      data, of which each replacement and verdict is accounted for.
    - Safety: preparing a step leaves the plan untouched, a replanned plan is frozen
      and within its limits, a user's request cannot leave its section of the
      prompt, masking leaves nothing the filter recognises.
    - Invariants, termination and liveness: change events account for the registry,
      one operation at a time and, event for event, under concurrency; its calls and
      the calls of callbacks never deadlock, and no lock is held while callbacks run;
      subscribers that stay receive every event; concurrent steps lose no
      result; a stream's goroutine is never left behind.
    - Composition: what a session may not set never reaches the model; a text that
      reads as a number never reaches a text parameter; the planner follows the
      payloads of a stream under every schedule, and a broken one passes for whole
      exactly when 64 payloads came before the break; a tool is called with the
      arguments of the JSON-RPC request; tools discovered on the package's own server
      arrive, through any registry, without their parameters.
    - Bounds: the wait between attempts doubles to its cap and then overflows.
    - Round trips: a plan that a service streams as JSON, in any pieces, is the plan
      the planner returns; schemas, audit envelopes, compliance reports, profiles and the tagged records are read back
      from what is written for them, with the conditions under which they are written
      at all; an identifier is read back from each of its forms; a SKILL.md
      file is read back, with either line ending; the words
      of a document are those of its chunks; numerals, escaped text and identifiers
      in the lemmas of their components.

    Theorems that show a flaw of the code say so in their comment, among them
    [Policy.remove_rule_crosses_tenants], [Streaming.refused_streams_end_differently],
    [Concurrent.events_can_overtake_each_other], [SchemaWire.const_null_is_lost] and
    [McpWire.clients_read_failures_as_successes].

    ** Parameters

    Code outside the repository is an argument of the definitions that use it: YAML
    decoding, the regular expressions a schema contains, the network and the context's end,
    file reading, random bytes, the clock, the fixed prose of the prompt
    templates and, for retrieval, [strings.ToLower]. Nothing is assumed of them
    beyond what a theorem states as a hypothesis, and each such theorem has a
    witness with concrete functions. Instants have the text form of the class
    [Wire.TimeText], of which no more is asked than that it reads back what it
    writes. [Plan] takes its identifiers and [Planner] its decoder from any function;
    [System] gives them the ones of [Uuid], and [PlanWire] that of [Wire]. The codecs
    of [Providers], [Streaming] and [Factory] are parameters there, the record
    [Factory.codecs]; [ProviderWire.json_codecs] are those of the code. A theorem on
    what is read back asks of a float that its text reads back as it
    ([Json.reads_back]), which is decided by computing it.

    ** Not modelled

    Log output; the methods that format an error or a violation as a text, whose
    format and arguments the error values keep. A document that repeats a member is
    read as if it had its last one only, where the decoder would merge two objects
    into one structure; the bytes of a raw message are those of the compact form of
    its document. Contexts are passed on and appear
    where the code asks whether they have ended. Locks that are held for the whole
    of an operation make it one step and do not appear, but for the skill registry;
    the methods of a skill, which two of its reading operations call while they hold
    the read lock, are assumed not to call the registry. A tool call whose index is
    past what a slice can hold makes the reader of a stream panic; the model has no
    such panic, and the theorem on the stream excludes those indices. The values of a skill's
    key-value store are byte strings, so a caller that changes a slice it has stored
    is outside the model. *)
From stdpp Require Export base tactics list gmap strings pretty sorting.
From Stdlib Require Export ZArith Lia.
From Stdlib Require Import Ascii.

(* ------------------------------------------------------------------ *)
(** ** Scope, notations and hint databases *)
(* ------------------------------------------------------------------ *)

Declare Scope go_scope.
Delimit Scope go_scope with go.

(** Lemmas that decide the common goals about the Go run-time model. *)
Create HintDb go discriminated.
Create Rewrite HintDb go_rw.

Open Scope list_scope.
Open Scope go_scope.

(** stdpp blocks [simpl] on concatenation; the string lemmas compute with it. *)
#[global] Arguments String.append !_ _ / : simpl nomatch.

(** [e1 ;;? e2] runs two checks in sequence: Go's
    [if err := e1; err != nil { return err }; return e2], where [None] is the
    nil error. *)
Definition check_seq {E : Type} (e1 e2 : option E) : option E :=
  match e1 with Some e => Some e | None => e2 end.
Notation "e1 ;;? e2" := (check_seq e1 e2)
  (at level 62, right associativity) : go_scope.

(** [check_when b e] is [if b { if err := e; err != nil { return err } }]. *)
Definition check_when {E : Type} (b : bool) (e : option E) : option E :=
  if b then e else None.

(** A fallible Go call [(T, error)]. *)
Inductive result (E A : Type) : Type :=
| Ok (a : A)
| Err (e : E).
Arguments Ok {E A} a.
Arguments Err {E A} e.

Definition result_bind {E A B : Type} (m : result E A) (k : A → result E B) : result E B :=
  match m with Ok a => k a | Err e => Err e end.
Notation "x <-- m ; k" := (result_bind m (λ x, k))
  (at level 100, m at next level, right associativity) : go_scope.

Definition is_ok {E A : Type} (m : result E A) : bool :=
  match m with Ok _ => true | Err _ => false end.

(* ------------------------------------------------------------------ *)
(** ** Automation *)
(* ------------------------------------------------------------------ *)

(** Case analysis on the scrutinee of the innermost [match] or [if]. *)
Ltac break_match :=
  match goal with
  | |- context [match ?x with _ => _ end] =>
      lazymatch x with
      | context [match _ with _ => _ end] => fail
      | _ => destruct x eqn:?
      end
  | H : context [match ?x with _ => _ end] |- _ =>
      lazymatch x with
      | context [match _ with _ => _ end] => fail
      | _ => destruct x eqn:?
      end
  end.

(** Turn boolean tests of the code into propositions. *)
Ltac bool_simp :=
  repeat match goal with
  | H : _ && _ = true |- _ => apply andb_true_iff in H as [? ?]
  | H : _ || _ = false |- _ => apply orb_false_iff in H as [? ?]
  | H : negb _ = true |- _ => apply negb_true_iff in H
  | H : negb _ = false |- _ => apply negb_false_iff in H
  | H : String.eqb _ _ = true |- _ => apply String.eqb_eq in H
  | H : String.eqb _ _ = false |- _ => apply String.eqb_neq in H
  | H : (_ <? _)%nat = true |- _ => apply Nat.ltb_lt in H
  | H : (_ <? _)%nat = false |- _ => apply Nat.ltb_ge in H
  | H : (_ <=? _)%nat = true |- _ => apply Nat.leb_le in H
  | H : (_ <=? _)%nat = false |- _ => apply Nat.leb_gt in H
  | H : (_ =? _)%nat = true |- _ => apply Nat.eqb_eq in H
  | H : (_ =? _)%nat = false |- _ => apply Nat.eqb_neq in H
  | H : (_ <? _)%Z = true |- _ => apply Z.ltb_lt in H
  | H : (_ <? _)%Z = false |- _ => apply Z.ltb_ge in H
  | H : (_ <=? _)%Z = true |- _ => apply Z.leb_le in H
  | H : (_ <=? _)%Z = false |- _ => apply Z.leb_gt in H
  | H : (_ =? _)%Z = true |- _ => apply Z.eqb_eq in H
  | H : (_ =? _)%Z = false |- _ => apply Z.eqb_neq in H
  | H : bool_decide _ = true |- _ => apply bool_decide_eq_true_1 in H
  | H : bool_decide _ = false |- _ => apply bool_decide_eq_false_1 in H
  end.

(* ------------------------------------------------------------------ *)
(** ** Checks in sequence *)
(* ------------------------------------------------------------------ *)

(** Compare two conjunctions part by part. *)
Lemma and_iff_parts (A A' B B' : Prop) : (A ↔ A') → (B ↔ B') → (A ∧ B ↔ A' ∧ B').
Proof. tauto. Qed.

Lemma check_seq_None {E} (e1 e2 : option E) :
  (e1 ;;? e2) = None ↔ e1 = None ∧ e2 = None.
Proof. destruct e1; simpl; naive_solver. Qed.

Lemma check_seq_Some {E} (e1 e2 : option E) e :
  (e1 ;;? e2) = Some e ↔ e1 = Some e ∨ (e1 = None ∧ e2 = Some e).
Proof. destruct e1; simpl; naive_solver. Qed.

Lemma check_when_None {E} b (e : option E) :
  check_when b e = None ↔ (b = true → e = None).
Proof. destruct b; simpl; naive_solver. Qed.

Lemma check_when_Some {E} b (e : option E) x :
  check_when b e = Some x ↔ b = true ∧ e = Some x.
Proof. destruct b; simpl; naive_solver. Qed.

(** The first error of a list of checks: a Go loop that returns at the first
    non-nil error. *)
Section first_error.
Context {A E : Type} (f : A → option E).

Fixpoint first_error (l : list A) : option E :=
  match l with
  | [] => None
  | x :: l => f x ;;? first_error l
  end.
End first_error.

Lemma first_error_None {A E} (f : A → option E) l :
  first_error f l = None ↔ Forall (λ x, f x = None) l.
Proof.
  induction l as [|x l IH]; simpl; [by split|].
  by rewrite check_seq_None, IH, Forall_cons.
Qed.

Lemma first_error_Some {A E} (f : A → option E) l e :
  first_error f l = Some e ↔
  ∃ l1 x l2, l = l1 ++ x :: l2 ∧ Forall (λ y, f y = None) l1 ∧ f x = Some e.
Proof.
  induction l as [|x l IH]; simpl.
  - split; [done|]. intros (l1 & ? & ? & Heq & _). by destruct l1.
  - rewrite check_seq_Some, IH. split.
    + intros [Hx|(Hx & l1 & y & l2 & -> & Hl1 & Hy)].
      * exists [], x, l. auto.
      * exists (x :: l1), y, l2. repeat split; auto.
    + intros (l1 & y & l2 & Heq & Hl1 & Hy). destruct l1 as [|z l1]; simplify_eq/=.
      * by left.
      * right. apply Forall_cons in Hl1 as [? ?]. eauto 10.
Qed.

Lemma first_error_perm {A E} (f : A → option E) l1 l2 :
  l1 ≡ₚ l2 → first_error f l1 = None ↔ first_error f l2 = None.
Proof. intros Hp. rewrite !first_error_None. by rewrite Hp. Qed.

#[export] Hint Rewrite @check_seq_None @check_when_None @first_error_None : go_rw.

(* ------------------------------------------------------------------ *)
(** ** Quantifiers over lists, by recursion on the list *)
(* ------------------------------------------------------------------ *)

(** Specifications that recurse through the elements of a list need
    quantifiers the guard condition can see through. *)
Section quantifiers.
Context {A : Type} (P : A → Prop).
Definition all_of (l : list A) : Prop := foldr (λ x p, P x ∧ p) True l.
Definition some_of (l : list A) : Prop := foldr (λ x p, P x ∨ p) False l.
Definition none_of (l : list A) : Prop := foldr (λ x p, ¬ P x ∧ p) True l.
Fixpoint exactly_one (l : list A) : Prop :=
  match l with
  | [] => False
  | x :: l => (P x ∧ none_of l) ∨ (¬ P x ∧ exactly_one l)
  end.

Lemma all_of_Forall l : all_of l ↔ Forall P l.
Proof. induction l; simpl; [by split|]. by rewrite Forall_cons, IHl. Qed.
Lemma some_of_Exists l : some_of l ↔ Exists P l.
Proof. induction l; simpl; [by rewrite Exists_nil|]. by rewrite Exists_cons, IHl. Qed.
Lemma none_of_Forall l : none_of l ↔ Forall (λ x, ¬ P x) l.
Proof. induction l; simpl; [by split|]. by rewrite Forall_cons, IHl. Qed.
End quantifiers.

Lemma all_of_iff {A} (P Q : A → Prop) l :
  Forall (λ x, P x ↔ Q x) l → all_of P l ↔ all_of Q l.
Proof. induction 1; simpl; tauto. Qed.
Lemma some_of_iff {A} (P Q : A → Prop) l :
  Forall (λ x, P x ↔ Q x) l → some_of P l ↔ some_of Q l.
Proof. induction 1; simpl; tauto. Qed.
Lemma none_of_iff {A} (P Q : A → Prop) l :
  Forall (λ x, P x ↔ Q x) l → none_of P l ↔ none_of Q l.
Proof. induction 1; simpl; tauto. Qed.
Lemma exactly_one_iff {A} (P Q : A → Prop) l :
  Forall (λ x, P x ↔ Q x) l → exactly_one P l ↔ exactly_one Q l.
Proof. induction 1 as [|x l Hx Hl IH]; simpl; [done|]. rewrite (none_of_iff P Q) by done. tauto. Qed.

(* ------------------------------------------------------------------ *)
(** ** Byte strings and their lexicographic order *)
(* ------------------------------------------------------------------ *)

(** Go strings are byte sequences and [<] on them is lexicographic on bytes,
    which is [String.compare] on the Standard Library's strings of 8-bit
    characters. *)
Definition str_leb (s t : string) : bool := String.leb s t.
Definition str_ltb (s t : string) : bool := String.ltb s t.
Definition str_le (s t : string) : Prop := str_leb s t = true.

#[export] Instance str_le_dec s t : Decision (str_le s t).
Proof. unfold str_le. apply _. Defined.

Lemma str_leb_refl s : str_leb s s = true.
Proof. apply Is_true_true, (reflexivity (R:=String.le)). Qed.

Lemma str_leb_total s t : str_leb s t = true ∨ str_leb t s = true.
Proof. apply String.leb_total. Qed.

Lemma str_leb_antisym s t : str_leb s t = true → str_leb t s = true → s = t.
Proof. apply String.leb_antisym. Qed.

Lemma str_leb_trans s t u : str_leb s t = true → str_leb t u = true → str_leb s u = true.
Proof. rewrite <-!Is_true_true. apply (transitivity (R:=String.le)). Qed.

#[export] Instance str_le_preorder : PreOrder str_le.
Proof. split; [intros s; apply str_leb_refl | intros s t u; apply str_leb_trans]. Qed.
#[export] Instance str_le_antisymm : AntiSymm eq str_le.
Proof. intros s t; apply str_leb_antisym. Qed.
#[export] Instance str_le_total : Total str_le.
Proof. intros s t; apply str_leb_total. Qed.

(** [sort.Strings]: the sorted permutation is unique, so any correct sort is a
    faithful model. *)
Definition sort_strings (l : list string) : list string := merge_sort str_le l.

Lemma sort_strings_perm l : sort_strings l ≡ₚ l.
Proof. apply merge_sort_Permutation. Qed.

Lemma sort_strings_sorted l : StronglySorted str_le (sort_strings l).
Proof. apply StronglySorted_merge_sort; apply _. Qed.

Lemma sort_strings_unique l l' :
  StronglySorted str_le l' → l' ≡ₚ l → sort_strings l = l'.
Proof.
  intros Hs Hp. apply (StronglySorted_unique str_le); [apply sort_strings_sorted|done|].
  by rewrite sort_strings_perm, Hp.
Qed.

Lemma sort_strings_proper l1 l2 : l1 ≡ₚ l2 → sort_strings l1 = sort_strings l2.
Proof.
  intros Hp. apply sort_strings_unique; [apply sort_strings_sorted|].
  by rewrite sort_strings_perm, Hp.
Qed.

#[export] Instance sort_strings_Proper : Proper ((≡ₚ) ==> (=)) sort_strings.
Proof. intros l1 l2. apply sort_strings_proper. Qed.

(** In a sorted list an earlier element is related to every later one. *)
Lemma sorted_lookup {A} (R : A → A → Prop) l i j x y :
  StronglySorted R l → l !! i = Some x → l !! j = Some y → i < j → R x y.
Proof.
  intros Hs. revert i j. induction Hs as [|z l Hs IH Hall]; intros i j Hi Hj Hij; [done|].
  destruct j as [|j]; [lia|]. simpl in Hj. destruct i as [|i]; simplify_eq/=.
  - rewrite Forall_forall in Hall. apply Hall. by eapply list_elem_of_lookup_2.
  - eapply (IH i j); [done..|lia].
Qed.

(* ------------------------------------------------------------------ *)
(** ** Stable insertion sort *)
(* ------------------------------------------------------------------ *)

(** [sort.SliceStable] with [less j i := negb (leb i j)].  [sort.Slice] may
    reorder equal elements; where the code sorts the elements of a map, whose
    order is arbitrary, the stable sort of an arbitrary order has exactly the
    same set of results ([isort_onto]). *)
Section isort.
Context {A : Type} (leb : A → A → bool).

Fixpoint insert_sorted (x : A) (l : list A) : list A :=
  match l with
  | [] => [x]
  | y :: l' => if leb x y then x :: y :: l' else y :: insert_sorted x l'
  end.

Definition isort (l : list A) : list A := foldr insert_sorted [] l.

Lemma insert_sorted_perm x l : insert_sorted x l ≡ₚ x :: l.
Proof.
  induction l as [|y l IH]; simpl; [done|].
  destruct (leb x y); [done|]. rewrite IH. apply Permutation_swap.
Qed.

Lemma isort_perm l : isort l ≡ₚ l.
Proof. induction l as [|x l IH]; simpl; [done|]. by rewrite insert_sorted_perm, IH. Qed.

Lemma isort_length l : length (isort l) = length l.
Proof. by rewrite isort_perm. Qed.

Lemma elem_of_isort x l : x ∈ isort l ↔ x ∈ l.
Proof. by rewrite isort_perm. Qed.

Abbreviation sorted := (StronglySorted (λ x y, leb x y = true)).

Lemma isort_sorted_id l : sorted l → isort l = l.
Proof.
  induction 1 as [|x l Hs IH Hall]; [done|]. simpl. rewrite IH.
  destruct Hall as [|y l Hxy]; simpl; [done|]. by rewrite Hxy.
Qed.

(** Every sorted rearrangement is the stable sort of some rearrangement. *)
Lemma isort_onto l l' : l' ≡ₚ l → sorted l' → ∃ l0, l0 ≡ₚ l ∧ isort l0 = l'.
Proof. intros Hp Hs. exists l'. split; [done|]. by apply isort_sorted_id. Qed.

Context (leb_total : ∀ x y, leb x y = true ∨ leb y x = true).
Context (leb_trans : ∀ x y z, leb x y = true → leb y z = true → leb x z = true).

Lemma insert_sorted_sorted x l : sorted l → sorted (insert_sorted x l).
Proof using leb_total leb_trans.
  induction 1 as [|y l Hs IH Hall]; simpl; [by repeat constructor|].
  destruct (leb x y) eqn:Hxy.
  - constructor; [by constructor|]. constructor; [done|].
    eapply Forall_impl; [done|]. simpl. eauto.
  - constructor; [done|]. rewrite insert_sorted_perm. constructor; [|done].
    destruct (leb_total x y); congruence.
Qed.

Lemma isort_sorted l : sorted (isort l).
Proof using leb_total leb_trans.
  induction l; simpl; [constructor|]. by apply insert_sorted_sorted.
Qed.

(** Elements that compare equal keep their order. *)
Definition same_key (x y : A) : bool := leb x y && leb y x.

Lemma insert_sorted_filter x l k :
  sorted l →
  filter (λ y, same_key k y = true) (insert_sorted x l)
  = filter (λ y, same_key k y = true) (x :: l).
Proof using leb_total leb_trans.
  induction 1 as [|y l Hs IH Hall]; [done|]. simpl insert_sorted.
  destruct (leb x y) eqn:Hxy; [done|].
  assert (Hyx : leb y x = true) by (destruct (leb_total x y); congruence).
  rewrite filter_cons, IH. rewrite !filter_cons.
  unfold same_key in *.
  repeat case_decide; try done. exfalso. bool_simp.
  assert (leb x y = true) by eauto. congruence.
Qed.

Lemma isort_stable l k :
  filter (λ y, same_key k y = true) (isort l) = filter (λ y, same_key k y = true) l.
Proof using leb_total leb_trans.
  induction l as [|x l IH]; [done|]. simpl isort.
  rewrite insert_sorted_filter by apply isort_sorted.
  rewrite !filter_cons. by rewrite IH.
Qed.
End isort.

(* ------------------------------------------------------------------ *)
(** ** Go maps and their iteration order *)
(* ------------------------------------------------------------------ *)

(** A Go map with string keys is a [gmap string V].  [for k, v := range m]
    visits every entry once, in an order the language leaves unspecified: the
    class [MapRange] is any such order, and a theorem over it holds for every
    order the run time may choose. *)
Class MapRange := {
  range : ∀ {V : Type}, gmap string V → list (string * V);
  range_perm : ∀ {V : Type} (m : gmap string V), range m ≡ₚ map_to_list m
}.

(** Two concrete orders, for evaluation. *)
Definition range_fwd : MapRange :=
  {| range V m := map_to_list m; range_perm V m := Permutation_refl _ |}.

Lemma range_rev_perm {V} (m : gmap string V) : reverse (map_to_list m) ≡ₚ map_to_list m.
Proof. apply reverse_Permutation. Qed.
Definition range_rev : MapRange :=
  {| range V m := reverse (map_to_list m); range_perm V m := range_rev_perm m |}.

(** An order that visits one given key first. *)
Lemma range_first_perm {V} (k : string) (m : gmap string V) :
  filter (λ kv, kv.1 = k) (map_to_list m) ++ filter (λ kv, kv.1 ≠ k) (map_to_list m) ≡ₚ map_to_list m.
Proof.
  induction (map_to_list m) as [|[k' v] l IH]; [done|].
  rewrite !filter_cons. destruct (decide ((k', v).1 = k)) as [Hk|Hk], (decide ((k', v).1 ≠ k)); try done.
  - simpl. by rewrite IH.
  - rewrite <-Permutation_middle. by rewrite IH.
Qed.
Definition range_first (k : string) : MapRange :=
  {| range V m := filter (λ kv, kv.1 = k) (map_to_list m) ++ filter (λ kv, kv.1 ≠ k) (map_to_list m);
     range_perm V m := range_first_perm k m |}.

Lemma range_first_head {V} (k : string) (m : gmap string V) v :
  m !! k = Some v → ∃ rest, @range (range_first k) V m = (k, v) :: rest.
Proof.
  intros Hk. simpl.
  assert (Hf : filter (λ kv, kv.1 = k) (map_to_list m) = [(k, v)]); [|rewrite Hf; by eexists].
  apply elem_of_map_to_list in Hk. pose proof (NoDup_fst_map_to_list m) as Hnd.
  induction (map_to_list m) as [|[k' v'] l IH]; [by apply elem_of_nil in Hk|].
  apply NoDup_cons in Hnd as [Hk' Hnd]. rewrite filter_cons. cbn [fst].
  destruct (decide (k' = k)) as [->|Hne].
  - apply elem_of_cons in Hk as [[= ->]|Hin].
    + f_equal. clear -Hk'. induction l as [|[k2 v2] l IH]; [done|].
      apply not_elem_of_cons in Hk' as [Hne Hk']. rewrite filter_cons, decide_False by auto. by apply IH.
    + exfalso. apply Hk'. apply list_elem_of_fmap. by exists (k, v).
  - apply IH; [|done]. apply elem_of_cons in Hk as [[= <- <-]|]; done.
Qed.

Section range.
Context `{MapRange}.

Definition range_keys {V} (m : gmap string V) : list string := (range m).*1.
Definition range_values {V} (m : gmap string V) : list V := (range m).*2.

Lemma elem_of_range {V} (m : gmap string V) k v : (k, v) ∈ range m ↔ m !! k = Some v.
Proof. rewrite range_perm. apply elem_of_map_to_list. Qed.

Lemma range_NoDup_keys {V} (m : gmap string V) : NoDup (range_keys m).
Proof. unfold range_keys. rewrite range_perm. apply NoDup_fst_map_to_list. Qed.

Lemma elem_of_range_keys {V} (m : gmap string V) k : k ∈ range_keys m ↔ is_Some (m !! k).
Proof.
  unfold range_keys. rewrite list_elem_of_fmap. split.
  - intros ([k' v] & -> & Hin). apply elem_of_range in Hin. by eexists.
  - intros [v Hv]. exists (k, v). by rewrite elem_of_range.
Qed.

Lemma elem_of_range_values {V} (m : gmap string V) v :
  v ∈ range_values m ↔ ∃ k, m !! k = Some v.
Proof.
  unfold range_values. rewrite list_elem_of_fmap. split.
  - intros ([k v'] & -> & Hin). apply elem_of_range in Hin. eauto.
  - intros [k Hv]. exists (k, v). by rewrite elem_of_range.
Qed.

Lemma range_length {V} (m : gmap string V) : length (range m) = size m.
Proof. by rewrite range_perm, length_map_to_list. Qed.

Lemma range_empty {V} : range (∅ : gmap string V) = [].
Proof. apply Permutation_nil_r. by rewrite range_perm, map_to_list_empty. Qed.

Lemma range_list_to_map {V} (m : gmap string V) : list_to_map (range m) = m.
Proof.
  rewrite <-(list_to_map_to_list m) at 2. apply list_to_map_proper; [|apply range_perm].
  apply range_NoDup_keys.
Qed.
End range.
#[export] Hint Resolve range_NoDup_keys : go.

(** The loop that copies a map entry by entry copies it, in any order. *)
Lemma copy_entries {V} (l : list (string * V)) (m : gmap string V) k :
  NoDup l.*1 →
  foldl (λ m kv, <[kv.1 := kv.2]> m) m l !! k
  = match list_to_map (M:=gmap string V) l !! k with Some v => Some v | None => m !! k end.
Proof.
  revert m. induction l as [|[k' v'] l IH]; intros m; csimpl; [by rewrite lookup_empty|].
  intros [Hk Hnd]%NoDup_cons. rewrite IH by done. destruct (decide (k = k')) as [->|Hne].
  - rewrite !lookup_insert_eq. apply not_elem_of_list_to_map in Hk. by rewrite Hk.
  - by rewrite !lookup_insert_ne by done.
Qed.

Lemma copy_map `{MapRange} {V} (m : gmap string V) :
  foldl (λ m kv, <[kv.1 := kv.2]> m) ∅ (range m) = m.
Proof.
  apply map_eq. intros k. rewrite copy_entries by apply range_NoDup_keys.
  rewrite range_list_to_map, lookup_empty. by destruct (m !! k).
Qed.

#[export] Hint Rewrite @elem_of_range @elem_of_range_keys @elem_of_range_values
  @range_length @elem_of_isort : go_rw.

(* ------------------------------------------------------------------ *)
(** ** Machine integers *)
(* ------------------------------------------------------------------ *)

Section int64.
Local Open Scope Z_scope.

Definition min_int64 : Z := -2^63.
Definition max_int64 : Z := 2^63 - 1.
Definition in_int64 (z : Z) : Prop := min_int64 ≤ z ≤ max_int64.

(** Two's-complement wrap-around of Go's [int64] (and of [int] on the 64-bit
    platforms the program targets). *)
Definition wrap64 (z : Z) : Z := (z + 2^63) mod 2^64 - 2^63.

Lemma wrap64_range z : in_int64 (wrap64 z).
Proof.
  unfold in_int64, wrap64, min_int64, max_int64.
  pose proof (Z.mod_pos_bound (z + 2^63) (2^64)). lia.
Qed.

Lemma wrap64_id z : in_int64 z → wrap64 z = z.
Proof.
  unfold in_int64, wrap64, min_int64, max_int64. intros. rewrite Z.mod_small; lia.
Qed.

Lemma wrap64_cong z : (wrap64 z) mod 2^64 = z mod 2^64.
Proof.
  unfold wrap64. rewrite Zminus_mod_idemp_l. f_equal. lia.
Qed.

Lemma wrap64_add_l a b : wrap64 (wrap64 a + b) = wrap64 (a + b).
Proof.
  unfold wrap64 at 1 3. f_equal.
  rewrite <-(Z.add_assoc (wrap64 a)), <-(Zplus_mod_idemp_l (wrap64 a)), wrap64_cong.
  rewrite Zplus_mod_idemp_l. f_equal. lia.
Qed.

Lemma wrap64_mul_l a b : wrap64 (wrap64 a * b) = wrap64 (a * b).
Proof.
  unfold wrap64 at 1 3. f_equal.
  rewrite <-(Zplus_mod_idemp_l (wrap64 a * b)), <-(Zmult_mod_idemp_l (wrap64 a)), wrap64_cong.
  by rewrite Zmult_mod_idemp_l, Zplus_mod_idemp_l.
Qed.

Lemma wrap64_opp a : wrap64 (- wrap64 a) = wrap64 (- a).
Proof.
  replace (- wrap64 a) with (wrap64 a * -1) by lia. rewrite wrap64_mul_l. f_equal. lia.
Qed.
End int64.
#[export] Hint Resolve wrap64_range : go.
#[export] Hint Rewrite wrap64_add_l wrap64_mul_l wrap64_opp : go_rw.
