(* ===== verification/GoStrings.v ===== *)
(** The functions of Go's [strings] package the program uses, on byte strings:
    prefixes and suffixes, search, splitting and joining, replacement and
    trimming, with the lemmas that characterise them. *)
From S2P Require Export Prelude.
From Stdlib Require Import Ascii.

Abbreviation slen := String.length.
Abbreviation sempty := EmptyString.

(** The double-quote byte, which string literals avoid. *)
Definition dquote : string := String "034" sempty.
(** The line feed byte. *)
Definition nl : string := String "010" sempty.

(* ------------------------------------------------------------------ *)
(** ** Slices *)
(* ------------------------------------------------------------------ *)

(** [s[n:]] *)
Fixpoint sdrop (n : nat) (s : string) : string :=
  match n, s with
  | 0, _ => s
  | S n, String _ s => sdrop n s
  | S _, sempty => sempty
  end.

(** [s[:n]] *)
Fixpoint stake (n : nat) (s : string) : string :=
  match n, s with
  | 0, _ => sempty
  | S n, String c s => String c (stake n s)
  | S _, sempty => sempty
  end.

Lemma sapp_assoc (a b c : string) : (a +:+ b) +:+ c = a +:+ (b +:+ c).
Proof. induction a; simpl; congruence. Qed.
Lemma sapp_nil_r (a : string) : a +:+ sempty = a.
Proof. induction a; simpl; congruence. Qed.
Lemma slen_app (a b : string) : slen (a +:+ b) = slen a + slen b.
Proof. induction a; simpl; lia. Qed.
Lemma sapp_inj_l (a b c : string) : a +:+ b = a +:+ c → b = c.
Proof. induction a; simpl; [done|]. intros; simplify_eq; auto. Qed.
Lemma stake_sdrop n s : stake n s +:+ sdrop n s = s.
Proof. revert s. induction n as [|n IH]; intros [|c s]; simpl; try done. by rewrite IH. Qed.
Lemma sdrop_app (a b : string) : sdrop (slen a) (a +:+ b) = b.
Proof. induction a; simpl; done. Qed.
Lemma stake_app (a b : string) : stake (slen a) (a +:+ b) = a.
Proof. induction a; simpl; [by destruct b|congruence]. Qed.
Lemma sapp_inj_r (a b c : string) : a +:+ c = b +:+ c → a = b.
Proof.
  intros Heq. assert (slen a = slen b) by (apply (f_equal slen) in Heq; rewrite !slen_app in Heq; lia).
  apply (f_equal (stake (slen a))) in Heq. rewrite stake_app in Heq. rewrite Heq. by rewrite H, stake_app.
Qed.
Lemma stake_all s : stake (slen s) s = s.
Proof. induction s; simpl; congruence. Qed.
Lemma sdrop_all s : sdrop (slen s) s = sempty.
Proof. by induction s. Qed.
Lemma slen_stake n s : slen (stake n s) = min n (slen s).
Proof. revert s. induction n; intros [|c s]; simpl; auto. Qed.
Lemma slen_sdrop n s : slen (sdrop n s) = slen s - n.
Proof. revert s. induction n; intros [|c s]; simpl; auto. Qed.
Lemma slen_zero s : slen s = 0 → s = sempty.
Proof. by destruct s. Qed.
#[export] Hint Rewrite slen_app sapp_assoc sapp_nil_r stake_sdrop sdrop_app stake_app : go_rw.

(** All bytes of a string. *)
Fixpoint sall (P : ascii → bool) (s : string) : bool :=
  match s with sempty => true | String c s => P c && sall P s end.

Lemma sall_app P a b : sall P (a +:+ b) = sall P a && sall P b.
Proof. induction a; simpl; [done|]. rewrite IHa. by rewrite andb_assoc. Qed.

Lemma sall_impl (P Q : ascii → bool) s :
  (∀ c, P c = true → Q c = true) → sall P s = true → sall Q s = true.
Proof. intros HPQ. induction s; simpl; [done|]. intros; bool_simp. rewrite HPQ, IHs; auto. Qed.

(** [strings.IndexByte(s, c) >= 0] *)
Definition has_byte (c : ascii) (s : string) : bool := negb (sall (λ d, negb (Ascii.eqb c d)) s).

(* ------------------------------------------------------------------ *)
(** ** Prefixes and suffixes *)
(* ------------------------------------------------------------------ *)

(** [strings.HasPrefix(s, p)] *)
Definition has_prefix (s p : string) : bool := String.prefix p s.

#[global] Arguments has_prefix : simpl never.

(** [strings.HasSuffix(s, p)]:
    [len(s) >= len(p) && s[len(s)-len(p):] == p]. *)
Definition has_suffix (s p : string) : bool :=
  (slen p <=? slen s) && String.eqb (sdrop (slen s - slen p) s) p.

Definition trim_prefix (s p : string) : string :=
  if has_prefix s p then sdrop (slen p) s else s.
Definition trim_suffix (s p : string) : string :=
  if has_suffix s p then stake (slen s - slen p) s else s.

Lemma has_prefix_spec s p : has_prefix s p = true ↔ ∃ t, s = p +:+ t.
Proof.
  unfold has_prefix. revert s. induction p as [|c p IH]; intros s; simpl.
  { split; [by eexists|by destruct s]. }
  destruct s as [|d s]; simpl.
  { split; [done|by intros []]. }
  destruct (ascii_dec c d) as [->|Hne].
  - rewrite IH. split; intros [t Ht]; exists t; congruence.
  - split; [done|]. intros [t Ht]. congruence.
Qed.

Lemma has_prefix_app p t : has_prefix (p +:+ t) p = true.
Proof. apply has_prefix_spec. by eexists. Qed.

Lemma has_suffix_spec s p : has_suffix s p = true ↔ ∃ t, s = t +:+ p.
Proof.
  unfold has_suffix. rewrite andb_true_iff, Nat.leb_le, String.eqb_eq. split.
  - intros [Hle Heq]. exists (stake (slen s - slen p) s). rewrite <-Heq at 2.
    by rewrite stake_sdrop.
  - intros [t ->]. rewrite slen_app. split; [lia|].
    replace (slen t + slen p - slen p) with (slen t) by lia. apply sdrop_app.
Qed.

Lemma trim_suffix_app t p : trim_suffix (t +:+ p) p = t.
Proof.
  unfold trim_suffix. replace (has_suffix (t +:+ p) p) with true
    by (symmetry; apply has_suffix_spec; by eexists).
  rewrite slen_app. replace (slen t + slen p - slen p) with (slen t) by lia. apply stake_app.
Qed.

Lemma trim_prefix_app p t : trim_prefix (p +:+ t) p = t.
Proof. unfold trim_prefix. by rewrite has_prefix_app, sdrop_app. Qed.

(* ------------------------------------------------------------------ *)
(** ** Searching *)
(* ------------------------------------------------------------------ *)

(** [strings.Index(s, sub)], with [None] for [-1]. *)
Fixpoint index_of (sub s : string) : option nat :=
  if has_prefix s sub then Some 0
  else match s with
       | sempty => None
       | String _ s' => S <$> index_of sub s'
       end.

(** [strings.LastIndex(s, sub)] *)
Fixpoint last_index_of (sub s : string) : option nat :=
  match s with
  | sempty => if has_prefix s sub then Some 0 else None
  | String _ s' =>
      match last_index_of sub s' with
      | Some i => Some (S i)
      | None => if has_prefix s sub then Some 0 else None
      end
  end.

(** [strings.Contains(s, sub)] *)
Definition contains (s sub : string) : bool := bool_decide (is_Some (index_of sub s)).

Lemma index_of_Some sub s i :
  index_of sub s = Some i → ∃ a b, s = a +:+ sub +:+ b ∧ slen a = i.
Proof.
  revert i. induction s as [|c s IH]; intros i; simpl.
  - destruct (has_prefix sempty sub) eqn:Hp; [|done]. intros; simplify_eq.
    apply has_prefix_spec in Hp as [t ->]. by exists sempty, t.
  - destruct (has_prefix (String c s) sub) eqn:Hp.
    + intros; simplify_eq. apply has_prefix_spec in Hp as [t Ht]. by exists sempty, t.
    + destruct (index_of sub s) as [j|] eqn:Hj; intros; simplify_eq/=.
      destruct (IH j eq_refl) as (a & b & -> & <-). by exists (String c a), b.
Qed.

Lemma index_of_app_is_Some a sub b : is_Some (index_of sub (a +:+ sub +:+ b)).
Proof.
  induction a as [|c a IH]; simpl.
  - pose proof (has_prefix_app sub b) as Hp. destruct (sub +:+ b); simpl; rewrite Hp; eauto.
  - destruct (has_prefix _ _); [eauto|]. destruct IH as [i ->]. eauto.
Qed.

Lemma contains_spec s sub : contains s sub = true ↔ ∃ a b, s = a +:+ sub +:+ b.
Proof.
  unfold contains. rewrite bool_decide_eq_true. split.
  - intros [i Hi]. apply index_of_Some in Hi as (a & b & ? & _). eauto.
  - intros (a & b & ->). apply index_of_app_is_Some.
Qed.

Lemma contains_false_app s sub a b : contains s sub = false → s ≠ a +:+ sub +:+ b.
Proof.
  intros Hc ->. assert (contains (a +:+ sub +:+ b) sub = true) by (apply contains_spec; eauto).
  congruence.
Qed.

Lemma last_index_of_Some sub s i :
  last_index_of sub s = Some i → ∃ a b, s = a +:+ sub +:+ b ∧ slen a = i.
Proof.
  revert i. induction s as [|c s IH]; intros i; simpl.
  - destruct (has_prefix sempty sub) eqn:Hp; [|done]. intros; simplify_eq.
    apply has_prefix_spec in Hp as [t ->]. by exists sempty, t.
  - destruct (last_index_of sub s) as [j|] eqn:Hj.
    + intros; simplify_eq. destruct (IH j eq_refl) as (a & b & -> & <-).
      by exists (String c a), b.
    + destruct (has_prefix (String c s) sub) eqn:Hp; [|done]. intros; simplify_eq.
      apply has_prefix_spec in Hp as [t Ht]. by exists sempty, t.
Qed.

Lemma last_index_of_lt sub s i : last_index_of sub s = Some i → i + slen sub ≤ slen s.
Proof. intros (a & b & -> & <-)%last_index_of_Some. rewrite !slen_app. lia. Qed.

(* ------------------------------------------------------------------ *)
(** ** Splitting and joining *)
(* ------------------------------------------------------------------ *)

(** [strings.Split(s, c)] for a one-byte separator. *)
Fixpoint split_on (c : ascii) (s : string) : list string :=
  match s with
  | sempty => [sempty]
  | String d s' =>
      if Ascii.eqb c d then sempty :: split_on c s'
      else match split_on c s' with
           | w :: ws => String d w :: ws
           | [] => [String d sempty]
           end
  end.

(** [strings.Join(l, sep)] *)
Fixpoint join (sep : string) (l : list string) : string :=
  match l with
  | [] => sempty
  | [x] => x
  | x :: l' => x +:+ sep +:+ join sep l'
  end.

#[global] Arguments join _ !_ / : simpl nomatch.

Fixpoint concat_str (l : list string) : string :=
  match l with [] => sempty | x :: l => x +:+ concat_str l end.

Lemma concat_str_app a b : concat_str (a ++ b) = concat_str a +:+ concat_str b.
Proof. induction a as [|x a IH]; simpl; [done|]. by rewrite IH, sapp_assoc. Qed.

Lemma split_on_nonempty c s : split_on c s ≠ [].
Proof. destruct s; simpl; [done|]. destruct (Ascii.eqb _ _); [done|]. by destruct (split_on _ _). Qed.

Lemma join_cons sep x l : l ≠ [] → join sep (x :: l) = x +:+ sep +:+ join sep l.
Proof. by destruct l. Qed.

Lemma join_split c s : join (String c sempty) (split_on c s) = s.
Proof.
  induction s as [|d s IH]; [done|]. simpl split_on. destruct (Ascii.eqb_spec c d) as [->|Hne].
  - rewrite join_cons by apply split_on_nonempty. simpl. by rewrite IH.
  - destruct (split_on c s) as [|w ws] eqn:E; [by eapply split_on_nonempty in E|].
    rewrite <-IH. destruct ws as [|w' ws]; [done|].
    rewrite !join_cons by done. done.
Qed.

Lemma has_byte_cons c d s : has_byte c (String d s) = Ascii.eqb c d || has_byte c s.
Proof. unfold has_byte. simpl. by rewrite negb_andb, negb_involutive. Qed.

Lemma has_byte_app c a b : has_byte c (a +:+ b) = has_byte c a || has_byte c b.
Proof. unfold has_byte. by rewrite sall_app, negb_andb. Qed.

Lemma split_on_no_byte c s : has_byte c s = false → split_on c s = [s].
Proof.
  induction s as [|d s IH]; [done|]. rewrite has_byte_cons. intros; bool_simp. simpl.
  destruct (Ascii.eqb c d); [done|]. by rewrite IH.
Qed.

Lemma split_on_app c a b :
  has_byte c a = false → split_on c (a +:+ String c b) = a :: split_on c b.
Proof.
  induction a as [|d a IH]; simpl.
  - by rewrite Ascii.eqb_refl.
  - rewrite has_byte_cons. intros; bool_simp. rewrite IH by done.
    by destruct (Ascii.eqb c d).
Qed.

Lemma split_join c l :
  l ≠ [] → Forall (λ w, has_byte c w = false) l → split_on c (join (String c sempty) l) = l.
Proof.
  intros Hne Hall. induction Hall as [|w l Hw Hall IH]; [done|].
  destruct l as [|w' l]; [by apply split_on_no_byte|].
  rewrite join_cons by done. simpl. rewrite split_on_app by done. by rewrite IH.
Qed.

Lemma split_on_pieces c s : Forall (λ w, has_byte c w = false) (split_on c s).
Proof.
  induction s as [|d s IH]; simpl; [by repeat constructor|].
  destruct (Ascii.eqb c d) eqn:E; [by constructor|].
  destruct (split_on c s); inversion_clear IH; repeat constructor; try done.
  - by rewrite has_byte_cons, E.
  - rewrite has_byte_cons, E. done.
Qed.

(** The last occurrence of a byte splits the string where the rest has none. *)
Lemma last_index_of_byte c s :
  match last_index_of (String c sempty) s with
  | Some i => s = stake i s +:+ String c (sdrop (i + 1) s) ∧ has_byte c (sdrop (i + 1) s) = false
  | None => has_byte c s = false
  end.
Proof.
  induction s as [|d s IH]; [done|]. cbn [last_index_of].
  destruct (last_index_of (String c sempty) s) as [i|]; simpl.
  - destruct IH as [IH1 IH2]. split; [by rewrite <-IH1|done].
  - replace (has_prefix (String d s) (String c sempty)) with (Ascii.eqb c d).
    + destruct (Ascii.eqb_spec c d) as [->|Hne]; [done|]. rewrite has_byte_cons, IH.
      apply Ascii.eqb_neq in Hne. by rewrite Hne.
    + unfold has_prefix. simpl. destruct (ascii_dec c d) as [->|Hne].
      * rewrite Ascii.eqb_refl. by destruct s.
      * by apply Ascii.eqb_neq.
Qed.

Lemma app_byte_inv c p f a b :
  p +:+ String c f = a +:+ String c b → has_byte c b = false →
  (p = a ∧ f = b) ∨ ∃ f', a = p +:+ String c f'.
Proof.
  revert a. induction p as [|d p IH]; intros [|e a]; simpl; intros Heq Hb; simplify_eq.
  - by left.
  - right. by exists a.
  - exfalso. rewrite has_byte_app, has_byte_cons, Ascii.eqb_refl in Hb.
    by rewrite orb_true_r in Hb.
  - destruct (IH a) as [[-> ->]|[f' ->]]; [done|done|by left|right; by exists f'].
Qed.

(* ------------------------------------------------------------------ *)
(** ** Replacement and counting *)
(* ------------------------------------------------------------------ *)

(** [strings.ReplaceAll(s, old, new)] for a non-empty [old]: [skip] bytes of a
    match already replaced are still to be passed over. *)
Fixpoint replace_go (old new : string) (skip : nat) (s : string) : string :=
  match s with
  | sempty => sempty
  | String c s' =>
      match skip with
      | S k => replace_go old new k s'
      | 0 => if has_prefix s old then new +:+ replace_go old new (slen old - 1) s'
             else String c (replace_go old new 0 s')
      end
  end.
Definition replace_all (s old new : string) : string := replace_go old new 0 s.

(** Replacing a single byte is a byte-wise substitution. *)
Fixpoint sflat_map (f : ascii → string) (s : string) : string :=
  match s with sempty => sempty | String c s' => f c +:+ sflat_map f s' end.

Lemma has_prefix_byte c d s : has_prefix (String d s) (String c sempty) = Ascii.eqb c d.
Proof.
  unfold has_prefix. simpl. destruct (ascii_dec c d) as [->|Hne].
  - rewrite Ascii.eqb_refl. by destruct s.
  - symmetry. by apply Ascii.eqb_neq.
Qed.

Lemma replace_all_byte s c new :
  replace_all s (String c sempty) new
  = sflat_map (λ d, if Ascii.eqb c d then new else String d sempty) s.
Proof.
  unfold replace_all. induction s as [|d s IH]; [done|]. simpl.
  rewrite has_prefix_byte, IH. by destruct (Ascii.eqb c d).
Qed.

Lemma index_of_byte c a b : has_byte c a = false → index_of (String c "") (a +:+ String c b) = Some (slen a).
Proof.
  induction a as [|d a IH]; cbn [String.append index_of slen].
  - intros _. by rewrite has_prefix_byte, Ascii.eqb_refl.
  - rewrite has_byte_cons. intros [Hd Ha]%orb_false_iff. by rewrite has_prefix_byte, Hd, IH.
Qed.

Lemma last_index_no_byte c s : has_byte c s = false → last_index_of (String c "") s = None.
Proof.
  intros Hs. pose proof (last_index_of_byte c s) as Hl.
  destruct (last_index_of (String c "") s) as [i|]; [|done]. destruct Hl as [Heq _].
  rewrite Heq, has_byte_app, has_byte_cons, Ascii.eqb_refl in Hs. by bool_simp.
Qed.

Lemma last_index_of_app c a b :
  has_byte c b = false → last_index_of (String c "") (a +:+ String c b) = Some (slen a).
Proof.
  intros Hb. induction a as [|d a IH]; cbn [String.append last_index_of slen]; [|by rewrite IH].
  rewrite last_index_no_byte by done. by rewrite has_prefix_byte, Ascii.eqb_refl.
Qed.

Lemma sflat_map_app f a b : sflat_map f (a +:+ b) = sflat_map f a +:+ sflat_map f b.
Proof. induction a; simpl; [done|]. by rewrite IHa, sapp_assoc. Qed.

Lemma sflat_map_comp f g s : sflat_map g (sflat_map f s) = sflat_map (λ c, sflat_map g (f c)) s.
Proof. induction s; simpl; [done|]. by rewrite sflat_map_app, IHs. Qed.

Lemma sall_sflat_map P f s : (∀ c, sall P (f c) = true) → sall P (sflat_map f s) = true.
Proof. intros Hf. induction s; simpl; [done|]. by rewrite sall_app, Hf, IHs. Qed.

(* ------------------------------------------------------------------ *)
(** ** Trimming *)
(* ------------------------------------------------------------------ *)

(** The ASCII characters [unicode.IsSpace] accepts. *)
Definition ascii_space (c : ascii) : bool :=
  let n := nat_of_ascii c in ((9 <=? n) && (n <=? 13)) || (n =? 32).

Definition bytes (l : list nat) : string := foldr (λ n s, String (ascii_of_nat n) s) sempty l.

(** The UTF-8 encodings of the other characters [unicode.IsSpace] accepts:
    U+0085, U+00A0, U+1680, U+2000 to U+200A, U+2028, U+2029, U+202F, U+205F
    and U+3000. *)
Definition wide_spaces : list string :=
  bytes <$> [[194; 133]; [194; 160]; [225; 154; 128];
             [226; 128; 128]; [226; 128; 129]; [226; 128; 130]; [226; 128; 131];
             [226; 128; 132]; [226; 128; 133]; [226; 128; 134]; [226; 128; 135];
             [226; 128; 136]; [226; 128; 137]; [226; 128; 138]; [226; 128; 168];
             [226; 128; 169]; [226; 128; 175]; [226; 129; 159]; [227; 128; 128]]%nat.

(** Length of the white-space character [s] starts with, 0 if there is none. *)
Definition space_len (wide : list string) (s : string) : nat :=
  match s with
  | sempty => 0
  | String c _ =>
      if ascii_space c then 1
      else match list_find (λ w, has_prefix s w = true) wide with
           | Some (_, w) => slen w
           | None => 0
           end
  end.

#[global] Arguments space_len : simpl never.

Fixpoint trim_left_go (wide : list string) (skip : nat) (s : string) : string :=
  match s with
  | sempty => sempty
  | String c s' =>
      match skip with
      | S k => trim_left_go wide k s'
      | 0 => match space_len wide s with
             | 0 => s
             | S k => trim_left_go wide k s'
             end
      end
  end.

Definition trim_left_space (s : string) : string := trim_left_go wide_spaces 0 s.
Definition trim_right_space (s : string) : string :=
  String.rev (trim_left_go (String.rev <$> wide_spaces) 0 (String.rev s)).

(** [strings.TrimSpace] *)
Definition trim_space (s : string) : string := trim_right_space (trim_left_space s).

(** [strings.ToLower] on ASCII letters.  The letters the program looks for in
    lowered text are not the lower case of any character outside ASCII. *)
Definition ascii_lower (c : ascii) : ascii :=
  let n := nat_of_ascii c in
  if (65 <=? n) && (n <=? 90) then ascii_of_nat (n + 32) else c.
Fixpoint lower (s : string) : string :=
  match s with String c s => String (ascii_lower c) (lower s) | sempty => sempty end.

(** [strings.TrimRight(s, c)] for a one-byte cutset. *)
Fixpoint trim_right_byte (c : ascii) (s : string) : string :=
  match s with
  | sempty => sempty
  | String d s' =>
      match trim_right_byte c s' with
      | sempty => if Ascii.eqb c d then sempty else String d sempty
      | t => String d t
      end
  end.

Lemma trim_left_go_skip wide k s : trim_left_go wide k s = trim_left_go wide 0 (sdrop k s).
Proof. revert s. induction k as [|k IH]; intros [|c s]; try done. apply IH. Qed.

(** Nothing is left to trim on the left. *)
Lemma trim_left_go_done wide s k : space_len wide (trim_left_go wide k s) = 0.
Proof.
  revert k. induction s as [|c s IH]; intros [|k]; try done; [|apply IH].
  simpl trim_left_go. destruct (space_len wide (String c s)) eqn:E; [done|apply IH].
Qed.

Lemma trim_left_go_id wide s : space_len wide s = 0 → trim_left_go wide 0 s = s.
Proof. destruct s as [|c s]; [done|]. intros H. cbn [trim_left_go]. by rewrite H. Qed.

Lemma trim_right_byte_not_suffix c s d t :
  trim_right_byte c s = t +:+ String d sempty → c ≠ d.
Proof.
  revert t. induction s as [|e s IH]; intros t; simpl; [by destruct t|].
  destruct (trim_right_byte c s) as [|f r] eqn:E.
  - destruct (Ascii.eqb_spec c e) as [->|Hne]; destruct t as [|x [|y t]]; simpl;
      intros; simplify_eq; done.
  - destruct t as [|x t]; simpl; intros; simplify_eq. by eapply IH.
Qed.

(* ------------------------------------------------------------------ *)
(** ** Trimming text around ASCII *)
(* ------------------------------------------------------------------ *)

Definition ascii_byte (c : ascii) : bool := nat_of_ascii c <? 128.

Lemma has_prefix_cons d c s p : has_prefix (String d s) (String c p) = Ascii.eqb c d && has_prefix s p.
Proof.
  unfold has_prefix. simpl. destruct (ascii_dec c d) as [->|Hne]; [by rewrite Ascii.eqb_refl|].
  by apply Ascii.eqb_neq in Hne as ->.
Qed.

(** A sequence of bytes above ASCII does not reach into ASCII text. *)
Lemma has_prefix_high s d t p :
  ascii_byte d = true → sall (λ c, negb (ascii_byte c)) p = true →
  has_prefix (s +:+ String d t) p = has_prefix s p.
Proof.
  intros Hd. revert p. induction s as [|e s IH]; intros [|c p]; simpl; intros Hp; try done.
  - bool_simp. rewrite has_prefix_cons. destruct (Ascii.eqb_spec c d) as [->|]; [congruence|done].
  - bool_simp. by rewrite !has_prefix_cons, IH.
Qed.

Lemma rev_app_acc (a b c : string) : String.rev_app (a +:+ b) c = String.rev_app b (String.rev_app a c).
Proof. revert c. induction a as [|d a IH]; intros c; [done|]. apply IH. Qed.

Lemma rev_app_rev (a c : string) : String.rev_app a c = String.rev a +:+ c.
Proof.
  unfold String.rev. revert c. induction a as [|d a IH]; intros c; [done|]. simpl.
  rewrite IH, (IH (String d "")), sapp_assoc. done.
Qed.

Lemma srev_app (a b : string) : String.rev (a +:+ b) = String.rev b +:+ String.rev a.
Proof. unfold String.rev at 1. by rewrite rev_app_acc, rev_app_rev. Qed.

Lemma srev_involutive (a : string) : String.rev (String.rev a) = a.
Proof.
  induction a as [|c a IH]; [done|]. change (String c a) with (String c "" +:+ a).
  by rewrite srev_app, srev_app, IH.
Qed.

(** The white-space characters above ASCII, in either direction. *)
Definition high_spaces (wide : list string) : Prop :=
  Forall (λ w, sall (λ c, negb (ascii_byte c)) w = true ∧ w ≠ "") wide.
Lemma wide_spaces_high : high_spaces wide_spaces.
Proof. unfold high_spaces, wide_spaces. repeat constructor; done. Qed.
Lemma rev_wide_spaces_high : high_spaces (String.rev <$> wide_spaces).
Proof. unfold high_spaces, wide_spaces. repeat constructor; done. Qed.
#[export] Hint Resolve wide_spaces_high rev_wide_spaces_high : go.

Lemma space_len_app wide s d t :
  high_spaces wide → ascii_byte d = true → s ≠ "" → space_len wide (s +:+ String d t) = space_len wide s.
Proof.
  intros Hw Hd Hs. destruct s as [|c s]; [done|]. unfold space_len. simpl.
  destruct (ascii_space c); [done|].
  change (String c (s +:+ String d t)) with (String c s +:+ String d t).
  replace (list_find (λ w, has_prefix (String c s +:+ String d t) w = true) wide)
    with (list_find (λ w, has_prefix (String c s) w = true) wide); [done|].
  generalize (String c s) as x. intros x. unfold high_spaces in Hw.
  induction Hw as [|w wide [Hh _] _ IH]; [done|]. simpl.
  rewrite (has_prefix_high x) by done. case_decide; [done|]. by rewrite IH.
Qed.

Lemma space_len_bound wide s : high_spaces wide → space_len wide s ≤ slen s.
Proof.
  intros Hw. destruct s as [|c s]; [done|]. unfold space_len. destruct (ascii_space c); [simpl; lia|].
  destruct (list_find _ wide) as [[i w]|] eqn:E; [|lia]. apply list_find_Some in E as (_ & Hp & _).
  apply has_prefix_spec in Hp as [t ->]. rewrite slen_app. lia.
Qed.

(** What is trimmed before an ASCII byte does not depend on what follows it. *)
Lemma trim_left_go_app wide k s d t :
  high_spaces wide → ascii_byte d = true → k ≤ slen s →
  trim_left_go wide k (s +:+ String d t) =
    if String.eqb (trim_left_go wide k s) "" then trim_left_go wide 0 (String d t)
    else trim_left_go wide k s +:+ String d t.
Proof.
  intros Hw Hd. revert k. induction s as [|c s IH]; intros k Hk; [by replace k with 0 by (simpl in Hk; lia)|].
  change (String c s +:+ String d t) with (String c (s +:+ String d t)).
  destruct k as [|k]; cbn [trim_left_go]; [|apply IH; simpl in Hk; lia].
  change (String c (s +:+ String d t)) with (String c s +:+ String d t).
  rewrite space_len_app by done. pose proof (space_len_bound wide (String c s) Hw) as Hb. simpl in Hb.
  destruct (space_len wide (String c s)) as [|m]; [done|]. apply IH. lia.
Qed.

(** Trimming keeps a text that has no white space at its ends. *)
Definition trimmed (s : string) : Prop := trim_space s = s.

Lemma slen_rev s : slen (String.rev s) = slen s.
Proof. induction s as [|c s IH]; [done|]. change (String c s) with (String c "" +:+ s). rewrite srev_app, !slen_app, IH. simpl. lia. Qed.

Lemma slen_trim_left_go wide k s : slen (trim_left_go wide k s) ≤ slen s.
Proof.
  revert k. induction s as [|c s IH]; intros k; [done|]. destruct k as [|k]; cbn [trim_left_go].
  - destruct (space_len wide (String c s)); [done|]. simpl. etransitivity; [apply IH|lia].
  - simpl. etransitivity; [apply IH|lia].
Qed.

Lemma trim_left_go_full wide s : slen (trim_left_go wide 0 s) = slen s → trim_left_go wide 0 s = s.
Proof.
  destruct s as [|c s]; [done|]. cbn [trim_left_go]. destruct (space_len wide (String c s)) as [|k]; [done|].
  pose proof (slen_trim_left_go wide k s). simpl. lia.
Qed.

Lemma trimmed_ends s : trimmed s → trim_left_space s = s ∧ trim_right_space s = s.
Proof.
  unfold trimmed, trim_space. intros Hs.
  assert (Hl : trim_left_space s = s).
  { apply trim_left_go_full. apply (f_equal slen) in Hs. unfold trim_right_space in Hs. rewrite slen_rev in Hs.
    pose proof (slen_trim_left_go (String.rev <$> wide_spaces) 0 (String.rev (trim_left_space s))) as H1.
    rewrite slen_rev in H1. pose proof (slen_trim_left_go wide_spaces 0 s). unfold trim_left_space in *. lia. }
  split; [done|]. by rewrite Hl in Hs.
Qed.

(** Trimming the right end of a text that goes on after an ASCII byte. *)
Lemma trim_right_space_app x d t :
  ascii_byte d = true →
  trim_right_space (x +:+ String d t) =
    if String.eqb (trim_right_space t) "" then trim_right_space (x +:+ String d "")
    else x +:+ String d (trim_right_space t).
Proof.
  intros Hd. unfold trim_right_space.
  assert (Hr : String.rev (x +:+ String d t) = String.rev t +:+ String d (String.rev x)).
  { change (String d t) with (String d "" +:+ t). by rewrite <-sapp_assoc, !srev_app. }
  rewrite Hr, trim_left_go_app by (auto with go || lia).
  set (u := trim_left_go _ 0 (String.rev t)).
  assert (Hu : String.eqb (String.rev u) "" = String.eqb u "").
  { destruct u as [|c u]; [done|]. destruct (String.rev (String c u)) eqn:E; [|done].
    apply (f_equal slen) in E. by rewrite slen_rev in E. }
  rewrite Hu. destruct (String.eqb u "").
  - by rewrite srev_app.
  - change (String d (String.rev x)) with (String d "" +:+ String.rev x).
    rewrite !srev_app, srev_involutive. by rewrite sapp_assoc.
Qed.

(* ------------------------------------------------------------------ *)
(** ** More about searching, splitting and trimming *)
(* ------------------------------------------------------------------ *)

Lemma replace_go_absent old new s : contains s old = false → replace_go old new 0 s = s.
Proof.
  induction s as [|c s IH]; intros Hc; [done|]. simpl.
  destruct (has_prefix (String c s) old) eqn:Hp.
  - apply has_prefix_spec in Hp as [t Ht]. by destruct (contains_false_app _ _ "" t Hc).
  - f_equal. apply IH. apply not_true_is_false. intros (a & b & ->)%contains_spec.
    by destruct (contains_false_app _ _ (String c a) b Hc).
Qed.

Lemma contains_prefix a b sub : contains (a +:+ b) sub = false → contains a sub = false.
Proof.
  intros Hc. apply not_true_is_false. intros (x & y & ->)%contains_spec.
  destruct (contains_false_app _ _ x (y +:+ b) Hc). by rewrite !sapp_assoc.
Qed.

Lemma split_on_join x a b : split_on x (a +:+ String x b) = split_on x a ++ split_on x b.
Proof.
  induction a as [|c a IH]; simpl; [by rewrite Ascii.eqb_refl|].
  rewrite IH. destruct (Ascii.eqb x c); [done|].
  destruct (split_on x a) eqn:E; [by eapply split_on_nonempty in E|]. done.
Qed.

Lemma trim_right_byte_app c a b :
  trim_right_byte c (a +:+ b) =
    if String.eqb (trim_right_byte c b) "" then trim_right_byte c a else a +:+ trim_right_byte c b.
Proof.
  induction a as [|d a IH]; simpl; [by destruct (String.eqb_spec (trim_right_byte c b) "")|].
  rewrite IH. destruct (String.eqb_spec (trim_right_byte c b) "") as [Hb|Hb]; [done|].
  destruct (a +:+ trim_right_byte c b) eqn:E; [|done].
  apply (f_equal slen) in E. rewrite slen_app in E. destruct (trim_right_byte c b); [done|simpl in E; lia].
Qed.

Lemma trim_right_byte_id c s : has_byte c s = false → trim_right_byte c s = s.
Proof.
  induction s as [|d s IH]; [done|]. rewrite has_byte_cons. intros; bool_simp. simpl. rewrite IH by done.
  destruct s; [|done]. by destruct (Ascii.eqb c d).
Qed.

Lemma trim_right_byte_only c s : sall (Ascii.eqb c) s = true → trim_right_byte c s = "".
Proof. induction s as [|d s IH]; [done|]. simpl. intros; bool_simp. rewrite IH by done. by case_match. Qed.

Lemma join_snoc sep l x : join sep (l ++ [x]) = match l with [] => x | _ => join sep l +:+ sep +:+ x end.
Proof.
  induction l as [|y l IH]; [done|]. cbn [app]. rewrite join_cons by (by destruct l). rewrite IH.
  destruct l as [|z l]; [done|]. by rewrite (join_cons sep y) by done; rewrite !sapp_assoc.
Qed.

Lemma has_byte_trim_left_go c wide k s : has_byte c s = false → has_byte c (trim_left_go wide k s) = false.
Proof.
  revert k. induction s as [|d s IH]; intros k Hc; [by destruct k|]. pose proof Hc as Hcs.
  rewrite has_byte_cons in Hcs. bool_simp. destruct k; cbn [trim_left_go]; [destruct (space_len _ _)|]; auto.
Qed.

Lemma has_byte_rev c s : has_byte c (String.rev s) = has_byte c s.
Proof.
  induction s as [|d s IH]; [done|]. change (String d s) with (String d "" +:+ s).
  rewrite srev_app, !has_byte_app, IH. apply orb_comm.
Qed.

Lemma has_byte_trim_space c s : has_byte c s = false → has_byte c (trim_space s) = false.
Proof.
  intros Hc. unfold trim_space, trim_right_space. rewrite has_byte_rev. apply has_byte_trim_left_go.
  rewrite has_byte_rev. by apply has_byte_trim_left_go.
Qed.

(* ------------------------------------------------------------------ *)
(** ** Decimal numerals *)
(* ------------------------------------------------------------------ *)

Definition is_digit (c : ascii) : bool :=
  let n := nat_of_ascii c in (48 <=? n) && (n <=? 57).
Definition digit_val (c : ascii) : Z := Z.of_nat (nat_of_ascii c) - 48.

(** The mathematical value of a digit string. *)
Fixpoint dec_value (n : Z) (s : string) : Z :=
  match s with sempty => n | String c s' => dec_value (n * 10 + digit_val c) s' end.

Lemma pretty_N_char_digit x :
  (x < 10)%N → is_digit (pretty_N_char x) = true ∧ digit_val (pretty_N_char x) = Z.of_N x.
Proof.
  intros Hx. assert (x = 0 ∨ x = 1 ∨ x = 2 ∨ x = 3 ∨ x = 4 ∨ x = 5 ∨ x = 6 ∨ x = 7 ∨ x = 8 ∨ x = 9)%N
    as Hc by lia.
  repeat destruct Hc as [->|Hc]; try subst x; done.
Qed.

Lemma pretty_N_go_value x s :
  sall is_digit (pretty_N_go x s) = sall is_digit s ∧
  dec_value 0 (pretty_N_go x s) = dec_value (Z.of_N x) s.
Proof.
  revert s. induction (N.lt_wf_0 x) as [x _ IH]; intros s.
  destruct (decide (x = 0)%N) as [->|Hx]; [by rewrite pretty_N_go_0|].
  rewrite pretty_N_go_step by lia.
  destruct (pretty_N_char_digit (x `mod` 10)) as [Hd Hv]; [apply N.mod_lt; lia|].
  destruct (IH (x `div` 10)%N) with (s := String (pretty_N_char (x `mod` 10)) s) as [IH1 IH2];
    [apply N.div_lt; lia|].
  rewrite IH1, IH2. simpl. rewrite Hd, Hv. split; [done|]. f_equal.
  rewrite (N.div_mod x 10) at 3 by lia. lia.
Qed.

Lemma pretty_pos_go p : pretty (N.pos p) = pretty_N_go (N.pos p) "".
Proof. done. Qed.

Lemma pretty_pos_digits p :
  sall is_digit (pretty (N.pos p)) = true ∧ dec_value 0 (pretty (N.pos p)) = Z.pos p.
Proof. rewrite pretty_pos_go. destruct (pretty_N_go_value (N.pos p) "") as [-> ->]. done. Qed.

Lemma pretty_pos_head p : ∃ c s, pretty (N.pos p) = String c s ∧ Ascii.eqb c "-" = false.
Proof.
  destruct (pretty_pos_digits p) as [Hd Hv]. destruct (pretty (N.pos p)) as [|c s]; [done|].
  exists c, s. split; [done|]. simpl in Hd. bool_simp. apply Ascii.eqb_neq. by intros ->.
Qed.

(** A printed number holds digits only. *)
Lemma pretty_nat_digits n : sall is_digit (pretty (Z.of_nat n)) = true.
Proof. destruct n as [|n]; [done|]. apply (pretty_pos_digits (Pos.of_succ_nat n)). Qed.

Lemma digits_no_byte c s : is_digit c = false → sall is_digit s = true → has_byte c s = false.
Proof.
  intros Hc. induction s as [|d s IH]; [done|]. simpl. intros Hs. bool_simp. rewrite has_byte_cons.
  rewrite IH by done. rewrite orb_false_r. apply Ascii.eqb_neq. intros ->. congruence.
Qed.

Lemma pretty_Z_inj : Inj (=) (=) (pretty : Z → string).
Proof. apply _. Qed.
