(* ===== verification/Regex.v ===== *)
(** The regular expressions of Go's [regexp] package, as far as the program uses
    them: classes of characters, [\b], concatenation, alternation and greedy
    repetition, with the leftmost-first choice of Perl that Go documents. A
    matcher that lists the ends of all matches in order of preference is proved
    against the relation it decides; searching and replacing are defined over
    it.

    Expressions work on bytes. Classes of characters above ASCII are written out
    as the bytes of their UTF-8 encoding: since no such encoding starts inside
    another, a match of bytes starts and ends between characters. *)
From S2P Require Export GoStrings.
From Stdlib Require Import Ascii.

(* ------------------------------------------------------------------ *)
(** ** Expressions *)
(* ------------------------------------------------------------------ *)

Inductive regex : Type :=
| Eps
| Class (P : ascii → bool)
| Bnd
| Cat (r1 r2 : regex)
| Alt (r1 r2 : regex)
| Star (r : regex).

(** [r+], [r?], [r{n}] and [r{n,}] *)
Definition Plus (r : regex) : regex := Cat r (Star r).
Definition Opt (r : regex) : regex := Alt r Eps.
Fixpoint Rep (n : nat) (r : regex) : regex :=
  match n with O => Eps | S n => Cat r (Rep n r) end.
Definition AtLeast (n : nat) (r : regex) : regex := Cat (Rep n r) (Star r).

Definition Chr (c : ascii) : regex := Class (Ascii.eqb c).
Fixpoint Word (s : string) : regex :=
  match s with sempty => Eps | String c s => Cat (Chr c) (Word s) end.

(** [\w] of Go's regular expressions: ASCII letters, digits and underscore. *)
Definition word_char (c : ascii) : bool :=
  let n := nat_of_ascii c in
  ((48 <=? n) && (n <=? 57)) || ((65 <=? n) && (n <=? 90)) ||
  ((97 <=? n) && (n <=? 122)) || (n =? 95).

(* ------------------------------------------------------------------ *)
(** ** Positions in a text *)
(* ------------------------------------------------------------------ *)

(** The byte before a position, if any, and the text after it. *)
Definition pos : Type := option ascii * string.

Definition is_word (c : option ascii) : bool :=
  match c with Some c => word_char c | None => false end.
Definition head_byte (s : string) : option ascii :=
  match s with String c _ => Some c | sempty => None end.

(** [\b]: a word character on exactly one side. *)
Definition at_boundary (p : pos) : bool := xorb (is_word p.1) (is_word (head_byte p.2)).

(** The byte before the position that follows [u]. *)
Fixpoint after (c : option ascii) (u : string) : option ascii :=
  match u with String d u => after (Some d) u | sempty => c end.

(* ------------------------------------------------------------------ *)
(** ** The matcher *)
(* ------------------------------------------------------------------ *)

(** Repetition, most rounds first; a round that consumes nothing is not taken, so
    that as many rounds as there are bytes left are enough. *)
Fixpoint star_run (f : pos → list pos) (rounds : nat) (p : pos) : list pos :=
  match rounds with
  | O => [p]
  | S rounds =>
      (filter (λ q, slen q.2 < slen p.2) (f p) ≫= star_run f rounds) ++ [p]
  end.

(** The ends of the matches that start at [p], the preferred one first. *)
Fixpoint run (r : regex) (p : pos) : list pos :=
  match r with
  | Eps => [p]
  | Class P =>
      match p.2 with
      | String c s => if P c then [(Some c, s)] else []
      | sempty => []
      end
  | Bnd => if at_boundary p then [p] else []
  | Cat r1 r2 => run r1 p ≫= run r2
  | Alt r1 r2 => run r1 p ++ run r2 p
  | Star r => star_run (run r) (slen p.2) p
  end.

(** What it decides. *)
Inductive matches : regex → pos → pos → Prop :=
| match_eps p : matches Eps p p
| match_class P c prev s : P c = true → matches (Class P) (prev, String c s) (Some c, s)
| match_bnd p : at_boundary p = true → matches Bnd p p
| match_cat r1 r2 p q q' : matches r1 p q → matches r2 q q' → matches (Cat r1 r2) p q'
| match_alt_l r1 r2 p q : matches r1 p q → matches (Alt r1 r2) p q
| match_alt_r r1 r2 p q : matches r2 p q → matches (Alt r1 r2) p q
| match_star_nil r p : matches (Star r) p p
| match_star_cons r p q q' : matches r p q → matches (Star r) q q' → matches (Star r) p q'.
#[export] Hint Constructors matches : regex.

(* ------------------------------------------------------------------ *)
(** ** Searching and replacing *)
(* ------------------------------------------------------------------ *)

(** Is there a match at the position or later? *)
Fixpoint search (r : regex) (prev : option ascii) (s : string) : bool :=
  match run r (prev, s) with
  | _ :: _ => true
  | [] => match s with String c s => search r (Some c) s | sempty => false end
  end.

(** [re.MatchString] *)
Definition MatchString (r : regex) (s : string) : bool := search r None s.

(** A text cut into the matches the search for all matches finds, leftmost first,
    and the bytes between them. The program's expressions do not match the empty
    text; such a match would be passed over here. *)
Inductive token : Type :=
| Byte (c : ascii)
| Found (m : string).

(** The match at a position. *)
Definition found (r : regex) (p : pos) : option string :=
  match run r p with
  | q :: _ => if slen q.2 <? slen p.2 then Some (stake (slen p.2 - slen q.2) p.2) else None
  | [] => None
  end.

Fixpoint tokens_go (r : regex) (skip : nat) (prev : option ascii) (s : string) : list token :=
  match s with
  | sempty => []
  | String c s' =>
      match skip with
      | S k => tokens_go r k (Some c) s'
      | O => match found r (prev, s) with
             | Some m => Found m :: tokens_go r (slen m - 1) (Some c) s'
             | None => Byte c :: tokens_go r 0 (Some c) s'
             end
      end
  end.
Definition tokens (r : regex) (s : string) : list token := tokens_go r 0 None s.

Definition token_text (t : token) : string :=
  match t with Byte c => String c sempty | Found m => m end.
Definition found_texts (ts : list token) : list string :=
  omap (λ t, match t with Found m => Some m | Byte _ => None end) ts.

(** [re.ReplaceAllStringFunc(s, f)] *)
Definition replace_tokens (f : string → string) (ts : list token) : string :=
  concat_str (map (λ t, match t with Byte c => String c sempty | Found m => f m end) ts).
Definition ReplaceAllStringFunc (r : regex) (s : string) (f : string → string) : string :=
  replace_tokens f (tokens r s).

(* ------------------------------------------------------------------ *)
(** ** Positions, verified *)
(* ------------------------------------------------------------------ *)

Lemma after_app c u v : after c (u +:+ v) = after (after c u) v.
Proof. revert c. induction u as [|d u IH]; intros c; [done|]. apply IH. Qed.

Lemma after_nonempty c d u : u ≠ "" → after c u = after d u.
Proof. by destruct u. Qed.

(** A match consumes a text and moves past it. *)
Lemma matches_consumes r p q :
  matches r p q → ∃ u, p.2 = u +:+ q.2 ∧ q.1 = after p.1 u.
Proof.
  assert (Htrans : ∀ p q q' : pos, (∃ u, p.2 = u +:+ q.2 ∧ q.1 = after p.1 u) →
    (∃ u, q.2 = u +:+ q'.2 ∧ q'.1 = after q.1 u) → ∃ u, p.2 = u +:+ q'.2 ∧ q'.1 = after p.1 u).
  { intros p0 q0 q' (u & Hu & Ha) (v & Hv & Hb). exists (u +:+ v).
    by rewrite sapp_assoc, after_app, <-Ha, <-Hv. }
  induction 1; eauto; try by exists "". by exists (String c "").
Qed.

Lemma matches_shrinks r p q : matches r p q → slen q.2 ≤ slen p.2.
Proof. intros (u & -> & _)%matches_consumes. rewrite slen_app. lia. Qed.

Lemma matches_idle r p q : matches r p q → slen q.2 = slen p.2 → q = p.
Proof.
  intros (u & Hu & Ha)%matches_consumes Hl. rewrite Hu, slen_app in Hl.
  assert (u = "") as -> by (apply slen_zero; lia). destruct p, q. simpl in *. by subst.
Qed.

(* ------------------------------------------------------------------ *)
(** ** The matcher, verified *)
(* ------------------------------------------------------------------ *)

Lemma star_run_sound r f n p q :
  (∀ p q, q ∈ f p → matches r p q) → q ∈ star_run f n p → matches (Star r) p q.
Proof.
  intros Hf. revert p. induction n as [|n IH]; intros p; simpl; [rewrite list_elem_of_singleton; intros ->; constructor|].
  rewrite elem_of_app, list_elem_of_bind, list_elem_of_singleton. intros [(m & Hq & Hm)| ->]; [|constructor].
  apply list_elem_of_filter in Hm as [_ Hm]. eauto with regex.
Qed.

Lemma run_sound r p q : q ∈ run r p → matches r p q.
Proof.
  revert p q. induction r as [|P| |r1 IH1 r2 IH2|r1 IH1 r2 IH2|r IH]; intros p q; simpl.
  - rewrite list_elem_of_singleton. intros ->. constructor.
  - destruct p as [prev [|c s]]; simpl; [by rewrite elem_of_nil|]. destruct (P c) eqn:HP; [|by rewrite elem_of_nil].
    rewrite list_elem_of_singleton. intros ->. by constructor.
  - destruct (at_boundary p) eqn:Hb; [|by rewrite elem_of_nil]. rewrite list_elem_of_singleton. intros ->. by constructor.
  - rewrite list_elem_of_bind. intros (m & Hq & Hm). eauto with regex.
  - rewrite elem_of_app. intros [?|?]; eauto with regex.
  - by apply star_run_sound.
Qed.

Lemma star_run_complete r f p q :
  (∀ p q, matches r p q → q ∈ f p) → matches (Star r) p q → ∀ n, slen p.2 ≤ n → q ∈ star_run f n p.
Proof.
  intros Hf Hm. remember (Star r) as r' eqn:Hr. induction Hm; simplify_eq.
  - intros [|n] _; simpl; rewrite ?elem_of_app, list_elem_of_singleton; auto.
  - intros n Hn. pose proof (matches_shrinks _ _ _ Hm1) as Hs.
    destruct (decide (slen q.2 = slen p.2)) as [He|He].
    + apply (matches_idle _ _ _ Hm1) in He as ->. by apply IHHm2.
    + destruct n as [|n]; [lia|]. simpl. rewrite elem_of_app, list_elem_of_bind. left.
      exists q. split; [apply IHHm2; [done|lia]|]. apply list_elem_of_filter. split; [lia|auto].
Qed.

(** The matcher lists exactly the ends of the matches. *)
Lemma run_spec r p q : q ∈ run r p ↔ matches r p q.
Proof.
  split; [apply run_sound|]. revert p q.
  induction r as [|P| |r1 IH1 r2 IH2|r1 IH1 r2 IH2|r IH]; intros p q Hm; simpl.
  6: by eapply star_run_complete.
  all: inversion Hm as [|? ? ? ? HP|? HB| | | | |]; simplify_eq/=; rewrite ?HP, ?HB.
  all: rewrite ?list_elem_of_bind, ?elem_of_app, ?list_elem_of_singleton; eauto.
Qed.

Lemma run_nil r p : run r p = [] ↔ ∀ q, ¬ matches r p q.
Proof.
  split; intros H.
  - intros q Hq. apply run_spec in Hq. rewrite H in Hq. by apply elem_of_nil in Hq.
  - destruct (run r p) as [|q l] eqn:E; [done|]. destruct (H q). apply run_spec. rewrite E. constructor.
Qed.

Lemma run_cons r p q l : run r p = q :: l → matches r p q.
Proof. intros E. apply run_spec. rewrite E. constructor. Qed.

(** Searching finds a match at some position exactly when there is one. *)
Lemma search_true r prev s :
  search r prev s = true ↔ ∃ a b q, s = a +:+ b ∧ matches r (after prev a, b) q.
Proof.
  split.
  - revert prev. induction s as [|c s IH]; intros prev; simpl;
      (destruct (run r _) as [|q l] eqn:E; [|apply run_cons in E; intros _; by eexists "", _, q]); [done|].
    intros (a & b & q & -> & Hq)%IH. by exists (String c a), b, q.
  - intros (a & b & q & -> & Hq). apply run_spec in Hq. revert prev Hq.
    induction a as [|c a IH]; intros prev Hq; simpl in *.
    + destruct b; simpl; case_match; try done; by apply elem_of_nil in Hq.
    + case_match; [by apply IH|done].
Qed.

Lemma search_false r prev s :
  search r prev s = false ↔ ∀ a b q, s = a +:+ b → ¬ matches r (after prev a, b) q.
Proof. rewrite <-not_true_iff_false, search_true. naive_solver. Qed.

Lemma search_step r prev c s :
  run r (prev, String c s) = [] → search r (Some c) s = false → search r prev (String c s) = false.
Proof. intros Hr Hs. simpl. by rewrite Hr. Qed.

(** [MatchString] holds when some part of the text is a match where it stands. *)
Lemma MatchString_spec r s :
  MatchString r s = true ↔
  ∃ a u b, s = a +:+ u +:+ b ∧ matches r (after None a, u +:+ b) (after None (a +:+ u), b).
Proof.
  unfold MatchString. rewrite search_true. split.
  - intros (a & b & [q1 q2] & -> & Hq). pose proof (matches_consumes _ _ _ Hq) as (u & Hu & Ha).
    simpl in *. subst. exists a, u, q2. by rewrite after_app.
  - intros (a & u & b & -> & Hq). eauto.
Qed.

(* ------------------------------------------------------------------ *)
(** ** Cutting a text into matches, verified *)
(* ------------------------------------------------------------------ *)

Lemma found_Some r p m :
  found r p = Some m →
  m ≠ "" ∧ ∃ b, p.2 = m +:+ b ∧ matches r p (after p.1 m, b).
Proof.
  unfold found. destruct (run r p) as [|q l] eqn:E; [done|]. apply run_cons in E.
  destruct (Nat.ltb_spec (slen q.2) (slen p.2)); [|done]. intros [= <-].
  pose proof (matches_consumes _ _ _ E) as (u & Hu & Ha). rewrite Hu, slen_app, Nat.add_sub, stake_app.
  split; [|exists q.2; split; [done|by rewrite <-Ha; destruct q]].
  intros ->. rewrite Hu in *. simpl in *. lia.
Qed.

(** An expression no match of which is empty. *)
Definition consuming (r : regex) : Prop := ∀ p q, matches r p q → slen q.2 < slen p.2.

Lemma found_None r p : consuming r → found r p = None → run r p = [].
Proof.
  intros Hc. unfold found. destruct (run r p) as [|q l] eqn:E; [done|]. apply run_cons, Hc in E.
  apply Nat.ltb_lt in E. by rewrite E.
Qed.

Lemma tokens_go_skip r k prev s :
  tokens_go r k prev s = tokens_go r 0 (after prev (stake k s)) (sdrop k s).
Proof. revert prev s. induction k as [|k IH]; intros prev [|c s]; try done. apply IH. Qed.

(** The shape of the cut, for rule induction. *)
Inductive cut (r : regex) : option ascii → string → list token → Prop :=
| cut_nil prev : cut r prev "" []
| cut_found prev m b ts :
    m ≠ "" → matches r (prev, m +:+ b) (after prev m, b) →
    cut r (after prev m) b ts → cut r prev (m +:+ b) (Found m :: ts)
| cut_byte prev c s ts :
    found r (prev, String c s) = None → cut r (Some c) s ts → cut r prev (String c s) (Byte c :: ts).

Lemma tokens_cut r prev s : cut r prev s (tokens_go r 0 prev s).
Proof.
  remember (slen s) as n eqn:Hn. revert prev s Hn. induction (lt_wf n) as [n _ IH]; intros prev s ->.
  destruct s as [|c s]; [constructor|]. cbn [tokens_go].
  destruct (found r (prev, String c s)) as [m|] eqn:E.
  - apply found_Some in E as (Hm & b & Hb & Hq). simpl in *. rewrite tokens_go_skip.
    destruct m as [|d m]; [done|]. simpl in Hb. injection Hb as -> ->. simpl. rewrite Nat.sub_0_r, stake_app, sdrop_app.
    change (String d (m +:+ b)) with (String d m +:+ b).
    constructor; [done|done|]. eapply IH; [|done]. simpl. rewrite slen_app. lia.
  - constructor; [done|]. eapply IH; [|done]. simpl. lia.
Qed.

(** The cut loses nothing. *)
Lemma tokens_text r s : concat_str (map token_text (tokens r s)) = s.
Proof. unfold tokens. induction (tokens_cut r None s) as [| |]; simpl; congruence. Qed.

(** Without a match a text is its bytes. *)
Lemma tokens_no_match r prev s :
  search r prev s = false → found_texts (tokens_go r 0 prev s) = [] ∧
    ∀ f, replace_tokens f (tokens_go r 0 prev s) = s.
Proof.
  induction (tokens_cut r prev s) as [|prev m b ts Hm Hq Hc IH|prev c s ts Hf Hc IH]; intros Hs.
  - done.
  - exfalso. rewrite search_false in Hs. by eapply (Hs "").
  - destruct IH as [IH1 IH2].
    { rewrite search_false in *. intros a b q ->. by apply (Hs (String c a)). }
    split; [done|]. intros f. unfold replace_tokens in *. simpl. by rewrite IH2.
Qed.

(* ------------------------------------------------------------------ *)
(** ** What a match consumes *)
(* ------------------------------------------------------------------ *)

(** Predicates on bytes are compared by trying all of them. *)
Definition all_bytes : list ascii := ascii_of_nat <$> seq 0 256.
Definition class_leb (P Q : ascii → bool) : bool := forallb (λ c, implb (P c) (Q c)) all_bytes.

Lemma class_leb_spec P Q c : class_leb P Q = true → P c = true → Q c = true.
Proof.
  unfold class_leb. rewrite forallb_forall. intros H Hc. specialize (H c). rewrite Hc in H. apply H.
  unfold all_bytes. apply list_elem_of_In, list_elem_of_fmap. exists (nat_of_ascii c).
  rewrite ascii_nat_embedding. split; [done|]. apply elem_of_seq. pose proof (nat_ascii_bounded c). lia.
Qed.

(** Every byte of a match satisfies [Q]. *)
Fixpoint within (Q : ascii → bool) (r : regex) : bool :=
  match r with
  | Eps | Bnd => true
  | Class P => class_leb P Q
  | Cat r1 r2 | Alt r1 r2 => within Q r1 && within Q r2
  | Star r => within Q r
  end.

(** Every match has a byte that satisfies [K]. *)
Fixpoint needs (K : ascii → bool) (r : regex) : bool :=
  match r with
  | Eps | Bnd | Star _ => false
  | Class P => class_leb P K
  | Cat r1 r2 => needs K r1 || needs K r2
  | Alt r1 r2 => needs K r1 && needs K r2
  end.

Lemma matches_split r1 r2 p q q' u :
  matches r1 p q → matches r2 q q' → p.2 = u +:+ q'.2 →
  ∃ v w, u = v +:+ w ∧ p.2 = v +:+ q.2 ∧ q.2 = w +:+ q'.2 ∧ q.1 = after p.1 v ∧ q'.1 = after q.1 w.
Proof.
  intros (v & Hv & Ha)%matches_consumes (w & Hw & Hb)%matches_consumes Hu. exists v, w.
  split; [|done]. rewrite Hv, Hw, <-sapp_assoc in Hu. by apply sapp_inj_r in Hu.
Qed.

Lemma consumed_nothing (s u : string) : s = u +:+ s → u = "".
Proof. intros H. apply (sapp_inj_r u "" s). by rewrite <-H. Qed.

Lemma within_sound Q r p q u :
  matches r p q → within Q r = true → p.2 = u +:+ q.2 → sall Q u = true.
Proof.
  intros Hm. revert u. induction Hm; simpl; intros u Hr Hu; bool_simp;
    try (apply consumed_nothing in Hu; by subst).
  - change (String c s) with (String c "" +:+ s) in Hu. apply sapp_inj_r in Hu as <-. simpl.
    by rewrite (class_leb_spec _ _ _ Hr).
  - destruct (matches_split _ _ _ _ _ _ Hm1 Hm2 Hu) as (v & w & -> & Hv & Hw & _).
    rewrite sall_app, IHHm1, IHHm2; done.
  - by apply IHHm.
  - by apply IHHm.
  - destruct (matches_split _ _ _ _ _ _ Hm1 Hm2 Hu) as (v & w & -> & Hv & Hw & _).
    rewrite sall_app, IHHm1, IHHm2; done.
Qed.

Lemma needs_sound K r p q u :
  matches r p q → needs K r = true → p.2 = u +:+ q.2 → sall (λ c, negb (K c)) u = false.
Proof.
  intros Hm. revert u. induction Hm; simpl; intros u Hr Hu; try done.
  - change (String c s) with (String c "" +:+ s) in Hu. apply sapp_inj_r in Hu as <-. simpl.
    by rewrite (class_leb_spec _ _ _ Hr).
  - destruct (matches_split _ _ _ _ _ _ Hm1 Hm2 Hu) as (v & w & -> & Hv & Hw & _). rewrite sall_app.
    apply orb_true_iff in Hr as [Hr|Hr]; [by rewrite (IHHm1 v)|]. rewrite (IHHm2 w) by done. apply andb_false_r.
  - bool_simp. by apply IHHm.
  - bool_simp. by apply IHHm.
Qed.

Lemma needs_consuming K r : needs K r = true → consuming r.
Proof.
  intros Hr p q Hm. pose proof (matches_consumes _ _ _ Hm) as (u & Hu & _).
  pose proof (needs_sound _ _ _ _ _ Hm Hr Hu) as Hn. rewrite Hu, slen_app. destruct u; [done|]. simpl. lia.
Qed.

(* ------------------------------------------------------------------ *)
(** ** Matches of a text, by the form of the expression *)
(* ------------------------------------------------------------------ *)

Lemma matches_Cat_inv r1 r2 prev u b :
  matches (Cat r1 r2) (prev, u +:+ b) (after prev u, b) →
  ∃ v w, u = v +:+ w ∧ matches r1 (prev, v +:+ w +:+ b) (after prev v, w +:+ b) ∧
    matches r2 (after prev v, w +:+ b) (after (after prev v) w, b).
Proof.
  intros Hm. inversion Hm as [| | |? ? ? m ? H1 H2| | | |]; subst.
  destruct (matches_split _ _ _ _ _ u H1 H2 eq_refl) as (v & w & -> & Hv & Hw & Ha & Hb).
  destruct m as [m1 m2]. simpl in *. subst. exists v, w. rewrite after_app in *. by rewrite sapp_assoc in H1.
Qed.

Lemma matches_Bnd_inv prev u b : matches Bnd (prev, u +:+ b) (after prev u, b) → u = "".
Proof. intros Hm. inversion Hm; subst. by eapply consumed_nothing. Qed.

Lemma matches_Chr_inv c prev u b : matches (Chr c) (prev, u +:+ b) (after prev u, b) → u = String c "".
Proof.
  intros Hm. inversion Hm as [|? d ? ? Hd| | | | | |]; subst. apply Ascii.eqb_eq in Hd as ->.
  match goal with E : String ?d b = _ |- _ => change (String d b) with (String d "" +:+ b) in E end.
  by eapply eq_sym, sapp_inj_r.
Qed.

Lemma found_texts_match r prev s ts :
  cut r prev s ts → Forall (λ m, ∃ prev b, matches r (prev, m +:+ b) (after prev m, b)) (found_texts ts).
Proof. induction 1; simpl; eauto. Qed.

Lemma needs_nonempty K r prev u b :
  matches r (prev, u +:+ b) (after prev u, b) → needs K r = true → u ≠ "".
Proof. intros Hm Hn ->. by pose proof (needs_sound K _ _ _ "" Hm Hn eq_refl). Qed.

Lemma Class_match (P : ascii → bool) prev c b : P c = true → matches (Class P) (prev, String c b) (Some c, b).
Proof. apply match_class. Qed.

Lemma Word_match w prev b : matches (Word w) (prev, w +:+ b) (after prev w, b).
Proof.
  revert prev. induction w as [|c w IH]; intros prev; simpl; [constructor|].
  econstructor; [|apply IH]. constructor. apply Ascii.eqb_refl.
Qed.

Lemma matches_Word_inv w prev u b : matches (Word w) (prev, u +:+ b) (after prev u, b) → u = w.
Proof.
  revert prev u. induction w as [|c w IH]; intros prev u; simpl.
  - intros Hm. inversion Hm; subst. by eapply consumed_nothing.
  - intros (v & w' & -> & Hc & Hw)%matches_Cat_inv. apply matches_Chr_inv in Hc as ->.
    apply IH in Hw as ->. done.
Qed.

Lemma Star_Class_match P u prev b :
  sall P u = true → matches (Star (Class P)) (prev, u +:+ b) (after prev u, b).
Proof.
  revert prev. induction u as [|c u IH]; intros prev Hu; simpl; [constructor|].
  simpl in Hu. bool_simp. eapply match_star_cons; [by apply match_class|by apply IH].
Qed.

Lemma class_leb_refl P : class_leb P P = true.
Proof. unfold class_leb. apply forallb_forall. intros c _. by destruct (P c). Qed.

Lemma matches_Star_Class_inv P prev u b :
  matches (Star (Class P)) (prev, u +:+ b) (after prev u, b) → sall P u = true.
Proof. intros Hm. eapply within_sound; [exact Hm|apply class_leb_refl|done]. Qed.

(* ------------------------------------------------------------------ *)
(** ** Moving a match to another text *)
(* ------------------------------------------------------------------ *)

(** A match needs boundaries but never their absence: it is also a match in
    another text that has the same bytes to consume, and a boundary wherever the
    first has one. *)
Lemma matches_transfer r prev u b prev' b' :
  matches r (prev, u +:+ b) (after prev u, b) →
  (∀ v w, u = v +:+ w → at_boundary (after prev v, w +:+ b) = true →
    at_boundary (after prev' v, w +:+ b') = true) →
  matches r (prev', u +:+ b') (after prev' u, b').
Proof.
  intros Hm. remember (prev, u +:+ b) as p eqn:Hp. remember (after prev u, b) as q eqn:Hq.
  revert prev u b prev' b' Hp Hq. induction Hm; intros prev0 u b prev' b' Hp Hq Hb; simplify_eq.
  1,3,7: assert (u = "") as -> by (by eapply consumed_nothing);
    constructor; by apply (Hb "" "").
  1: match goal with E : String ?c b = _ |- _ =>
       change (String c b) with (String c "" +:+ b) in E; apply sapp_inj_r in E as <- end; by constructor.
  2,3: by eauto with regex.
  all: destruct (matches_split _ _ _ _ _ u Hm1 Hm2 eq_refl) as (v & w & -> & Hv & Hw & Ha1 & Ha2);
    destruct q as [q1 q2]; simpl in *; subst; rewrite sapp_assoc in *; rewrite after_app in *.
  all: econstructor; [eapply IHHm1; [done..|]|eapply IHHm2; [done..|]].
  all: intros v1 v2 -> Hbv.
  1,3: specialize (Hb v1 (v2 +:+ w)); rewrite !sapp_assoc in Hb; by apply Hb.
  all: specialize (Hb (v +:+ v1) v2); rewrite !sapp_assoc, !after_app in Hb; by apply Hb.
Qed.

(* ------------------------------------------------------------------ *)
(** ** Replacing every match by a marker *)
(* ------------------------------------------------------------------ *)

(** [\b...\b] *)
Definition Sealed (r : regex) : regex := Cat Bnd (Cat r Bnd).

Lemma Sealed_boundaries r p q :
  matches (Sealed r) p q → at_boundary p = true ∧ at_boundary q = true.
Proof.
  intros Hm. inversion Hm as [| | |? ? ? m1 ? H1 H2| | | |]; subst.
  inversion H1; subst. inversion H2 as [| | |? ? ? m2 ? H3 H4| | | |]; subst. by inversion H4; subst.
Qed.

Definition marker (inner : string) : string := "[" +:+ inner +:+ "]".
Definition no_bracket (c : ascii) : bool := negb (Ascii.eqb c "[") && negb (Ascii.eqb c "]").

(** Up to a byte that is not in it, a text is a part of what precedes the byte. *)
Lemma before_byte (Q : ascii → bool) i c t u b :
  i +:+ String c t = u +:+ b → sall Q u = true → Q c = false →
  ∃ j, i = u +:+ j ∧ b = j +:+ String c t.
Proof.
  revert i. induction u as [|d u IH]; intros i Heq Hu Hc; [by exists i|].
  simpl in Hu. bool_simp. destruct i as [|e i]; simplify_eq/=; [congruence|].
  destruct (IH i) as (j & -> & ->); [done..|]. by exists j.
Qed.

Lemma cut_text r prev s ts : cut r prev s ts → s = concat_str (map token_text ts).
Proof. induction 1; simpl; congruence. Qed.

Lemma replace_tokens_ext f g ts :
  Forall (λ m, f m = g m) (found_texts ts) → replace_tokens f ts = replace_tokens g ts.
Proof.
  unfold replace_tokens. induction ts as [|[c|m] ts IH]; simpl; intros Hm; [done|by rewrite IH|].
  inversion Hm; subst. rewrite IH by done. congruence.
Qed.

(** [r'] has no match that starts at a byte between the matches. *)
Fixpoint gaps_free (r' : regex) (prev : option ascii) (ts : list token) : Prop :=
  match ts with
  | [] => True
  | Byte c :: ts' =>
      run r' (prev, concat_str (map token_text ts)) = [] ∧ gaps_free r' (Some c) ts'
  | Found m :: ts' => gaps_free r' (after prev m) ts'
  end.

Lemma gaps_free_self r prev s ts : consuming r → cut r prev s ts → gaps_free r prev ts.
Proof.
  intros Hr. induction 1 as [| |prev c s ts Hf Hc IH]; simpl; [done..|]. split; [|done].
  pose proof (cut_text _ _ _ _ Hc) as <-. by apply found_None.
Qed.

Lemma gaps_free_search r r' prev s ts :
  search r' prev s = false → cut r prev s ts → gaps_free r' prev ts.
Proof.
  intros Hs. induction 1 as [|prev m b ts Hm Hq Hc IH|prev c s ts Hf Hc IH]; simpl; [done| |].
  - apply IH. rewrite search_false in *. intros v w q -> Hq'. apply (Hs (m +:+ v) w q).
    + by rewrite sapp_assoc.
    + by rewrite after_app.
  - pose proof (cut_text _ _ _ _ Hc) as <-. rewrite search_false in Hs. split.
    + apply run_nil. intros q. by apply (Hs "").
    + apply IH, search_false. intros v w q ->. by apply (Hs (String c v)).
Qed.

Section mask.
Context (body r' : regex) (K : ascii → bool) (inner : string).
Context (Hw : within no_bracket r' = true) (Hn : needs K r' = true).
Context (Hi : sall (λ c, negb (K c)) inner = true).

Let masked := replace_tokens (λ _, marker inner).

(** A match of [r'] cannot start inside a marker. *)
Lemma marker_free prev t :
  search r' (Some "]"%char) t = false → search r' prev (marker inner +:+ t) = false.
Proof using Hw Hn Hi.
  intros Ht. unfold marker. rewrite !sapp_assoc.
  assert (Hstart : ∀ prev c s, no_bracket c = false → run r' (prev, String c s) = []).
  { intros p c s Hc. apply run_nil. intros q Hq. pose proof (matches_consumes _ _ _ Hq) as (u & Hu & _).
    pose proof (within_sound _ _ _ _ _ Hq Hw Hu) as Hall. pose proof (needs_sound _ _ _ _ _ Hq Hn Hu) as Hne.
    destruct u as [|d u]; [done|]. simpl in *. simplify_eq. by rewrite Hc in Hall. }
  apply search_step; [by apply Hstart|]. generalize (Some "["%char) as pv.
  revert Hi. generalize inner as i. induction i as [|c i IH]; intros Hc pv.
  { by apply search_step; [apply Hstart|]. }
  apply search_step; [|simpl in Hc; bool_simp; by apply IH].
  apply run_nil. intros q Hq. pose proof (matches_consumes _ _ _ Hq) as (u & Hu & _).
  pose proof (within_sound _ _ _ _ _ Hq Hw Hu) as Hall. pose proof (needs_sound _ _ _ _ _ Hq Hn Hu) as Hne.
  change (String c i +:+ "]" +:+ t = u +:+ q.2) in Hu.
  destruct (before_byte no_bracket _ _ _ _ _ Hu Hall eq_refl) as (j & Hj & _).
  rewrite Hj, sall_app in Hc. bool_simp. congruence.
Qed.

(** What stands before the first match is kept, and what follows it is a boundary
    in the text and a marker in the result. *)
Lemma gap prev s ts :
  cut (Sealed body) prev s ts →
  ∃ g s2 e, s = g +:+ s2 ∧ masked ts = g +:+ e ∧
    (s2 = "" ∧ e = "" ∨ at_boundary (after prev g, s2) = true ∧ ∃ e', e = String "[" e').
Proof using.
  induction 1 as [prev|prev m b ts Hm Hq Hc IH|prev c s ts Hf Hc (g & s2 & e & -> & Hs & Hor)].
  - exists "", "", "". auto.
  - exists "", (m +:+ b), (masked (Found m :: ts)). split_and!; [done|done|]. right.
    split; [apply (Sealed_boundaries _ _ _ Hq)|]. by eexists.
  - exists (String c g), s2, e. split_and!; [done| |done]. unfold masked, replace_tokens in *. simpl. by rewrite Hs.
Qed.

(** The result has no match of [r']: one that avoided the markers would be a match
    in the text, since a marker leaves no boundary where there was none. *)
Lemma masked_free prev s ts :
  cut (Sealed body) prev s ts → gaps_free r' prev ts →
  ∀ prev', prev' = prev ∨ at_boundary (prev, s) = true → search r' prev' (masked ts) = false.
Proof using Hw Hn Hi.
  induction 1 as [prev|prev m b ts Hm Hq Hc IH|prev c s ts Hf Hc IH]; intros Hg prev' Hp.
  - apply search_false. intros v w q Heq Hq. apply needs_consuming in Hn. apply Hn in Hq.
    destruct v; [|done]. simpl in *. subst. simpl in Hq. lia.
  - unfold masked, replace_tokens. simpl. apply marker_free. apply IH; [done|]. right.
    apply (Sealed_boundaries _ _ _ Hq).
  - destruct Hg as [Hr Hg]. unfold masked, replace_tokens. simpl. apply search_step; [|apply IH; auto].
    pose proof (cut_byte _ _ _ _ _ Hf Hc) as Hcut.
    rewrite <-(cut_text _ _ _ _ Hcut), run_nil in Hr. apply run_nil. intros q Hq.
    destruct (gap _ _ _ Hcut) as (g & s2 & e & Hs & Hm & Hor).
    unfold masked, replace_tokens in Hm. simpl in Hm. rewrite Hm in Hq.
    pose proof (matches_consumes _ _ _ Hq) as (u & Hu & Ha). simpl in Hu, Ha.
    pose proof (within_sound _ _ _ _ _ Hq Hw Hu) as Hall. pose proof (needs_sound _ _ _ _ _ Hq Hn Hu) as Hne.
    assert (Hj : ∃ j, g = u +:+ j ∧ q.2 = j +:+ e).
    { destruct Hor as [[-> ->]|[_ (e' & ->)]]; [|by apply (before_byte no_bracket)].
      rewrite sapp_nil_r in Hu. exists q.2. by rewrite sapp_nil_r. }
    destruct Hj as (j & -> & Hj). apply (Hr (after prev u, j +:+ s2)).
    rewrite Hs, sapp_assoc. eapply (matches_transfer _ prev' u (j +:+ e)).
    { rewrite <-sapp_assoc, <-Hj, <-Ha. by destruct q. }
    intros v w -> Hb. destruct v as [|d v].
    + simpl in *. destruct Hp as [->|Hp]; [|by rewrite Hs, sapp_assoc in Hp].
      destruct w as [|d w]; [done|]. done.
    + rewrite (after_nonempty _ prev) in Hb by done. destruct w as [|x w]; [|done].
      destruct j as [|x j]; [|done]. simpl in *. destruct Hor as [[-> ->]|[Hat _]]; [done|].
      by rewrite !sapp_nil_r in Hat.
Qed.
End mask.
