(* ===== verification/GoWords.v ===== *)
(** The words of a text: [strings.Fields], with the lemmas that say what does not
    change them, namely white space at the ends, one ASCII white space for another,
    and cutting a text at white space. *)
From S2P Require Export GoStrings.
From Stdlib Require Import Ascii.

(** [strings.Fields]: the runs of characters between white space; [cur] is the run
    being read, reversed. *)
Fixpoint fields_go (skip : nat) (cur : string) (s : string) : list string :=
  let flush := if String.eqb cur "" then [] else [String.rev cur] in
  match s with
  | sempty => flush
  | String c s' =>
      match skip with
      | S k => fields_go k "" s'
      | O => match space_len wide_spaces s with
             | O => fields_go 0 (String c cur) s'
             | S k => flush ++ fields_go k "" s'
             end
      end
  end.
Definition Fields (s : string) : list string := fields_go 0 "" s.

(* ------------------------------------------------------------------ *)
(** ** Cutting at white space *)
(* ------------------------------------------------------------------ *)

Lemma fields_go_space k cur a d b :
  ascii_space d = true → ascii_byte d = true → k ≤ slen a →
  fields_go k cur (a +:+ String d b) = fields_go k cur a ++ fields_go 0 "" b.
Proof.
  intros Hd Ha. revert k cur. induction a as [|c a IH]; intros k cur Hk.
  - replace k with 0 by (simpl in Hk; lia). cbn [String.append fields_go]. unfold space_len. by rewrite Hd.
  - change (String c a +:+ String d b) with (String c (a +:+ String d b)). destruct k as [|k].
    + cbn [fields_go]. change (String c (a +:+ String d b)) with (String c a +:+ String d b).
      rewrite space_len_app by (done || apply wide_spaces_high).
      pose proof (space_len_bound wide_spaces (String c a) wide_spaces_high) as Hb. simpl in Hb.
      destruct (space_len wide_spaces (String c a)) as [|k]; [by apply IH; lia|].
      rewrite <-app_assoc. f_equal. apply IH. lia.
    + cbn [fields_go]. apply IH. simpl in Hk. lia.
Qed.

Lemma Fields_space a d b :
  ascii_space d = true → ascii_byte d = true → Fields (a +:+ String d b) = Fields a ++ Fields b.
Proof. intros. apply fields_go_space; [done..|lia]. Qed.

(* ------------------------------------------------------------------ *)
(** ** One white space for another *)
(* ------------------------------------------------------------------ *)

(** Texts that differ only in which ASCII white space they have where. *)
Inductive alike : string → string → Prop :=
| alike_nil : alike "" ""
| alike_same c s t : alike s t → alike (String c s) (String c t)
| alike_space c d s t :
    ascii_space c = true → ascii_space d = true → alike s t → alike (String c s) (String d t).

Lemma alike_refl s : alike s s.
Proof. induction s; by constructor. Qed.
Lemma alike_app a b s t : alike a b → alike s t → alike (a +:+ s) (b +:+ t).
Proof. intros Hab Hst. induction Hab; simpl; [done|by constructor..]. Qed.

Lemma ascii_space_byte c : ascii_space c = true → ascii_byte c = true.
Proof. unfold ascii_space, ascii_byte. rewrite orb_true_iff, andb_true_iff, !Nat.leb_le, Nat.eqb_eq, Nat.ltb_lt. lia. Qed.

Lemma alike_prefix s t w :
  alike s t → sall (λ c, negb (ascii_byte c)) w = true → has_prefix s w = has_prefix t w.
Proof.
  intros Hst. revert w. induction Hst as [|c s t _ IH|c d s t Hc Hd _ IH]; intros [|b w] Hw; try done;
    try exact (eq_trans (has_prefix_app "" _) (eq_sym (has_prefix_app "" _))); simpl in Hw; bool_simp;
    rewrite !has_prefix_cons.
  - by rewrite IH.
  - apply ascii_space_byte in Hc, Hd. destruct (Ascii.eqb_spec b c), (Ascii.eqb_spec b d); subst; congruence || done.
Qed.

Lemma alike_space_len s t : alike s t → space_len wide_spaces s = space_len wide_spaces t.
Proof.
  intros Hst. destruct Hst as [|c s t Hst|c d s t Hc Hd _]; [done| |unfold space_len; by rewrite Hc, Hd].
  unfold space_len. destruct (ascii_space c); [done|].
  assert (list_find (λ w, has_prefix (String c s) w = true) wide_spaces
    = list_find (λ w, has_prefix (String c t) w = true) wide_spaces) as ->; [|done].
  pose proof wide_spaces_high as Hw. unfold high_spaces in Hw. generalize (alike_same c s t Hst) as Ha.
  intros Ha. induction Hw as [|w wide [Hh _] _ IH]; [done|]. simpl.
  rewrite (alike_prefix _ _ w Ha) by done. case_decide; [done|]. by rewrite IH.
Qed.

Lemma alike_fields s t k cur : alike s t → fields_go k cur s = fields_go k cur t.
Proof.
  intros Hst. revert k cur. induction Hst as [|c s t Hst IH|c d s t Hc Hd Hst IH]; intros k cur; [done| |].
  - cbn [fields_go]. rewrite (alike_space_len _ _ (alike_same c s t Hst)).
    destruct k; [|done]. destruct (space_len _ _); [done|]. by rewrite IH.
  - cbn [fields_go]. destruct k; [|done]. unfold space_len. rewrite Hc, Hd. by rewrite IH.
Qed.

Lemma replace_go_skip old new k s : replace_go old new k s = replace_go old new 0 (sdrop k s).
Proof. revert s. induction k as [|k IH]; intros [|c s]; try done. apply IH. Qed.

Lemma replace_alike old new s :
  old ≠ "" → alike new old → slen new = slen old → alike (replace_all s old new) s.
Proof.
  intros Hne Ha Hl. unfold replace_all. remember (slen s) as n eqn:Hn.
  revert s Hn. induction (lt_wf n) as [n _ IH]. intros [|c s] ->; [constructor|]. cbn [replace_go].
  destruct (has_prefix (String c s) old) eqn:Hp; [|constructor; by apply (IH (slen s)); [simpl; lia|]].
  apply has_prefix_spec in Hp as [t Ht]. rewrite Ht. apply alike_app; [done|].
  destruct old as [|o old]; [done|]. simpl in Ht. injection Ht as _ ->. rewrite replace_go_skip.
  replace (slen (String o old) - 1) with (slen old) by (simpl; lia). rewrite sdrop_app.
  apply (IH (slen t)); [|done]. simpl. rewrite slen_app. lia.
Qed.

Lemma Fields_join ls : ls ≠ [] → Fields (join (String "010" "") ls) = concat (map Fields ls).
Proof.
  induction ls as [|l ls IH]; [done|]. intros _. destruct ls as [|l' ls]; [symmetry; apply app_nil_r|].
  rewrite join_cons by done. cbn [String.append]. rewrite Fields_space by done. cbn [map concat] in *.
  by rewrite IH.
Qed.

Lemma Fields_lines s : concat (map Fields (split_on "010" s)) = Fields s.
Proof. rewrite <-Fields_join by apply split_on_nonempty. by rewrite join_split. Qed.

(* ------------------------------------------------------------------ *)
(** ** Trimming *)
(* ------------------------------------------------------------------ *)

(** Trimming: white space at the ends makes no words. *)
Lemma Fields_trim_left k s : fields_go k "" s = Fields (trim_left_go wide_spaces k s).
Proof.
  unfold Fields. revert k. induction s as [|c s IH]; intros [|k]; try done; cbn [trim_left_go]; [|apply IH].
  destruct (space_len wide_spaces (String c s)) as [|k] eqn:E; [done|].
  cbn [fields_go]. rewrite E. apply IH.
Qed.

(** What [trim_left_go] removes: ASCII white space and sequences of the list. *)
Inductive spaces (wide : list string) : string → Prop :=
| spaces_nil : spaces wide ""
| spaces_ascii c u : ascii_space c = true → spaces wide u → spaces wide (String c u)
| spaces_wide w u : w ∈ wide → spaces wide u → spaces wide (w +:+ u).

Lemma trim_left_go_spaces wide s :
  ∃ u, spaces wide u ∧ s = u +:+ trim_left_go wide 0 s.
Proof.
  remember (slen s) as n eqn:Hn. revert s Hn. induction (lt_wf n) as [n _ IH]. intros [|c s] ->; [exists ""; split; [constructor|done]|].
  cbn [trim_left_go]. unfold space_len. destruct (ascii_space c) eqn:Hc.
  { destruct (IH (slen s)) with (s := s) as (u & Hu & Hs); [simpl; lia|done|].
    exists (String c u). split; [by constructor|]. simpl. by rewrite <-Hs. }
  destruct (list_find _ wide) as [[i w]|] eqn:E; [|exists ""; split; [constructor|done]].
  apply list_find_Some in E as (Hi & Hp & _). apply has_prefix_spec in Hp as [t Ht].
  apply list_elem_of_lookup_2 in Hi. destruct w as [|b w]; [exists ""; split; [constructor|done]|].
  cbn [String.append] in Ht. injection Ht as -> ->. cbn [String.length]. rewrite trim_left_go_skip, sdrop_app.
  destruct (IH (slen t)) with (s := t) as (u & Hu & Hs); [simpl; rewrite slen_app; lia|done|].
  exists (String b w +:+ u). split; [by constructor|]. rewrite sapp_assoc, <-Hs. done.
Qed.

(** A white-space character starts with a byte that no other continues with. *)
Definition leads (d : ascii) : bool := 192 <=? nat_of_ascii d.
Definition space_shape (w : string) : bool :=
  match w with
  | String d w' => leads d && sall (λ c, negb (leads c)) w' && (space_len wide_spaces w =? slen w)
  | sempty => false
  end.
Lemma wide_spaces_shape : Forall (λ w, space_shape w = true) wide_spaces.
Proof. apply Forall_forall. intros w Hw. apply list_elem_of_In in Hw. revert w Hw. apply (proj1 (forallb_forall _ _)). vm_compute. done. Qed.

Lemma has_prefix_lead s d t w :
  leads d = true → sall (λ c, negb (leads c)) w = true → has_prefix (s +:+ String d t) w = has_prefix s w.
Proof.
  intros Hd. revert w. induction s as [|e s IH]; intros [|c w]; simpl; intros Hw; try done.
  - bool_simp. rewrite has_prefix_cons. destruct (Ascii.eqb_spec c d) as [->|]; [congruence|done].
  - bool_simp. by rewrite !has_prefix_cons, IH.
Qed.

Lemma space_len_lead c s d t :
  leads d = true → space_len wide_spaces (String c s +:+ String d t) = space_len wide_spaces (String c s).
Proof.
  intros Hd. cbn [String.append]. unfold space_len. destruct (ascii_space c); [done|].
  assert (list_find (λ w, has_prefix (String c (s +:+ String d t)) w = true) wide_spaces
    = list_find (λ w, has_prefix (String c s) w = true) wide_spaces) as ->; [|done].
  induction wide_spaces_shape as [|[|b w] W Hw _ IH]; [done..|]. cbn [list_find].
  unfold space_shape in Hw. bool_simp. rewrite !has_prefix_cons, has_prefix_lead by done.
  case_decide; [done|]. by rewrite IH.
Qed.

Lemma space_len_le c s : space_len wide_spaces (String c s) ≤ S (slen s).
Proof. apply (space_len_bound wide_spaces (String c s) wide_spaces_high). Qed.

Lemma fields_go_wide w k cur a :
  space_shape w = true → k ≤ slen a → fields_go k cur (a +:+ w) = fields_go k cur a.
Proof.
  destruct w as [|d w]; [done|]. intros Hw. pose proof Hw as Hs. unfold space_shape in Hs. bool_simp.
  assert (Hl : space_len wide_spaces (String d w) = S (slen w)) by done. intros Hk0. revert k cur Hk0.
  induction a as [|c a IH]; intros k cur Hk.
  - replace k with 0 by (simpl in Hk; lia). cbn [String.append fields_go]. rewrite Hl, Fields_trim_left.
    rewrite trim_left_go_skip. rewrite sdrop_all. by apply app_nil_r.
  - change (String c a +:+ String d w) with (String c (a +:+ String d w)). destruct k as [|k]; cbn [fields_go].
    + change (String c (a +:+ String d w)) with (String c a +:+ String d w). rewrite space_len_lead by done.
      pose proof (space_len_le c a). destruct (space_len wide_spaces (String c a)) as [|k]; [apply IH; lia|].
      f_equal. apply IH. lia.
    + apply IH. simpl in Hk. lia.
Qed.

Lemma Fields_spaces x u : spaces (String.rev <$> wide_spaces) u → Fields (x +:+ String.rev u) = Fields x.
Proof.
  intros Hu. induction Hu as [|c u Hc _ IH|w u Hw _ IH].
  - by rewrite sapp_nil_r.
  - change (String c u) with (String c "" +:+ u). rewrite srev_app, <-sapp_assoc.
    change (String.rev (String c "")) with (String c ""). rewrite Fields_space by auto using ascii_space_byte.
    rewrite IH. apply app_nil_r.
  - apply list_elem_of_fmap in Hw as (w' & -> & Hw'). rewrite srev_app, srev_involutive, <-sapp_assoc.
    rewrite <-IH. apply fields_go_wide; [|lia]. by apply (proj1 (Forall_forall _ _) wide_spaces_shape).
Qed.

Lemma Fields_trim s : Fields (trim_space s) = Fields s.
Proof.
  unfold trim_space. transitivity (Fields (trim_left_space s)); [|symmetry; apply (Fields_trim_left 0)].
  generalize (trim_left_space s) as x. intros x. unfold trim_right_space.
  destruct (trim_left_go_spaces (String.rev <$> wide_spaces) (String.rev x)) as (u & Hu & Hx).
  revert Hx. generalize (trim_left_go (String.rev <$> wide_spaces) 0 (String.rev x)) as y. intros y Hx.
  apply (f_equal String.rev) in Hx. rewrite srev_involutive, srev_app in Hx. subst x.
  by rewrite Fields_spaces.
Qed.
