(* ===== verification/GoValue.v ===== *)
(** Go's dynamic values as the program uses them: [float64] as IEEE 754
    binary64, the type [any] restricted to what JSON decoding and the program's
    own conversions produce, [fmt]'s [%v], [encoding/json]'s [Marshal], and
    Go's error values. *)
From S2P Require Export GoStrings.
From Stdlib Require Import Ascii.
From Stdlib Require Export SpecFloat.

(* ------------------------------------------------------------------ *)
(** ** float64 *)
(* ------------------------------------------------------------------ *)

Abbreviation float64 := spec_float.

Section float.
Local Open Scope Z_scope.

Definition fprec : Z := 53.
Definition femax : Z := 1024.

Definition fadd : float64 → float64 → float64 := SFadd fprec femax.
Definition fmul : float64 → float64 → float64 := SFmul fprec femax.
Definition fdiv : float64 → float64 → float64 := SFdiv fprec femax.
Definition fneg : float64 → float64 := SFopp.
Definition fltb : float64 → float64 → bool := SFltb.
Definition fleb : float64 → float64 → bool := SFleb.
Definition feqb : float64 → float64 → bool := SFeqb.

(** [float64(z)]: round to nearest, ties to even. *)
Definition f_of_Z (z : Z) : float64 := binary_normalize fprec femax z 0 false.

Definition is_finite (f : float64) : bool :=
  match f with S754_zero _ | S754_finite _ _ _ => true | _ => false end.

(** The integer part of a finite float, truncated toward zero. *)
Definition f_trunc (f : float64) : option Z :=
  match f with
  | S754_zero _ => Some 0
  | S754_finite s m e =>
      let q := if 0 <=? e then Z.pos m * 2 ^ e else Z.pos m / 2 ^ (- e) in
      Some (if s then - q else q)
  | _ => None
  end.

(** [neg]·[m]·10^[k], correctly rounded. *)
Definition dec_to_float (neg : bool) (m k : Z) : float64 :=
  match m with
  | Z.pos _ =>
      if 0 <=? k then
        let f := binary_normalize fprec femax (m * 10 ^ k) 0 false in
        if neg then SFopp f else f
      else
        let '(q, e, l) := SFdiv_core_binary fprec femax m 0 (10 ^ (- k)) 0 in
        binary_round_aux fprec femax neg q e l
  | _ => S754_zero neg
  end.
End float.

Section float_facts.
Local Open Scope Z_scope.

(** The place of a float in the order: a lexicographic key. *)
Definition f_key (f : float64) : Z * Z * Z :=
  match f with
  | S754_infinity true => (-2, 0, 0)
  | S754_finite true m e => (-1, - e, - Z.pos m)
  | S754_zero _ => (0, 0, 0)
  | S754_finite false m e => (1, e, Z.pos m)
  | S754_infinity false => (2, 0, 0)
  | S754_nan => (0, 0, 0)
  end.
Definition key_lt (a b : Z * Z * Z) : Prop :=
  a.1.1 < b.1.1 ∨ a.1.1 = b.1.1 ∧ (a.1.2 < b.1.2 ∨ a.1.2 = b.1.2 ∧ a.2 < b.2).

Lemma fltb_key f g : f ≠ S754_nan → g ≠ S754_nan → fltb f g = true ↔ key_lt (f_key f) (f_key g).
Proof.
  unfold key_lt, fltb, SFltb. intros Hf Hg.
  destruct f as [[]|[]| |[] m e], g as [[]|[]| |[] m' e']; try done; simpl; try (split; [done|lia]); try (split; [lia|done]).
  all: change (Pos.compare_cont Eq m m') with (m ?= m')%positive;
    destruct (Z.compare_spec e e'); try (split; [done|lia]); try (split; [lia|done]);
    destruct (Pos.compare_spec m m'); simpl; try (split; [done|lia]); (split; [lia|done]).
Qed.

Lemma fltb_asym f g : f ≠ S754_nan → g ≠ S754_nan → fltb f g = true → fltb g f = false.
Proof. intros Hf Hg. rewrite fltb_key by done. intros. apply not_true_iff_false. rewrite fltb_key by done. unfold key_lt in *. lia. Qed.

Lemma fltb_neg_trans f g h : f ≠ S754_nan → g ≠ S754_nan → h ≠ S754_nan →
  fltb f g = false → fltb g h = false → fltb f h = false.
Proof.
  intros Hf Hg Hh. rewrite <-!not_true_iff_false, !fltb_key by done. unfold key_lt. lia.
Qed.

(** Rounding a magnitude is never NaN. *)
Lemma shr_nonneg n r e : 0 ≤ shr_m r → 0 ≤ shr_m (shr r e n).1.
Proof.
  assert (H1 : ∀ r, 0 ≤ shr_m r → 0 ≤ shr_m (shr_1 r)) by (intros [[|[]|[]] ? ?]; simpl; lia).
  assert (Hi : ∀ p r, 0 ≤ shr_m r → 0 ≤ shr_m (iter_pos shr_1 p r)).
  { induction p; intros r' Hr'; simpl; auto. }
  destruct n; simpl; auto.
Qed.

Lemma round_not_nan s m e l : 0 ≤ m → binary_round_aux fprec femax s m e l ≠ S754_nan.
Proof.
  intros Hm. unfold binary_round_aux, shr_fexp.
  assert (Ha : 0 ≤ shr_m (shr_record_of_loc m l)) by (by destruct l as [|[]]).
  set (n := _ - e). apply (shr_nonneg n _ e) in Ha. destruct (shr _ e n) as [r1 e1]. simpl in Ha.
  assert (Hb : 0 ≤ round_nearest_even (shr_m r1) (loc_of_shr_record r1)).
  { unfold round_nearest_even. repeat case_match; lia. }
  set (m2 := round_nearest_even _ _) in *. set (n2 := _ - e1).
  pose proof (shr_nonneg n2 (shr_record_of_loc m2 loc_Exact) e1 Hb) as Hc.
  destruct (shr _ e1 n2) as [r2 e2]. simpl in Hc. repeat case_match; done.
Qed.

Lemma fdiv_not_nan s m e f : is_finite f → fdiv f (S754_finite s m e) ≠ S754_nan.
Proof.
  destruct f as [| | |s' m' e']; try done. intros _. unfold fdiv, SFdiv.
  destruct (SFdiv_core_binary _ _ _ _ _ _) as [[q e2] l] eqn:Hq. apply round_not_nan.
  unfold SFdiv_core_binary in Hq.
  set (m0 := match _ with Z0 => _ | _ => _ end) in Hq.
  assert (H0 : 0 ≤ m0). { unfold m0. destruct (_ - _ - _); simpl; try lia. apply Z.shiftl_nonneg. lia. }
  pose proof (Z_div_mod m0 (Z.pos m) ltac:(lia)) as Hd.
  destruct (Z.div_eucl m0 (Z.pos m)) as [q0 r0]. simplify_eq. nia.
Qed.

(** Integers of at most 53 bits are exact. *)
Lemma digits2_pos_iter m d : Z.pos (digits2_pos (Pos.iter xO m d)) = Z.pos (digits2_pos m) + Z.pos d.
Proof. induction d using Pos.peano_ind; [simpl; lia|]. rewrite Pos.iter_succ. simpl. lia. Qed.

Lemma digits2_pos_bound m : 2 ^ (Z.pos (digits2_pos m) - 1) ≤ Z.pos m.
Proof.
  induction m as [m IH|m IH|]; [| |done]; simpl digits2_pos;
    rewrite Pos2Z.inj_succ; replace (Z.succ _ - 1) with (Z.succ (Z.pos (digits2_pos m) - 1)) by lia;
    rewrite Z.pow_succ_r; lia.
Qed.

Lemma round_exact s m e :
  Z.max (Z.pos (digits2_pos m) + e - 53) (-1074) = e → e ≤ 971 →
  binary_round_aux fprec femax s (Z.pos m) e loc_Exact = S754_finite s m e.
Proof.
  intros He Hle. unfold binary_round_aux, shr_fexp, fexp, emin, fprec, femax. simpl Zdigits2.
  change (3 - 1024 - 53) with (-1074). rewrite He, Z.sub_diag. simpl. rewrite He, Z.sub_diag. simpl.
  destruct (Z.leb_spec e (1024 - 53)); [done|lia].
Qed.

Lemma f_of_Z_finite z : 0 < z < 2 ^ 53 → ∃ m e, f_of_Z z = S754_finite false m e.
Proof.
  intros [H0 H1]. destruct z as [|m|]; try lia.
  pose proof (digits2_pos_bound m) as Hd.
  assert (Hd' : Z.pos (digits2_pos m) ≤ 53).
  { destruct (Z.le_gt_cases (Z.pos (digits2_pos m)) 53); [done|].
    pose proof (Z.pow_le_mono_r 2 53 (Z.pos (digits2_pos m) - 1) ltac:(lia) ltac:(lia)). lia. }
  unfold f_of_Z, binary_normalize, binary_round, shl_align, fexp, emin, fprec, femax.
  change (3 - 1024 - 53) with (-1074). rewrite Z.add_0_r, Z.sub_0_r, Z.max_l by lia.
  destruct (Z.pos (digits2_pos m) - 53) as [|p|d] eqn:E; [|lia|].
  - eexists _, _. apply round_exact; lia.
  - eexists _, _. apply round_exact; rewrite ?digits2_pos_iter; lia.
Qed.
End float_facts.

(** Conversion [int64(f)] truncates when the result fits; otherwise the
    language leaves the result to the implementation (AMD64 and ARM64 differ). *)
Class GoArch := {
  cvt_overflow : float64 → Z;
  cvt_overflow_range f : in_int64 (cvt_overflow f)
}.

(** AMD64 gives the most negative integer. *)
Lemma amd64_range : in_int64 min_int64.
Proof. unfold in_int64, min_int64, max_int64. lia. Qed.
Definition amd64 : GoArch :=
  {| cvt_overflow _ := min_int64; cvt_overflow_range _ := amd64_range |}.

Definition in_int64b (z : Z) : bool := ((min_int64 <=? z) && (z <=? max_int64))%Z.

Definition int64_of_float `{GoArch} (f : float64) : Z :=
  match f_trunc f with
  | Some z => if in_int64b z then z else cvt_overflow f
  | None => cvt_overflow f
  end.

Lemma in_int64b_spec z : in_int64b z = true ↔ in_int64 z.
Proof. unfold in_int64b, in_int64. rewrite andb_true_iff, !Z.leb_le. done. Qed.

Lemma int64_of_float_range `{GoArch} f : in_int64 (int64_of_float f).
Proof.
  unfold int64_of_float. repeat case_match; try apply cvt_overflow_range.
  by apply in_int64b_spec.
Qed.

(* ------------------------------------------------------------------ *)
(** ** Decimal output of floats ([strconv.FormatFloat], shortest) *)
(* ------------------------------------------------------------------ *)

Section decimal.
Local Open Scope Z_scope.

(** [10^x <= num/den] *)
Definition pow10_le (x num den : Z) : bool :=
  if 0 <=? x then 10 ^ x * den <=? num else den <=? num * 10 ^ (- x).

(** The [x] with [10^x <= num/den < 10^(x+1)]. *)
Definition dec_exp (num den : Z) : Z :=
  let x0 := ((Z.log2 num - Z.log2 den) * 30103) / 100000 in
  if pow10_le (x0 + 2) num den then x0 + 2
  else if pow10_le (x0 + 1) num den then x0 + 1
  else if pow10_le x0 num den then x0
  else if pow10_le (x0 - 1) num den then x0 - 1 else x0 - 2.

(** The [n]-digit decimals next to [num/den]: digits and power of ten. *)
Definition dec_candidates (num den x : Z) (n : nat) : Z * Z * comparison * Z :=
  let s := Z.of_nat n - 1 - x in
  let a := if 0 <=? s then num * 10 ^ s else num in
  let b := if 0 <=? s then den else den * 10 ^ (- s) in
  let q := a / b in
  let r := a mod b in
  (q, q + 1, 2 * r ?= b, - s).

(** The candidate that reads back as [f], the nearer one first. *)
Definition dec_try (f : float64) (num den x : Z) (n : nat) : option (Z * Z) :=
  let '(lo, hi, half, k) := dec_candidates num den x n in
  let ok d := feqb (dec_to_float false d k) f in
  match ok lo, ok hi with
  | true, true =>
      Some (match half with
            | Lt => lo | Gt => hi | Eq => if Z.even lo then lo else hi end, k)
  | true, false => Some (lo, k)
  | false, true => Some (hi, k)
  | false, false => None
  end.

Fixpoint dec_search (f : float64) (num den x : Z) (n : nat) (fuel : nat) : option (Z * Z) :=
  match fuel with
  | O => None
  | S fuel =>
      match dec_try f num den x n with
      | Some r => Some r
      | None => dec_search f num den x (S n) fuel
      end
  end.

(** Shortest decimal of a positive finite float: at most 17 digits. *)
Definition shortest (m : positive) (e : Z) : option (Z * Z) :=
  let num := if 0 <=? e then Z.pos m * 2 ^ e else Z.pos m in
  let den := if 0 <=? e then 1 else 2 ^ (- e) in
  dec_search (S754_finite false m e) num den (dec_exp num den) 1 17.
End decimal.

(** Trailing zeros of a digit string carry no information. *)
Definition digits_of (d : Z) : string := trim_right_byte "0" (pretty d).

(** Digits and decimal point position: the value is 0.DIGITS times 10^dp. *)
Definition decimal_of (f : float64) : option (string * Z) :=
  match f with
  | S754_zero _ => Some (sempty, 0%Z)
  | S754_finite _ m e =>
      '(d, k) ← shortest m e;
      Some (digits_of d, Z.of_nat (slen (pretty d)) + k)%Z
  | _ => None
  end.

Definition zeros (n : nat) : string := foldr (λ _ s, String "0" s) sempty (seq 0 n).

(** [%f] with as many decimals as the digits need. *)
Definition format_f (ds : string) (dp : Z) : string :=
  let n := slen ds in
  if (0 <? dp)%Z then
    let p := Z.to_nat dp in
    stake p ds +:+ zeros (p - n) +:+ (if p <? n then "." +:+ sdrop p ds else sempty)
  else if n =? 0 then "0" else "0." +:+ zeros (Z.to_nat (- dp)) +:+ ds.

(** [%e] with [width] exponent digits at least. *)
Definition format_e (width : nat) (ds : string) (dp : Z) : string :=
  let e := if slen ds =? 0 then 0%Z else (dp - 1)%Z in
  let es := pretty (Z.abs e) in
  (if slen ds =? 0 then "0" else stake 1 ds)
    +:+ (if 1 <? slen ds then "." +:+ sdrop 1 ds else sempty)
    +:+ "e" +:+ (if (e <? 0)%Z then "-" else "+")
    +:+ zeros (width - slen es) +:+ es.

Definition fsign (f : float64) : bool :=
  match f with S754_zero s | S754_infinity s | S754_finite s _ _ => s | S754_nan => false end.

(** [fmt.Sprintf("%v", f)]: [%g] with the shortest precision,
    which switches to the exponent form outside [1e-4, 1e6). *)
Definition fmt_float_v (f : float64) : string :=
  match f with
  | S754_nan => "NaN"
  | S754_infinity s => if s then "-Inf" else "+Inf"
  | _ =>
      match decimal_of f with
      | Some (ds, dp) =>
          let e := if slen ds =? 0 then 0%Z else (dp - 1)%Z in
          (if fsign f then "-" else sempty)
            +:+ (if ((e <? -4) || (6 <=? e))%Z then format_e 2 ds dp else format_f ds dp)
      | None => sempty
      end
  end.

(** [encoding/json]'s float encoder: [None] for NaN and the infinities. *)
Definition json_float (f : float64) : option string :=
  '(ds, dp) ← decimal_of f;
  let small := fltb (SFabs f) (dec_to_float false 1 (-6)) in
  let big := negb (fltb (SFabs f) (dec_to_float false 1 21)) in
  let zero := feqb f (S754_zero false) in
  Some ((if fsign f then "-" else sempty)
          +:+ (if negb zero && (small || big) then format_e 1 ds dp else format_f ds dp)).

(* ------------------------------------------------------------------ *)
(** ** Dynamic values *)
(* ------------------------------------------------------------------ *)

(** [any], for the dynamic types the program meets: [nil], [bool], [int64]
    (from coercion), [float64], [string], [[]any] and [map[string]any].  A map
    is an association list without duplicate keys ([any_wf]); its order is the
    iteration order, which the language leaves open. *)
Inductive any : Type :=
| ANil
| ABool (b : bool)
| AInt (z : Z)
| AFloat (f : float64)
| AString (s : string)
| ASlice (l : list any)
| AMap (m : list (string * any)).

Definition is_map (v : any) : bool := match v with AMap _ => true | _ => false end.

Section any_ind'.
Variable P : any → Prop.
Hypothesis HNil : P ANil.
Hypothesis HBool : ∀ b, P (ABool b).
Hypothesis HInt : ∀ z, P (AInt z).
Hypothesis HFloat : ∀ f, P (AFloat f).
Hypothesis HString : ∀ s, P (AString s).
Hypothesis HSlice : ∀ l, Forall P l → P (ASlice l).
Hypothesis HMap : ∀ m, Forall (λ kv, P kv.2) m → P (AMap m).

Fixpoint any_ind' (v : any) : P v :=
  match v with
  | ANil => HNil
  | ABool b => HBool b
  | AInt z => HInt z
  | AFloat f => HFloat f
  | AString s => HString s
  | ASlice l => HSlice l ((fix go l := match l return Forall P l with
      | [] => Forall_nil_2 _
      | x :: l => Forall_cons_2 _ _ _ (any_ind' x) (go l) end) l)
  | AMap m => HMap m ((fix go m := match m return Forall (λ kv, P kv.2) m with
      | [] => Forall_nil_2 _
      | kv :: m => Forall_cons_2 _ _ _ (any_ind' kv.2) (go m) end) m)
  end.
End any_ind'.

(** [v, ok := m[k]] on the association-list form of a map. *)
Fixpoint assoc {V : Type} (k : string) (m : list (string * V)) : option V :=
  match m with
  | [] => None
  | (k', v) :: m => if String.eqb k k' then Some v else assoc k m
  end.

(** [m[k] = v] on an existing or new key. *)
Fixpoint assoc_set {V : Type} (k : string) (v : V) (m : list (string * V)) : list (string * V) :=
  match m with
  | [] => [(k, v)]
  | (k', v') :: m => if String.eqb k k' then (k, v) :: m else (k', v') :: assoc_set k v m
  end.

(** Keys are distinct, at every level. *)
Fixpoint any_wf (v : any) : Prop :=
  match v with
  | ASlice l => foldr (λ x p, any_wf x ∧ p) True l
  | AMap m => NoDup m.*1 ∧ foldr (λ kv p, any_wf kv.2 ∧ p) True m
  | _ => True
  end.

Lemma assoc_elem {V} k (v : V) m : assoc k m = Some v → (k, v) ∈ m.
Proof.
  induction m as [|[k' v'] m IH]; simpl; [done|].
  destruct (String.eqb_spec k k') as [->|Hne]; intros; simplify_eq; set_solver.
Qed.

Lemma assoc_NoDup {V} k (v : V) m : NoDup m.*1 → (k, v) ∈ m → assoc k m = Some v.
Proof.
  induction m as [|[k' v'] m IH]; simpl; [set_solver|].
  rewrite NoDup_cons. intros [Hk' Hnd] Hin.
  destruct (String.eqb_spec k k') as [->|Hne].
  - apply elem_of_cons in Hin as [Heq|Hin]; [congruence|].
    exfalso. apply Hk'. apply list_elem_of_fmap. by exists (k', v).
  - apply elem_of_cons in Hin as [Heq|Hin]; [congruence|]. auto.
Qed.

Lemma assoc_None {V} k (m : list (string * V)) : assoc k m = None ↔ k ∉ m.*1.
Proof.
  induction m as [|[k' v'] m IH]; simpl; [set_solver|].
  destruct (String.eqb_spec k k') as [->|Hne]; set_solver.
Qed.

Lemma assoc_is_Some {V} k (m : list (string * V)) : is_Some (assoc k m) ↔ k ∈ m.*1.
Proof.
  rewrite <-not_eq_None_Some, assoc_None. destruct (decide (k ∈ m.*1)); naive_solver.
Qed.

(** Lookup does not depend on the iteration order. *)
Lemma assoc_perm {V} k (m1 m2 : list (string * V)) :
  NoDup m1.*1 → m1 ≡ₚ m2 → assoc k m1 = assoc k m2.
Proof.
  intros Hnd Hp. assert (Hnd2 : NoDup m2.*1) by (by rewrite <-Hp).
  destruct (assoc k m1) as [v|] eqn:E.
  - symmetry. apply assoc_NoDup; [done|]. rewrite <-Hp. by apply assoc_elem.
  - symmetry. apply assoc_None. rewrite <-Hp. by apply assoc_None.
Qed.

Lemma assoc_set_eq {V} k (v : V) m : assoc k (assoc_set k v m) = Some v.
Proof.
  induction m as [|[k' v'] m IH]; simpl; [by rewrite String.eqb_refl|].
  destruct (String.eqb k k') eqn:E; simpl; by rewrite ?String.eqb_refl, ?E.
Qed.

Lemma assoc_set_ne {V} k k' (v : V) m : k ≠ k' → assoc k' (assoc_set k v m) = assoc k' m.
Proof.
  intros Hne. induction m as [|[k2 v2] m IH]; simpl.
  - destruct (String.eqb_spec k' k); congruence.
  - destruct (String.eqb_spec k k2) as [->|H2]; simpl; [|by rewrite IH].
    destruct (String.eqb_spec k' k2); congruence.
Qed.

Lemma assoc_set_keys {V} k (v : V) m : k ∈ m.*1 → (assoc_set k v m).*1 = m.*1.
Proof.
  induction m as [|[k' v'] m IH]; simpl; [set_solver|].
  destruct (String.eqb_spec k k') as [->|Hne]; csimpl; [done|]. intros Hin.
  rewrite IH; [done|]. set_solver.
Qed.

#[export] Hint Rewrite @assoc_set_eq @assoc_None @assoc_is_Some : go_rw.

(* ------------------------------------------------------------------ *)
(** ** [fmt.Sprintf("%v", v)] *)
(* ------------------------------------------------------------------ *)

Definition fmt_bool (b : bool) : string := if b then "true" else "false".

Definition entry_leb {V : Type} (p q : string * V) : bool := str_leb p.1 q.1.

(** Slices print in brackets, maps as [map[k:v ...]] with sorted keys. *)
Fixpoint fmt_v (v : any) : string :=
  match v with
  | ANil => "<nil>"
  | ABool b => fmt_bool b
  | AInt z => pretty z
  | AFloat f => fmt_float_v f
  | AString s => s
  | ASlice l => "[" +:+ join " " (map fmt_v l) +:+ "]"
  | AMap m =>
      let entries := isort entry_leb (map (λ kv, (kv.1, fmt_v kv.2)) m) in
      "map[" +:+ join " " (map (λ e, e.1 +:+ ":" +:+ e.2) entries) +:+ "]"
  end.

(* ------------------------------------------------------------------ *)
(** ** [encoding/json.Marshal] *)
(* ------------------------------------------------------------------ *)

(** Length of the well-formed multi-byte UTF-8 sequence [s] starts with, 0 if
    the bytes are not one. *)
Definition utf8_len (s : string) : nat :=
  let cont c := let n := nat_of_ascii c in ((128 <=? n) && (n <=? 191))%nat in
  let btw lo hi c := let n := nat_of_ascii c in ((lo <=? n) && (n <=? hi))%nat in
  match s with
  | String a (String b s2) =>
      let n := nat_of_ascii a in
      if ((194 <=? n) && (n <=? 223))%nat then (if cont b then 2 else 0)
      else match s2 with
      | String c s3 =>
          if ((224 <=? n) && (n <=? 239))%nat then
            let lo := if n =? 224 then 160 else 128 in
            let hi := if n =? 237 then 159 else 191 in
            if btw lo hi b && cont c then 3 else 0
          else match s3 with
          | String d _ =>
              if ((240 <=? n) && (n <=? 244))%nat then
                let lo := if n =? 240 then 144 else 128 in
                let hi := if n =? 244 then 143 else 191 in
                if btw lo hi b && cont c && cont d then 4 else 0
              else 0
          | sempty => 0
          end
      | sempty => 0
      end
  | _ => 0
  end.

Definition hex_digit (n : nat) : ascii :=
  ascii_of_nat (if n <? 10 then 48 + n else 87 + n).
Definition backslash : ascii := "092".

(** [\u00XX] *)
Definition u_escape (n : nat) : string :=
  String backslash ("u00" +:+ String (hex_digit (n / 16)) (String (hex_digit (n mod 16)) sempty)).

(** One ASCII byte, with the HTML-safe escaping [json.Marshal] applies. *)
Definition json_ascii (c : ascii) : string :=
  let n := nat_of_ascii c in
  if (n =? 34) || (n =? 92) then String backslash (String c sempty)
  else if n =? 8 then String backslash "b"
  else if n =? 9 then String backslash "t"
  else if n =? 10 then String backslash "n"
  else if n =? 12 then String backslash "f"
  else if n =? 13 then String backslash "r"
  else if (n <? 32) || (n =? 38) || (n =? 60) || (n =? 62) then u_escape n
  else String c sempty.

(** The two line separators JavaScript rejects in strings. *)
Definition is_line_sep (s : string) : option string :=
  if has_prefix s (bytes [226; 128; 168]) then Some (String backslash "u2028")
  else if has_prefix s (bytes [226; 128; 169]) then Some (String backslash "u2029")
  else None.

Fixpoint json_escape (skip : nat) (emit : bool) (s : string) : string :=
  match s with
  | sempty => sempty
  | String c s' =>
      match skip with
      | S k => (if emit then String c sempty else sempty) +:+ json_escape k emit s'
      | 0 =>
          if nat_of_ascii c <? 128 then json_ascii c +:+ json_escape 0 true s'
          else match is_line_sep s with
               | Some e => e +:+ json_escape 2 false s'
               | None =>
                   match utf8_len s with
                   | 0 => String backslash "ufffd" +:+ json_escape 0 true s'
                   | S k => String c (json_escape k true s')
                   end
               end
      end
  end.

Definition json_string (s : string) : string := dquote +:+ json_escape 0 true s +:+ dquote.

(** [None] is [json.Marshal]'s error, which only a NaN or an infinity causes. *)
Fixpoint json_marshal (v : any) : option string :=
  match v with
  | ANil => Some "null"
  | ABool b => Some (fmt_bool b)
  | AInt z => Some (pretty z)
  | AFloat f => json_float f
  | AString s => Some (json_string s)
  | ASlice l => items ← mapM json_marshal l; Some ("[" +:+ join "," items +:+ "]")
  | AMap m =>
      entries ← mapM (λ kv, t ← json_marshal kv.2; Some (kv.1, t)) m;
      Some ("{" +:+ join "," (map (λ e, json_string e.1 +:+ ":" +:+ e.2)
                                 (isort entry_leb entries)) +:+ "}")
  end.

(** The bytes [json.Marshal] returns: none on error. *)
Definition json_bytes (v : any) : string := default sempty (json_marshal v).

(* ------------------------------------------------------------------ *)
(** ** Values up to the iteration order of their maps *)
(* ------------------------------------------------------------------ *)

(** The same Go value, met in two runs: the maps inside may be iterated in
    another order. *)
Inductive any_equiv : any → any → Prop :=
| eqv_refl v : any_equiv v v
| eqv_slice l1 l2 : Forall2 any_equiv l1 l2 → any_equiv (ASlice l1) (ASlice l2)
| eqv_map m1 m2 m3 :
    Forall2 (λ p q, p.1 = q.1 ∧ any_equiv p.2 q.2) m1 m2 → m2 ≡ₚ m3 →
    any_equiv (AMap m1) (AMap m3).

Lemma any_wf_slice l : any_wf (ASlice l) ↔ Forall any_wf l.
Proof. apply all_of_Forall. Qed.

Lemma any_wf_map m : any_wf (AMap m) ↔ NoDup m.*1 ∧ Forall (λ kv, any_wf kv.2) m.
Proof.
  simpl. rewrite <-all_of_Forall. unfold all_of. done.
Qed.

Lemma entry_leb_total {V} (p q : string * V) : entry_leb p q = true ∨ entry_leb q p = true.
Proof. apply str_leb_total. Qed.
Lemma entry_leb_trans {V} (p q r : string * V) :
  entry_leb p q = true → entry_leb q r = true → entry_leb p r = true.
Proof. apply str_leb_trans. Qed.

(** Sorting the entries of a map by key forgets the iteration order. *)
Lemma isort_entries_perm {V} (m1 m2 : list (string * V)) :
  NoDup m1.*1 → m1 ≡ₚ m2 → isort entry_leb m1 = isort entry_leb m2.
Proof.
  intros Hnd Hp. eapply (StronglySorted_unique_strong (λ p q, entry_leb p q = true)).
  - intros [k1 v1] [k2 v2] H1 H2 L1 L2.
    assert (k1 = k2) as -> by (apply str_leb_antisym; [exact L1|exact L2]).
    apply elem_of_isort, (assoc_NoDup _ _ _ Hnd) in H1.
    apply elem_of_isort in H2. rewrite <-Hp in H2. apply (assoc_NoDup _ _ _ Hnd) in H2. congruence.
  - apply isort_sorted; [apply entry_leb_total|apply entry_leb_trans].
  - apply isort_sorted; [apply entry_leb_total|apply entry_leb_trans].
  - by rewrite !isort_perm, Hp.
Qed.

Lemma mapM_perm {A B} (f : A → option B) (l1 l2 : list A) :
  l1 ≡ₚ l2 → option_relation (≡ₚ) (λ _, False) (λ _, False) (mapM f l1) (mapM f l2).
Proof.
  induction 1 as [|x l1 l2 Hp IH|x y l|l1 l2 l3 H1 IH1 H2 IH2]; simpl.
  - done.
  - destruct (f x); simpl; [|done]. destruct (mapM f l1), (mapM f l2); simpl in *; try done.
    by rewrite IH.
  - destruct (f x), (f y); simpl; try done; destruct (mapM f l); simpl; try done.
    apply Permutation_swap.
  - destruct (mapM f l1), (mapM f l2), (mapM f l3); simpl in *; try done. by rewrite IH1.
Qed.

Lemma mapM_keys {V W} (g : V → option W) (m : list (string * V)) (entries : list (string * W)) :
  mapM (λ kv, t ← g kv.2; Some (kv.1, t)) m = Some entries → entries.*1 = m.*1.
Proof.
  revert entries. induction m as [|[k v] m IH]; intros entries; simpl; [by intros [= <-]|].
  destruct (g v); simpl; [|done]. destruct (mapM _ m); simpl; [|done].
  intros [= <-]. csimpl. f_equal. by apply IH.
Qed.

(** [json.Marshal] sorts the keys, so its output is a function of the value. *)
Lemma json_marshal_equiv v1 v2 : any_equiv v1 v2 → any_wf v1 → json_marshal v1 = json_marshal v2.
Proof.
  revert v2. induction v1 as [| | | | |l IH|m IH] using any_ind'; intros v2 Heq Hwf;
    inversion Heq as [|? l2 Hl|? m2 m3 Hm Hp]; subst; try done.
  - apply any_wf_slice in Hwf. simpl.
    assert (mapM json_marshal l = mapM json_marshal l2) as ->; [|done].
    clear Heq. induction Hl as [|x y l l2 Hxy Hl IHl]; [done|].
    apply Forall_cons in IH as [IHx IH]. apply Forall_cons in Hwf as [Hx Hwf]. cbn [mapM].
    rewrite (IHx y) by done. by rewrite IHl.
  - apply any_wf_map in Hwf as [Hnd Hwf]. simpl.
    set (f := λ kv : string * any, t ← json_marshal kv.2; Some (kv.1, t)).
    assert (mapM f m = mapM f m2) as E12.
    { clear Heq Hp Hnd. induction Hm as [|[k x] [k' y] m m2 [Hk Hxy] Hm IHm]; [done|].
      apply Forall_cons in IH as [IHx IH]. apply Forall_cons in Hwf as [Hx Hwf].
      simpl in Hk, Hxy, IHx, Hx. subst k'.
      assert (f (k, x) = f (k, y)) as Hf by (unfold f; simpl; by rewrite (IHx y)).
      cbn [mapM]. rewrite Hf. by rewrite IHm. }
    pose proof (mapM_perm f _ _ Hp) as Hm23. rewrite E12.
    destruct (mapM f m2) as [e2|] eqn:E2, (mapM f m3) as [e3|] eqn:E3; simpl in *; try done.
    rewrite (isort_entries_perm e2 e3); [done| |done].
    rewrite (mapM_keys _ _ _ E12). done.
Qed.

Lemma any_equiv_map_inv m1 v2 :
  any_equiv (AMap m1) v2 →
  ∃ m2 m3, v2 = AMap m3 ∧ Forall2 (λ p q, p.1 = q.1 ∧ any_equiv p.2 q.2) m1 m2 ∧ m2 ≡ₚ m3.
Proof.
  inversion 1; subst; [|eauto]. exists m1, m1. split_and!; try done.
  apply Forall_Forall2_diag, Forall_true. intros; split; [done|constructor].
Qed.

Lemma any_equiv_slice_inv l1 v2 :
  any_equiv (ASlice l1) v2 → ∃ l2, v2 = ASlice l2 ∧ Forall2 any_equiv l1 l2.
Proof.
  inversion 1; subst; [|eauto]. eexists; split; [done|].
  apply Forall_Forall2_diag, Forall_true. intros; constructor.
Qed.

Lemma entries_equiv_keys (m1 m2 : list (string * any)) :
  Forall2 (λ p q : string * any, p.1 = q.1 ∧ any_equiv p.2 q.2) m1 m2 → m1.*1 = m2.*1.
Proof. induction 1 as [|p q m1 m2 [Hk _] _ IH]; csimpl; congruence. Qed.

(** Corresponding entries are found under the same keys. *)
Lemma assoc_equiv k (m1 m2 m3 : list (string * any)) :
  NoDup m1.*1 → Forall2 (λ p q, p.1 = q.1 ∧ any_equiv p.2 q.2) m1 m2 → m2 ≡ₚ m3 →
  option_Forall2 any_equiv (assoc k m1) (assoc k m3).
Proof.
  intros Hnd Hm Hp. rewrite <-(assoc_perm k m2 m3); [| |done].
  - clear Hp Hnd. induction Hm as [|[k1 v1] [k2 v2] m1 m2 [Hk Hv] Hm IH]; simpl in *; [constructor|].
    subst k2. destruct (String.eqb k k1); [by constructor|done].
  - by rewrite <-(entries_equiv_keys _ _ Hm).
Qed.

(* ------------------------------------------------------------------ *)
(** ** Errors *)
(* ------------------------------------------------------------------ *)

(** A Go error is kept as the code built it: a package-level sentinel, an
    [fmt.Errorf] with its format and arguments, or a structured error with a
    field.  [FW] is a [%w] argument, which [errors.Is] follows; [FV] is an error
    printed with [%v] or [%s], which it does not. *)
Inductive error : Type :=
| ESentinel (name : string)
| EFmt (format : string) (args : list farg)
| EValidation (Field : string) (format : string) (args : list farg)
with farg : Type :=
| FS (s : string)
| FI (z : Z)
| FA (v : any)
| FL (l : list string)
| FW (e : error)
| FV (e : error)
| FEs (es : list error).

Definition FN (n : nat) : farg := FI (Z.of_nat n).

(** [errors.Is(e, target)] for a sentinel target. *)
Fixpoint errors_is (target : string) (e : error) : bool :=
  match e with
  | ESentinel s => String.eqb s target
  | EFmt _ args => existsb (farg_is target) args
  | EValidation _ _ _ => false
  end
with farg_is (target : string) (a : farg) : bool :=
  match a with FW e => errors_is target e | _ => false end.
