(* ===== verification/Json.v ===== *)
(** JSON documents: [encoding/json] as the program uses it, from the text of a
    document to its tree and back. What the decoder makes of a text is computed, so
    that a round trip through bytes is a theorem. [GoValue.json_marshal] is the
    encoder of dynamic values. *)
From S2P Require Export GoValue.
From Stdlib Require Import Ascii.

(** A document; a number is kept as its literal. *)
Inductive json : Type :=
| JNull
| JBool (b : bool)
| JNum (lit : string)
| JStr (s : string)
| JArr (l : list json)
| JObj (m : list (string * json)).

Section json_ind'.
Variable P : json → Prop.
Hypothesis HNull : P JNull.
Hypothesis HBool : ∀ b, P (JBool b).
Hypothesis HNum : ∀ s, P (JNum s).
Hypothesis HStr : ∀ s, P (JStr s).
Hypothesis HArr : ∀ l, Forall P l → P (JArr l).
Hypothesis HObj : ∀ m, Forall (λ kv, P kv.2) m → P (JObj m).

Fixpoint json_ind' (v : json) : P v :=
  match v with
  | JNull => HNull
  | JBool b => HBool b
  | JNum s => HNum s
  | JStr s => HStr s
  | JArr l => HArr l ((fix go l := match l return Forall P l with
      | [] => Forall_nil_2 _
      | x :: l => Forall_cons_2 _ _ _ (json_ind' x) (go l) end) l)
  | JObj m => HObj m ((fix go m := match m return Forall (λ kv, P kv.2) m with
      | [] => Forall_nil_2 _
      | kv :: m => Forall_cons_2 _ _ _ (json_ind' kv.2) (go m) end) m)
  end.
End json_ind'.

(* ------------------------------------------------------------------ *)
(** ** Writing *)
(* ------------------------------------------------------------------ *)

(** The text without insignificant blanks, the members in their order. *)
Fixpoint print (v : json) : string :=
  match v with
  | JNull => "null"
  | JBool b => fmt_bool b
  | JNum lit => lit
  | JStr s => json_string s
  | JArr l => "[" +:+ join "," (map print l) +:+ "]"
  | JObj m => "{" +:+ join "," (map (λ e, json_string e.1 +:+ ":" +:+ print e.2) m) +:+ "}"
  end.

(* ------------------------------------------------------------------ *)
(** ** Reading strings *)
(* ------------------------------------------------------------------ *)

Definition replacement : string := bytes [239; 191; 189].

Definition hex_val (c : ascii) : option Z :=
  let n := Z.of_nat (nat_of_ascii c) in
  if (48 <=? n)%Z && (n <=? 57)%Z then Some (n - 48)%Z
  else if (65 <=? n)%Z && (n <=? 70)%Z then Some (n - 55)%Z
  else if (97 <=? n)%Z && (n <=? 102)%Z then Some (n - 87)%Z
  else None.
Definition hex4 (a b c d : ascii) : option Z :=
  a ← hex_val a; b ← hex_val b; c ← hex_val c; d ← hex_val d;
  Some (((a * 16 + b) * 16 + c) * 16 + d)%Z.

Definition byte_char (n : Z) : ascii := ascii_of_nat (Z.to_nat n).

(** [utf8.EncodeRune] of a code point. *)
Definition encode_rune (r : Z) : string :=
  if (r <? 128)%Z then String (byte_char r) ""
  else if (r <? 2048)%Z then
    String (byte_char (192 + r / 64)) (String (byte_char (128 + r mod 64)) "")
  else if (55296 <=? r)%Z && (r <? 57344)%Z then replacement
  else if (r <? 65536)%Z then
    String (byte_char (224 + r / 4096))
      (String (byte_char (128 + r / 64 mod 64)) (String (byte_char (128 + r mod 64)) ""))
  else
    String (byte_char (240 + r / 262144))
      (String (byte_char (128 + r / 4096 mod 64))
         (String (byte_char (128 + r / 64 mod 64)) (String (byte_char (128 + r mod 64)) ""))).

Definition is_high (r : Z) : bool := (55296 <=? r)%Z && (r <? 56320)%Z.
Definition is_low (r : Z) : bool := (56320 <=? r)%Z && (r <? 57344)%Z.
Definition pair_rune (hi lo : Z) : Z := ((hi - 55296) * 1024 + (lo - 56320) + 65536)%Z.

(** One character escaped with a single letter. *)
Definition simple_escape (c : ascii) : option ascii :=
  if Ascii.eqb c "034" || Ascii.eqb c backslash || Ascii.eqb c "/" then Some c
  else if Ascii.eqb c "b" then Some "008"%char
  else if Ascii.eqb c "f" then Some "012"%char
  else if Ascii.eqb c "n" then Some "010"%char
  else if Ascii.eqb c "r" then Some "013"%char
  else if Ascii.eqb c "t" then Some "009"%char
  else None.

Definition put (t : string) (r : option (string * string)) : option (string * string) :=
  '(u, rest) ← r; Some (t +:+ u, rest).

(** The text up to the closing quote and what follows; [skip] bytes of a character
    are still to be copied. Bytes that are no UTF-8 and unpaired surrogates become
    the replacement character; control characters are refused. *)
Fixpoint unquote (skip : nat) (s : string) : option (string * string) :=
  match s with
  | "" => None
  | String c s1 =>
      match skip with
      | S k => put (String c "") (unquote k s1)
      | 0 =>
          if Ascii.eqb c "034" then Some ("", s1)
          else if Ascii.eqb c backslash then
            match s1 with
            | String "u" (String h1 (String h2 (String h3 (String h4 s2)))) =>
                match hex4 h1 h2 h3 h4 with
                | None => None
                | Some r =>
                    if is_high r then
                      match s2 with
                      | String e (String "u" (String l1 (String l2 (String l3 (String l4 s3))))) =>
                          match hex4 l1 l2 l3 l4 with
                          | Some lo =>
                              if Ascii.eqb e backslash && is_low lo
                              then put (encode_rune (pair_rune r lo)) (unquote 0 s3)
                              else put replacement (unquote 0 s2)
                          | None => put replacement (unquote 0 s2)
                          end
                      | _ => put replacement (unquote 0 s2)
                      end
                    else put (encode_rune r) (unquote 0 s2)
                end
            | String e s2 =>
                match simple_escape e with
                | Some d => put (String d "") (unquote 0 s2)
                | None => None
                end
            | "" => None
            end
          else if nat_of_ascii c <? 32 then None
          else if nat_of_ascii c <? 128 then put (String c "") (unquote 0 s1)
          else match utf8_len s with
               | S k => put (String c "") (unquote k s1)
               | 0 => put replacement (unquote 0 s1)
               end
      end
  end.

(** A string as it comes back: what is no UTF-8 is replaced. *)
Fixpoint utf8_fix (skip : nat) (s : string) : string :=
  match s with
  | "" => ""
  | String c s1 =>
      match skip with
      | S k => String c (utf8_fix k s1)
      | 0 =>
          if nat_of_ascii c <? 128 then String c (utf8_fix 0 s1)
          else match utf8_len s with
               | S k => String c (utf8_fix k s1)
               | 0 => replacement +:+ utf8_fix 0 s1
               end
      end
  end.
Definition utf8_valid (s : string) : Prop := utf8_fix 0 s = s.

(* ------------------------------------------------------------------ *)
(** ** Strings, verified *)
(* ------------------------------------------------------------------ *)

Lemma put_Some t r u rest : r = Some (u, rest) → put t r = Some (t +:+ u, rest).
Proof. by intros ->. Qed.

(** What the encoder writes for one ASCII character is that character. *)
Lemma unquote_ascii c t :
  nat_of_ascii c <? 128 = true → unquote 0 (json_ascii c +:+ t) = put (String c "") (unquote 0 t).
Proof. destruct c as [[] [] [] [] [] [] [] []]; intros Hc; first [discriminate Hc|reflexivity]. Qed.

(** A character is its first bytes, and its length depends on nothing else. *)
Lemma utf8_len_prefix s k :
  utf8_len s = S k →
  ∃ c p t, s = String c (p +:+ t) ∧ slen p = k ∧ 128 ≤ nat_of_ascii c ∧
           ∀ t', utf8_len (String c (p +:+ t')) = S k.
Proof.
  intros Hl. destruct s as [|a [|b s2]]; try done.
  assert (Hb : ∀ c t, utf8_len (String c t) = S k → 128 ≤ nat_of_ascii c).
  { intros c t Hc. destruct (decide (128 ≤ nat_of_ascii c)) as [Ha|Ha]; [done|exfalso]. revert Hc.
    cbn [utf8_len]. cbv zeta. rewrite !(proj2 (Nat.leb_gt _ (nat_of_ascii c))) by lia. simpl.
    by destruct t as [|? [|? [|? ?]]]. }
  pose proof (Hb _ _ Hl) as Ha. clear Hb. cbn [utf8_len] in Hl. cbv zeta in Hl.
  destruct ((194 <=? nat_of_ascii a) && (nat_of_ascii a <=? 223)) eqn:E2.
  { exists a, (String b ""), s2. case_match eqn:Eb; [|done]. injection Hl as <-.
    do 3 (split; [first [reflexivity|exact Ha]|]). intros t'. cbn [utf8_len String.append]. cbv zeta. by rewrite E2, Eb. }
  destruct s2 as [|c s3]; [done|]. destruct ((224 <=? nat_of_ascii a) && (nat_of_ascii a <=? 239)) eqn:E3.
  { exists a, (String b (String c "")), s3. case_match eqn:Eb; [|done]. injection Hl as <-.
    do 3 (split; [first [reflexivity|exact Ha]|]). intros t'. cbn [utf8_len String.append]. cbv zeta. by rewrite E2, E3, Eb. }
  destruct s3 as [|d s4]; [done|]. destruct ((240 <=? nat_of_ascii a) && (nat_of_ascii a <=? 244)) eqn:E4; [|done].
  exists a, (String b (String c (String d ""))), s4. case_match eqn:Eb; [|done]. injection Hl as <-.
  do 3 (split; [first [reflexivity|exact Ha]|]). intros t'. cbn [utf8_len String.append]. cbv zeta. by rewrite E2, E3, E4, Eb.
Qed.

Lemma escape_skip p t emit :
  json_escape (slen p) emit (p +:+ t) = (if emit then p else "") +:+ json_escape 0 true t.
Proof.
  induction p as [|c p IH]; simpl.
  - by destruct emit, t.
  - rewrite IH. by destruct emit.
Qed.

Lemma unquote_skip p t : unquote (slen p) (p +:+ t) = put p (unquote 0 t).
Proof.
  induction p as [|c p IH]; simpl.
  - by destruct (unquote 0 t) as [[]|].
  - rewrite IH. by destruct (unquote 0 t) as [[]|].
Qed.

Lemma fix_skip p t : utf8_fix (slen p) (p +:+ t) = p +:+ utf8_fix 0 t.
Proof. induction p as [|c p IH]; simpl; [done|]. by rewrite IH. Qed.

Lemma unquote_char c p t k :
  slen p = k → 128 ≤ nat_of_ascii c → utf8_len (String c (p +:+ t)) = S k →
  unquote 0 (String c (p +:+ t)) = put (String c p) (unquote 0 t).
Proof.
  intros Hk Hc Hlen. cbn [unquote].
  replace (Ascii.eqb c "034") with false by (symmetry; apply Ascii.eqb_neq; intros ->; apply Nat.leb_le in Hc; discriminate Hc).
  replace (Ascii.eqb c backslash) with false by (symmetry; apply Ascii.eqb_neq; intros ->; apply Nat.leb_le in Hc; discriminate Hc).
  rewrite !(proj2 (Nat.ltb_ge _ _)) by lia. rewrite Hlen, <-Hk, unquote_skip.
  by destruct (unquote 0 t) as [[]|].
Qed.

Lemma line_sep_char s e : is_line_sep s = Some e →
  ∃ c p t, s = String c (p +:+ t) ∧ slen p = 2 ∧ 128 ≤ nat_of_ascii c ∧ utf8_len s = 3 ∧
    ∀ t', unquote 0 (e +:+ t') = put (String c p) (unquote 0 t').
Proof.
  unfold is_line_sep. destruct (has_prefix s (bytes [226; 128; 168])) eqn:E1;
    [|destruct (has_prefix s (bytes [226; 128; 169])) eqn:E2; [|done]]; intros [= <-].
  - apply has_prefix_spec in E1 as [t ->].
    exists (ascii_of_nat 226), (bytes [128; 168]), t. split_and!; try reflexivity. vm_compute. lia.
  - apply has_prefix_spec in E2 as [t ->].
    exists (ascii_of_nat 226), (bytes [128; 169]), t. split_and!; try reflexivity. vm_compute. lia.
Qed.

Lemma unquote_invalid t : unquote 0 (String backslash "ufffd" +:+ t) = put replacement (unquote 0 t).
Proof. reflexivity. Qed.

(** What the encoder writes between quotes is read back up to the quote. *)
Lemma unquote_escape s rest :
  unquote 0 (json_escape 0 true s +:+ String "034" rest) = Some (utf8_fix 0 s, rest).
Proof.
  remember (slen s) as n eqn:Hn. revert s Hn. induction (lt_wf n) as [n _ IH]. intros [|c s] ->; [done|].
  cbn [json_escape utf8_fix]. destruct (nat_of_ascii c <? 128) eqn:Hc.
  { rewrite sapp_assoc, unquote_ascii by done. rewrite (IH (slen s)); [done|simpl; lia|done]. }
  apply Nat.ltb_ge in Hc. destruct (is_line_sep (String c s)) as [e|] eqn:He.
  { apply line_sep_char in He as (c' & p & t & [= <- ->] & Hp & _ & Hl & Hu). rewrite Hl.
    replace 2 with (slen p). rewrite escape_skip, fix_skip. cbn [String.append]. rewrite sapp_assoc, Hu.
    rewrite (IH (slen t)); [done|simpl; rewrite slen_app; lia|done]. }
  destruct (utf8_len (String c s)) as [|k] eqn:Hl.
  { rewrite sapp_assoc, unquote_invalid.
    rewrite (IH (slen s)); [done|simpl; lia|done]. }
  apply utf8_len_prefix in Hl as (c' & p & t & [= <- ->] & <- & _ & Hu).
  rewrite escape_skip, fix_skip. cbn [String.append]. rewrite sapp_assoc, (unquote_char c p _ (slen p)) by done.
  rewrite (IH (slen t)); [done|simpl; rewrite slen_app; lia|done].
Qed.

(* ------------------------------------------------------------------ *)
(** ** Reading documents *)
(* ------------------------------------------------------------------ *)

Definition is_ws (c : ascii) : bool :=
  Ascii.eqb c " " || Ascii.eqb c "009" || Ascii.eqb c "010" || Ascii.eqb c "013".
Fixpoint skip_ws (s : string) : string :=
  match s with String c s' => if is_ws c then skip_ws s' else s | "" => "" end.

Fixpoint skip_digits (s : string) : string :=
  match s with String c s' => if is_digit c then skip_digits s' else s | "" => "" end.
(** At least one digit. *)
Definition digits_end (s : string) : option string :=
  match s with String c s' => if is_digit c then Some (skip_digits s') else None | "" => None end.
Definition int_end (s : string) : option string :=
  match s with String c s' => if Ascii.eqb c "0" then Some s' else digits_end s | "" => None end.
Definition frac_end (s : string) : option string :=
  match s with String c s' => if Ascii.eqb c "." then digits_end s' else Some s | "" => Some "" end.
Definition drop_sign (s : string) : string :=
  match s with String c s' => if Ascii.eqb c "+" || Ascii.eqb c "-" then s' else s | "" => "" end.
Definition exp_end (s : string) : option string :=
  match s with
  | String c s' => if Ascii.eqb c "e" || Ascii.eqb c "E" then digits_end (drop_sign s') else Some s
  | "" => Some ""
  end.
Definition drop_minus (s : string) : string :=
  match s with String c s' => if Ascii.eqb c "-" then s' else s | "" => "" end.
Definition number_end (s : string) : option string :=
  s ← int_end (drop_minus s); s ← frac_end s; exp_end s.
Definition parse_number (s : string) : option (string * string) :=
  rest ← number_end s; Some (stake (slen s - slen rest) s, rest).

Section sequences.
Context {A : Type} (item : string → option (A * string)).

(** Items with commas between them, up to the closing bracket. *)
Fixpoint parse_seq (close : ascii) (fuel : nat) (s : string) : option (list A * string) :=
  match fuel with
  | 0 => None
  | S fuel =>
      '(x, s) ← item s;
      match skip_ws s with
      | String c s =>
          if Ascii.eqb c "," then '(xs, s) ← parse_seq close fuel s; Some (x :: xs, s)
          else if Ascii.eqb c close then Some ([x], s) else None
      | "" => None
      end
  end.

Definition parse_items (close : ascii) (fuel : nat) (s : string) : option (list A * string) :=
  match skip_ws s with
  | String c s' => if Ascii.eqb c close then Some ([], s') else parse_seq close fuel s
  | "" => None
  end.
End sequences.

Definition parse_member {A : Type} (value : string → option (A * string)) (s : string) :
    option ((string * A) * string) :=
  match skip_ws s with
  | String c s =>
      if Ascii.eqb c "034" then
        '(k, s) ← unquote 0 s;
        match skip_ws s with
        | String c s => if Ascii.eqb c ":" then '(v, s) ← value s; Some ((k, v), s) else None
        | "" => None
        end
      else None
  | "" => None
  end.

(** [depth] levels of arrays and objects may still be opened. *)
Fixpoint parse_value (fuel : nat) (depth : Z) (s : string) : option (json * string) :=
  match fuel with
  | 0 => None
  | S fuel =>
      let s := skip_ws s in
      match s with
      | "" => None
      | String c s' =>
          if Ascii.eqb c "{" then
            if (depth <=? 0)%Z then None
            else '(m, s) ← parse_items (parse_member (parse_value fuel (depth - 1))) "}" fuel s';
                 Some (JObj m, s)
          else if Ascii.eqb c "[" then
            if (depth <=? 0)%Z then None
            else '(l, s) ← parse_items (parse_value fuel (depth - 1)) "]" fuel s'; Some (JArr l, s)
          else if Ascii.eqb c "034" then '(t, s) ← unquote 0 s'; Some (JStr t, s)
          else if has_prefix s "true" then Some (JBool true, sdrop 4 s)
          else if has_prefix s "false" then Some (JBool false, sdrop 5 s)
          else if has_prefix s "null" then Some (JNull, sdrop 4 s)
          else '(lit, s) ← parse_number s; Some (JNum lit, s)
      end
  end.

(** The scanner's limit on nesting. *)
Definition maxNestingDepth : Z := 10000.

(** Each call to [parse_value] and each item consumes a byte, so that the length
    of the text is fuel enough. *)
Definition parse (s : string) : option json :=
  match parse_value (S (slen s)) maxNestingDepth s with
  | Some (v, rest) => if String.eqb (skip_ws rest) "" then Some v else None
  | None => None
  end.

(* ------------------------------------------------------------------ *)
(** ** Documents, verified *)
(* ------------------------------------------------------------------ *)

(** A text that does not go on with a number. *)
Definition num_stop (s : string) : bool :=
  match s with
  | String c _ => negb (is_digit c || Ascii.eqb c "." || Ascii.eqb c "e" || Ascii.eqb c "E")
  | "" => true
  end.

Lemma num_stop_cons c s : num_stop (String c s) = true →
  is_digit c = false ∧ Ascii.eqb c "." = false ∧ Ascii.eqb c "e" = false ∧ Ascii.eqb c "E" = false.
Proof. unfold num_stop. rewrite negb_true_iff, !orb_false_iff. tauto. Qed.

Lemma skip_digits_app a rest : num_stop rest = true → skip_digits (a +:+ rest) = skip_digits a +:+ rest.
Proof.
  intros Hr. induction a as [|c a IH]; simpl.
  - destruct rest as [|c rest]; [done|]. apply num_stop_cons in Hr as (Hr & _). simpl. by rewrite Hr.
  - by destruct (is_digit c).
Qed.

Lemma digits_end_app a b rest :
  num_stop rest = true → digits_end a = Some b → digits_end (a +:+ rest) = Some (b +:+ rest).
Proof.
  intros Hr. destruct a as [|c a]; [done|]. simpl. destruct (is_digit c); [|done].
  intros [= <-]. by rewrite skip_digits_app.
Qed.

Lemma int_end_app a b rest :
  num_stop rest = true → int_end a = Some b → int_end (a +:+ rest) = Some (b +:+ rest).
Proof.
  intros Hr. destruct a as [|c a]; [done|]. cbn [int_end String.append]. destruct (Ascii.eqb c "0").
  - by intros [= <-].
  - by apply (digits_end_app (String c a)).
Qed.

Lemma frac_end_app a b rest :
  num_stop rest = true → frac_end a = Some b → frac_end (a +:+ rest) = Some (b +:+ rest).
Proof.
  intros Hr. destruct a as [|c a]; cbn [frac_end String.append].
  - intros [= <-]. destruct rest as [|c rest]; [done|]. apply num_stop_cons in Hr as (_ & Hr & _). simpl. by rewrite Hr.
  - destruct (Ascii.eqb c "."); [by apply digits_end_app|by intros [= <-]].
Qed.

Lemma exp_end_app a b rest :
  num_stop rest = true → exp_end a = Some b → exp_end (a +:+ rest) = Some (b +:+ rest).
Proof.
  intros Hr. destruct a as [|c a]; cbn [exp_end String.append].
  - intros [= <-]. destruct rest as [|c rest]; [done|]. apply num_stop_cons in Hr as (_ & _ & He & HE).
    simpl. by rewrite He, HE.
  - destruct (_ || _); [|by intros [= <-]]. destruct a as [|d a]; [done|]. cbn [drop_sign String.append].
    destruct (_ || _); [by apply digits_end_app|by apply (digits_end_app (String d a))].
Qed.

(** A literal of a number. *)
Definition num_lit (lit : string) : Prop := number_end lit = Some "".

Lemma number_end_app lit rest : num_lit lit → num_stop rest = true → number_end (lit +:+ rest) = Some rest.
Proof.
  unfold num_lit, number_end. intros Hl Hr.
  assert (Hm : lit ≠ "" → drop_minus (lit +:+ rest) = drop_minus lit +:+ rest).
  { destruct lit as [|c lit]; [done|]. intros _. simpl. by destruct (Ascii.eqb c "-"). }
  rewrite Hm by (by intros ->).
  destruct (int_end _) as [a|] eqn:Ha; simpl in Hl; [|done]. rewrite (int_end_app _ _ _ Hr Ha). simpl.
  destruct (frac_end a) as [b|] eqn:Hb; simpl in Hl; [|done]. rewrite (frac_end_app _ _ _ Hr Hb). simpl.
  by rewrite (exp_end_app _ _ _ Hr Hl).
Qed.

Lemma parse_number_app lit rest : num_lit lit → num_stop rest = true → parse_number (lit +:+ rest) = Some (lit, rest).
Proof.
  intros Hl Hr. unfold parse_number. rewrite number_end_app by done. simpl. rewrite slen_app.
  replace (slen lit + slen rest - slen rest) with (slen lit) by lia. by rewrite stake_app.
Qed.

(** A document as it comes back, and what makes its text one. *)
Fixpoint fix_json (v : json) : json :=
  match v with
  | JStr s => JStr (utf8_fix 0 s)
  | JArr l => JArr (map fix_json l)
  | JObj m => JObj (map (λ e, (utf8_fix 0 e.1, fix_json e.2)) m)
  | _ => v
  end.
Fixpoint lits_ok (v : json) : Prop :=
  match v with
  | JNum lit => num_lit lit
  | JArr l => foldr (λ x p, lits_ok x ∧ p) True l
  | JObj m => foldr (λ e p, lits_ok e.2 ∧ p) True m
  | _ => True
  end.
Fixpoint nesting (v : json) : Z :=
  match v with
  | JArr l => 1 + foldr (λ x n, Z.max (nesting x) n) 0 l
  | JObj m => 1 + foldr (λ e n, Z.max (nesting e.2) n) 0 m
  | _ => 0
  end%Z.

Lemma lits_ok_arr l : lits_ok (JArr l) ↔ Forall lits_ok l.
Proof. apply all_of_Forall. Qed.
Lemma lits_ok_obj m : lits_ok (JObj m) ↔ Forall (λ e, lits_ok e.2) m.
Proof. simpl. rewrite <-all_of_Forall. unfold all_of. done. Qed.

Lemma foldr_max_bound {A} (f : A → Z) l d :
  (foldr (λ x n, Z.max (f x) n) 0 l ≤ d)%Z → Forall (λ x, (f x ≤ d)%Z) l.
Proof. induction l as [|x l IH]; simpl; intros H; constructor; [lia|apply IH; lia]. Qed.

(** The first byte of a document. *)
Definition value_start (c : ascii) : bool :=
  negb (is_ws c) && negb (Ascii.eqb c "]") && negb (Ascii.eqb c "}") && negb (Ascii.eqb c ",").

Lemma num_lit_head lit : num_lit lit → ∃ c t, lit = String c t ∧ (is_digit c || Ascii.eqb c "-") = true.
Proof.
  destruct lit as [|c t]; [done|]. intros H. exists c, t. split; [done|]. unfold num_lit, number_end in H.
  cbn [drop_minus] in H. destruct (Ascii.eqb c "-"); [by rewrite orb_true_r|]. rewrite orb_false_r.
  cbn [int_end digits_end] in H. destruct (Ascii.eqb_spec c "0") as [->|]; [done|].
  by destruct (is_digit c).
Qed.

Lemma digit_cases (P : ascii → Prop) :
  P "-"%char → P "0"%char → P "1"%char → P "2"%char → P "3"%char → P "4"%char → P "5"%char → P "6"%char →
  P "7"%char → P "8"%char → P "9"%char → ∀ c, (is_digit c || Ascii.eqb c "-") = true → P c.
Proof. intros. destruct c as [[] [] [] [] [] [] [] []]; try done; by vm_compute in H10. Qed.

Lemma print_head v : lits_ok v → ∃ c t, print v = String c t ∧ value_start c = true.
Proof.
  destruct v as [|[]|lit|s|l|m]; intros Hv; try (by eexists _, _).
  apply num_lit_head in Hv as (c & t & -> & Hc). exists c, t. split; [done|]. revert c Hc. by apply digit_cases.
Qed.

Lemma skip_ws_start c t : value_start c = true → skip_ws (String c t) = String c t.
Proof. unfold value_start. simpl. destruct (is_ws c); [done|]. done. Qed.

Lemma parse_seq_join {A B} (item : string → option (B * string)) (pr : A → string) (fx : A → B) close l rest fuel :
  l ≠ [] → Ascii.eqb close "," = false → is_ws close = false → num_stop (String close rest) = true →
  Forall (λ x, ∀ t, num_stop t = true → item (pr x +:+ t) = Some (fx x, t)) l → length l ≤ fuel →
  parse_seq item close fuel (join "," (map pr l) +:+ String close rest) = Some (map fx l, rest).
Proof.
  intros Hne Hcomma Hws Hstop Hall. revert fuel. induction Hall as [|x l Hx Hall IH]; [done|].
  intros [|fuel] Hf; [simpl in Hf; lia|]. cbn [map]. destruct l as [|y l].
  - simpl. rewrite Hx by done. simpl. by rewrite Hws, Hcomma, Ascii.eqb_refl.
  - rewrite join_cons by done. rewrite !sapp_assoc. cbn [parse_seq]. rewrite Hx by done. cbn.
    rewrite IH; [done|done|simpl in *; lia].
Qed.

Lemma join_length {A} (pr : A → string) (l : list A) x :
  x ∈ l → slen (pr x) ≤ slen (join "," (map pr l)).
Proof.
  induction l as [|y l IH]; [by intros ?%elem_of_nil|]. intros [->|Hx]%elem_of_cons; cbn [map].
  - destruct l; [done|]. rewrite join_cons, !slen_app by done. lia.
  - specialize (IH Hx). destruct l as [|z l]; [by apply elem_of_nil in Hx|].
    rewrite join_cons, !slen_app by done. lia.
Qed.

Lemma join_count {A} (pr : A → string) (l : list A) :
  Forall (λ x, 1 ≤ slen (pr x)) l → length l ≤ slen (join "," (map pr l)).
Proof.
  induction 1 as [|x l Hx Hall IH]; [simpl; lia|]. cbn [map length]. destruct l as [|y l]; [done|].
  rewrite join_cons, !slen_app by done. simpl slen at 2. lia.
Qed.

Lemma parse_items_join {A B} (item : string → option (B * string)) (pr : A → string) (fx : A → B) close l rest fuel :
  Ascii.eqb close "," = false → is_ws close = false → num_stop (String close rest) = true →
  Forall (λ x, ∃ c t, pr x = String c t ∧ is_ws c = false ∧ Ascii.eqb c close = false) l →
  Forall (λ x, ∀ t, num_stop t = true → item (pr x +:+ t) = Some (fx x, t)) l → length l ≤ fuel →
  parse_items item close fuel (join "," (map pr l) +:+ String close rest) = Some (map fx l, rest).
Proof.
  intros Hcomma Hws Hstop Hheads Hall Hf. unfold parse_items. destruct l as [|x l].
  { simpl. by rewrite Hws, Ascii.eqb_refl. }
  apply Forall_cons in Hheads as [(c & t & Hx & Hc & Hne) _].
  assert (Hhead : ∃ t', join "," (map pr (x :: l)) +:+ String close rest = String c t').
  { cbn [map]. destruct l; [simpl join|rewrite join_cons by done]; rewrite Hx; by eexists. }
  destruct Hhead as [t' Ht]. rewrite Ht. simpl. rewrite Hc, Hne. rewrite <-Ht.
  by rewrite (parse_seq_join item pr fx) by done.
Qed.

Lemma parse_value_num c t fuel depth :
  (is_digit c || Ascii.eqb c "-") = true →
  parse_value (S fuel) depth (String c t) = '(lit, s) ← parse_number (String c t); Some (JNum lit, s).
Proof. revert c. by apply digit_cases. Qed.

Lemma json_string_app s rest :
  json_string s +:+ rest = String "034" (json_escape 0 true s +:+ String "034" rest).
Proof. unfold json_string. by rewrite !sapp_assoc. Qed.

Lemma parse_member_print {A} (value : string → option (A * string)) k v x t :
  value (v +:+ t) = Some (x, t) →
  parse_member value ((json_string k +:+ ":" +:+ v) +:+ t) = Some ((utf8_fix 0 k, x), t).
Proof.
  intros Hv. rewrite !sapp_assoc, json_string_app. unfold parse_member. rewrite (skip_ws_start "034") by done.
  change (Ascii.eqb "034" "034") with true. cbv iota. rewrite unquote_escape. simpl. by rewrite Hv.
Qed.

(** Reading what was written: the document with its texts repaired, and what
    followed it. *)
Lemma parse_value_print v fuel depth rest :
  lits_ok v → (nesting v ≤ depth)%Z → slen (print v) < fuel → num_stop rest = true →
  parse_value fuel depth (print v +:+ rest) = Some (fix_json v, rest).
Proof.
  revert fuel depth rest. induction v as [|[]|lit|s|l IH|m IH] using json_ind'; intros [|fuel] depth rest Hv Hd Hf Hr;
    try (simpl in Hf; lia).
  1-3: by destruct rest.
  - destruct (num_lit_head lit Hv) as (c & t & -> & Hc). cbn [print].
    change (String c t +:+ rest) with (String c (t +:+ rest)). rewrite parse_value_num by done.
    change (String c (t +:+ rest)) with (String c t +:+ rest). by rewrite parse_number_app.
  - cbn [print parse_value]. rewrite json_string_app, (skip_ws_start "034") by done. cbv zeta.
    simpl Ascii.eqb. cbv iota. by rewrite unquote_escape.
  - apply lits_ok_arr in Hv. cbn [nesting] in Hd.
    assert (Hmax : Forall (λ x, (nesting x ≤ depth - 1)%Z) l) by (apply foldr_max_bound; lia).
    cbn [print] in *. rewrite !slen_app in Hf. simpl slen in Hf. rewrite !sapp_assoc.
    cbn [parse_value String.append]. simpl skip_ws. cbv zeta. simpl Ascii.eqb. cbv iota.
    destruct (Z.leb_spec depth 0); [|rewrite (parse_items_join _ print fix_json); try done].
    + exfalso. enough (0 ≤ foldr (λ x n, Z.max (nesting x) n) 0 l)%Z by lia. clear. induction l; simpl; lia.
    + eapply Forall_impl; [exact Hv|]. intros x Hx. destruct (print_head x Hx) as (c & t & -> & Hc).
      exists c, t. split; [done|]. unfold value_start in Hc. rewrite !andb_true_iff, !negb_true_iff in Hc. naive_solver.
    + rewrite Forall_forall in IH, Hv, Hmax |- *. intros x Hx t Ht. apply IH; auto.
      pose proof (join_length print l x Hx). lia.
    + etransitivity; [apply (join_count print)|lia]. eapply Forall_impl; [exact Hv|]. intros x Hx.
      destruct (print_head x Hx) as (c & t & -> & _). simpl. lia.
  - apply lits_ok_obj in Hv. cbn [nesting] in Hd.
    assert (Hmax : Forall (λ e, (nesting e.2 ≤ depth - 1)%Z) m) by (apply foldr_max_bound; lia).
    cbn [print] in *. set (pr := λ e : string * json, json_string e.1 +:+ ":" +:+ print e.2) in *.
    rewrite !slen_app in Hf. change (slen "{") with 1 in Hf. change (slen "}") with 1 in Hf. rewrite !sapp_assoc.
    cbn [parse_value String.append]. simpl skip_ws. cbv zeta. simpl Ascii.eqb. cbv iota.
    destruct (Z.leb_spec depth 0);
      [|rewrite (parse_items_join _ pr (λ e, (utf8_fix 0 e.1, fix_json e.2))); try done].
    + exfalso. enough (0 ≤ foldr (λ e n, Z.max (nesting e.2) n) 0 m)%Z by lia. clear. induction m; simpl; lia.
    + apply Forall_forall. intros e _. by eexists _, _.
    + rewrite Forall_forall in IH, Hv, Hmax |- *. intros e He t Ht. unfold pr. apply parse_member_print.
      apply IH; auto. pose proof (join_length pr m e He) as Hl. unfold pr at 1 in Hl. rewrite !slen_app in Hl. lia.
    + etransitivity; [apply (join_count pr)|lia]. apply Forall_forall. intros e _. unfold pr, json_string. simpl. lia.
Qed.

(** A text is read back as the document it was written from. *)
Lemma parse_print v : lits_ok v → (nesting v ≤ maxNestingDepth)%Z → parse (print v) = Some (fix_json v).
Proof.
  intros Hv Hd. unfold parse. pose proof (parse_value_print v (S (slen (print v))) maxNestingDepth "" Hv Hd) as H.
  rewrite sapp_nil_r in H. rewrite H; [done|lia|done].
Qed.

(** An object ends at its brace, whatever follows. *)
Lemma parse_value_object m fuel depth rest :
  lits_ok (JObj m) → (nesting (JObj m) ≤ depth)%Z → slen (print (JObj m)) < fuel →
  parse_value fuel depth (print (JObj m) +:+ rest) = Some (fix_json (JObj m), rest).
Proof.
  intros Hv Hd Hf. destruct fuel as [|fuel]; [lia|].
  apply lits_ok_obj in Hv. cbn [nesting] in Hd.
  assert (Hmax : Forall (λ e, (nesting e.2 ≤ depth - 1)%Z) m) by (apply foldr_max_bound; lia).
  cbn [print] in *. set (pr := λ e : string * json, json_string e.1 +:+ ":" +:+ print e.2) in *.
  rewrite !slen_app in Hf. change (slen "{") with 1 in Hf. change (slen "}") with 1 in Hf. rewrite !sapp_assoc.
  cbn [parse_value String.append]. simpl skip_ws. cbv zeta. simpl Ascii.eqb. cbv iota.
  destruct (Z.leb_spec depth 0);
    [|rewrite (parse_items_join _ pr (λ e, (utf8_fix 0 e.1, fix_json e.2))); try done].
  - exfalso. enough (0 ≤ foldr (λ e n, Z.max (nesting e.2) n) 0 m)%Z by lia. clear. induction m; simpl; lia.
  - apply Forall_forall. intros e _. by eexists _, _.
  - rewrite Forall_forall in Hv, Hmax |- *. intros e He t Ht. unfold pr. apply parse_member_print.
    pose proof (join_length pr m e He) as Hl. unfold pr at 1 in Hl. rewrite !slen_app in Hl.
    apply parse_value_print; auto. lia.
  - etransitivity; [apply (join_count pr)|lia]. apply Forall_forall. intros e _. unfold pr, json_string. simpl. lia.
Qed.

Lemma skip_ws_app a b : skip_ws (a +:+ b) = if String.eqb (skip_ws a) "" then skip_ws b else skip_ws a +:+ b.
Proof. induction a as [|c a IH]; simpl; [done|]. by destruct (is_ws c). Qed.

Lemma has_byte_skip_ws c s : is_ws c = false → has_byte c (skip_ws s) = has_byte c s.
Proof.
  intros Hc. induction s as [|d s IH]; [done|]. simpl. rewrite (has_byte_cons c d).
  destruct (is_ws d) eqn:Hd; [|by rewrite has_byte_cons]. rewrite IH.
  destruct (Ascii.eqb_spec c d) as [->|]; [congruence|done].
Qed.

(** What the first byte says of a document. *)
Lemma parse_value_kind fuel depth s v rest :
  parse_value fuel depth s = Some (v, rest) →
  match v with
  | JObj _ => ∃ t, skip_ws s = String "{" t
  | JNull => skip_ws s = "null" +:+ rest
  | _ => True
  end.
Proof.
  destruct fuel as [|fuel]; [done|]. cbn [parse_value]. cbv zeta. destruct (skip_ws s) as [|c t] eqn:E; [done|].
  destruct (Ascii.eqb_spec c "{") as [->|_].
  { destruct (depth <=? 0)%Z; [done|]. destruct (parse_items _ _ _ _) as [[m u]|]; [|done].
    intros [= <- <-]. eauto. }
  destruct (Ascii.eqb c "[").
  { destruct (depth <=? 0)%Z; [done|]. destruct (parse_items _ _ _ _) as [[m u]|]; [|done]. by intros [= <- <-]. }
  destruct (Ascii.eqb c "034"); [destruct (unquote 0 t) as [[u v']|]; [|done]; by intros [= <- <-]|].
  destruct (has_prefix (String c t) "true"); [by intros [= <- <-]|].
  destruct (has_prefix (String c t) "false"); [by intros [= <- <-]|].
  destruct (has_prefix (String c t) "null") eqn:En.
  { apply has_prefix_spec in En as [u En]. rewrite En. by intros [= <- <-]. }
  destruct (parse_number _) as [[lit u]|]; [|done]. by intros [= <- <-].
Qed.

Lemma parse_object_starts s m : parse s = Some (JObj m) → ∃ t, skip_ws s = String "{" t.
Proof.
  unfold parse. destruct (parse_value _ _ s) as [[v rest]|] eqn:E; [|done].
  destruct (String.eqb _ _); [|done]. intros [= ->]. by apply parse_value_kind in E.
Qed.

Lemma parse_null_text s : parse s = Some JNull → has_byte "{" s = false.
Proof.
  unfold parse. destruct (parse_value _ _ s) as [[v rest]|] eqn:E; [|done].
  destruct (String.eqb_spec (skip_ws rest) "") as [Hr|]; [|done]. intros [= ->].
  assert (E' : skip_ws s = "null" +:+ rest) by exact (parse_value_kind _ _ _ _ _ E).
  rewrite <-(has_byte_skip_ws "{" s eq_refl), E', has_byte_app, <-(has_byte_skip_ws "{" rest eq_refl), Hr. done.
Qed.

(** An object with other text around it that opens none: white space is passed
    over; with anything else the whole is no object, and not null. *)
Lemma parse_around pre m post :
  lits_ok (JObj m) → (nesting (JObj m) ≤ maxNestingDepth)%Z → has_byte "{" pre = false →
  let whole := parse (pre +:+ print (JObj m) +:+ post) in
  whole = Some (fix_json (JObj m)) ∨ ∀ d, whole = Some d → d ≠ JNull ∧ ∀ m', d ≠ JObj m'.
Proof.
  intros Hv Hd Hpre. set (s := pre +:+ print (JObj m) +:+ post).
  assert (Hnull : parse s ≠ Some JNull).
  { intros H%parse_null_text. unfold s in H. rewrite !has_byte_app in H. cbn [print] in H.
    rewrite !has_byte_app in H. change (has_byte "{" "{") with true in H. rewrite !orb_true_r in H. done. }
  destruct (String.eqb_spec (skip_ws pre) "") as [Hp|Hp].
  - assert (Hs : parse_value (S (slen s)) maxNestingDepth s = Some (fix_json (JObj m), post)).
    { assert (Hskip : skip_ws s = print (JObj m) +:+ post) by (unfold s; by rewrite skip_ws_app, Hp).
      rewrite <-(parse_value_object m (S (slen s)) maxNestingDepth post Hv Hd)
        by (unfold s; rewrite !slen_app; lia).
      cbn [parse_value]. by rewrite Hskip. }
    unfold parse. rewrite Hs. destruct (String.eqb (skip_ws post) ""); [by left|by right].
  - right. intros d Hd'. split; [congruence|]. intros m' ->. apply parse_object_starts in Hd' as [t Ht].
    unfold s in Ht. rewrite skip_ws_app in Ht. pose proof Hp as Hp'. apply String.eqb_neq in Hp' as Hp''. rewrite Hp'' in Ht.
    pose proof (has_byte_skip_ws "{" pre eq_refl) as Hb. rewrite Hpre in Hb.
    destruct (skip_ws pre) as [|c u]; [done|]. rewrite has_byte_cons in Hb.
    change (String c u +:+ print (JObj m) +:+ post) with (String c (u +:+ print (JObj m) +:+ post)) in Ht.
    injection Ht as -> _. simpl in Hb. done.
Qed.

(* ------------------------------------------------------------------ *)
(** ** Dynamic values as documents *)
(* ------------------------------------------------------------------ *)

(** The document [json.Marshal] writes. *)
Fixpoint to_json (v : any) : option json :=
  match v with
  | ANil => Some JNull
  | ABool b => Some (JBool b)
  | AInt z => Some (JNum (pretty z))
  | AFloat f => JNum <$> json_float f
  | AString s => Some (JStr s)
  | ASlice l => JArr <$> mapM to_json l
  | AMap m =>
      entries ← mapM (λ kv, d ← to_json kv.2; Some (kv.1, d)) m;
      Some (JObj (isort entry_leb entries))
  end.

(** [strconv.ParseFloat] on a literal: the nearest float64, an error if it is out
    of range. *)
Definition span_digits (s : string) : string * string :=
  (stake (slen s - slen (skip_digits s)) s, skip_digits s).
Definition is_minus (s : string) : bool := match s with String c _ => Ascii.eqb c "-" | "" => false end.
Definition read_exponent (s : string) : Z :=
  match s with
  | String _ s' => let e := dec_value 0 (drop_sign s') in if is_minus s' then (- e)%Z else e
  | "" => 0%Z
  end.
Definition read_float (lit : string) : option float64 :=
  let '(ip, s1) := span_digits (drop_minus lit) in
  let '(fp, s2) := match s1 with
                   | String c s' => if Ascii.eqb c "." then span_digits s' else ("", s1)
                   | "" => ("", "")
                   end in
  let f := dec_to_float (is_minus lit) (dec_value 0 (ip +:+ fp)) (read_exponent s2 - Z.of_nat (slen fp)) in
  if is_finite f then Some f else None.

(** [json.Unmarshal] into an [any]; of equal keys the last one counts. *)
Fixpoint to_any (d : json) : option any :=
  match d with
  | JNull => Some ANil
  | JBool b => Some (ABool b)
  | JNum lit => AFloat <$> read_float lit
  | JStr s => Some (AString s)
  | JArr l => ASlice <$> mapM to_any l
  | JObj m =>
      entries ← mapM (λ e, v ← to_any e.2; Some (e.1, v)) m;
      Some (AMap (foldl (λ m e, assoc_set e.1 e.2 m) [] entries))
  end.
Definition Unmarshal (s : string) : option any := d ← parse s; to_any d.

(** *** Writing *)

Lemma mapM_ext_in {A B} (f g : A → option B) l :
  (∀ x, x ∈ l → f x = g x) → mapM f l = mapM g l.
Proof.
  induction l as [|x l IH]; intros H; [done|]. cbn [mapM]. rewrite (H x) by set_solver.
  by rewrite IH by set_solver.
Qed.

Lemma mapM_fmap_opt {A B C} (f : A → option B) (g : B → C) l :
  mapM (λ x, g <$> f x) l = map g <$> mapM f l.
Proof. induction l as [|x l IH]; [done|]. cbn [mapM]. rewrite IH. by destruct (f x), (mapM f l). Qed.

Lemma isort_map {A B} (leA : A → A → bool) (leB : B → B → bool) (g : A → B) l :
  (∀ x y, leB (g x) (g y) = leA x y) → isort leB (map g l) = map g (isort leA l).
Proof.
  intros Hg. assert (Hi : ∀ x l, insert_sorted leB (g x) (map g l) = map g (insert_sorted leA x l)).
  { intros x k. induction k as [|y k IH]; simpl; [done|]. rewrite Hg. destruct (leA x y); [done|]. simpl. by rewrite IH. }
  induction l as [|x l IH]; [done|]. unfold isort in *. simpl. by rewrite IH, Hi.
Qed.

Lemma json_marshal_print v : json_marshal v = print <$> to_json v.
Proof.
  induction v as [|[]| |f|s|l IH|m IH] using any_ind'; try done.
  - simpl. by destruct (json_float f).
  - simpl. rewrite (mapM_ext_in _ (λ x, print <$> to_json x)) by (by apply Forall_forall).
    rewrite mapM_fmap_opt. by destruct (mapM to_json l).
  - simpl. rewrite (mapM_ext_in _ (λ kv, (λ e, (e.1, print e.2)) <$> (d ← to_json kv.2; Some (kv.1, d)))).
    2:{ intros kv Hkv. rewrite Forall_forall in IH. rewrite (IH kv Hkv). by destruct (to_json kv.2). }
    rewrite mapM_fmap_opt. destruct (mapM _ m) as [entries|]; [|done]. simpl.
    rewrite (isort_map entry_leb) by done. by rewrite map_map.
Qed.

(** *** Literals *)

Lemma pretty_N_head x s : (0 < x)%N →
  ∃ c t, pretty_N_go x s = String c t ∧ is_digit c = true ∧ Ascii.eqb c "0" = false.
Proof.
  revert s. induction (N.lt_wf_0 x) as [x _ IH]; intros s Hx. rewrite pretty_N_go_step by lia.
  destruct (decide (x `div` 10 = 0)%N) as [E|E].
  - rewrite E, pretty_N_go_0. eexists _, _. split; [done|]. assert (Hs : (x < 10)%N).
    { apply N.div_small_iff in E; lia. }
    rewrite N.mod_small by done.
    assert (x = 1 ∨ x = 2 ∨ x = 3 ∨ x = 4 ∨ x = 5 ∨ x = 6 ∨ x = 7 ∨ x = 8 ∨ x = 9)%N as Hc by lia.
    repeat destruct Hc as [->|Hc]; try subst x; done.
  - apply IH; [apply N.div_lt; lia|by apply N.neq_0_lt_0].
Qed.

Lemma skip_digits_all s : sall is_digit s = true → skip_digits s = "".
Proof. induction s as [|c s IH]; simpl; [done|]. intros H. bool_simp. rewrite H. by apply IH. Qed.

Lemma digits_lit p : int_end (pretty (N.pos p)) = Some "".
Proof.
  rewrite pretty_pos_go. destruct (pretty_N_head (N.pos p) "" ltac:(done)) as (c & t & E & Hc & H0).
  destruct (pretty_pos_digits p) as [Hd _]. rewrite pretty_pos_go, E in Hd. rewrite E.
  cbn [int_end digits_end]. rewrite H0, Hc. simpl in Hd. bool_simp. by rewrite skip_digits_all.
Qed.

Lemma pretty_lit (z : Z) : num_lit (pretty z).
Proof.
  destruct z as [|p|p]; [done| |]; unfold num_lit, number_end.
  - change (pretty (Z.pos p)) with (pretty (N.pos p)). destruct (pretty_pos_head p) as (c & s & E & Hc).
    rewrite E. cbn [drop_minus]. rewrite Hc, <-E, digits_lit. done.
  - change (pretty (Z.neg p)) with ("-" +:+ pretty (N.pos p)). simpl drop_minus. rewrite digits_lit. done.
Qed.

(** Rounding does not look at the sign. *)
Lemma round_opp m e l : SFopp (binary_round_aux fprec femax false m e l) = binary_round_aux fprec femax true m e l.
Proof. unfold binary_round_aux. repeat case_match; done. Qed.

Lemma normalize_opp p : SFopp (binary_normalize fprec femax (Z.pos p) 0 false) = f_of_Z (Z.neg p).
Proof. unfold f_of_Z. simpl. unfold binary_round. case_match. apply round_opp. Qed.

Lemma span_digits_all s : sall is_digit s = true → span_digits s = (s, "").
Proof. intros H. unfold span_digits. rewrite skip_digits_all by done. by rewrite Nat.sub_0_r, stake_all. Qed.

Lemma read_pretty (z : Z) : read_float (pretty z) = if is_finite (f_of_Z z) then Some (f_of_Z z) else None.
Proof.
  destruct z as [|p|p]; [done| |]; unfold read_float; destruct (pretty_pos_digits p) as [Hd Hv].
  - change (pretty (Z.pos p)) with (pretty (N.pos p)).
    destruct (pretty_pos_head p) as (c & s & E & Hc). rewrite E. cbn [drop_minus is_minus]. rewrite Hc, <-E.
    rewrite span_digits_all by done. rewrite sapp_nil_r, Hv. simpl read_exponent. simpl slen.
    unfold dec_to_float. simpl Z.leb. cbv iota. rewrite Z.mul_1_r. done.
  - change (pretty (Z.neg p)) with (String "-" (pretty (N.pos p))). cbn [drop_minus is_minus].
    change (Ascii.eqb "-" "-") with true. cbv iota.
    rewrite span_digits_all by done. rewrite sapp_nil_r, Hv. simpl read_exponent. simpl slen.
    unfold dec_to_float. simpl Z.leb. cbv iota. rewrite Z.mul_1_r, normalize_opp. done.
Qed.

(** *** A value after a round trip *)

Definition number (f : float64) : option any := if is_finite f then Some (AFloat f) else None.

(** What comes back: integers as floats, texts repaired, maps in the order of
    their keys. *)
Fixpoint as_decoded (v : any) : option any :=
  match v with
  | AInt z => number (f_of_Z z)
  | AString s => Some (AString (utf8_fix 0 s))
  | ASlice l => ASlice <$> mapM as_decoded l
  | AMap m =>
      entries ← mapM (λ kv, x ← as_decoded kv.2; Some (kv.1, x)) m;
      Some (AMap (foldl (λ m e, assoc_set e.1 e.2 m) []
                    (map (λ e, (utf8_fix 0 e.1, e.2)) (isort entry_leb entries))))
  | _ => Some v
  end.

(** The shortest decimal of a float is a literal that reads back as it. *)
Definition reads_back (f : float64) : Prop :=
  ∃ lit, json_float f = Some lit ∧ num_lit lit ∧ read_float lit = Some f.
Fixpoint floats_read_back (v : any) : Prop :=
  match v with
  | AFloat f => reads_back f
  | ASlice l => foldr (λ x p, floats_read_back x ∧ p) True l
  | AMap m => foldr (λ kv p, floats_read_back kv.2 ∧ p) True m
  | _ => True
  end.
Fixpoint any_nesting (v : any) : Z :=
  match v with
  | ASlice l => 1 + foldr (λ x n, Z.max (any_nesting x) n) 0 l
  | AMap m => 1 + foldr (λ kv n, Z.max (any_nesting kv.2) n) 0 m
  | _ => 0
  end%Z.

Lemma floats_slice l : floats_read_back (ASlice l) ↔ Forall floats_read_back l.
Proof. apply all_of_Forall. Qed.
Lemma floats_map m : floats_read_back (AMap m) ↔ Forall (λ kv, floats_read_back kv.2) m.
Proof. simpl. rewrite <-all_of_Forall. unfold all_of. done. Qed.

Lemma mapM_insert {A B} (leA : A → A → bool) (leB : B → B → bool) (f : A → option B) x l :
  (∀ x y x' y', f x = Some x' → f y = Some y' → leB x' y' = leA x y) →
  mapM f (insert_sorted leA x l) = y ← f x; l' ← mapM f l; Some (insert_sorted leB y l').
Proof.
  intros Hle. induction l as [|z l IH]; simpl.
  - by destruct (f x).
  - destruct (leA x z) eqn:E; cbn [mapM].
    + destruct (f x) eqn:Ex; simpl; [|done]. destruct (f z) eqn:Ez; simpl; [|done]. destruct (mapM f l); simpl; [|done].
      by rewrite (Hle x z), E.
    + rewrite IH. destruct (f z) eqn:Ez; simpl; [|by destruct (f x)]. destruct (f x) eqn:Ex; simpl; [|done].
      destruct (mapM f l); simpl; [|done]. by rewrite (Hle x z), E.
Qed.

Lemma mapM_isort {A B} (leA : A → A → bool) (leB : B → B → bool) (f : A → option B) l :
  (∀ x y x' y', f x = Some x' → f y = Some y' → leB x' y' = leA x y) →
  mapM f (isort leA l) = isort leB <$> mapM f l.
Proof.
  intros Hle. unfold isort. induction l as [|x l IH]; [done|]. cbn [foldr mapM].
  rewrite (mapM_insert leA leB) by done. rewrite IH. by destruct (f x), (mapM f l).
Qed.

Lemma mapM_map {A B C} (f : B → option C) (g : A → B) l : mapM f (map g l) = mapM (λ x, f (g x)) l.
Proof. induction l as [|x l IH]; [done|]. cbn [map mapM]. by rewrite IH. Qed.

Lemma mapM_bind {A B C} (f : A → option B) (g : B → option C) l l' :
  mapM f l = Some l' → mapM g l' = mapM (λ x, y ← f x; g y) l.
Proof.
  revert l'. induction l as [|x l IH]; intros l'; [by intros [= <-]|]. cbn [mapM].
  destruct (f x) as [y|] eqn:Ex; simpl; [|done]. destruct (mapM f l) as [k|]; simpl; [|done]. intros [= <-].
  cbn [mapM]. by rewrite (IH k).
Qed.

Lemma mapM_decoded {A} (conv : A → option json) (dec : A → option any) l ds :
  mapM conv l = Some ds →
  (∀ x d, x ∈ l → conv x = Some d → to_any (fix_json d) = dec x) →
  mapM (λ d, to_any (fix_json d)) ds = mapM dec l.
Proof.
  intros Hm Hx. rewrite (mapM_bind _ _ _ _ Hm). apply mapM_ext_in. intros x Hin.
  destruct (conv x) as [d|] eqn:E; simpl; [by apply Hx|].
  exfalso. assert (Hn : mapM conv l = None) by (apply mapM_None_2, Exists_exists; eauto). congruence.
Qed.
Lemma decoded_document v d :
  to_json v = Some d → floats_read_back v → to_any (fix_json d) = as_decoded v.
Proof.
  revert d. induction v as [|b|z|f|s|l IH|m IH] using any_ind'; intros d Hd Hf; simpl in Hd.
  - by simplify_eq.
  - by simplify_eq.
  - simplify_eq. simpl. rewrite read_pretty. unfold number. by destruct (is_finite _).
  - destruct Hf as (lit & Hj & _ & Hr). rewrite Hj in Hd. simplify_eq/=. by rewrite Hr.
  - by simplify_eq.
  - apply floats_slice in Hf. destruct (mapM to_json l) as [ds|] eqn:E; simplify_eq/=.
    rewrite mapM_map. f_equal. apply (mapM_decoded _ _ _ _ E). intros x d' Hx Hd'.
    rewrite Forall_forall in IH, Hf. auto.
  - apply floats_map in Hf. destruct (mapM _ m) as [es|] eqn:E; simplify_eq/=.
    rewrite mapM_map.
    set (f := λ e : string * json, x ← to_any (fix_json e.2); Some (e.1, x)).
    rewrite (mapM_ext_in _ (λ e, (λ p : string * any, (utf8_fix 0 p.1, p.2)) <$> f e)).
    2:{ intros e _. unfold f. simpl. by destruct (to_any _). }
    rewrite mapM_fmap_opt, (mapM_isort entry_leb entry_leb f).
    2:{ intros x y x' y'. unfold f. destruct (to_any _), (to_any _); simpl; intros; by simplify_eq. }
    assert (Hes : mapM f es = mapM (λ kv, x ← as_decoded kv.2; Some (kv.1, x)) m).
    { rewrite (mapM_bind _ _ _ _ E). apply mapM_ext_in. intros kv Hkv.
      destruct (to_json kv.2) as [d'|] eqn:Ed; simpl.
      - unfold f. simpl. rewrite Forall_forall in IH, Hf. by rewrite (IH kv Hkv d' Ed (Hf kv Hkv)).
      - exfalso. rewrite (mapM_None_2 _ m) in E; [done|]. apply Exists_exists. exists kv. by rewrite Ed. }
    rewrite Hes. match goal with |- _ = ?o ≫= _ => change o with (mapM (λ kv, x ← as_decoded kv.2; Some (kv.1, x)) m) end.
    by destruct (mapM (λ kv, x ← as_decoded kv.2; Some (kv.1, x)) m).
Qed.

Lemma foldr_max_le {A} (f : A → Z) l d :
  (0 ≤ d)%Z → Forall (λ x, (f x ≤ d)%Z) l → (foldr (λ x n, Z.max (f x) n) 0 l ≤ d)%Z.
Proof. intros Hd. induction 1; simpl; lia. Qed.

Lemma foldr_max_nonneg {A} (f : A → Z) l : (0 ≤ foldr (λ x n, Z.max (f x) n) 0 l)%Z.
Proof. induction l; simpl; lia. Qed.

Lemma mapM_elem {A B} (f : A → option B) l l' y : mapM f l = Some l' → y ∈ l' → ∃ x, x ∈ l ∧ f x = Some y.
Proof.
  intros H%mapM_Some_1 Hy. induction H as [|x z l l' Hx _ IH]; [by apply elem_of_nil in Hy|].
  apply elem_of_cons in Hy as [->|Hy]; [exists x; split; [by left|done]|].
  destruct (IH Hy) as (x' & ? & ?). exists x'. split; [by right|done].
Qed.

Lemma document_of v d :
  to_json v = Some d → floats_read_back v → lits_ok d ∧ (nesting d ≤ any_nesting v)%Z.
Proof.
  revert d. induction v as [|b|z|f|s|l IH|m IH] using any_ind'; intros d Hd Hf; simpl in Hd.
  1,2,5: by simplify_eq.
  - simplify_eq. split; [apply pretty_lit|done].
  - destruct Hf as (lit & Hj & Hl & _). rewrite Hj in Hd. by simplify_eq/=.
  - apply floats_slice in Hf. destruct (mapM to_json l) as [ds|] eqn:E; [|done]. injection Hd as <-.
    rewrite Forall_forall in IH, Hf. rewrite lits_ok_arr. cbn [nesting any_nesting].
    assert (Hall : ∀ d, d ∈ ds → lits_ok d ∧ (nesting d ≤ foldr (λ x n, Z.max (any_nesting x) n) 0 l)%Z).
    { intros d Hin. destruct (mapM_elem _ _ _ _ E Hin) as (x & Hx & Hxd).
      destruct (IH x Hx d Hxd (Hf x Hx)) as [? Hn]. split; [done|].
      pose proof (foldr_max_bound any_nesting l _ (Z.le_refl _)) as Hb. rewrite Forall_forall in Hb.
      specialize (Hb x Hx). simpl in Hb. lia. }
    split; [apply Forall_forall; naive_solver|].
    pose proof (foldr_max_le nesting ds _ (foldr_max_nonneg any_nesting l)) as H.
    apply Z.add_le_mono_l, H. apply Forall_forall. naive_solver.
  - apply floats_map in Hf. destruct (mapM _ m) as [es|] eqn:E; [|done]. injection Hd as <-.
    rewrite Forall_forall in IH, Hf. rewrite lits_ok_obj. cbn [nesting any_nesting].
    assert (Hall : ∀ e, e ∈ isort entry_leb es →
      lits_ok e.2 ∧ (nesting e.2 ≤ foldr (λ x n, Z.max (any_nesting x.2) n) 0 m)%Z).
    { intros e Hin%elem_of_isort. destruct (mapM_elem _ _ _ _ E Hin) as (x & Hx & Hxd).
      destruct (to_json x.2) as [d|] eqn:Ed; simplify_eq/=.
      destruct (IH x Hx d Ed (Hf x Hx)) as [? Hn]. split; [done|].
      pose proof (foldr_max_bound (λ x, any_nesting x.2) m _ (Z.le_refl _)) as Hb. rewrite Forall_forall in Hb.
      specialize (Hb x Hx). simpl in Hb. lia. }
    split; [apply Forall_forall; naive_solver|].
    pose proof (foldr_max_le (λ e, nesting e.2) (isort entry_leb es) _ (foldr_max_nonneg (λ x, any_nesting x.2) m)) as H.
    apply Z.add_le_mono_l, H. apply Forall_forall. naive_solver.
Qed.

(** *** Native values *)

(** A value as decoding gives them: no integers, texts in UTF-8, floats that read
    back, objects without repeated keys. *)
Fixpoint native (v : any) : Prop :=
  match v with
  | AInt _ => False
  | AFloat f => reads_back f
  | AString s => utf8_valid s
  | ASlice l => foldr (λ x p, native x ∧ p) True l
  | AMap m => NoDup m.*1 ∧ foldr (λ kv p, (utf8_valid kv.1 ∧ native kv.2) ∧ p) True m
  | _ => True
  end.

Lemma native_slice l : native (ASlice l) ↔ Forall native l.
Proof. apply all_of_Forall. Qed.
Lemma native_map m : native (AMap m) ↔ NoDup m.*1 ∧ Forall (λ kv, utf8_valid kv.1 ∧ native kv.2) m.
Proof. simpl. rewrite <-all_of_Forall. unfold all_of. done. Qed.

Lemma native_floats v : native v → floats_read_back v.
Proof.
  induction v as [| | | | |l IH|m IH] using any_ind'; try done.
  - rewrite native_slice, floats_slice, !Forall_forall in *. naive_solver.
  - rewrite native_map, floats_map. intros [_ Hn]. rewrite !Forall_forall in *. naive_solver.
Qed.

(** Entering distinct keys one after the other. *)
Lemma assoc_set_fresh {V} k (v : V) m : k ∉ m.*1 → assoc_set k v m = m ++ [(k, v)].
Proof.
  induction m as [|[k' v'] m IH]; simpl; [done|]. intros H. destruct (String.eqb_spec k k') as [->|].
  - exfalso. apply H. csimpl. set_solver.
  - rewrite IH; [done|]. csimpl in H. set_solver.
Qed.

Lemma assoc_set_all {V} (es m : list (string * V)) :
  NoDup (m ++ es).*1 → foldl (λ m e, assoc_set e.1 e.2 m) m es = m ++ es.
Proof.
  revert m. induction es as [|[k v] es IH]; intros m Hn; [by rewrite app_nil_r|]. simpl.
  rewrite assoc_set_fresh.
  - rewrite IH; [by rewrite <-app_assoc|]. by rewrite <-app_assoc.
  - rewrite fmap_app, NoDup_app in Hn. destruct Hn as (_ & Hn & _). intros Hk. by eapply Hn; [|left].
Qed.

Lemma mapM_equiv (f : any → option any) (l : list any) :
  Forall (λ x, ∃ y, f x = Some y ∧ any_equiv x y) l → ∃ l', mapM f l = Some l' ∧ Forall2 any_equiv l l'.
Proof.
  induction 1 as [|x l (y & Hy & He) _ (l' & Hm & Hl)]; [by exists []|]. exists (y :: l').
  split; [|by constructor]. cbn [mapM]. by rewrite Hy, Hm.
Qed.

(** Keys in UTF-8 are left as they are. *)
Lemma fix_keys (es : list (string * any)) :
  (∀ e, e ∈ es → utf8_valid e.1) →
  map (λ e : string * any, (utf8_fix 0 e.1, e.2)) (isort entry_leb es) = isort entry_leb es.
Proof.
  intros Hv. rewrite <-(map_id (isort entry_leb es)) at 2. apply map_ext_in. intros [k x] Hin. simpl. f_equal.
  apply list_elem_of_In, elem_of_isort in Hin. exact (Hv _ Hin).
Qed.

(** Decoding gives a native value back, its maps in the order of their keys. *)
Lemma native_decoded v : native v → ∃ v', as_decoded v = Some v' ∧ any_equiv v v'.
Proof.
  induction v as [| | |f|s|l IH|m IH] using any_ind'; try done; try (by eexists; split; [done|constructor]).
  - intros Hs. exists (AString s). split; [|constructor]. simpl. by rewrite Hs.
  - rewrite native_slice. intros Hn. destruct (mapM_equiv as_decoded l) as (l' & Hm & Hl).
    { rewrite Forall_forall in *. eauto. }
    exists (ASlice l'). simpl. rewrite Hm. split; [done|by constructor].
  - rewrite native_map. intros [Hnd Hn]. 
    assert (He : ∃ es, mapM (λ kv, x ← as_decoded kv.2; Some (kv.1, x)) m = Some es ∧
              Forall2 (λ p q, p.1 = q.1 ∧ any_equiv p.2 q.2) m es).
    { clear Hnd. induction m as [|[k v] m IHm]; [by exists []|].
      apply Forall_cons in IH as [IHv IH]. apply Forall_cons in Hn as [[_ Hv] Hn].
      destruct (IHv Hv) as (v' & Hv' & Hev). destruct (IHm IH Hn) as (es & Hes & Hall). exists ((k, v') :: es).
      split; [|by constructor]. cbn [mapM]. simpl in Hv'. rewrite Hes. simpl. by rewrite Hv'. }
    destruct He as (es & Hes & Hall). simpl. rewrite Hes. simpl.
    pose proof (entries_equiv_keys _ _ Hall) as Hk.
    assert (Hv : ∀ e, e ∈ es → utf8_valid e.1).
    { intros e He. assert (Hkm : e.1 ∈ m.*1) by (rewrite Hk; apply list_elem_of_fmap; eauto).
      apply list_elem_of_fmap in Hkm as (kv & -> & Hin). rewrite Forall_forall in Hn. by apply Hn. }
    rewrite (fix_keys es Hv), assoc_set_all; [|simpl; rewrite (isort_perm entry_leb es), <-Hk; exact Hnd].
    eexists; split; [done|]. simpl. eapply eqv_map; [exact Hall|]. symmetry. apply isort_perm.
Qed.

Lemma marshalled_values_read v s :
  json_marshal v = Some s → floats_read_back v → (any_nesting v ≤ maxNestingDepth)%Z →
  Unmarshal s = as_decoded v.
Proof.
  intros Hs Hf Hd. rewrite json_marshal_print in Hs. destruct (to_json v) as [d|] eqn:E; simplify_eq/=.
  destruct (document_of v d E Hf) as [Hl Hn].
  unfold Unmarshal. rewrite parse_print by (done || lia). simpl. by apply decoded_document.
Qed.

(* ------------------------------------------------------------------ *)
(** ** Properties *)
(* ------------------------------------------------------------------ *)

(** what [json.Marshal] writes, [json.Unmarshal] reads: the value with its
    integers as floats, its texts in UTF-8 and its maps in the order of their keys;
    and a value that came from JSON comes back as itself, up to the order of maps. *)
Theorem marshalled_values_are_read_back v s :
  json_marshal v = Some s → floats_read_back v → (any_nesting v ≤ maxNestingDepth)%Z →
  Unmarshal s = as_decoded v ∧ (native v → ∃ v', Unmarshal s = Some v' ∧ any_equiv v v').
Proof.
  intros Hs Hf Hd. split; [by apply marshalled_values_read|]. intros Hv.
  rewrite (marshalled_values_read v s) by done. by apply native_decoded.
Qed.

(** A value with a nested object, a repeated escape, a separator of lines and floats
    that need their exponent. *)
Definition sample_value : any :=
  AMap [("z", ASlice [AFloat (dec_to_float false 1 21); AFloat (dec_to_float true 25 (-2)); AInt (-7)]);
        ("a", AMap [("<&>", AString (bytes [226; 128; 168; 34; 10; 195; 169]))]); ("n", ANil)].

Lemma sample_floats : floats_read_back sample_value.
Proof.
  split; [|split; [|split]]; try exact I; [|split; exact I].
  split; [|split; [|split; exact I]]; (eexists; split; [vm_compute; reflexivity|]; split; vm_compute; reflexivity).
Qed.

Lemma marshalled_values_are_read_back_witness :
  Unmarshal (json_bytes sample_value)
  = Some (AMap [("a", AMap [("<&>", AString (bytes [226; 128; 168; 34; 10; 195; 169]))]); ("n", ANil);
                ("z", ASlice [AFloat (dec_to_float false 1 21); AFloat (dec_to_float true 25 (-2));
                              AFloat (f_of_Z (-7))])]).
Proof.
  destruct (marshalled_values_are_read_back sample_value (json_bytes sample_value)) as [H _].
  - vm_compute. reflexivity.
  - exact sample_floats.
  - vm_compute. discriminate.
  - rewrite H. vm_compute. reflexivity.
Defined.

Example parse_blanks_and_escapes :
  parse (" { " +:+ json_string "k" +:+ " : [ 1.5e3 , true,null ] } ")
  = Some (JObj [("k", JArr [JNum "1.5e3"; JBool true; JNull])]) ∧
  parse (dquote +:+ String backslash "ud83d" +:+ String backslash "ude00" +:+ dquote)
  = Some (JStr (bytes [240; 159; 152; 128])) ∧
  parse "[1,]" = None ∧ parse "01" = None ∧ parse "1 2" = None.
Proof. repeat split; vm_compute; reflexivity. Qed.

(** *** Looking into a decoded object *)

Lemma as_decoded_text v t : as_decoded v = Some (AString t) → ∃ s, v = AString s.
Proof.
  destruct v as [| |z| |s|l|m]; simpl; try done; [|by exists s| |].
  - unfold number. by destruct (is_finite _).
  - by destruct (mapM _ l).
  - by destruct (mapM _ m).
Qed.

Lemma mapM_assoc {V W} (g : V → option W) (m : list (string * V)) es k v :
  mapM (λ kv, x ← g kv.2; Some (kv.1, x)) m = Some es → assoc k m = Some v →
  ∃ x, g v = Some x ∧ assoc k es = Some x.
Proof.
  revert es. induction m as [|[k' v'] m IH]; intros es Hm; [done|]. cbn [mapM] in Hm.
  cbn [fst snd] in Hm. destruct (g v') as [x|] eqn:Hx; simpl in Hm; [|done].
  destruct (mapM _ m) as [es'|]; simpl in Hm; [|done]. injection Hm as <-. simpl.
  destruct (String.eqb k k'); [intros [= <-]; eauto|]. by apply IH.
Qed.

Lemma decoded_object m d :
  NoDup m.*1 → Forall (λ kv, utf8_valid kv.1) m → as_decoded (AMap m) = Some d →
  ∃ m', d = AMap m' ∧ ∀ k v, assoc k m = Some v → ∃ x, as_decoded v = Some x ∧ assoc k m' = Some x.
Proof.
  intros Hnd Hk. simpl. destruct (mapM _ m) as [es|] eqn:E; simpl; [|done]. intros [= <-].
  pose proof (mapM_keys _ _ _ E) as Hkeys. eexists. split; [done|]. intros k v Hv.
  destruct (mapM_assoc _ _ _ _ _ E Hv) as (x & Hx & He). exists x. split; [done|].
  rewrite (fix_keys es), assoc_set_all.
  - simpl. rewrite <-(assoc_perm k es); [done|by rewrite Hkeys|]. symmetry. apply isort_perm.
  - simpl. by rewrite (isort_perm entry_leb es), Hkeys.
  - intros e He'. assert (Hin : e.1 ∈ m.*1) by (rewrite <-Hkeys; apply list_elem_of_fmap; eauto).
    apply list_elem_of_fmap in Hin as (kv & -> & Hin). rewrite Forall_forall in Hk. by apply Hk.
Qed.
