(* ===== verification/Wire.v ===== *)
(** Typed JSON: what [encoding/json] makes of a Go type from its struct tags, as a
    class with one instance for each kind of type the program's tagged structures
    are made of, and the law that what is written is read back, which the instances
    preserve. *)
From S2P Require Export Json.
From Stdlib Require Import Ascii.

(* ------------------------------------------------------------------ *)
(** ** Types with a JSON form *)
(* ------------------------------------------------------------------ *)

(** [encode] is Marshal, [None] its error; [decode] is Unmarshal of a document other
    than null; [is_empty] is what [omitempty] asks; [good] are the values that come
    back as they are. *)
Class Wire (A : Type) := {
  encode : A → option json;
  decode : json → option A;
  zero : A;
  is_empty : A → bool;
  good : A → Prop
}.

(** The document null leaves a fresh value as it is, unless its type decodes null
    itself. *)
Definition read `{Wire A} (d : json) : option A :=
  match d with JNull => Some (default zero (decode JNull)) | _ => decode d end.

Definition marshal `{Wire A} (x : A) : option string := print <$> encode x.
Definition unmarshal `{Wire A} (s : string) : option A := d ← parse s; read d.

Class WireLaws (A : Type) `{Wire A} := {
  read_encode (x : A) d : good x → encode x = Some d → read (fix_json d) = Some x;
  encode_lits (x : A) d : good x → encode x = Some d → lits_ok d
}.

(** What is written is read back, unless it nests too deeply. *)
Lemma read_back `{WireLaws A} (x : A) d :
  good x → encode x = Some d → (nesting d ≤ maxNestingDepth)%Z → unmarshal (print d) = Some x.
Proof.
  intros Hx Hd Hn. unfold unmarshal. rewrite parse_print by eauto using encode_lits. by apply read_encode.
Qed.

(* ------------------------------------------------------------------ *)
(** ** Basic types *)
(* ------------------------------------------------------------------ *)

#[export] Instance string_wire : Wire string := {|
  encode s := Some (JStr s);
  decode d := match d with JStr s => Some s | _ => None end;
  zero := "";
  is_empty s := String.eqb s "";
  good := utf8_valid
|}.
#[export] Instance string_laws : WireLaws string.
Proof. split; simpl; intros x d Hx [= <-]; [simpl; by rewrite Hx|done]. Qed.

#[export] Instance bool_wire : Wire bool := {|
  encode b := Some (JBool b);
  decode d := match d with JBool b => Some b | _ => None end;
  zero := false;
  is_empty b := negb b;
  good _ := True
|}.
#[export] Instance bool_laws : WireLaws bool.
Proof. split; simpl; intros x d _ [= <-]; done. Qed.

(** [int] and [int64]: a literal with a fraction, an exponent or out of range is
    an error. *)
Definition read_int (lit : string) : option Z :=
  if negb (sall is_digit (drop_minus lit)) then None
  else
    let n := dec_value 0 (drop_minus lit) in
    let z := if is_minus lit then (- n)%Z else n in
    if in_int64b z then Some z else None.
#[export] Instance int_wire : Wire Z := {|
  encode z := Some (JNum (pretty z));
  decode d := match d with JNum lit => read_int lit | _ => None end;
  zero := 0%Z;
  is_empty z := (z =? 0)%Z;
  good := in_int64
|}.

Lemma read_int_pretty (z : Z) : in_int64 z → read_int (pretty z) = Some z.
Proof.
  intros Hz. apply in_int64b_spec in Hz. unfold read_int. destruct z as [|p|p]; [done| |];
    destruct (pretty_pos_digits p) as [Hd Hv].
  - change (pretty (Z.pos p)) with (pretty (N.pos p)). destruct (pretty_pos_head p) as (c & s & E & Hc).
    rewrite E. cbn [drop_minus is_minus]. rewrite Hc, <-E, Hd, Hv. simpl. by rewrite Hz.
  - change (pretty (Z.neg p)) with (String "-" (pretty (N.pos p))). cbn [drop_minus is_minus].
    change (Ascii.eqb "-" "-") with true. cbv iota. rewrite Hd, Hv. cbv zeta. simpl negb. cbv iota.
    change (- Z.pos p)%Z with (Z.neg p). by rewrite Hz.
Qed.

#[export] Instance int_laws : WireLaws Z.
Proof. split; simpl; intros x d Hx [= <-]; [by apply read_int_pretty|apply pretty_lit]. Qed.

#[export] Instance float_wire : Wire float64 := {|
  encode f := JNum <$> json_float f;
  decode d := match d with JNum lit => read_float lit | _ => None end;
  zero := S754_zero false;
  is_empty f := feqb f (S754_zero false);
  good := reads_back
|}.
#[export] Instance float_laws : WireLaws float64.
Proof.
  split; simpl; intros x d (lit & Hj & Hl & Hr) Hd; rewrite Hj in Hd; by injection Hd as <-.
Qed.

(** [any] as the value of a field. *)
#[export] Instance any_wire : Wire any := {|
  encode := to_json;
  decode := to_any;
  zero := ANil;
  is_empty v := match v with ANil => true | _ => false end;
  good v := floats_read_back v ∧ as_decoded v = Some v
|}.
#[export] Instance any_laws : WireLaws any.
Proof.
  split; intros x d [Hf Hx] Hd.
  - transitivity (to_any (fix_json d)); [by destruct d|]. rewrite <-Hx. by apply decoded_document.
  - by eapply document_of.
Qed.

(** A generic map, nil or not, with its values. *)
Record any_map := mkAnyMap { map_value : option any }.
#[export] Instance any_map_wire : Wire any_map := {|
  encode m := match map_value m with Some v => to_json v | None => Some JNull end;
  decode d := match d with JObj _ => mkAnyMap ∘ Some <$> to_any d | _ => None end;
  zero := mkAnyMap None;
  is_empty m := match map_value m with None | Some (AMap []) => true | _ => false end;
  good m := match map_value m with
            | Some (AMap es) => floats_read_back (AMap es) ∧ as_decoded (AMap es) = Some (AMap es)
            | Some _ => False
            | None => True
            end
|}.
Lemma map_document es d : to_json (AMap es) = Some d → ∃ m, d = JObj m.
Proof. simpl. destruct (mapM _ es); simpl; [|done]. intros [= <-]. eauto. Qed.
#[export] Instance any_map_laws : WireLaws any_map.
Proof.
  split; intros [[[| | | | | |es]|]] d; cbn [good encode any_map_wire map_value]; try done.
  - intros [Hf Hes] Hd. pose proof (decoded_document _ _ Hd Hf) as Hr. rewrite Hes in Hr.
    destruct (map_document es d Hd) as [m ->]. cbn [fix_json read] in *. cbn [decode any_map_wire]. by rewrite Hr.
  - by intros _ [= <-].
  - intros [Hf _] Hd. by eapply document_of.
  - by intros _ [= <-].
Qed.

(** [json.RawMessage], as the document it is. *)
#[export] Instance raw_wire : Wire json := {|
  encode := Some;
  decode := Some;
  zero := JNull;
  is_empty d := match d with JNull => true | _ => false end;
  good d := fix_json d = d ∧ lits_ok d
|}.
#[export] Instance raw_laws : WireLaws json.
Proof. split; intros x d [Hx Hl] [= <-]; [rewrite Hx; by destruct x|done]. Qed.

(** A pointer. *)
#[export] Instance pointer_wire `{Wire A} : Wire (option A) := {|
  encode o := match o with Some x => encode x | None => Some JNull end;
  decode d := match d with JNull => None | _ => Some <$> decode d end;
  zero := None;
  is_empty o := match o with Some _ => false | None => true end;
  good o := match o with Some x => good x ∧ encode x ≠ Some JNull | None => True end
|}.
#[export] Instance pointer_laws `{WireLaws A} : WireLaws (option A).
Proof.
  split; intros [x|] d; simpl.
  - intros [Hx Hn] Hd. pose proof (read_encode x d Hx Hd) as Hr.
    destruct d; simpl in *; try done; by rewrite Hr.
  - by intros _ [= <-].
  - intros [Hx _]. by apply encode_lits.
  - by intros _ [= <-].
Qed.

(** A slice, nil or not. *)
Inductive slice (A : Type) := NilSlice | SliceOf (l : list A).
Arguments NilSlice {A}.
Arguments SliceOf {A} l.

#[export] Instance slice_wire `{Wire A} : Wire (slice A) := {|
  encode s := match s with SliceOf l => JArr <$> mapM encode l | NilSlice => Some JNull end;
  decode d := match d with JArr l => SliceOf <$> mapM read l | _ => None end;
  zero := NilSlice;
  is_empty s := match s with SliceOf (_ :: _) => false | _ => true end;
  good s := match s with SliceOf l => Forall good l | NilSlice => True end
|}.

Lemma read_encode_list `{WireLaws A} (l : list A) ds :
  Forall good l → mapM encode l = Some ds → mapM read (map fix_json ds) = Some l ∧ Forall lits_ok ds.
Proof.
  intros Hl. revert ds. induction Hl as [|x l Hx _ IH]; intros ds; cbn [mapM]; [by intros [= <-]|].
  destruct (encode x) as [d|] eqn:Hd; simpl; [|done]. destruct (mapM encode l) as [ds'|]; simpl; [|done].
  intros [= <-]. destruct (IH ds' eq_refl) as [Hr Hall]. cbn [map mapM]. rewrite Hr, (read_encode x d) by done.
  split; [done|]. constructor; [by eapply encode_lits|done].
Qed.

#[export] Instance slice_laws `{WireLaws A} : WireLaws (slice A).
Proof.
  split; intros [|l] d; simpl; [by intros _ [= <-]| |by intros _ [= <-]|];
    intros Hl; destruct (mapM encode l) as [ds|] eqn:E; simpl; try done; intros [= <-];
    destruct (read_encode_list l ds Hl E) as [Hr Hall].
  - simpl. by rewrite Hr.
  - by apply lits_ok_arr.
Qed.

(** A slice whose nil and empty values are one. *)
#[export] Instance list_wire `{Wire A} : Wire (list A) := {|
  encode l := JArr <$> mapM encode l;
  decode d := match d with JArr l => mapM read l | _ => None end;
  zero := [];
  is_empty l := match l with [] => true | _ => false end;
  good := Forall good
|}.
#[export] Instance list_laws `{WireLaws A} : WireLaws (list A).
Proof.
  split; intros l d Hl; simpl; destruct (mapM encode l) as [ds|] eqn:E; simpl; try done; intros [= <-];
    destruct (read_encode_list l ds Hl E) as [Hr Hall]; [done|by apply lits_ok_arr].
Qed.

(** A map with string keys, nil and empty being one; the members are written in the
    order of the keys. *)
Definition sorted_entries {V : Type} (m : gmap string V) : list (string * V) := isort entry_leb (map_to_list m).
#[export] Instance map_wire `{Wire A} : Wire (gmap string A) := {|
  encode m := JObj <$> mapM (λ kv, d ← encode kv.2; Some (kv.1, d)) (sorted_entries m);
  decode d := match d with
              | JObj es => foldl (λ m e, <[e.1 := e.2]> m) ∅ <$> mapM (λ e, x ← read e.2; Some (e.1, x)) es
              | _ => None
              end;
  zero := ∅;
  is_empty m := size m =? 0;
  good m := ∀ k x, m !! k = Some x → utf8_valid k ∧ good x
|}.

Lemma read_encode_entries `{WireLaws A} (l : list (string * A)) es :
  Forall (λ kv, utf8_valid kv.1 ∧ good kv.2) l → mapM (λ kv, d ← encode kv.2; Some (kv.1, d)) l = Some es →
  mapM (λ e, x ← read e.2; Some (e.1, x)) (map (λ e, (utf8_fix 0 e.1, fix_json e.2)) es) = Some l ∧
  Forall (λ e, lits_ok e.2) es.
Proof.
  intros Hl. revert es. induction Hl as [|[k x] l [Hk Hx] _ IH]; intros es; cbn [mapM]; [by intros [= <-]|].
  cbn [fst snd] in *. destruct (encode x) as [d|] eqn:Hd; simpl; [|done].
  destruct (mapM _ l) as [es'|]; simpl; [|done]. intros [= <-].
  destruct (IH es' eq_refl) as [Hr Hall]. cbn [map mapM fst snd]. rewrite Hr, (read_encode x d), Hk by done.
  split; [done|]. constructor; [by eapply encode_lits|done].
Qed.

Lemma good_entries `{Wire A} (m : gmap string A) :
  good m → Forall (λ kv, utf8_valid kv.1 ∧ good kv.2) (sorted_entries m).
Proof.
  intros Hm. apply Forall_forall. intros [k x] Hin%elem_of_isort%elem_of_map_to_list. by apply Hm.
Qed.

#[export] Instance map_laws `{WireLaws A} : WireLaws (gmap string A).
Proof.
  split; intros m d Hm%good_entries; simpl; destruct (mapM _ _) as [es|] eqn:E; simpl; try done; intros [= <-];
    destruct (read_encode_entries _ es Hm E) as [Hr Hall].
  - simpl. rewrite Hr. simpl. f_equal.
    assert (Hnd : NoDup (sorted_entries m).*1)
      by (unfold sorted_entries; rewrite (isort_perm entry_leb (map_to_list m)); apply NoDup_fst_map_to_list).
    apply map_eq. intros k. rewrite copy_entries by done.
    rewrite (list_to_map_proper _ (map_to_list m)); [|done|apply isort_perm].
    rewrite list_to_map_to_list, lookup_empty. by destruct (m !! k).
  - by apply lits_ok_obj.
Qed.

(** [time.Time]: the text form of instants in nanoseconds is that of the standard
    library, which reads back what it writes. *)
Class TimeText := {
  format_time : Z → option string;
  parse_time : string → option Z;
  parse_format t s : format_time t = Some s → utf8_valid s ∧ parse_time s = Some t
}.
Record Time := mkTime { unix_nano : Z }.
(** The zero time is the beginning of year 1. *)
Definition zero_time : Time := mkTime (-62135596800000000000).
#[export] Instance time_wire `{TimeText} : Wire Time := {|
  encode t := JStr <$> format_time (unix_nano t);
  decode d := match d with JStr s => mkTime <$> parse_time s | _ => None end;
  zero := zero_time;
  is_empty _ := false;
  good _ := True
|}.
#[export] Instance time_laws `{TimeText} : WireLaws Time.
Proof.
  split; intros [t] d _; simpl; destruct (format_time t) as [s|] eqn:E; simpl; try done; intros [= <-]; [|done].
  destruct (parse_format t s E) as [Hs Hp]. simpl. by rewrite Hs, Hp.
Qed.

(* ------------------------------------------------------------------ *)
(** ** Structures *)
(* ------------------------------------------------------------------ *)

(** A struct tag: the name of the member, and [omitempty]. *)
Definition tag : Type := string * bool.
Definition req (name : string) : tag := (name, false).
Definition opt (name : string) : tag := (name, true).

(** Member names are compared under simple case folding, which takes the long s and
    the Kelvin sign to letters. *)
Definition fold_name (s : string) : string :=
  lower (replace_all (replace_all s (bytes [197; 191]) "s") (bytes [226; 132; 170]) "k").
Definition selects (name key : string) : bool := String.eqb (fold_name key) (fold_name name).

(** The document of a member; the last one with the name counts. *)
Definition lookup_field (name : string) (m : list (string * json)) : option json :=
  foldl (λ acc e, if selects name e.1 then Some e.2 else acc) None m.

(** Fields of the types of a product, one tag each. *)
Class Fields (T : Type) := {
  arity : nat;
  enc_fields : list tag → T → option (list (string * json));
  dec_fields : list tag → list (string * json) → option T;
  zero_fields : T;
  good_fields : list tag → T → Prop
}.

#[export] Instance no_fields : Fields unit := {|
  arity := 0;
  enc_fields _ _ := Some [];
  dec_fields _ _ := Some tt;
  zero_fields := tt;
  good_fields _ _ := True
|}.

#[export] Instance cons_fields `{Wire A} `{Fields T} : Fields (A * T) := {|
  arity := S (arity (T:=T));
  enc_fields tags xt :=
    match tags with
    | (name, omit) :: tags =>
        rest ← enc_fields tags xt.2;
        if omit && is_empty xt.1 then Some rest
        else d ← encode xt.1; Some ((name, d) :: rest)
    | [] => None
    end;
  dec_fields tags m :=
    match tags with
    | (name, _) :: tags =>
        t ← dec_fields tags m;
        match lookup_field name m with
        | None => Some (zero, t)
        | Some d => x ← read d; Some (x, t)
        end
    | [] => None
    end;
  zero_fields := (zero, zero_fields);
  good_fields tags xt :=
    match tags with
    | (_, omit) :: tags =>
        (if omit && is_empty xt.1 then xt.1 = zero else good xt.1) ∧ good_fields tags xt.2
    | [] => False
    end
|}.

Definition names (tags : list tag) : list string := map (λ t, t.1) tags.

(** Names that no two fields share, written in UTF-8. *)
Definition tags_ok (tags : list tag) : Prop :=
  NoDup (map (λ t, fold_name t.1) tags) ∧ Forall (λ t, utf8_valid t.1) tags.

Definition fix_entry (e : string * json) : string * json := (utf8_fix 0 e.1, fix_json e.2).

Class FieldsLaws (T : Type) `{Fields T} := {
  enc_names tags (t : T) m e :
    enc_fields tags t = Some m → e ∈ m → e.1 ∈ names tags;
  enc_lits tags (t : T) m :
    good_fields tags t → enc_fields tags t = Some m → Forall (λ e, lits_ok e.2) m;
  dec_enc tags (t : T) m pre :
    tags_ok tags → good_fields tags t → enc_fields tags t = Some m →
    (∀ (e : string * json) name, e ∈ pre → name ∈ names tags → selects name e.1 = false) →
    dec_fields tags (pre ++ map fix_entry m) = Some t
}.

Lemma lookup_field_skip name m acc :
  (∀ e : string * json, e ∈ m → selects name e.1 = false) →
  foldl (λ acc e, if selects name e.1 then Some e.2 else acc) acc m = acc.
Proof.
  revert acc. induction m as [|e m IH]; intros acc Hm; [done|]. simpl. rewrite (Hm e) by by left.
  apply IH. intros e' He. apply Hm. by right.
Qed.

#[export] Instance no_fields_laws : FieldsLaws unit.
Proof.
  split; simpl.
  - intros tags t m e [= <-] He. by apply elem_of_nil in He.
  - by intros tags t m _ [= <-].
  - by intros tags [] m pre.
Qed.

#[export] Instance cons_fields_laws `{WireLaws A} `{FieldsLaws T} : FieldsLaws (A * T).
Proof.
  split.
  - intros [|[name omit] tags] [x t] m e; simpl; [done|].
    destruct (enc_fields tags t) as [rest|] eqn:E; simpl; [|done].
    destruct (omit && is_empty x); simpl.
    + intros [= <-] He. right. by eapply enc_names.
    + destruct (encode x); simpl; [|done]. intros [= <-] [->|He]%elem_of_cons; [by left|].
      right. by eapply enc_names.
  - intros [|[name omit] tags] [x t] m; simpl; [done|]. intros (Hx & Ht).
    destruct (enc_fields tags t) as [rest|] eqn:E; simpl; [|done].
    pose proof (enc_lits tags t rest Ht E) as Hr. destruct (omit && is_empty x); simpl; [by intros [= <-]|].
    destruct (encode x) as [d|] eqn:Ed; simpl; [|done]. intros [= <-]. constructor; [|done]. by eapply encode_lits.
  - intros [|[name omit] tags] [x t] m pre; simpl; [done|]. intros [Hnd Hval] (Hx & Ht) He Hpre.
    destruct (enc_fields tags t) as [rest|] eqn:E; simpl in He; [|done].
    apply Forall_cons in Hval as [Hname Hval]. simpl in Hnd, Hname. apply NoDup_cons in Hnd as [Hn Hnd].
    assert (Hother : ∀ name', name' ∈ names tags → selects name' name = false ∧ selects name name' = false).
    { intros name' Hin. assert (fold_name name' ≠ fold_name name).
      { intros Heq. apply Hn. rewrite <-Heq. apply list_elem_of_fmap in Hin as (tg & -> & Hin).
        apply list_elem_of_fmap. eauto. }
      unfold selects. split; apply String.eqb_neq; congruence. }
    assert (Hvalid : ∀ e, e ∈ rest → utf8_fix 0 e.1 = e.1).
    { intros e Hin. pose proof (enc_names tags t rest e E Hin) as Hk. apply list_elem_of_fmap in Hk as (tg & -> & Hk).
      rewrite Forall_forall in Hval. by apply Hval. }
    assert (Hskip : ∀ e, e ∈ map fix_entry rest → selects name e.1 = false).
    { intros e (e' & -> & Hin)%list_elem_of_fmap. simpl. rewrite Hvalid by done. apply Hother.
      by eapply enc_names. }
    assert (Hpre' : ∀ e, e ∈ pre → selects name e.1 = false) by (intros e Hin; apply Hpre; [done|by left]).
    destruct (omit && is_empty x) eqn:Ho.
    + injection He as <-. rewrite (dec_enc tags t rest pre); [|done..|].
      2:{ intros e nm Hin Hnm. apply Hpre; [done|by right]. }
      simpl. unfold lookup_field. rewrite foldl_app, !lookup_field_skip by done.
      by rewrite Hx.
    + destruct (encode x) as [d|] eqn:Ed; simpl in He; [|done]. injection He as <-.
      change (map fix_entry ((name, d) :: rest)) with (fix_entry (name, d) :: map fix_entry rest).
      rewrite cons_middle, app_assoc, (dec_enc tags t rest); [|done..|].
      2:{ intros e nm [Hin| ->%list_elem_of_singleton]%elem_of_app Hnm; [apply Hpre; [done|by right]|].
          simpl. rewrite Hname. by apply Hother. }
      assert (Hself : selects name (fix_entry (name, d)).1 = true)
        by (unfold selects; cbn [fix_entry fst]; rewrite Hname; apply String.eqb_refl).
      cbn [mbind option_bind]. unfold lookup_field. rewrite !foldl_app, (lookup_field_skip name pre) by done.
      cbn [foldl]. rewrite Hself, lookup_field_skip by done. cbn [fix_entry snd]. by rewrite (read_encode x d).
Qed.

(** A structure with tagged fields, between its record and the product. *)
Definition struct_wire {R T} `{Fields T} (tags : list tag) (unpack : R → T) (pack : T → R) : Wire R := {|
  encode r := JObj <$> enc_fields tags (unpack r);
  decode d := match d with JObj m => pack <$> dec_fields tags m | _ => None end;
  zero := pack zero_fields;
  is_empty _ := false;
  good r := good_fields tags (unpack r)
|}.

Lemma struct_laws {R T} `{FieldsLaws T} tags (unpack : R → T) (pack : T → R) :
  tags_ok tags → (∀ r, pack (unpack r) = r) → @WireLaws R (struct_wire tags unpack pack).
Proof.
  intros Htags Hpack. split; intros r d; simpl; destruct (enc_fields tags (unpack r)) as [m|] eqn:E; simpl; try done;
    intros Hg [= <-].
  - change (fix_json (JObj m)) with (JObj (map fix_entry m)). cbn [read decode struct_wire].
    pose proof (dec_enc tags (unpack r) m [] Htags Hg E) as Hd. rewrite app_nil_l in Hd. rewrite Hd by set_solver.
    simpl. by rewrite Hpack.
  - apply lits_ok_obj. by eapply enc_lits.
Qed.

Lemma struct_not_null {R T} `{Fields T} tags (unpack : R → T) (pack : T → R) (r : R) :
  @encode R (struct_wire tags unpack pack) r ≠ Some JNull.
Proof. simpl. by destruct (enc_fields tags (unpack r)). Qed.

Ltac solve_struct :=
  apply struct_laws;
  [split; [apply (bool_decide_unpack _); vm_compute; exact I|repeat constructor]|intros []; reflexivity].

(** *** Documents, member by member *)

(** An object by its members, some of which may be left out; there is none when a
    member cannot be written. *)
Definition member : Type := string * option json.
Definition write_members (l : list member) : option (list (string * json)) :=
  mapM (λ e : member, d ← e.2; Some (e.1, d)) l.
Definition object (pieces : list (list member)) : option json := JObj <$> write_members (concat pieces).
Definition array (ds : list (option json)) : option json := JArr <$> mapM id ds.
Definition always (name : string) (d : option json) : list member := [(name, d)].
Definition when (b : bool) (name : string) (d : option json) : list member := if b then [(name, d)] else [].
Definition text_member (name s : string) : list member := when (negb (String.eqb s "")) name (Some (JStr s)).
Definition pointed {A} (name : string) (o : option A) (d : A → option json) : list member :=
  match o with Some x => [(name, d x)] | None => [] end.

Lemma fields_object `{Wire A} `{Fields T} name omit tags (x : A) (t : T) piece pieces :
  piece = (if omit && is_empty x then [] else [(name, encode x)]) →
  enc_fields tags t = write_members (concat pieces) →
  enc_fields ((name, omit) :: tags) (x, t) = write_members (concat (piece :: pieces)).
Proof.
  intros -> Ht. cbn [enc_fields cons_fields fst snd concat]. rewrite Ht. unfold write_members.
  destruct (omit && is_empty x); cbn [app mapM fst snd];
    [by destruct (mapM _ _)|by destruct (encode x), (mapM _ _)].
Qed.
Lemma struct_object {R T} `{Fields T} tags (unpack : R → T) (pack : T → R) r pieces :
  enc_fields tags (unpack r) = write_members (concat pieces) →
  @encode R (struct_wire tags unpack pack) r = object pieces.
Proof. intros Hr. unfold object. by rewrite <-Hr. Qed.
Lemma encode_array `{Wire A} (l : list A) f :
  (∀ x, x ∈ l → encode x = f x) → JArr <$> mapM encode l = array (map f l).
Proof.
  intros Hf. unfold array. f_equal. induction l as [|x l IH]; [done|]. cbn [map mapM].
  rewrite (Hf x) by by left. rewrite IH; [done|]. intros y Hy. apply Hf. by right.
Qed.

(** A structure whose members have the documents of the pieces. *)
Ltac solve_piece :=
  unfold text_member, when, always, pointed; simpl; first [done|by repeat case_match].
Ltac solve_object :=
  apply struct_object; cbn [fst snd]; repeat (apply fields_object; [try solve_piece|]); try reflexivity.

(** Types whose only empty value is the one a missing member leaves. *)
Class EmptyZero (A : Type) `{Wire A} := empty_zero (x : A) : is_empty x = true → x = zero.
#[export] Instance string_empty : EmptyZero string.
Proof. intros x. apply String.eqb_eq. Qed.
#[export] Instance int_empty : EmptyZero Z.
Proof. intros x. apply Z.eqb_eq. Qed.
#[export] Instance map_empty_zero `{Wire A} : EmptyZero (gmap string A).
Proof. intros m Hm. by apply map_size_empty_inv, Nat.eqb_eq. Qed.
#[export] Instance list_empty `{Wire A} : EmptyZero (list A).
Proof. by intros []. Qed.
#[export] Instance pointer_empty `{Wire A} : EmptyZero (option A).
Proof. by intros [x|]. Qed.

Lemma good_field `{Wire A} `{Fields T} `{!EmptyZero A} name omit tags (x : A) (t : T) :
  good x → good_fields tags t → good_fields ((name, omit) :: tags) (x, t).
Proof.
  intros Hx Ht. split; [|done]. simpl. destruct (omit && is_empty x) eqn:E; [|done].
  apply andb_true_iff in E as [_ E]. by apply empty_zero.
Qed.
Lemma good_required `{Wire A} `{Fields T} name tags (x : A) (t : T) :
  good x → good_fields tags t → good_fields (req name :: tags) (x, t).
Proof. intros Hx Ht. by split_and!. Qed.

(* ------------------------------------------------------------------ *)
(** ** How deep a type nests *)
(* ------------------------------------------------------------------ *)

(** A type whose documents nest to a fixed depth. *)
Class Shallow (A : Type) `{Wire A} := {
  levels : Z;
  levels_nonneg : (0 ≤ levels)%Z;
  encode_levels (x : A) d : encode x = Some d → (nesting d ≤ levels)%Z
}.
Arguments levels A {_ _}.

Lemma read_back_shallow `{WireLaws A} `{!Shallow A} (x : A) s :
  (levels A ≤ maxNestingDepth)%Z → good x → marshal x = Some s → unmarshal s = Some x.
Proof.
  intros Hl Hx. unfold marshal. destruct (encode x) as [d|] eqn:E; simpl; [|done]. intros [= <-].
  apply read_back; [done..|]. pose proof (encode_levels x d E). lia.
Qed.

#[export] Program Instance string_shallow : Shallow string := {| levels := 0 |}.
Solve All Obligations with naive_solver.
#[export] Program Instance bool_shallow : Shallow bool := {| levels := 0 |}.
Solve All Obligations with naive_solver.
#[export] Program Instance int_shallow : Shallow Z := {| levels := 0 |}.
Solve All Obligations with naive_solver.
#[export] Instance float_shallow : Shallow float64.
Proof. refine {| levels := 0 |}; [done|]. intros x d. simpl. destruct (json_float x); simpl; [|done]. by intros [= <-]. Defined.
#[export] Instance time_shallow `{TimeText} : Shallow Time.
Proof. refine {| levels := 0 |}; [done|]. intros [t] d. simpl. destruct (format_time t); simpl; [|done]. by intros [= <-]. Defined.
#[export] Instance pointer_shallow `{Shallow A} : Shallow (option A).
Proof.
  refine {| levels := levels A |}; [apply levels_nonneg|]. intros [x|] d; simpl; [apply encode_levels|].
  intros [= <-]. apply levels_nonneg.
Defined.
#[export] Instance slice_shallow `{Shallow A} : Shallow (slice A).
Proof.
  pose proof (levels_nonneg (A:=A)) as Hl. refine {| levels := 1 + levels A |}; [lia|]. intros [|l] d; simpl.
  - intros [= <-]. simpl. lia.
  - destruct (mapM encode l) as [ds|] eqn:E; simpl; [|done]. intros [= <-]. cbn [nesting].
    apply Z.add_le_mono_l, foldr_max_le; [done|]. apply Forall_forall. intros d Hd.
    destruct (mapM_elem _ _ _ _ E Hd) as (x & _ & Hx). by eapply encode_levels.
Defined.
#[export] Instance list_shallow `{Shallow A} : Shallow (list A).
Proof.
  refine {| levels := levels (slice A) |}; [apply levels_nonneg|]. intros l d Hd.
  exact (encode_levels (SliceOf l) d Hd).
Defined.
#[export] Instance map_shallow `{Shallow A} : Shallow (gmap string A).
Proof.
  pose proof (levels_nonneg (A:=A)) as Hl. refine {| levels := 1 + levels A |}; [lia|]. intros m d; simpl.
  destruct (mapM _ _) as [es|] eqn:E; simpl; [|done]. intros [= <-]. cbn [nesting].
  apply Z.add_le_mono_l, (foldr_max_le (λ e : string * json, nesting e.2)); [done|].
  apply Forall_forall. intros e He. destruct (mapM_elem _ _ _ _ E He) as ([k x] & _ & Hx). simpl in Hx.
  destruct (encode x) as [d|] eqn:Hd; simplify_eq/=. by eapply encode_levels.
Defined.

Class ShallowFields (T : Type) `{Fields T} := {
  field_levels : Z;
  field_levels_nonneg : (0 ≤ field_levels)%Z;
  enc_levels tags (t : T) m : enc_fields tags t = Some m → Forall (λ e, (nesting e.2 ≤ field_levels)%Z) m
}.
Arguments field_levels T {_ _}.
#[export] Instance no_fields_shallow : ShallowFields unit.
Proof. refine {| field_levels := 0 |}; [done|]. intros tags t m [= <-]. constructor. Defined.
#[export] Instance cons_fields_shallow `{Shallow A} `{ShallowFields T} : ShallowFields (A * T).
Proof.
  pose proof (levels_nonneg (A:=A)) as Hl. refine {| field_levels := Z.max (levels A) (field_levels T) |}; [lia|].
  intros [|[name omit] tags] [x t] m; simpl; [done|].
  destruct (enc_fields tags t) as [rest|] eqn:E; simpl; [|done]. pose proof (enc_levels tags t rest E) as Hr.
  assert (Hr' : Forall (λ e : string * json, (nesting e.2 ≤ Z.max (levels A) (field_levels T))%Z) rest)
    by (eapply Forall_impl; [exact Hr|]; simpl; lia).
  destruct (omit && is_empty x); simpl; [by intros [= <-]|].
  destruct (encode x) as [d|] eqn:Ed; simpl; [|done]. intros [= <-]. constructor; [|done].
  pose proof (encode_levels x d Ed). simpl. lia.
Defined.

Definition struct_shallow {R T} `{ShallowFields T} tags (unpack : R → T) (pack : T → R) :
  @Shallow R (struct_wire tags unpack pack).
Proof.
  refine (@Build_Shallow R (struct_wire tags unpack pack) (1 + field_levels T) _ _);
    [pose proof (field_levels_nonneg (T:=T)); lia|].
  intros r d; simpl; destruct (enc_fields tags (unpack r)) as [m|] eqn:E; simpl; [|done]. intros [= <-].
  cbn [nesting]. apply Z.add_le_mono_l, (foldr_max_le (λ e : string * json, nesting e.2));
    [apply field_levels_nonneg|]. by eapply enc_levels.
Defined.

(* ------------------------------------------------------------------ *)
(** ** Raw messages *)
(* ------------------------------------------------------------------ *)

(** [json.RawMessage], nil or some bytes. It is written as the document it holds, an
    error if it holds none, and nil as null; read, it holds the text of its document,
    that of null too. (The bytes
    of a document with other blanks or escapes than the encoder's would be kept; the
    program puts only the encoder's own output there.) *)
Definition RawMessage : Type := option string.
Record raw_message := mkRawMessage { raw_bytes : RawMessage }.

#[export] Instance raw_message_wire : Wire raw_message := {|
  encode r := match raw_bytes r with None => Some JNull | Some s => parse s end;
  decode d := Some (mkRawMessage (Some (print d)));
  zero := mkRawMessage None;
  is_empty r := match raw_bytes r with None | Some "" => true | _ => false end;
  good r := match raw_bytes r with
            | None => False
            | Some s => ∃ d, s = print d ∧ fix_json d = d ∧ lits_ok d ∧ (nesting d ≤ maxNestingDepth)%Z
            end
|}.
#[export] Instance raw_message_laws : WireLaws raw_message.
Proof.
  split; intros [[s|]] d; simpl; try done;
    intros (d0 & -> & Hf & Hl & Hd); rewrite parse_print, Hf by done; intros [= <-]; [|done].
  rewrite Hf. by destruct d0.
Qed.

(** A value whose texts are UTF-8 becomes a document that comes back as it is. *)
Fixpoint texts_valid (v : any) : Prop :=
  match v with
  | AString s => utf8_valid s
  | ASlice l => foldr (λ x p, texts_valid x ∧ p) True l
  | AMap m => foldr (λ kv p, (utf8_valid kv.1 ∧ texts_valid kv.2) ∧ p) True m
  | _ => True
  end.

Lemma texts_slice l : texts_valid (ASlice l) ↔ Forall texts_valid l.
Proof. apply all_of_Forall. Qed.
Lemma texts_map m : texts_valid (AMap m) ↔ Forall (λ kv, utf8_valid kv.1 ∧ texts_valid kv.2) m.
Proof. simpl. rewrite <-all_of_Forall. unfold all_of. done. Qed.

Lemma valid_document v d : to_json v = Some d → texts_valid v → fix_json d = d.
Proof.
  revert d. induction v as [|b|z|f|s|l IH|m IH] using any_ind'; intros d Hd Hv; simpl in Hd.
  1-3: by simplify_eq.
  - by destruct (json_float f); simplify_eq/=.
  - simplify_eq. simpl. by rewrite Hv.
  - apply texts_slice in Hv. destruct (mapM to_json l) as [ds|] eqn:E; simplify_eq/=. f_equal.
    rewrite <-(map_id ds) at 2. apply map_ext_in. intros x Hx%list_elem_of_In.
    destruct (mapM_elem _ _ _ _ E Hx) as (y & Hy & Hyx). rewrite Forall_forall in IH, Hv. eauto.
  - apply texts_map in Hv. destruct (mapM _ m) as [es|] eqn:E; simplify_eq/=. f_equal.
    rewrite <-(map_id (isort entry_leb es)) at 2. apply map_ext_in. intros x Hx%list_elem_of_In%elem_of_isort.
    destruct (mapM_elem _ _ _ _ E Hx) as (y & Hy & Hyx). rewrite Forall_forall in IH, Hv.
    destruct (Hv y Hy) as [Hk Hvy]. destruct (to_json y.2) as [d|] eqn:Ed; simplify_eq/=.
    by rewrite Hk, (IH y Hy d).
Qed.

(* ------------------------------------------------------------------ *)
(** ** What can be written *)
(* ------------------------------------------------------------------ *)

(** Types whose values all have a JSON form. *)
Class Written (A : Type) `{Wire A} := written (x : A) : is_Some (encode x).

#[export] Instance string_written : Written string.
Proof. intros x. by eexists. Qed.
#[export] Instance bool_written : Written bool.
Proof. intros x. by eexists. Qed.
#[export] Instance int_written : Written Z.
Proof. intros x. by eexists. Qed.
#[export] Instance slice_written `{Written A} : Written (slice A).
Proof. intros [|l]; [by eexists|]. simpl. apply fmap_is_Some, mapM_is_Some, Forall_true. exact written. Qed.
#[export] Instance list_written `{Written A} : Written (list A).
Proof. intros l. exact (written (SliceOf l)). Qed.
#[export] Instance map_written `{Written A} : Written (gmap string A).
Proof.
  intros m. simpl. apply fmap_is_Some, mapM_is_Some, Forall_true. intros [k x]. simpl.
  destruct (written x) as [d ->]. by eexists.
Qed.
#[export] Instance pointer_written `{Written A} : Written (option A).
Proof. intros [x|]; [exact (written x)|by eexists]. Qed.

(** A structure is written when each of its fields is, or is left out. *)
Lemma struct_written {R T} `{Fields T} tags (unpack : R → T) (pack : T → R) (r : R) :
  is_Some (@encode R (struct_wire tags unpack pack) r) ↔ is_Some (enc_fields tags (unpack r)).
Proof. simpl. apply fmap_is_Some. Qed.
Lemma enc_fields_cons `{Wire A} `{Fields T} name omit tags (x : A) (t : T) :
  is_Some (enc_fields ((name, omit) :: tags) (x, t)) ↔
  (omit && is_empty x = true ∨ is_Some (encode x)) ∧ is_Some (enc_fields tags t).
Proof.
  simpl. destruct (enc_fields tags t) as [rest|]; simpl; [|split; [by intros [? ?]|by intros [_ [? ?]]]].
  destruct (omit && is_empty x); simpl; [naive_solver|]. destruct (encode x); simpl; [naive_solver|].
  split; [by intros [? ?]|]. by intros [[?|[? ?]] _].
Qed.
Lemma enc_fields_nil tags : is_Some (enc_fields tags tt).
Proof. by eexists. Qed.

Class WrittenFields (T : Type) `{Fields T} :=
  fields_written tags (t : T) : arity (T:=T) ≤ length tags → is_Some (enc_fields tags t).
#[export] Instance no_fields_written : WrittenFields unit.
Proof. by eexists. Qed.
#[export] Instance cons_fields_written `{Written A} `{WrittenFields T} : WrittenFields (A * T).
Proof.
  intros [|[name omit] tags] [x t] Ht; cbn [arity cons_fields length] in Ht; [lia|].
  apply enc_fields_cons. split; [right; apply written|apply fields_written; lia].
Qed.
Lemma struct_always_written {R T} `{WrittenFields T} tags (unpack : R → T) (pack : T → R) :
  arity (T:=T) ≤ length tags → @Written R (struct_wire tags unpack pack).
Proof. intros Ht r. apply struct_written, fields_written, Ht. Qed.

Lemma written_iff `{Written A} (x : A) : is_Some (encode x) ↔ True.
Proof. split; [done|intros _; apply written]. Qed.
Lemma float_written (f : float64) : is_Some (encode f) ↔ is_Some (json_float f).
Proof. simpl. apply fmap_is_Some. Qed.
Lemma time_written `{TimeText} (t : Time) : is_Some (encode t) ↔ is_Some (format_time (unix_nano t)).
Proof. simpl. apply fmap_is_Some. Qed.

(** For the wire form of a structure, unfolded: which of its fields decide. *)
Ltac solve_written :=
  rewrite struct_written; cbv beta; unfold req, opt; rewrite ?enc_fields_cons, ?float_written, ?time_written, ?written_iff;
  cbn [andb]; naive_solver.

(* ------------------------------------------------------------------ *)
(** ** A text form of instants *)
(* ------------------------------------------------------------------ *)

Lemma ascii_valid s : sall (λ c, nat_of_ascii c <? 128) s = true → utf8_valid s.
Proof.
  unfold utf8_valid. induction s as [|c s IH]; cbn [sall utf8_fix]; [done|].
  intros [Hc Hs]%andb_true_iff. by rewrite Hc, IH.
Qed.
Lemma digits_valid s : sall is_digit s = true → utf8_valid s.
Proof.
  intros H. apply ascii_valid. eapply sall_impl; [|exact H]. intros c Hc.
  by destruct c as [[] [] [] [] [] [] [] []].
Qed.
Lemma pretty_valid (z : Z) : utf8_valid (pretty z).
Proof.
  destruct z as [|p|p]; [done| |]; destruct (pretty_pos_digits p) as [Hd _]; apply digits_valid in Hd; [done|].
  unfold utf8_valid in *. change (pretty (Z.neg p)) with (String "-" (pretty (N.pos p))). simpl. by rewrite Hd.
Qed.

(** Nanoseconds in decimal, where they fit 64 bits. *)
Program Definition decimal_time : TimeText := {|
  format_time t := if in_int64b t then Some (pretty t) else None;
  parse_time := read_int
|}.
Next Obligation.
  intros t s. simpl. destruct (in_int64b t) eqn:Ht; [|done]. intros [= <-]. split; [apply pretty_valid|].
  by apply read_int_pretty, in_int64b_spec.
Qed.
