(* ===== verification/Typed.v ===== *)
(** What every decoded value is like, whatever the document: integers of their
    width, finite floats, generic values of the kinds of JSON. *)
From S2P Require Export Wire.

(** The kinds of values a decoder makes: no machine integers, finite floats, objects
    without repeated keys. *)
Fixpoint json_kinds (v : any) : Prop :=
  match v with
  | AInt _ => False
  | AFloat f => is_finite f = true
  | ASlice l => foldr (λ x p, json_kinds x ∧ p) True l
  | AMap m => NoDup m.*1 ∧ foldr (λ kv p, json_kinds kv.2 ∧ p) True m
  | _ => True
  end.

Lemma kinds_slice l : json_kinds (ASlice l) ↔ Forall json_kinds l.
Proof. apply all_of_Forall. Qed.
Lemma kinds_map m : json_kinds (AMap m) ↔ NoDup m.*1 ∧ Forall (λ kv, json_kinds kv.2) m.
Proof. simpl. rewrite <-all_of_Forall. unfold all_of. done. Qed.

Lemma read_float_finite lit f : read_float lit = Some f → is_finite f = true.
Proof. unfold read_float. repeat case_match; intros; by simplify_eq. Qed.

Lemma assoc_set_Forall {V} (P : V → Prop) k v (m : list (string * V)) :
  P v → Forall (λ kv, P kv.2) m → Forall (λ kv, P kv.2) (assoc_set k v m).
Proof.
  intros Hv Hm. induction Hm as [|[k' v'] m Hx Hm IH]; simpl; [by repeat constructor|].
  destruct (String.eqb k k'); by constructor.
Qed.

Lemma assoc_set_NoDup {V} k (v : V) m : NoDup m.*1 → NoDup (assoc_set k v m).*1.
Proof.
  intros Hnd. destruct (decide (k ∈ m.*1)) as [Hk|Hk]; [by rewrite assoc_set_keys|].
  rewrite assoc_set_fresh by done. rewrite fmap_app. apply NoDup_app. split; [done|].
  split; [set_solver|apply NoDup_singleton].
Qed.

Lemma copied_entries {V} (P : V → Prop) (es m : list (string * V)) :
  NoDup m.*1 → Forall (λ kv, P kv.2) m → Forall (λ kv, P kv.2) es →
  let m' := foldl (λ m e, assoc_set e.1 e.2 m) m es in NoDup m'.*1 ∧ Forall (λ kv, P kv.2) m'.
Proof.
  intros Hnd Hm Hes. revert m Hnd Hm. induction Hes as [|[k v] es Hv _ IH]; intros m Hnd Hm; simpl; [done|].
  apply IH; [by apply assoc_set_NoDup|by apply assoc_set_Forall].
Qed.

Lemma to_any_kinds d v : to_any d = Some v → json_kinds v.
Proof.
  revert v. induction d as [|b|lit|s|l IH|m IH] using json_ind'; intros v; simpl.
  1,2,4: by intros [= <-].
  - destruct (read_float lit) as [f|] eqn:E; simpl; [|done]. intros [= <-]. by eapply read_float_finite.
  - destruct (mapM to_any l) as [vs|] eqn:E; simpl; [|done]. intros [= <-]. apply kinds_slice.
    apply Forall_forall. intros x Hx. destruct (mapM_elem _ _ _ _ E Hx) as (d & Hd & Hdx).
    rewrite Forall_forall in IH. by eapply IH.
  - destruct (mapM _ m) as [es|] eqn:E; simpl; [|done]. intros [= <-]. apply kinds_map.
    apply (copied_entries json_kinds es []); [apply NoDup_nil_2|done|].
    apply Forall_forall. intros e He. destruct (mapM_elem _ _ _ _ E He) as (e' & He' & Hv).
    destruct (to_any e'.2) as [v|] eqn:Ev; simplify_eq/=. rewrite Forall_forall in IH. by eapply IH.
Qed.

(* ------------------------------------------------------------------ *)
(** ** Types whose decoder keeps an invariant *)
(* ------------------------------------------------------------------ *)

Class Typed (A : Type) `{Wire A} := {
  typed : A → Prop;
  typed_zero : typed zero;
  typed_decode d x : decode d = Some x → typed x
}.

Lemma typed_read `{Typed A} d x : read d = Some x → typed x.
Proof.
  unfold read. destruct d; try apply typed_decode. intros [= <-].
  destruct (decode JNull) as [y|] eqn:E; [by eapply typed_decode|apply typed_zero].
Qed.

(** Whatever is read is typed. *)
Lemma unmarshal_typed `{Typed A} s x : unmarshal s = Some x → typed x.
Proof. unfold unmarshal. destruct (parse s); simpl; [|done]. apply typed_read. Qed.

#[export] Instance string_typed : Typed string := {| typed _ := True; typed_zero := I; typed_decode _ _ _ := I |}.
#[export] Instance bool_typed : Typed bool := {| typed _ := True; typed_zero := I; typed_decode _ _ _ := I |}.
#[export] Instance time_typed `{TimeText} : Typed Time := {| typed _ := True; typed_zero := I; typed_decode _ _ _ := I |}.
#[export] Instance raw_typed : Typed raw_message := {| typed _ := True; typed_zero := I; typed_decode _ _ _ := I |}.
#[export] Instance int_typed : Typed Z.
Proof.
  refine {| typed := in_int64 |}; [by split; vm_compute|]. intros [| |lit| | |] z; simpl; try done.
  unfold read_int. destruct (negb _); [done|]. cbv zeta. destruct (in_int64b _) eqn:E; [|done].
  intros [= <-]. by apply in_int64b_spec.
Defined.
#[export] Instance float_typed : Typed float64.
Proof. refine {| typed f := is_finite f = true |}; [done|]. intros [] f; simpl; try done. apply read_float_finite. Defined.
#[export] Instance any_typed : Typed any.
Proof. refine {| typed := json_kinds |}; [done|]. intros d v. apply to_any_kinds. Defined.
#[export] Instance any_map_typed : Typed any_map.
Proof.
  refine {| typed m := match map_value m with
                       | Some (AMap es) => json_kinds (AMap es)
                       | Some _ => False
                       | None => True
                       end |}; [done|].
  intros [| | | | |m] x; try done. cbn [decode any_map_wire].
  destruct (to_any (JObj m)) as [v|] eqn:E; [|done]. intros [= <-]. cbn [map_value compose].
  pose proof (to_any_kinds _ _ E) as Hv. cbn [to_any] in E. destruct (mapM _ m); [|done]. by injection E as <-.
Defined.
#[export] Instance pointer_typed `{Typed A} : Typed (option A).
Proof.
  refine {| typed o := match o with Some x => typed x | None => True end |}; [done|].
  intros d x. simpl. destruct (decode d) as [y|] eqn:E; simpl; [|by destruct d].
  destruct d; [done|..]; intros [= <-]; by eapply typed_decode.
Defined.
Lemma typed_list `{Typed A} l xs : mapM read l = Some xs → Forall typed xs.
Proof.
  intros E. apply Forall_forall. intros x Hx. destruct (mapM_elem _ _ _ _ E Hx) as (d & _ & Hd).
  by eapply typed_read.
Qed.
#[export] Instance list_typed `{Typed A} : Typed (list A).
Proof.
  refine {| typed := Forall typed |}; [constructor|]. intros [] xs; simpl; try done. apply typed_list.
Defined.
#[export] Instance slice_typed `{Typed A} : Typed (slice A).
Proof.
  refine {| typed s := match s with SliceOf l => Forall typed l | NilSlice => True end |}; [done|].
  intros [] xs; simpl; try done. destruct (mapM read l) eqn:E; simpl; [|done]. intros [= <-]. by eapply typed_list.
Defined.
#[export] Instance map_typed `{Typed A} : Typed (gmap string A).
Proof.
  refine {| typed m := ∀ k x, m !! k = Some x → typed x |}; [done|]. intros [| | | | |es] m; simpl; try done.
  destruct (mapM _ es) as [l|] eqn:E; simpl; [|done]. intros [= <-].
  assert (Hl : Forall (λ kv : string * A, typed kv.2) l).
  { apply Forall_forall. intros e He. destruct (mapM_elem _ _ _ _ E He) as (e' & _ & Hv).
    destruct (read e'.2) as [x|] eqn:Ex; simplify_eq/=. by eapply typed_read. }
  clear E. enough (Hall : ∀ m0 : gmap string A, (∀ k x, m0 !! k = Some x → typed x) →
    ∀ k x, foldl (λ m e, <[e.1:=e.2]> m) m0 l !! k = Some x → typed x) by (apply Hall; done).
  induction Hl as [|[k v] l Hv _ IH]; intros m0 Hm0; simpl; [done|]. apply IH. intros k' x.
  rewrite lookup_insert_Some. intros [[_ <-]|[_ Hx]]; [done|by eapply Hm0].
Defined.

Class TypedFields (T : Type) `{Fields T} := {
  typed_fields : T → Prop;
  typed_zero_fields : typed_fields zero_fields;
  typed_dec tags m t : dec_fields tags m = Some t → typed_fields t
}.
#[export] Instance no_fields_typed : TypedFields unit := {| typed_fields _ := True; typed_zero_fields := I; typed_dec _ _ _ _ := I |}.
#[export] Instance cons_fields_typed `{Typed A} `{TypedFields T} : TypedFields (A * T).
Proof.
  refine {| typed_fields xt := typed xt.1 ∧ typed_fields xt.2 |}; [split; [apply typed_zero|apply typed_zero_fields]|].
  intros [|[name omit] tags] m [x t]; simpl; [done|]. destruct (dec_fields tags m) as [t'|] eqn:E; simpl; [|done].
  destruct (lookup_field name m) as [d|]; [|intros [= <- <-]; split; [apply typed_zero|by eapply typed_dec]].
  destruct (read d) as [x'|] eqn:Ex; simpl; [|done]. intros [= <- <-].
  split; [by eapply typed_read|by eapply typed_dec].
Defined.
Definition struct_typed {R T} `{TypedFields T} tags (unpack : R → T) (pack : T → R) :
  (∀ t, typed_fields t → typed_fields (unpack (pack t))) → @Typed R (struct_wire tags unpack pack).
Proof.
  intros Hu. refine (@Build_Typed R (struct_wire tags unpack pack) (λ r, typed_fields (unpack r)) _ _).
  - apply Hu, typed_zero_fields.
  - intros [] r; simpl; try done. destruct (dec_fields tags m) as [t|] eqn:E; simpl; [|done].
    intros [= <-]. eapply Hu, typed_dec, E.
Defined.
Ltac solve_typed :=
  apply struct_typed; intros t Ht;
  repeat match goal with t : _ * _ |- _ => destruct t | t : unit |- _ => destruct t end; exact Ht.
