(* ===== verification/Uuid.v ===== *)
(** Identifiers ([src/vendor/github.com/google/uuid]): the random UUIDs the program
    draws for plans, steps, audit events, traces and spans, as the library the
    repository vendors makes, writes and reads them (version4.go, uuid.go, util.go).
    The pool of random bytes is left out: nothing in the repository enables it. *)
From S2P Require Export GoValue.
From Stdlib Require Import Ascii.

(** Sixteen bytes. *)
Abbreviation UUID := (list Z).
Definition byte_ok (b : Z) : bool := (0 <=? b)%Z && (b <? 256)%Z.
Definition uuid_ok (u : UUID) : Prop := length u = 16 ∧ Forall (λ b, byte_ok b = true) u.
Definition byte_of (u : UUID) (i : nat) : Z := default 0%Z (u !! i).

(* ------------------------------------------------------------------ *)
(** ** Making (version4.go) *)
(* ------------------------------------------------------------------ *)

(** [read] is what [io.ReadFull] gives: sixteen bytes or an error. *)
Definition NewRandomFromReader (read : result error (list Z)) : result error UUID :=
  match read with
  | Err err => Err err
  | Ok bytes =>
      let uuid := <[6 := Z.lor (Z.land (byte_of bytes 6) 15) 64]> bytes in
      Ok (<[8 := Z.lor (Z.land (byte_of uuid 8) 63) 128]> uuid)
  end.

(** [Must]: [None] is a panic. *)
Definition Must (r : result error UUID) : option UUID :=
  match r with Err _ => None | Ok uuid => Some uuid end.

Definition Version (u : UUID) : Z := Z.shiftr (byte_of u 6) 4.

Inductive VariantKind := RFC4122 | Reserved | Microsoft | Future.
Definition Variant (u : UUID) : VariantKind :=
  let b := byte_of u 8 in
  if (Z.land b 192 =? 128)%Z then RFC4122
  else if (Z.land b 224 =? 192)%Z then Microsoft
  else if (Z.land b 224 =? 224)%Z then Future
  else Reserved.

(* ------------------------------------------------------------------ *)
(** ** Writing (uuid.go) *)
(* ------------------------------------------------------------------ *)

(** [hex.Encode] *)
Fixpoint hex_encode (bytes : list Z) : string :=
  match bytes with
  | [] => ""
  | b :: bytes =>
      String (hex_digit (Z.to_nat (Z.shiftr b 4)))
        (String (hex_digit (Z.to_nat (Z.land b 15))) (hex_encode bytes))
  end.

Definition encodeHex (u : UUID) : string :=
  hex_encode (take 4 u) +:+ "-" +:+ hex_encode (take 2 (drop 4 u)) +:+ "-" +:+
  hex_encode (take 2 (drop 6 u)) +:+ "-" +:+ hex_encode (take 2 (drop 8 u)) +:+ "-" +:+
  hex_encode (drop 10 u).

Definition UUID_String (u : UUID) : string := encodeHex u.
Definition URN (u : UUID) : string := "urn:uuid:" +:+ encodeHex u.

(** [New().String()] and [NewString()], [rand] being what the reader gives. *)
Definition NewString (rand : result error (list Z)) : option string :=
  UUID_String <$> Must (NewRandomFromReader rand).

(* ------------------------------------------------------------------ *)
(** ** Reading (uuid.go, util.go) *)
(* ------------------------------------------------------------------ *)

(** The table of hexadecimal digits. *)
Definition xvalue (c : ascii) : Z :=
  let n := Z.of_nat (nat_of_ascii c) in
  if (48 <=? n)%Z && (n <=? 57)%Z then n - 48
  else if (65 <=? n)%Z && (n <=? 70)%Z then n - 55
  else if (97 <=? n)%Z && (n <=? 102)%Z then n - 87
  else 255.

Definition xtob (x1 x2 : ascii) : Z * bool :=
  let b1 := xvalue x1 in
  let b2 := xvalue x2 in
  (Z.lor (Z.land (Z.shiftl b1 4) 255) b2, negb (b1 =? 255)%Z && negb (b2 =? 255)%Z).

(** A byte of a text that is long enough. *)
Definition char_at (s : string) (i : nat) : ascii := default "000"%char (String.get i s).

Definition invalid_format : error := EFmt "invalid UUID format" [].

(** The loop over the offsets of the digits. *)
Fixpoint parse_at (s : string) (offsets : list nat) : result error UUID :=
  match offsets with
  | [] => Ok []
  | x :: offsets =>
      let '(v, ok) := xtob (char_at s x) (char_at s (x + 1)) in
      if negb ok then Err invalid_format
      else match parse_at s offsets with Err err => Err err | Ok u => Ok (v :: u) end
  end.

Definition hyphened_offsets : list nat := [0; 2; 4; 6; 9; 11; 14; 16; 19; 21; 24; 26; 28; 30; 32; 34].
Definition raw_offsets : list nat := (λ i, i * 2) <$> seq 0 16.

(** The text has at least 36 bytes. *)
Definition parse_hyphened (s : string) : result error UUID :=
  if negb (forallb (λ i, Ascii.eqb (char_at s i) "-") [8; 13; 18; 23]) then Err invalid_format
  else parse_at s hyphened_offsets.

(** No letter of the prefix has a case variant outside ASCII. *)
Definition Parse (s : string) : result error UUID :=
  if slen s =? 36 then parse_hyphened s
  else if slen s =? 45 then
    if negb (String.eqb (lower (stake 9 s)) "urn:uuid:") then
      Err (EFmt "invalid urn prefix: %q" [FS (stake 9 s)])
    else parse_hyphened (sdrop 9 s)
  else if slen s =? 38 then parse_hyphened (sdrop 1 s)
  else if slen s =? 32 then parse_at s raw_offsets
  else Err (EFmt "invalid UUID length: %d" [FN (slen s)]).

(* ------------------------------------------------------------------ *)
(** ** Bytes and their digits *)
(* ------------------------------------------------------------------ *)

(** A property of a byte is decided by trying all of them. *)
Lemma every_byte (P : Z → bool) b :
  forallb (λ n, P (Z.of_nat n)) (seq 0 256) = true → byte_ok b = true → P b = true.
Proof.
  intros Hall Hb. unfold byte_ok in Hb. apply andb_true_iff in Hb as [H1 H2].
  apply Z.leb_le in H1. apply Z.ltb_lt in H2. rewrite forallb_forall in Hall.
  specialize (Hall (Z.to_nat b)). rewrite Z2Nat.id in Hall by lia. apply Hall, in_seq. lia.
Qed.

(** The two digits of a byte. *)
Definition high_digit (b : Z) : ascii := hex_digit (Z.to_nat (Z.shiftr b 4)).
Definition low_digit (b : Z) : ascii := hex_digit (Z.to_nat (Z.land b 15)).

Lemma xtob_digits b : byte_ok b = true → xtob (high_digit b) (low_digit b) = (b, true).
Proof.
  intros Hb. pose proof (every_byte (λ b, let '(v, ok) := xtob (high_digit b) (low_digit b) in
    (v =? b)%Z && ok) b) as H.
  specialize (H ltac:(by vm_compute) Hb). cbv beta in H.
  destruct (xtob (high_digit b) (low_digit b)) as [v ok]. apply andb_true_iff in H as [H1 ->].
  by apply Z.eqb_eq in H1 as ->.
Qed.

Lemma stamped_version b : byte_ok b = true →
  byte_ok (Z.lor (Z.land b 15) 64) = true ∧ Z.shiftr (Z.lor (Z.land b 15) 64) 4 = 4%Z.
Proof.
  intros Hb. pose proof (every_byte (λ b, byte_ok (Z.lor (Z.land b 15) 64) &&
    (Z.shiftr (Z.lor (Z.land b 15) 64) 4 =? 4)%Z) b) as H.
  specialize (H ltac:(by vm_compute) Hb). cbv beta in H.
  apply andb_true_iff in H as [H1 H2]. by apply Z.eqb_eq in H2.
Qed.

Lemma stamped_variant b : byte_ok b = true →
  byte_ok (Z.lor (Z.land b 63) 128) = true ∧ Z.land (Z.lor (Z.land b 63) 128) 192 = 128%Z.
Proof.
  intros Hb. pose proof (every_byte (λ b, byte_ok (Z.lor (Z.land b 63) 128) &&
    (Z.land (Z.lor (Z.land b 63) 128) 192 =? 128)%Z) b) as H.
  specialize (H ltac:(by vm_compute) Hb). cbv beta in H.
  apply andb_true_iff in H as [H1 H2]. by apply Z.eqb_eq in H2.
Qed.

(** Masking before the stamp is what the stamp depends on. *)
Lemma lor_land_disjoint a c mask bit :
  Z.land mask bit = 0%Z → Z.land bit bit = bit →
  Z.lor (Z.land a mask) bit = Z.lor (Z.land c mask) bit → Z.land a mask = Z.land c mask.
Proof.
  intros Hd _ H. apply (f_equal (λ z, Z.land z mask)) in H. rewrite !Z.land_lor_distr_l in H.
  rewrite (Z.land_comm bit mask), Hd, !Z.lor_0_r in H. by rewrite <-!Z.land_assoc, Z.land_diag in H.
Qed.

Lemma uuid_bytes u : uuid_ok u → ∃ b0 b1 b2 b3 b4 b5 b6 b7 b8 b9 b10 b11 b12 b13 b14 b15,
  u = [b0; b1; b2; b3; b4; b5; b6; b7; b8; b9; b10; b11; b12; b13; b14; b15].
Proof.
  intros [Hl _]. do 16 (destruct u as [|? u]; [done|]). destruct u; [|done]. by repeat eexists.
Qed.

(** Reading digits where they stand. *)
Lemma parse_at_bytes s offsets u :
  Forall2 (λ x b, byte_ok b = true ∧ char_at s x = high_digit b ∧ char_at s (x + 1) = low_digit b) offsets u →
  parse_at s offsets = Ok u.
Proof.
  induction 1 as [|x b offsets u (Hb & H1 & H2) _ IH]; [done|]. cbn [parse_at]. rewrite H1, H2, xtob_digits by done.
  cbn [negb]. by rewrite IH.
Qed.

Lemma parse_written u tail :
  uuid_ok u → parse_hyphened (encodeHex u +:+ tail) = Ok u ∧ slen (encodeHex u) = 36.
Proof.
  intros Hu. pose proof Hu as [_ Hb]. destruct (uuid_bytes u Hu) as (b0 & b1 & b2 & b3 & b4 & b5 & b6 & b7 & b8 & b9 & b10 &
    b11 & b12 & b13 & b14 & b15 & ->). split; [|done].
  unfold parse_hyphened. replace (forallb _ _) with true by done. simpl negb. cbv iota.
  apply parse_at_bytes. repeat (apply Forall_cons in Hb as [? Hb]).
  repeat (apply Forall2_cons_2; [by split_and!|]). constructor.
Qed.

Lemma parse_raw u : uuid_ok u → parse_at (hex_encode u) raw_offsets = Ok u ∧ slen (hex_encode u) = 32.
Proof.
  intros Hu. pose proof Hu as [_ Hb]. destruct (uuid_bytes u Hu) as (b0 & b1 & b2 & b3 & b4 & b5 & b6 & b7 & b8 & b9 & b10 &
    b11 & b12 & b13 & b14 & b15 & ->). split; [|done].
  apply parse_at_bytes. repeat (apply Forall_cons in Hb as [? Hb]).
  repeat (apply Forall2_cons_2; [by split_and!|]). constructor.
Qed.

Lemma Parse_written u :
  uuid_ok u →
  Parse (UUID_String u) = Ok u ∧ Parse (URN u) = Ok u ∧ Parse ("{" +:+ UUID_String u +:+ "}") = Ok u ∧
  Parse (hex_encode u) = Ok u.
Proof.
  intros Hu. destruct (parse_written u "" Hu) as [Hp Hl]. destruct (parse_written u "}" Hu) as [Hb _].
  destruct (parse_raw u Hu) as [Hr Hlr]. rewrite sapp_nil_r in Hp.
  unfold Parse, UUID_String, URN. rewrite !slen_app, Hl, Hlr. simpl Nat.eqb. cbv iota.
  split_and!; [exact Hp| |exact Hb|exact Hr].
  change (sdrop 9 ("urn:uuid:" +:+ encodeHex u)) with (encodeHex u).
  replace (stake 9 ("urn:uuid:" +:+ encodeHex u)) with ("urn:uuid:")
    by (symmetry; apply (stake_app "urn:uuid:")). exact Hp.
Qed.

(** The identifier drawn from sixteen random bytes. *)
Definition stamped (bytes : list Z) : UUID :=
  <[8 := Z.lor (Z.land (byte_of bytes 8) 63) 128]> (<[6 := Z.lor (Z.land (byte_of bytes 6) 15) 64]> bytes).

Lemma byte_of_ok u i : uuid_ok u → byte_ok (byte_of u i) = true.
Proof.
  intros [_ Hb]. unfold byte_of. destruct (u !! i) as [b|] eqn:E; [|done].
  by apply (proj1 (Forall_lookup _ _) Hb i).
Qed.

Lemma byte_of_insert_eq i x u : i < length u → byte_of (<[i := x]> u) i = x.
Proof. intros Hi. unfold byte_of. by rewrite list_lookup_insert_eq. Qed.
Lemma byte_of_insert_ne i j x u : i ≠ j → byte_of (<[i := x]> u) j = byte_of u j.
Proof. intros Hi. unfold byte_of. by rewrite list_lookup_insert_ne. Qed.

Lemma NewRandom_stamped bytes : NewRandomFromReader (Ok bytes) = Ok (stamped bytes).
Proof. unfold NewRandomFromReader, stamped. cbv zeta. by rewrite byte_of_insert_ne. Qed.

Lemma stamped_bytes bytes : uuid_ok bytes →
  uuid_ok (stamped bytes) ∧
  byte_of (stamped bytes) 6 = Z.lor (Z.land (byte_of bytes 6) 15) 64 ∧
  byte_of (stamped bytes) 8 = Z.lor (Z.land (byte_of bytes 8) 63) 128 ∧
  ∀ i, i ≠ 6 → i ≠ 8 → byte_of (stamped bytes) i = byte_of bytes i.
Proof.
  intros Hb. pose proof Hb as [Hl Hall].
  destruct (stamped_version _ (byte_of_ok _ 6 Hb)) as [H6 _].
  destruct (stamped_variant _ (byte_of_ok _ 8 Hb)) as [H8 _]. unfold stamped.
  split_and!.
  - split; [by rewrite !length_insert|]. by repeat apply Forall_insert.
  - rewrite byte_of_insert_ne by done. rewrite byte_of_insert_eq by lia. done.
  - rewrite byte_of_insert_eq by (rewrite length_insert; lia). done.
  - intros i H1 H2. by rewrite !byte_of_insert_ne by done.
Qed.

Lemma stamped_kind bytes : uuid_ok bytes → Version (stamped bytes) = 4%Z ∧ Variant (stamped bytes) = RFC4122.
Proof.
  intros Hb. destruct (stamped_bytes bytes Hb) as (_ & E6 & E8 & _).
  destruct (stamped_version _ (byte_of_ok bytes 6 Hb)) as [_ Hv].
  destruct (stamped_variant _ (byte_of_ok bytes 8 Hb)) as [_ Hr]. unfold Version, Variant.
  by rewrite E6, E8, Hv, Hr.
Qed.

(** Two draws that agree where the library keeps what it drew: all but the four
    bits of the version and the two of the variant. *)
Definition same_draw (b1 b2 : list Z) : Prop :=
  (∀ i, i ≠ 6 → i ≠ 8 → byte_of b1 i = byte_of b2 i) ∧
  Z.land (byte_of b1 6) 15 = Z.land (byte_of b2 6) 15 ∧
  Z.land (byte_of b1 8) 63 = Z.land (byte_of b2 8) 63.

Lemma UUID_String_inj u v : uuid_ok u → uuid_ok v → UUID_String u = UUID_String v → u = v.
Proof.
  intros Hu Hv Heq. destruct (Parse_written u Hu) as [H1 _], (Parse_written v Hv) as [H2 _].
  rewrite Heq, H2 in H1. by injection H1.
Qed.

Lemma uuid_eq u v : length u = length v → (∀ i, byte_of u i = byte_of v i) → u = v.
Proof.
  intros Hl Hb. apply list_eq_same_length with (length u); [done|done|]. intros i x y Hi Hx Hy.
  specialize (Hb i). unfold byte_of in Hb. by rewrite Hx, Hy in Hb.
Qed.

Lemma stamped_eq b1 b2 : uuid_ok b1 → uuid_ok b2 → stamped b1 = stamped b2 ↔ same_draw b1 b2.
Proof.
  intros H1 H2. destruct (stamped_bytes b1 H1) as ([Hl1 _] & H16 & H18 & Hi1).
  destruct (stamped_bytes b2 H2) as ([Hl2 _] & H26 & H28 & Hi2). split.
  - intros Heq. split_and!.
    + intros i ? ?. by rewrite <-Hi1, <-Hi2, Heq.
    + apply (lor_land_disjoint _ _ 15 64); [done..|]. by rewrite <-H16, <-H26, Heq.
    + apply (lor_land_disjoint _ _ 63 128); [done..|]. by rewrite <-H18, <-H28, Heq.
  - intros (Hi & E6 & E8). apply uuid_eq; [congruence|]. intros i.
    destruct (decide (i = 6)) as [->|]; [congruence|]. destruct (decide (i = 8)) as [->|]; [congruence|].
    rewrite Hi1, Hi2 by done. by apply Hi.
Qed.

(* ------------------------------------------------------------------ *)
(** ** Properties *)
(* ------------------------------------------------------------------ *)

(** C25: An identifier is read back from every form it is written in: with hyphens,
    as a URN, in braces and as bare digits; so different identifiers are written
    differently. Sixteen random bytes give an identifier of version 4 and of the
    variant of RFC 4122, never a panic, and two draws give the same identifier
    exactly when they agree outside the six bits the library overwrites: 122 random
    bits are kept. *)
Theorem identifiers_are_read_back u b1 b2 :
  uuid_ok u → uuid_ok b1 → uuid_ok b2 →
  (Parse (UUID_String u) = Ok u ∧ Parse (URN u) = Ok u ∧ Parse ("{" +:+ UUID_String u +:+ "}") = Ok u ∧
   Parse (hex_encode u) = Ok u ∧ slen (UUID_String u) = 36) ∧
  (∃ v, NewRandomFromReader (Ok b1) = Ok v ∧ uuid_ok v ∧ Version v = 4%Z ∧ Variant v = RFC4122 ∧
        NewString (Ok b1) = Some (UUID_String v)) ∧
  (NewString (Ok b1) = NewString (Ok b2) ↔ same_draw b1 b2).
Proof.
  intros Hu H1 H2. split; [|split].
  - destruct (Parse_written u Hu) as (Ha & Hb & Hc & Hd). destruct (parse_written u "" Hu) as [_ Hl]. done.
  - exists (stamped b1). unfold NewString. rewrite NewRandom_stamped.
    destruct (stamped_bytes b1 H1) as (Hok & _), (stamped_kind b1 H1) as [Hv Hr]. done.
  - unfold NewString. rewrite !NewRandom_stamped. simpl. rewrite <-stamped_eq by done. split; [|congruence].
    intros [= Heq]. apply UUID_String_inj in Heq; [done|by apply stamped_bytes..].
Qed.

Definition sample_draw : list Z := Z.of_nat <$> seq 240 16.

Lemma identifiers_are_read_back_witness :
  NewString (Ok sample_draw) = Some "f0f1f2f3-f4f5-46f7-b8f9-fafbfcfdfeff" ∧
  Parse "{f0f1f2f3-f4f5-f6f7-f8f9-fafbfcfdfeff}" = Ok sample_draw.
Proof.
  assert (Hs : uuid_ok sample_draw) by (split; [done|]; apply (bool_decide_unpack _); vm_compute; exact I).
  destruct (identifiers_are_read_back sample_draw sample_draw sample_draw Hs Hs Hs) as ((_ & _ & Hb & _) & _).
  split; [reflexivity|exact Hb].
Defined.
