(* ===== verification/Types.v ===== *)
(** The shared data model of [src/ai/types]: JSON schemas, content blocks,
    messages and the requests and responses of a model provider, with the
    operations of [content.go] and the theorems about them. *)
From S2P Require Export GoValue.

(* ------------------------------------------------------------------ *)
(** ** Capabilities, constraints and tool choice *)
(* ------------------------------------------------------------------ *)

Definition CapabilityType : Type := string.
Definition CapTextGeneration : CapabilityType := "text_generation".
Definition CapToolCalling : CapabilityType := "tool_calling".
Definition CapJSONMode : CapabilityType := "json_mode".
Definition CapEmbedding : CapabilityType := "embedding".
Definition CapVision : CapabilityType := "vision".
Definition CapStreaming : CapabilityType := "streaming".

Record ModelConstraints := mkModelConstraints {
  MaxLatencyMs : Z;
  Privacy : string;
  PreferredProvider : string
}.

(** [GenerateRequest.ToolChoice any]: nil, a [ToolChoiceMode], a
    [ToolChoiceSpecific] or a value of any other type. *)
Inductive ToolChoice :=
| TCNil
| TCMode (m : string)
| TCSpecific (Name : string)
| TCOther (v : any).

Definition ToolChoiceAuto : string := "auto".
Definition ToolChoiceRequired : string := "required".
Definition ToolChoiceNone : string := "none".

(* ------------------------------------------------------------------ *)
(** ** JSON Schema *)
(* ------------------------------------------------------------------ *)

(** A pointer to a schema is an [option]: [None] is nil.  [Properties] tells the
    nil map from an empty one, which the validator does too; its entries come in
    the order the run time iterates over them.  [Const] is [Some v] for a
    non-nil [*ConstValue] holding [v]. *)
Inductive JSONSchema := mkJSONSchema {
  Type_ : string;
  Properties : option (list (string * option JSONSchema));
  Required : list string;
  Description : string;
  Title : string;
  Default : any;
  Examples : list any;
  MinLength : option Z;
  MaxLength : option Z;
  Pattern : string;
  Minimum : option float64;
  Maximum : option float64;
  Enum : list any;
  Items : option JSONSchema;
  AdditionalProperties : option bool;
  AnyOf : list (option JSONSchema);
  OneOf : list (option JSONSchema);
  AllOf : list (option JSONSchema);
  Defs : list (string * option JSONSchema);
  Const : option any;
  PrefixItems : list (option JSONSchema);
  If_ : option JSONSchema;
  Then_ : option JSONSchema;
  Else_ : option JSONSchema;
  SchemaURI : string;
  RequiresEvidence : list string
}.

(** [schema.Properties] as the code ranges over it: nil has no entries. *)
Definition props (s : JSONSchema) : list (string * option JSONSchema) := default [] (Properties s).

(** The schema with no constraint. *)
Definition empty_schema : JSONSchema :=
  mkJSONSchema "" None [] "" "" ANil [] None None "" None None [] None None [] [] [] []
    None [] None None None "" [].

(** The codec of [ConstValue]: a constant is written as the value it holds, [None]
    being an error of the encoder, and a value that does not decode leaves the
    constant as it was. *)
Definition ConstValue_MarshalJSON (c : any) : option string := json_marshal c.
Section const_codec.
(** [json.Unmarshal] into an [any]. *)
Variable unmarshal : string → result error any.
Definition ConstValue_UnmarshalJSON (data : string) (c : any) : any * option error :=
  match unmarshal data with
  | Err err => (c, Some err)
  | Ok v => (v, None)
  end.
End const_codec.

Section schema_ind'.
Variable P : JSONSchema → Prop.
Definition optP (o : option JSONSchema) : Prop := match o with Some s => P s | None => True end.

Hypothesis Hschema : ∀ s,
  Forall (λ kv, optP kv.2) (props s) → optP (Items s) →
  Forall optP (AnyOf s) → Forall optP (OneOf s) → Forall optP (AllOf s) →
  Forall optP (PrefixItems s) → optP (If_ s) → optP (Then_ s) → optP (Else_ s) → P s.

(** Induction over a schema and all the schemas inside it. *)
Fixpoint schema_ind' (s : JSONSchema) : P s :=
  let lst := fix lst (l : list (option JSONSchema)) : Forall optP l :=
    match l with
    | [] => Forall_nil_2 _
    | o :: l => Forall_cons_2 _ _ _
        (match o return optP o with Some c => schema_ind' c | None => I end) (lst l)
    end in
  let prp := fix prp (l : list (string * option JSONSchema)) : Forall (λ kv, optP kv.2) l :=
    match l with
    | [] => Forall_nil_2 _
    | kv :: l => Forall_cons_2 (λ kv, optP kv.2) kv l
        (match kv return optP kv.2 with
         | (_, o) => match o return optP o with Some c => schema_ind' c | None => I end
         end) (prp l)
    end in
  Hschema s
    (match Properties s as o return Forall (λ kv, optP kv.2) (default [] o) with
     | Some l => prp l | None => Forall_nil_2 _ end)
    (match Items s as o return optP o with Some c => schema_ind' c | None => I end)
    (lst (AnyOf s)) (lst (OneOf s)) (lst (AllOf s)) (lst (PrefixItems s))
    (match If_ s as o return optP o with Some c => schema_ind' c | None => I end)
    (match Then_ s as o return optP o with Some c => schema_ind' c | None => I end)
    (match Else_ s as o return optP o with Some c => schema_ind' c | None => I end).
End schema_ind'.

(* ------------------------------------------------------------------ *)
(** ** Content blocks (content.go) *)
(* ------------------------------------------------------------------ *)

Record ContentBlock := mkContentBlock {
  cb_Type : string;
  cb_Text : string;
  cb_ImageURL : string;
  cb_Base64 : string;
  cb_Media : string
}.

Definition NewTextBlock (text : string) : ContentBlock := mkContentBlock "text" text "" "" "".
Definition NewImageBlock (imageURL : string) : ContentBlock :=
  mkContentBlock "image" "" imageURL "" "".
Definition NewImageBlockBase64 (mediaType base64Data : string) : ContentBlock :=
  mkContentBlock "image" "" "" base64Data mediaType.

Definition ImageRef (c : ContentBlock) : string :=
  if negb (String.eqb (cb_Base64 c) "") then
    let media := if String.eqb (cb_Media c) "" then "image/png" else cb_Media c in
    "data:" +:+ media +:+ ";base64," +:+ cb_Base64 c
  else cb_ImageURL c.

Record Message := mkMessage {
  msg_Role : string;
  msg_Contents : list ContentBlock;
  msg_Name : string;
  msg_ExecutionID : string
}.

Definition NewTextMessage (role text : string) : Message :=
  mkMessage role [NewTextBlock text] "" "".

(** The text one block contributes: nothing for an unknown type. *)
Definition block_text (c : ContentBlock) : string :=
  if String.eqb (cb_Type c) "text" then cb_Text c
  else if String.eqb (cb_Type c) "image" then
    if negb (String.eqb (cb_ImageURL c) "") then "[Image: " +:+ cb_ImageURL c +:+ "]"
    else "[Image: base64 " +:+ cb_Media c +:+ " ("
           +:+ pretty (Z.of_nat (slen (cb_Base64 c))) +:+ " bytes)]"
  else "".

(** The builder loop: a newline before every block but the first. *)
Fixpoint flatten_from (i : nat) (contents : list ContentBlock) (sb : string) : string :=
  match contents with
  | [] => sb
  | c :: rest =>
      let sb1 := if 0 <? i then sb +:+ nl else sb in
      flatten_from (S i) rest (sb1 +:+ block_text c)
  end.
Definition FlattenToText (contents : list ContentBlock) : string :=
  if length contents =? 0 then "" else flatten_from 0 contents "".

Definition is_blank (s : string) : bool := String.eqb (trim_space s) "".

Definition validate_block (i : nat) (c : ContentBlock) : option error :=
  if String.eqb (cb_Type c) "text" then
    if is_blank (cb_Text c)
    then Some (EFmt "content block %d: text block must not be empty" [FN i]) else None
  else if String.eqb (cb_Type c) "image" then
    if is_blank (cb_ImageURL c) && is_blank (cb_Base64 c)
    then Some (EFmt "content block %d: image block must have a URL or base64 data" [FN i])
    else None
  else Some (EFmt "content block %d: unknown type %q" [FN i; FS (cb_Type c)]).

Definition ValidateContents (contents : list ContentBlock) : option error :=
  if length contents =? 0 then Some (EFmt "contents must not be empty" [])
  else first_error (λ ic, validate_block ic.1 ic.2) (imap pair contents).

(* ------------------------------------------------------------------ *)
(** ** Requests and responses *)
(* ------------------------------------------------------------------ *)

Record ToolDefinition := mkToolDefinition {
  td_Name : string;
  td_Description : string;
  td_Parameters : option JSONSchema
}.

Record GenerateRequest := mkGenerateRequest {
  gr_Messages : list Message;
  gr_Tools : list ToolDefinition;
  gr_MaxTokens : Z;
  gr_Temperature : float64;
  gr_JSONSchema : option JSONSchema;
  gr_ToolChoice : ToolChoice;
  gr_ParallelToolCalls : option bool
}.

Record ToolCall := mkToolCall {
  tc_ID : string;
  tc_Name : string;
  tc_Arguments : string
}.

Record TokenUsage := mkTokenUsage {
  tu_PromptTokens : Z;
  tu_CompletionTokens : Z;
  tu_TotalTokens : Z
}.
Definition no_usage : TokenUsage := mkTokenUsage 0 0 0.

Record GenerateResponse := mkGenerateResponse {
  gresp_Content : string;
  gresp_ToolCalls : list ToolCall;
  gresp_Usage : TokenUsage;
  gresp_FinishReason : string;
  gresp_Latency : Z
}.

Record StreamChunk := mkStreamChunk {
  sc_Content : string;
  sc_ToolCalls : list ToolCall;
  sc_FinishReason : string;
  sc_Usage : TokenUsage;
  sc_Error : option error
}.
Definition empty_chunk : StreamChunk := mkStreamChunk "" [] "" no_usage None.

Record SkillDescriptor := mkSkillDescriptor {
  sd_ID : string;
  sd_Name : string;
  sd_Description : string;
  sd_InputSchema : option JSONSchema;
  sd_Kind : string;
  sd_SourceID : string
}.

(* ------------------------------------------------------------------ *)
(** ** Theorems *)
(* ------------------------------------------------------------------ *)

Lemma flatten_from_acc i contents sb :
  0 < i →
  flatten_from i contents sb
  = sb +:+ foldr (λ c s, nl +:+ block_text c +:+ s) "" contents.
Proof.
  revert i sb. induction contents as [|c rest IH]; intros i sb Hi; simpl.
  - by rewrite sapp_nil_r.
  - replace (0 <? i) with true by (symmetry; by apply Nat.ltb_lt).
    rewrite IH by lia. by rewrite !sapp_assoc.
Qed.

Lemma join_nl_prefixed c rest :
  block_text c +:+ foldr (λ c s, nl +:+ block_text c +:+ s) "" rest
  = join nl (map block_text (c :: rest)).
Proof.
  revert c. induction rest as [|d rest IH]; intros c; [by rewrite sapp_nil_r|].
  cbn [map foldr]. rewrite IH. by rewrite join_cons.
Qed.

(** Flattening renders every block and separates them by newlines. *)
Lemma FlattenToText_join contents :
  FlattenToText contents = join nl (map block_text contents).
Proof.
  destruct contents as [|c rest]; [done|]. unfold FlattenToText.
  cbn [length Nat.eqb flatten_from Nat.ltb Nat.leb].
  rewrite flatten_from_acc by lia. apply join_nl_prefixed.
Qed.

(** What a valid block is. *)
Definition block_ok (c : ContentBlock) : Prop :=
  (cb_Type c = "text" ∧ is_blank (cb_Text c) = false) ∨
  (cb_Type c = "image" ∧ (is_blank (cb_ImageURL c) = false ∨ is_blank (cb_Base64 c) = false)).

Lemma validate_block_ok i c : validate_block i c = None ↔ block_ok c.
Proof.
  unfold validate_block, block_ok.
  destruct (String.eqb_spec (cb_Type c) "text") as [E|E]; [|destruct (String.eqb_spec (cb_Type c) "image") as [E'|E']].
  - rewrite E. destruct (is_blank (cb_Text c)); naive_solver.
  - rewrite E'. destruct (is_blank (cb_ImageURL c)), (is_blank (cb_Base64 c)); naive_solver.
  - naive_solver.
Qed.

(** A message body is accepted exactly when it has a block and every block is
    valid. *)
Lemma ValidateContents_ok contents :
  ValidateContents contents = None ↔ contents ≠ [] ∧ Forall block_ok contents.
Proof.
  unfold ValidateContents. destruct contents as [|c rest]; [naive_solver|].
  cbv [length Nat.eqb]. fold (@length ContentBlock). rewrite first_error_None.
  transitivity (Forall block_ok (c :: rest)); [|naive_solver].
  rewrite Forall_forall, Forall_lookup. split.
  - intros Hall i d Hd. apply (validate_block_ok i), (Hall (i, d)).
    apply list_elem_of_lookup. exists i. by rewrite list_lookup_imap, Hd.
  - intros Hall [i d] [j Hj]%list_elem_of_lookup. rewrite list_lookup_imap in Hj.
    destruct ((c :: rest) !! j) eqn:E; simplify_eq/=. apply validate_block_ok. eauto.
Qed.
