(* ===== verification/SchemaWire.v ===== *)
(** The JSON form of schemas ([JSONSchema] and [ConstValue] of
    [src/ai/types/types.go]): the struct tags, the constant's own codec, and the
    recursion through maps, slices and pointers. *)
From S2P Require Export Types Typed.

(* ------------------------------------------------------------------ *)
(** ** Constants and maps of schemas *)
(* ------------------------------------------------------------------ *)

(** A constant is written as the value it holds, and holds the value it is read
    from; the document null never reaches it, since it makes the pointer nil. *)
Record ConstValue := mkConstValue { ConstVal : any }.
#[export] Instance ConstValue_wire : Wire ConstValue := {|
  encode c := encode (ConstVal c);
  decode d := mkConstValue <$> decode d;
  zero := mkConstValue ANil;
  is_empty _ := false;
  good c := good (ConstVal c)
|}.
#[export] Instance ConstValue_laws : WireLaws ConstValue.
Proof.
  split; intros [v] d Hv Hd; [|by eapply (encode_lits v)].
  pose proof (read_encode v d Hv Hd) as Hr. cbn [ConstVal] in *. unfold read in *. destruct (fix_json d); cbn [decode ConstValue_wire]; rewrite ?Hr; try done. by injection Hr as <-.
Qed.

(** A map, nil or not, by its entries; what is read comes in the order of the keys. *)
Record entries (A : Type) := mkEntries { entries_of : option (list (string * A)) }.
Arguments mkEntries {A}.
Arguments entries_of {A}.
Definition entry_map {A} (l : list (string * A)) : gmap string A := list_to_map l.
#[export] Instance entries_wire `{Wire A} : Wire (entries A) := {|
  encode e := match entries_of e with Some l => encode (entry_map l) | None => Some JNull end;
  decode d := (λ m : gmap string A, mkEntries (Some (sorted_entries m))) <$> decode d;
  zero := mkEntries None;
  is_empty e := match entries_of e with Some (_ :: _) => false | _ => true end;
  good e := match entries_of e with
            | Some l => sorted_entries (entry_map l) = l ∧ good (entry_map l)
            | None => True
            end
|}.
#[export] Instance entries_laws `{WireLaws A} : WireLaws (entries A).
Proof.
  split; intros [[l|]] d; cbn [good encode entries_wire entries_of].
  - intros [Hs Hg] Hd. pose proof (read_encode _ _ Hg Hd) as Hr. simpl in Hd.
    destruct (mapM _ _) as [es|]; [|done]. injection Hd as <-.
    cbn [fix_json read] in *. cbn [decode entries_wire]. rewrite Hr. simpl. by rewrite Hs.
  - by intros _ [= <-].
  - intros [_ Hg]. by apply encode_lits.
  - by intros _ [= <-].
Qed.

(** Definitions, where nil and the empty map are one. *)
Definition defs_of {A} (l : list (string * A)) : option (list (string * A)) :=
  match l with [] => None | _ => Some l end.

(* ------------------------------------------------------------------ *)
(** ** Schemas *)
(* ------------------------------------------------------------------ *)

Definition schema_tags : list tag :=
  [opt "type"; opt "properties"; opt "required"; opt "description"; opt "title"; opt "default";
   opt "examples"; opt "minLength"; opt "maxLength"; opt "pattern"; opt "minimum"; opt "maximum"; opt "enum";
   opt "items"; opt "additionalProperties"; opt "anyOf"; opt "oneOf"; opt "allOf"; opt "$defs"; opt "const";
   opt "prefixItems"; opt "if"; opt "then"; opt "else"; opt "$schema"; opt "requiresEvidence"].

(** The form of schemas that nest up to some depth; a deeper one is refused, in both
    directions. *)
Definition no_schema : Wire JSONSchema := {|
  encode _ := None;
  decode _ := None;
  zero := empty_schema;
  is_empty _ := false;
  good _ := False
|}.
Definition schema_step (W : Wire JSONSchema) : Wire JSONSchema :=
  struct_wire schema_tags
    (λ s,
     (Type_ s, (mkEntries (Properties s), (Required s, (Description s, (Title s, (Default s, (Examples s,
     (MinLength s, (MaxLength s, (Pattern s, (Minimum s, (Maximum s, (Enum s, (Items s,
     (AdditionalProperties s, (AnyOf s, (OneOf s, (AllOf s, (mkEntries (defs_of (Defs s)),
     (mkConstValue <$> Const s, (PrefixItems s, (If_ s, (Then_ s, (Else_ s, (SchemaURI s,
     (RequiresEvidence s, tt)))))))))))))))))))))))))))
    (λ '(type, (properties, (required, (description, (title, (deflt, (examples, (minl, (maxl, (pattern,
     (minimum, (maximum, (enum, (items, (addl, (anyOf, (oneOf, (allOf, (defs, (const, (prefix, (if_, (then_,
     (else_, (uri, (evidence, _)))))))))))))))))))))))))),
       mkJSONSchema
       type (entries_of properties) required description title deflt examples minl maxl pattern minimum
       maximum enum items addl anyOf oneOf allOf (default [] (entries_of defs)) (ConstVal <$> const) prefix
       if_ then_ else_ uri evidence).
Fixpoint schema_wire (n : nat) : Wire JSONSchema :=
  match n with 0 => no_schema | S n => schema_step (schema_wire n) end.

Lemma defs_of_default {A} (l : list (string * A)) : default [] (defs_of l) = l.
Proof. by destruct l. Qed.

Lemma schema_step_laws (W : Wire JSONSchema) : @WireLaws _ W → @WireLaws _ (schema_step W).
Proof.
  intros HW. apply struct_laws; [split; [apply (bool_decide_unpack _); vm_compute; exact I|repeat constructor]|].
  intros []. cbn. rewrite defs_of_default. f_equal. by destruct Const.
Qed.
#[export] Instance schema_laws n : @WireLaws _ (schema_wire n).
Proof. induction n as [|n IH]; [by split|by apply schema_step_laws]. Qed.

(** Every integer, float and constant of a decoded schema, at every depth. *)
#[export] Instance ConstValue_typed : Typed ConstValue.
Proof.
  refine {| typed c := json_kinds (ConstVal c) |}; [done|]. intros d c. simpl.
  destruct (to_any d) as [v|] eqn:E; simpl; [|done]. intros [= <-]. by eapply to_any_kinds.
Defined.
#[export] Instance entries_typed `{Typed A} : Typed (entries A).
Proof.
  refine {| typed e := match entries_of e with Some l => Forall (λ kv, typed kv.2) l | None => True end |}; [done|].
  intros d e. cbn [decode entries_wire]. destruct (decode d) as [m|] eqn:E; simpl; [|done]. intros [= <-].
  apply typed_decode in E. apply Forall_forall. intros [k x] Hx%elem_of_isort%elem_of_map_to_list. by eapply E.
Defined.
Lemma schema_step_typed (W : Wire JSONSchema) : @Typed _ W → @Typed _ (schema_step W).
Proof.
  intros HW. apply struct_typed. intros t Ht.
  repeat match goal with t : _ * _ |- _ => destruct t | t : unit |- _ => destruct t end. cbn in *.
  destruct_and! Ht. split_and!; try done.
  - by destruct e0 as [[[]|]].
  - by destruct o5 as [[v]|].
Defined.
#[export] Instance schema_typed n : @Typed _ (schema_wire n).
Proof.
  induction n as [|n IH]; [|by apply schema_step_typed].
  refine (@Build_Typed _ no_schema (λ _, True) I (λ _ _ _, I)).
Defined.

(** What makes a schema come back, field by field. *)
Definition schema_ok (W : Wire JSONSchema) (s : JSONSchema) : Prop :=
  Forall utf8_valid [Type_ s; Description s; Title s; Pattern s; SchemaURI s] ∧
  Forall utf8_valid (Required s) ∧ Forall utf8_valid (RequiresEvidence s) ∧
  good (Default s) ∧ Forall good (Examples s) ∧ Forall good (Enum s) ∧
  good (mkConstValue <$> Const s) ∧
  good (MinLength s) ∧ good (MaxLength s) ∧ good (Minimum s) ∧ good (Maximum s) ∧
  Properties s ≠ Some [] ∧ good (mkEntries (Properties s)) ∧ good (mkEntries (defs_of (Defs s))) ∧
  Forall good (AnyOf s) ∧ Forall good (OneOf s) ∧ Forall good (AllOf s) ∧ Forall good (PrefixItems s) ∧
  good (Items s) ∧ good (If_ s) ∧ good (Then_ s) ∧ good (Else_ s).

Lemma good_entries_field `{Wire A} `{Fields T} name omit tags (e : entries A) (t : T) :
  entries_of e ≠ Some [] → good e → good_fields tags t → good_fields ((name, omit) :: tags) (e, t).
Proof.
  intros He Hg Ht. split; [|done]. simpl. destruct (omit && _) eqn:E; [|done].
  destruct e as [[[]|]]; simpl in *; [done|by rewrite andb_false_r in E|done].
Qed.
#[export] Instance any_empty : EmptyZero any.
Proof. by intros []. Qed.

Lemma good_schema (W : Wire JSONSchema) s : schema_ok W s → good (Wire:=schema_step W) s.
Proof.
  unfold schema_ok. rewrite !Forall_cons. intros Hs. destruct_and! Hs. cbn [good schema_step struct_wire].
  unfold schema_tags.
  repeat first [apply good_entries_field; [by destruct (Defs s)|done|]|apply good_field]; try done.
  by destruct (AdditionalProperties s).
Qed.

(* ------------------------------------------------------------------ *)
(** ** The depth does not matter to documents that nest less *)
(* ------------------------------------------------------------------ *)

Definition same_reading {A} (n : Z) (W1 W2 : Wire A) : Prop :=
  @zero A W1 = @zero A W2 ∧ ∀ d, (nesting d ≤ n)%Z → @decode A W1 d = @decode A W2 d.

Lemma same_read {A} n (W1 W2 : Wire A) d :
  same_reading n W1 W2 → (nesting d ≤ n)%Z → @read A W1 d = @read A W2 d.
Proof. intros [Hz Hd] Hn. unfold read. rewrite Hz. destruct d; [by rewrite (Hd JNull Hn)|..]; by apply Hd. Qed.

Lemma same_refl {A} n (W : Wire A) : same_reading n W W.
Proof. done. Qed.

Lemma nesting_arr n l : (nesting (JArr l) ≤ n)%Z → Forall (λ d, (nesting d ≤ n)%Z) l.
Proof.
  cbn [nesting]. revert n. induction l as [|d l IH]; intros n Hn; [constructor|]. cbn [foldr] in Hn.
  constructor; [lia|]. apply IH. lia.
Qed.
Lemma nesting_obj n l : (nesting (JObj l) ≤ 1 + n)%Z → Forall (λ e, (nesting e.2 ≤ n)%Z) l.
Proof.
  cbn [nesting]. revert n. induction l as [|d l IH]; intros n Hn; [constructor|]. cbn [foldr] in Hn.
  constructor; [lia|]. apply IH. lia.
Qed.

Lemma same_list {A} n (W1 W2 : Wire A) :
  same_reading n W1 W2 → same_reading n (@list_wire A W1) (@list_wire A W2).
Proof.
  intros HW. split; [done|]. intros [| | | |l|m] Hn; try done. simpl. apply nesting_arr in Hn.
  induction Hn as [|d l Hd _ IH]; [done|]. cbn [mapM]. by rewrite (same_read n W1 W2 d HW Hd), IH.
Qed.
Lemma same_pointer {A} n (W1 W2 : Wire A) :
  same_reading n W1 W2 → same_reading n (@pointer_wire A W1) (@pointer_wire A W2).
Proof. intros [Hz Hd]. split; [done|]. intros d Hn. simpl. rewrite Hd by done. by destruct d. Qed.
Lemma same_map {A} n (W1 W2 : Wire A) :
  same_reading n W1 W2 → same_reading n (@map_wire A W1) (@map_wire A W2).
Proof.
  intros HW. split; [done|]. intros [| | | |l|m] Hn; try done. simpl.
  assert (Hm : Forall (λ e, (nesting e.2 ≤ n)%Z) m) by (apply nesting_obj; lia).
  f_equal. clear Hn. induction Hm as [|[k d] m Hd _ IH]; [done|]. cbn [mapM fst snd] in *.
  by rewrite (same_read n W1 W2 d HW Hd), IH.
Qed.
Lemma same_entries {A} n (W1 W2 : Wire A) :
  same_reading n W1 W2 → same_reading n (@entries_wire A W1) (@entries_wire A W2).
Proof. intros HW%same_map. split; [done|]. intros d Hn. cbn [decode entries_wire]. by rewrite (proj2 HW d Hn). Qed.

Definition same_dec {T} (n : Z) (F1 F2 : Fields T) : Prop :=
  @zero_fields T F1 = @zero_fields T F2 ∧
  ∀ tags m, Forall (λ e : string * json, (nesting e.2 ≤ n)%Z) m →
    @dec_fields T F1 tags m = @dec_fields T F2 tags m.

Lemma lookup_field_elem name m d : lookup_field name m = Some d → ∃ e, e ∈ m ∧ e.2 = d.
Proof.
  unfold lookup_field. enough (∀ acc, foldl (λ acc e, if selects name e.1 then Some e.2 else acc) acc m = Some d →
    acc = Some d ∨ ∃ e, e ∈ m ∧ e.2 = d) as H by (intros Hd; by destruct (H None Hd)).
  induction m as [|e m IH]; intros acc; simpl; [by left|]. intros [Ha|(e' & He & Hd)]%IH; [|set_solver].
  destruct (selects name e.1); [|by left]. injection Ha as <-. right. exists e. split; [by left|done].
Qed.

Lemma same_cons {A T} n (W1 W2 : Wire A) (F1 F2 : Fields T) :
  same_reading n W1 W2 → same_dec n F1 F2 → same_dec n (@cons_fields A W1 T F1) (@cons_fields A W2 T F2).
Proof.
  intros HW [Hz HF]. split; [simpl; by rewrite Hz, (proj1 HW)|]. intros [|[name omit] tags] m Hm; [done|]. simpl.
  rewrite (HF tags m Hm). destruct (@dec_fields T F2 tags m) as [t|]; [|done]. simpl.
  destruct (lookup_field name m) as [d|] eqn:E; [|by rewrite (proj1 HW)].
  apply lookup_field_elem in E as (e & He & <-). rewrite Forall_forall in Hm. by rewrite (same_read n W1 W2 e.2 HW (Hm e He)).
Qed.

Lemma same_struct {R T} n tags (unpack : R → T) (pack : T → R) (F1 F2 : Fields T) :
  same_dec n F1 F2 →
  same_reading (1 + n) (@struct_wire R T F1 tags unpack pack) (@struct_wire R T F2 tags unpack pack).
Proof.
  intros [Hz HF]. split; [simpl; by rewrite Hz|]. intros [| | | |l|m] Hn; try done. simpl. f_equal.
  by apply HF, nesting_obj.
Qed.

Lemma same_step n (W1 W2 : Wire JSONSchema) :
  same_reading n W1 W2 → same_reading (1 + n) (schema_step W1) (schema_step W2).
Proof.
  intros HW. apply same_struct.
  repeat (apply same_cons; [auto using same_refl, same_list, same_pointer, same_entries|]). done.
Qed.

(** Fuel for every document of some nesting. *)
Lemma schema_fuel (n m : nat) d :
  (nesting d ≤ Z.of_nat n)%Z → n ≤ m → decode (Wire:=schema_wire n) d = decode (Wire:=schema_wire m) d.
Proof.
  intros Hd Hm. enough (Hs : ∀ n m : nat, n ≤ m → same_reading (Z.of_nat n) (schema_wire n) (schema_wire m)) by by apply Hs.
  clear. intros n. induction n as [|n IH]; intros [|m] Hm; [done| |lia|].
  - split; [reflexivity|]. intros [| | | |l|l] Hn; [reflexivity..|]. exfalso. cbn [nesting] in Hn.
    pose proof (foldr_max_nonneg (λ e : string * json, nesting e.2) l). lia.
  - rewrite Nat2Z.inj_succ, <-Z.add_1_l. apply same_step, IH. lia.
Qed.

(* ------------------------------------------------------------------ *)
(** ** Properties *)
(* ------------------------------------------------------------------ *)

Definition schema_to_json (n : nat) (s : JSONSchema) : option json := encode (Wire:=schema_wire n) s.
Definition schema_of_text (n : nat) (text : string) : option JSONSchema := unmarshal (H:=schema_wire n) text.

Lemma nesting_fix d : nesting (fix_json d) = nesting d.
Proof.
  induction d as [| | | |l IH|m IH] using json_ind'; try done; cbn [fix_json nesting]; f_equal.
  - induction IH as [|d l Hd _ IHl]; [done|]. cbn [map foldr]. by rewrite Hd, IHl.
  - induction IH as [|e m He _ IHm]; [done|]. cbn [map foldr snd]. by rewrite He, IHm.
Qed.

Lemma schema_zero n : @zero _ (schema_wire n) = empty_schema.
Proof. by destruct n. Qed.
Lemma schema_read_fuel n m d :
  (maxNestingDepth ≤ Z.of_nat n)%Z → (maxNestingDepth ≤ Z.of_nat m)%Z → (nesting d ≤ maxNestingDepth)%Z →
  read (H:=schema_wire n) d = read (H:=schema_wire m) d.
Proof.
  assert (Hle : ∀ n m : nat, (maxNestingDepth ≤ Z.of_nat n)%Z → n ≤ m → (nesting d ≤ maxNestingDepth)%Z →
    read (H:=schema_wire n) d = read (H:=schema_wire m) d).
  { intros k l Hk Hkl Hd. destruct k as [|k], l as [|l]; try (unfold maxNestingDepth in *; lia).
    pose proof (schema_fuel (S k) (S l) d ltac:(lia) ltac:(lia)) as Hf. revert Hf.
    generalize (schema_wire (S k)) (schema_wire (S l)) (schema_zero (S k)) (schema_zero (S l)).
    intros W1 W2 Hz1 Hz2 Hf. unfold read. rewrite Hz1, Hz2. destruct d; by rewrite Hf. }
  intros Hn Hm Hd. destruct (Nat.le_ge_cases n m); [by apply Hle|symmetry; by apply Hle].
Qed.

(** *** Schemas that can come back *)

(** A generic value with the entries of its maps in the order of their keys. *)
Fixpoint ordered (v : any) : Prop :=
  match v with
  | ASlice l => foldr (λ x p, ordered x ∧ p) True l
  | AMap m => isort entry_leb m = m ∧ foldr (λ kv p, ordered kv.2 ∧ p) True m
  | _ => True
  end.
(** A value as the decoder gives it: no machine integers, texts in UTF-8, floats that
    their text reads back as, maps in order without repeated keys. *)
Definition decoded_value (v : any) : Prop := native v ∧ ordered v.

Lemma mapM_same {A} (f : A → option A) l : Forall (λ x, f x = Some x) l → mapM f l = Some l.
Proof. induction 1 as [|x l Hx _ IH]; [done|]. cbn [mapM]. by rewrite Hx, IH. Qed.
Lemma decoded_value_good v : decoded_value v → good v.
Proof.
  intros [Hn Ho]. split; [by apply native_floats|]. revert Hn Ho.
  induction v as [|b|z|f|s|l IH|m IH] using any_ind'; try done.
  - intros Hs _. simpl in *. by rewrite Hs.
  - rewrite native_slice. intros Hn Ho%(all_of_Forall ordered l). cbn [as_decoded]. rewrite mapM_same; [done|].
    rewrite Forall_forall in *. eauto.
  - rewrite native_map. intros [Hnd Hn] [Hs Ho]. apply (all_of_Forall (λ kv, ordered kv.2) m) in Ho. cbn [as_decoded].
    rewrite mapM_same.
    2:{ rewrite Forall_forall in *. intros [k x] Hx. destruct (Hn _ Hx) as [_ Hnx].
        pose proof (IH _ Hx Hnx (Ho _ Hx)) as Hi. simpl in *. by rewrite Hi. }
    cbn [mbind option_bind]. rewrite fix_keys, Hs by (intros e He; rewrite Forall_forall in Hn; by apply Hn).
    by rewrite assoc_set_all.
Qed.

(** The pointers to schemas directly inside a schema, and the schemas they point to. *)
Definition schema_pointers (s : JSONSchema) : list (option JSONSchema) :=
  map snd (default [] (Properties s)) ++ map snd (Defs s) ++ AnyOf s ++ OneOf s ++ AllOf s ++ PrefixItems s ++
  [Items s; If_ s; Then_ s; Else_ s].
Definition subschemas (s : JSONSchema) : list JSONSchema := omap id (schema_pointers s).

(** A map of schemas as a decoder lists it: valid keys, none twice, in their order. *)
Definition keys_in_order {V} (m : list (string * V)) : Prop :=
  Forall utf8_valid m.*1 ∧ NoDup m.*1 ∧ isort entry_leb m = m.

(** What a schema itself must be for that: its texts UTF-8, its numbers of their width
    and floats that read back, its generic values decoded ones, its constant not null,
    its properties not an empty map, its maps in the order of their keys. *)
Definition restorable_fields (s : JSONSchema) : Prop :=
  Forall utf8_valid ([Type_ s; Description s; Title s; Pattern s; SchemaURI s] ++ Required s ++ RequiresEvidence s) ∧
  Forall decoded_value (Default s :: Examples s ++ Enum s) ∧
  (∀ v, Const s = Some v → decoded_value v ∧ v ≠ ANil) ∧
  (∀ z, MinLength s = Some z ∨ MaxLength s = Some z → in_int64 z) ∧
  (∀ f, Minimum s = Some f ∨ Maximum s = Some f → reads_back f) ∧
  (∀ m, Properties s = Some m → m ≠ [] ∧ keys_in_order m) ∧ keys_in_order (Defs s).
(** The same for every schema it nests, fewer than [n] deep. *)
Fixpoint restorable (n : nat) (s : JSONSchema) : Prop :=
  match n with 0 => False | S n => restorable_fields s ∧ Forall (restorable n) (subschemas s) end.

Lemma good_optional {A} `{Wire A} (o : option A) :
  (∀ x, o = Some x → good x ∧ encode x ≠ Some JNull) → good o.
Proof. destruct o as [x|]; [|done]. intros Hx. by apply Hx. Qed.
Lemma to_json_null v : to_json v = Some JNull → v = ANil.
Proof. destruct v; simpl; try done; by case_match || destruct (mapM _ _) || destruct (json_float _). Qed.
Lemma sorted_entries_same {V} (m : list (string * V)) : keys_in_order m → sorted_entries (entry_map m) = m.
Proof.
  intros (_ & Hnd & Hs). unfold sorted_entries. rewrite <-Hs at 2. apply isort_entries_perm; [apply NoDup_fst_map_to_list|].
  by apply map_to_list_to_map.
Qed.

Lemma good_entry_list `{Wire A} (l : list (string * A)) :
  sorted_entries (entry_map l) = l → Forall (λ kv, utf8_valid kv.1 ∧ good kv.2) l → good (mkEntries (Some l)).
Proof.
  intros Hs Hl. split; [done|]. intros k x Hk%elem_of_list_to_map_2. rewrite Forall_forall in Hl.
  by apply (Hl (k, x)).
Qed.
Lemma good_in_order `{Wire A} (l : list (string * A)) :
  keys_in_order l → (∀ x, x ∈ map snd l → good x) → good (mkEntries (Some l)).
Proof.
  intros Hl Hg. apply good_entry_list; [by apply sorted_entries_same|]. destruct Hl as (Hu & _).
  rewrite !Forall_forall in *. intros [k x] Hin. split; [apply Hu|apply Hg]; apply list_elem_of_fmap; by exists (k, x).
Qed.
Lemma good_schema_wire n s : schema_ok (schema_wire n) s → good (Wire:=schema_wire (S n)) s.
Proof. apply good_schema. Qed.
Lemma good_pointer n s :
  good (Wire:=schema_wire (S n)) s → good (Wire:=@pointer_wire _ (schema_wire (S n))) (Some s).
Proof. intros Hs. split; [exact Hs|]. apply struct_not_null. Qed.

Lemma restorable_good n s : restorable n s → good (Wire:=schema_wire n) s.
Proof.
  revert s. induction n as [|n IH]; intros s; [done|]. intros (Hf & Hs). apply good_schema_wire.
  assert (Hc : ∀ o, o ∈ schema_pointers s → good (Wire:=@pointer_wire _ (schema_wire n)) o).
  { intros [x|] Ho; [|exact I]. rewrite Forall_forall in Hs. assert (Hx : restorable n x).
    { apply Hs, list_elem_of_omap. by exists (Some x). }
    apply IH in Hx. destruct n as [|n]; [done|]. by apply good_pointer. }
  destruct Hf as (Hu & Hv & Hconst & Hint & Hfloat & Hp & Hd). rewrite !Forall_app in Hu. destruct Hu as (Hu & Hr & He).
  apply Forall_cons in Hv as [Hdef Hv]. apply Forall_app in Hv as [Hex Hen].
  assert (Hg : ∀ l, Forall decoded_value l → Forall good l)
    by (intros l Hl; eapply Forall_impl; [exact Hl|apply decoded_value_good]).
  unfold schema_pointers in Hc. unfold schema_ok. split_and!; try done; auto using decoded_value_good.
  - apply good_optional. intros c Hc'. destruct (Const s) as [v|] eqn:E; [|done]. injection Hc' as <-.
    destruct (Hconst v eq_refl) as [Hvd Hvn]. split; [by apply decoded_value_good|]. by intros ?%to_json_null.
  - apply good_optional. intros z Hz. split; [by apply Hint; left|done].
  - apply good_optional. intros z Hz. split; [by apply Hint; right|done].
  - apply good_optional. intros f Hz. split; [by apply Hfloat; left|]. simpl. by destruct (json_float f).
  - apply good_optional. intros f Hz. split; [by apply Hfloat; right|]. simpl. by destruct (json_float f).
  - intros Hm. by destruct (Hp [] Hm).
  - destruct (Properties s) as [m|]; [|done]. destruct (Hp m eq_refl) as [_ Hm].
    apply good_in_order; [done|]. intros x Hx. apply Hc. simpl. set_solver.
  - destruct (Defs s) as [|e m] eqn:E; [done|]. apply good_in_order; [done|]. intros x Hx. apply Hc. set_solver.
  - apply Forall_forall. intros x Hx. apply Hc. set_solver.
  - apply Forall_forall. intros x Hx. apply Hc. set_solver.
  - apply Forall_forall. intros x Hx. apply Hc. set_solver.
  - apply Forall_forall. intros x Hx. apply Hc. set_solver.
  - apply Hc. set_solver.
  - apply Hc. set_solver.
  - apply Hc. set_solver.
  - apply Hc. set_solver.
Qed.

(** C26: a schema is read back from what is written for it, with everything it nests,
    however much depth past the decoder's limit is allowed for, when each schema in it
    has texts in UTF-8, numbers of their width that read back, generic values as the
    decoder gives them (no machine integers, maps in the order of their keys), a
    constant that is not null, properties that are nil or not empty, and its maps of
    schemas listed in the order of their keys. *)
Theorem schemas_are_read_back n m s d :
  (maxNestingDepth ≤ Z.of_nat n)%Z → (maxNestingDepth ≤ Z.of_nat m)%Z →
  restorable n s → schema_to_json n s = Some d → (nesting d ≤ maxNestingDepth)%Z →
  schema_of_text m (print d) = Some s.
Proof.
  intros Hn Hm Hs%restorable_good Hd Hdepth. pose proof (encode_lits (WireLaws:=schema_laws n) s d Hs Hd) as Hl.
  unfold schema_of_text, unmarshal. rewrite parse_print by done. simpl.
  rewrite (schema_read_fuel m n) by (done || by rewrite nesting_fix).
  by apply (read_encode (WireLaws:=schema_laws n)).
Qed.

(** A schema with properties, one of them an array with typed items and a prefix. *)
Definition text_schema (ty : string) : JSONSchema :=
  mkJSONSchema ty None [] "" "" ANil [] None (Some 9%Z) "" None None [] None None [] [] [] []
    None [] None None None "" [].
Definition ids_schema : JSONSchema :=
  mkJSONSchema "array" None [] "" "" ANil [] None None "" None None [] (Some (text_schema "string")) (Some false)
    [] [] [] [] None [Some (text_schema "integer"); None] None None None "" [].
Definition sample_schema : JSONSchema :=
  mkJSONSchema "object" (Some [("ids", Some ids_schema); ("name", Some (text_schema "string"))])
    ["name"] "a search" "" (AString "d") [] None None "" None None [AString "x"; ABool true] None None [] [] [] []
    (Some (AString "c")) [] None (Some (text_schema "null")) None "" ["ids"].

Ltac solve_restorable :=
  unfold restorable_fields, keys_in_order, decoded_value;
  repeat match goal with
  | |- _ ∧ _ => split
  | |- Forall _ _ => cbn; first [apply Forall_cons_2|apply Forall_nil_2]
  | |- NoDup _ => by apply (bool_decide_unpack _); vm_compute
  | |- _ → _ => intro
  | H : _ ∨ _ |- _ => destruct H
  | H : _ = Some _ |- _ => progress simplify_eq/=
  end; try done; try by vm_compute.
Lemma text_schema_restorable n ty : utf8_valid ty → restorable (S n) (text_schema ty).
Proof. intros Ht. split; [|by apply Forall_nil_2]. solve_restorable. Qed.
Lemma text_schema_good n ty : utf8_valid ty → good (Wire:=schema_wire (S n)) (text_schema ty).
Proof. intros Ht. by apply restorable_good, text_schema_restorable. Qed.
Lemma ids_schema_restorable n : restorable (S (S n)) ids_schema.
Proof.
  split; [solve_restorable|].
  repeat (apply Forall_cons_2; [by apply text_schema_restorable|]). apply Forall_nil_2.
Qed.
Lemma sample_schema_restorable n : restorable (S (S (S n))) sample_schema.
Proof.
  split; [solve_restorable|].
  apply Forall_cons_2; [apply ids_schema_restorable|]. repeat (apply Forall_cons_2; [by apply text_schema_restorable|]). apply Forall_nil_2.
Qed.

Lemma schemas_are_read_back_witness :
  ∃ d, schema_to_json (3 + Z.to_nat maxNestingDepth) sample_schema = Some d ∧
       schema_of_text (Z.to_nat maxNestingDepth) (print d) = Some sample_schema.
Proof.
  eexists. split; [reflexivity|]. apply (schemas_are_read_back (3 + Z.to_nat maxNestingDepth)).
  - rewrite Nat2Z.inj_add, Z2Nat.id by done. unfold maxNestingDepth. lia.
  - by rewrite Z2Nat.id.
  - exact (sample_schema_restorable _).
  - reflexivity.
  - by vm_compute.
Defined.

(** The constant null is written and lost: what comes back has no constant. *)
Theorem const_null_is_lost n :
  let s := mkJSONSchema "" None [] "" "" ANil [] None None "" None None [] None None [] [] [] []
             (Some ANil) [] None None None "" [] in
  ∃ d, schema_to_json (S n) s = Some d ∧ schema_of_text (S n) (print d) = Some empty_schema.
Proof. eexists. split; reflexivity. Qed.
