(* ===== verification/Validation.v ===== *)
(** JSON Schema validation, [src/validation/schema.go]: the executable
    validator, a declarative specification of conformance, and the theorems
    that relate them. *)
From S2P Require Export Types.

(** [regexp.Compile] and [MatchString] for an arbitrary pattern: [None] is a
    pattern that does not compile. *)
Class Regexp := { regexp_compile : string → option (string → bool) }.

(** A pattern engine that accepts everything, for evaluation. *)
Definition regexp_any : Regexp := {| regexp_compile _ := Some (λ _, true) |}.

Definition ErrSchemaValidation : string := "validation: schema validation failed".

(** [&ValidationError{Field, Message}], the message as format and arguments. *)
Abbreviation ValidationError := EValidation.

Definition jsonEqual (a b : any) : bool := String.eqb (json_bytes a) (json_bytes b).

Definition dotPath (parent child : string) : string :=
  if String.eqb parent "" then child else parent +:+ "." +:+ child.

(** [fmt.Sprintf("%s[%d]", path, i)] *)
Definition itemPath (path : string) (i : nat) : string :=
  path +:+ "[" +:+ pretty (Z.of_nat i) +:+ "]".

Section validate.
Context `{Regexp} `{GoArch}.

(** [f == float64(int64(f))] *)
Definition is_integer (f : float64) : bool := feqb f (f_of_Z (int64_of_float f)).

Definition validateType (data : any) (expected path : string) : option error :=
  let fail msg := Some (ValidationError path msg [FA data]) in
  if String.eqb expected "object" then
    match data with AMap _ => None | _ => fail "expected object, got %T" end
  else if String.eqb expected "array" then
    match data with ASlice _ => None | _ => fail "expected array, got %T" end
  else if String.eqb expected "string" then
    match data with AString _ => None | _ => fail "expected string, got %T" end
  else if String.eqb expected "number" then
    match data with AFloat _ => None | _ => fail "expected number, got %T" end
  else if String.eqb expected "boolean" then
    match data with ABool _ => None | _ => fail "expected boolean, got %T" end
  else if String.eqb expected "integer" then
    match data with
    | AFloat f => if is_integer f then None else fail "expected integer, got %T"
    | _ => fail "expected integer, got %T"
    end
  else Some (ValidationError path "unsupported schema type %q" [FS expected]).

Definition validateEnum (data : any) (enum : list any) (path : string) : option error :=
  if existsb (jsonEqual data) enum then None
  else Some (ValidationError path "value not in enum: %v" [FA (ASlice enum)]).

Definition validateConst (data constVal : any) (path : string) : option error :=
  if jsonEqual data constVal then None
  else Some (ValidationError path "value must be %v" [FA constVal]).

Definition validateString (data : any) (schema : JSONSchema) (path : string) : option error :=
  match data with
  | AString s =>
      match MinLength schema with
      | Some n => check_when (Z.of_nat (slen s) <? n)%Z
          (Some (ValidationError path "string length %d < minLength %d" [FN (slen s); FI n]))
      | None => None
      end ;;?
      match MaxLength schema with
      | Some n => check_when (n <? Z.of_nat (slen s))%Z
          (Some (ValidationError path "string length %d > maxLength %d" [FN (slen s); FI n]))
      | None => None
      end ;;?
      check_when (negb (String.eqb (Pattern schema) ""))
        (match regexp_compile (Pattern schema) with
         | None => Some (ValidationError path "invalid pattern %q: %v" [FS (Pattern schema)])
         | Some matches => check_when (negb (matches s))
             (Some (ValidationError path "string does not match pattern %q" [FS (Pattern schema)]))
         end)
  | _ => None
  end.

Definition validateNumber (data : any) (schema : JSONSchema) (path : string) : option error :=
  match data with
  | AFloat f =>
      match Minimum schema with
      | Some m => check_when (fltb f m)
          (Some (ValidationError path "value %v < minimum %v" [FA (AFloat f); FA (AFloat m)]))
      | None => None
      end ;;?
      match Maximum schema with
      | Some m => check_when (fltb m f)
          (Some (ValidationError path "value %v > maximum %v" [FA (AFloat f); FA (AFloat m)]))
      | None => None
      end
  | _ => None
  end.

Section recursive.
(** The validator itself, [validateValue] or [validateValueStrict], applied
    to a schema pointer. *)
Variable validate : any → option JSONSchema → string → option error.

Fixpoint prefix_loop (path : string) (i : nat) (items : list (option JSONSchema))
    (arr : list any) : option error :=
  match items, arr with
  | itemSchema :: items, x :: arr =>
      validate x itemSchema (itemPath path i) ;;? prefix_loop path (S i) items arr
  | _, _ => None
  end.

Definition validatePrefixItems (arr : list any) (schema : JSONSchema) (path : string)
  : option error := prefix_loop path 0 (PrefixItems schema) arr.

Definition validateArray (data : any) (schema : JSONSchema) (path : string) : option error :=
  match data with
  | ASlice arr =>
      check_when (0 <? length (PrefixItems schema)) (validatePrefixItems arr schema path) ;;?
      match Items schema with
      | Some items =>
          let startIdx := if 0 <? length (PrefixItems schema)
                          then length (PrefixItems schema) else 0 in
          first_error (λ ix, validate ix.2 (Some items) (itemPath path ix.1))
            (drop startIdx (imap pair arr))
      | None => None
      end
  | _ => None
  end.

Definition validateObject (data : any) (schema : JSONSchema) (path : string) (strict : bool)
  : option error :=
  match data with
  | AMap obj =>
      first_error (λ req, match assoc req obj with
        | Some _ => None
        | None => Some (ValidationError (dotPath path req) "required field missing" [])
        end) (Required schema) ;;?
      match Properties schema with
      | None => None
      | Some properties =>
          first_error (λ kv, match assoc kv.1 obj with
            | None => None
            | Some val => validate val kv.2 (dotPath path kv.1)
            end) properties
      end ;;?
      (let rejectUnknown := match AdditionalProperties schema with
         | Some false => true
         | _ => strict
         end in
       check_when (rejectUnknown && (0 <? length (props schema)))
         (first_error (λ kv, match assoc kv.1 (props schema) with
           | Some _ => None
           | None => Some (ValidationError (dotPath path kv.1) "unknown property" [])
           end) obj))
  | _ => None
  end.

Definition count_matches (data : any) (path : string) (subs : list (option JSONSchema)) : nat :=
  foldr (λ sub n, match validate data sub path with None => S n | Some _ => n end) 0 subs.

Definition validateComposition (data : any) (schema : JSONSchema) (path : string)
  : option error :=
  check_when (0 <? length (AnyOf schema))
    (if existsb (λ sub, match validate data sub path with None => true | Some _ => false end)
          (AnyOf schema)
     then None
     else Some (ValidationError path "value does not match any of anyOf schemas" [])) ;;?
  check_when (0 <? length (OneOf schema))
    (let count := count_matches data path (OneOf schema) in
     if count =? 1 then None
     else Some (ValidationError path
            "value matches %d of oneOf schemas, expected exactly 1" [FN count])) ;;?
  first_error (λ sub, match validate data sub path with
    | None => None
    | Some err => Some (ValidationError path "value does not match allOf: %v" [FV err])
    end) (AllOf schema).

Definition validateConditional (data : any) (schema : JSONSchema) (path : string)
  : option error :=
  match validate data (If_ schema) path with
  | None =>
      match Then_ schema with
      | Some _ => match validate data (Then_ schema) path with
          | Some thenErr => Some (ValidationError path
              "condition met but 'then' failed: %v" [FV thenErr])
          | None => None
          end
      | None => None
      end
  | Some _ =>
      match Else_ schema with
      | Some _ => match validate data (Else_ schema) path with
          | Some err => Some (ValidationError path
              "condition not met but 'else' failed: %v" [FV err])
          | None => None
          end
      | None => None
      end
  end.

(** The [switch schema.Type] of the validator. *)
Definition validateByType (data : any) (schema : JSONSchema) (path : string) (strict : bool)
  : option error :=
  let t := Type_ schema in
  if String.eqb t "string" then validateString data schema path
  else if String.eqb t "number" || String.eqb t "integer" then validateNumber data schema path
  else if String.eqb t "array" then validateArray data schema path
  else if String.eqb t "object" || String.eqb t "" then
    check_when (String.eqb t "object"
                || (String.eqb t "" && bool_decide (is_Some (Properties schema))))
      (validateObject data schema path strict)
  else None.
End recursive.

(** [validateValue] ([strict = false]) and [validateValueStrict]
    ([strict = true]) on a non-nil schema: the two functions of the source
    differ only in the flag they hand down. *)
Fixpoint validateSchema (strict : bool) (data : any) (schema : JSONSchema) (path : string)
  {struct schema} : option error :=
  let validate d o p := match o with
    | Some s => validateSchema strict d s p
    | None => None
    end in
  check_when (negb (String.eqb (Type_ schema) "")) (validateType data (Type_ schema) path) ;;?
  check_when (0 <? length (Enum schema)) (validateEnum data (Enum schema) path) ;;?
  match Const schema with Some c => validateConst data c path | None => None end ;;?
  validateByType validate data schema path strict ;;?
  validateComposition validate data schema path ;;?
  match If_ schema with
  | Some _ => validateConditional validate data schema path
  | None => None
  end.

Definition validatePtr (strict : bool) (data : any) (schema : option JSONSchema) (path : string)
  : option error :=
  match schema with Some s => validateSchema strict data s path | None => None end.

Definition validateValue := validatePtr false.
Definition validateValueStrict := validatePtr true.

(** [ValidateValue]: an already decoded value. *)
Definition ValidateValue (data : any) (schema : option JSONSchema) : option error :=
  match schema with None => None | Some _ => validateValue data schema "" end.

Section input.
(** [json.Unmarshal] into an [any]: the decoded value or its error. *)
Variable unmarshal : string → result error any.

Definition ValidateInput (input : string) (schema : option JSONSchema) : option error :=
  match schema with
  | None => None
  | Some _ =>
      match unmarshal input with
      | Err e => Some (EFmt "%w: invalid JSON: %v" [FW (ESentinel ErrSchemaValidation); FV e])
      | Ok data => validateValue data schema ""
      end
  end.

Definition ValidateInputStrict (input : string) (schema : option JSONSchema) : option error :=
  match schema with
  | None => None
  | Some _ =>
      match unmarshal input with
      | Err e => Some (EFmt "%w: invalid JSON: %v" [FW (ESentinel ErrSchemaValidation); FV e])
      | Ok data => validateValueStrict data schema ""
      end
  end.
End input.
End validate.

(* ------------------------------------------------------------------ *)
(** ** What it means for a value to conform to a schema *)
(* ------------------------------------------------------------------ *)

Section spec.
Context `{Regexp} `{GoArch}.

(** The schema types a value belongs to; [nil] and native integers belong to
    none. *)
Definition has_type (d : any) (t : string) : Prop :=
  match d with
  | AMap _ => t = "object"
  | ASlice _ => t = "array"
  | AString _ => t = "string"
  | AFloat f => t = "number" ∨ (t = "integer" ∧ is_integer f = true)
  | ABool _ => t = "boolean"
  | ANil | AInt _ => False
  end.

Definition string_ok (s : string) (schema : JSONSchema) : Prop :=
  (∀ n, MinLength schema = Some n → (n ≤ Z.of_nat (slen s))%Z) ∧
  (∀ n, MaxLength schema = Some n → (Z.of_nat (slen s) ≤ n)%Z) ∧
  (Pattern schema ≠ "" →
    ∃ matches, regexp_compile (Pattern schema) = Some matches ∧ matches s = true).

Definition number_ok (f : float64) (schema : JSONSchema) : Prop :=
  (∀ m, Minimum schema = Some m → fltb f m = false) ∧
  (∀ m, Maximum schema = Some m → fltb m f = false).

Section with_C.
Variable C : any → option JSONSchema → Prop.

(** Element [i] conforms to the [i]-th schema of the tuple, as far as both go. *)
Fixpoint tuple_ok (items : list (option JSONSchema)) (arr : list any) : Prop :=
  match items, arr with
  | o :: items, x :: arr => C x o ∧ tuple_ok items arr
  | _, _ => True
  end.

Definition array_ok (arr : list any) (schema : JSONSchema) : Prop :=
  tuple_ok (PrefixItems schema) arr ∧
  match Items schema with
  | Some items => Forall (λ x, C x (Some items)) (drop (length (PrefixItems schema)) arr)
  | None => True
  end.

(** Unknown keys are rejected in strict mode and when
    [additionalProperties] is false, provided some property is declared. *)
Definition closed (schema : JSONSchema) (strict : bool) : Prop :=
  (strict = true ∨ AdditionalProperties schema = Some false) ∧ props schema ≠ [].

Definition object_ok (m : list (string * any)) (schema : JSONSchema) (strict : bool) : Prop :=
  (∀ k, k ∈ Required schema → k ∈ m.*1) ∧
  match Properties schema with
  | None => True
  | Some ps => all_of (λ kv, ∀ v, assoc kv.1 m = Some v → C v kv.2) ps
  end ∧
  (closed schema strict → ∀ k, k ∈ m.*1 → k ∈ (props schema).*1).

Definition shape_ok (d : any) (schema : JSONSchema) (strict : bool) : Prop :=
  (∀ s, Type_ schema = "string" → d = AString s → string_ok s schema) ∧
  (∀ f, Type_ schema = "number" ∨ Type_ schema = "integer" →
     d = AFloat f → number_ok f schema) ∧
  (Type_ schema = "array" → match d with ASlice arr => array_ok arr schema | _ => True end) ∧
  (Type_ schema = "object" ∨ (Type_ schema = "" ∧ is_Some (Properties schema)) →
     match d with AMap m => object_ok m schema strict | _ => True end).

Definition composition_ok (d : any) (schema : JSONSchema) : Prop :=
  (AnyOf schema ≠ [] → some_of (C d) (AnyOf schema)) ∧
  (OneOf schema ≠ [] → exactly_one (C d) (OneOf schema)) ∧
  all_of (C d) (AllOf schema).

Definition conditional_ok (d : any) (schema : JSONSchema) : Prop :=
  match If_ schema with
  | None => True
  | Some _ => (C d (If_ schema) ∧ C d (Then_ schema)) ∨ (¬ C d (If_ schema) ∧ C d (Else_ schema))
  end.
End with_C.

(** [conforms strict d s]: [d] satisfies every constraint of [s]. *)
Fixpoint conforms (strict : bool) (d : any) (schema : JSONSchema) {struct schema} : Prop :=
  let C d o := match o with Some s => conforms strict d s | None => True end in
  (Type_ schema ≠ "" → has_type d (Type_ schema)) ∧
  (Enum schema ≠ [] → ∃ v, v ∈ Enum schema ∧ jsonEqual d v = true) ∧
  (∀ c, Const schema = Some c → jsonEqual d c = true) ∧
  shape_ok C d schema strict ∧
  composition_ok C d schema ∧
  conditional_ok C d schema.

Definition conforms_ptr (strict : bool) (d : any) (o : option JSONSchema) : Prop :=
  match o with Some s => conforms strict d s | None => True end.
End spec.

(* ------------------------------------------------------------------ *)
(** ** The validator decides conformance *)
(* ------------------------------------------------------------------ *)

Lemma eqb_guard (t : string) (P : Prop) (e : option error) :
  (e = None ↔ P) → check_when (negb (String.eqb t "")) e = None ↔ (t ≠ "" → P).
Proof.
  intros He. rewrite check_when_None, negb_true_iff, String.eqb_neq, He. done.
Qed.

Lemma length_guard {A} (l : list A) (P : Prop) (e : option error) :
  (e = None ↔ P) → check_when (0 <? length l) e = None ↔ (l ≠ [] → P).
Proof.
  intros He. rewrite check_when_None, Nat.ltb_lt, He. destruct l; simpl; [|naive_solver lia].
  split; [done|lia].
Qed.

Lemma bound_guard {A} (o : option A) (b : A → bool) (e : A → error) (P : A → Prop) :
  (∀ n, b n = false ↔ P n) →
  match o with Some n => check_when (b n) (Some (e n)) | None => None end = None
  ↔ (∀ n, o = Some n → P n).
Proof.
  intros HP. destruct o as [n|]; [|split; [by intros _ n|done]].
  rewrite check_when_None. split.
  - intros Hb ? [= <-]. apply HP. destruct (b n); [by specialize (Hb eq_refl)|done].
  - intros Hn Hb. specialize (Hn n eq_refl). apply HP in Hn. congruence.
Qed.

Section decide.
Context `{Regexp} `{GoArch}.

Lemma validateType_None d t p : validateType d t p = None ↔ has_type d t.
Proof.
  unfold validateType, has_type.
  repeat match goal with
  | |- context [String.eqb t ?s] => destruct (String.eqb_spec t s) as [->|?]
  end; destruct d as [| | |f| | |]; try (split; [congruence|tauto || congruence]).
  all: try (destruct (is_integer f)); intuition congruence.
Qed.

Lemma validateEnum_None d enum p :
  validateEnum d enum p = None ↔ ∃ v, v ∈ enum ∧ jsonEqual d v = true.
Proof.
  unfold validateEnum. destruct (existsb _ _) eqn:E.
  - split; [|done]. intros _. apply existsb_exists in E as (v & ?%list_elem_of_In & ?). eauto.
  - split; [done|]. intros (v & Hv & Hd).
    assert (existsb (jsonEqual d) enum = true); [|congruence].
    apply existsb_exists. exists v. by rewrite <-list_elem_of_In.
Qed.

Lemma validateConst_None d c p : validateConst d c p = None ↔ jsonEqual d c = true.
Proof. unfold validateConst. destruct (jsonEqual d c); naive_solver. Qed.

Lemma validateString_None s sch p : validateString (AString s) sch p = None ↔ string_ok s sch.
Proof.
  unfold validateString, string_ok. rewrite !check_seq_None.
  f_equiv; [|f_equiv].
  - apply (bound_guard _ (λ n, _) (λ n, _)). intros n. apply Z.ltb_ge.
  - apply (bound_guard _ (λ n, _) (λ n, _)). intros n. apply Z.ltb_ge.
  - apply eqb_guard. destruct (regexp_compile (Pattern sch)) as [f|].
    + rewrite check_when_None, negb_true_iff. destruct (f s) eqn:E.
      * split; [eauto|done].
      * split; [intros Hs; by specialize (Hs eq_refl)|]. intros (? & [= <-] & ?). congruence.
    + split; [done|by intros (? & ? & _)].
Qed.

Lemma validateNumber_None f sch p : validateNumber (AFloat f) sch p = None ↔ number_ok f sch.
Proof.
  unfold validateNumber, number_ok. rewrite check_seq_None.
  f_equiv; apply (bound_guard _ (λ n, _) (λ n, _)); done.
Qed.

Section with_rec.
Context (rec : any → option JSONSchema → string → option error).
Context (C : any → option JSONSchema → Prop).

(** The recursive calls on [o] decide [C]. *)
Definition decides (o : option JSONSchema) : Prop := ∀ d p, rec d o p = None ↔ C d o.

Lemma prefix_loop_None items arr path i :
  Forall decides items → prefix_loop rec path i items arr = None ↔ tuple_ok C items arr.
Proof.
  intros Hall. revert i arr. induction Hall as [|o items Ho Hall IH]; intros i [|x arr]; simpl; try done.
  rewrite check_seq_None, IH, (Ho x). done.
Qed.

Lemma imap_pair_drop n (arr : list any) (P : any → Prop) :
  Forall (λ ix, P ix.2) (drop n (imap pair arr)) ↔ Forall P (drop n arr).
Proof.
  rewrite !Forall_lookup. setoid_rewrite lookup_drop. setoid_rewrite list_lookup_imap.
  split.
  - intros HP i x Hx. apply (HP i (n + i, x)). by rewrite Hx.
  - intros HP i [j x] Hx. destruct (arr !! (n + i)) eqn:E; simplify_eq/=. eauto.
Qed.

Lemma validateArray_None arr sch path :
  Forall decides (PrefixItems sch) → decides (Items sch) →
  validateArray rec (ASlice arr) sch path = None ↔ array_ok C arr sch.
Proof.
  intros Hp Hi. unfold validateArray, array_ok. rewrite check_seq_None. f_equiv.
  - etrans; [apply length_guard, prefix_loop_None, Hp|].
    destruct (PrefixItems sch); [|naive_solver]. split; [|done]. by destruct arr.
  - destruct (Items sch) as [items|] eqn:E; [|done].
    rewrite first_error_None. cbv zeta.
    replace (if 0 <? length (PrefixItems sch) then length (PrefixItems sch) else 0)
      with (length (PrefixItems sch)) by (by destruct (PrefixItems sch)).
    rewrite <-(imap_pair_drop _ arr (λ x, C x (Some items))).
    apply Forall_proper; [|done]. intros [i x]. apply (Hi x).
Qed.

Lemma validateObject_None m sch path strict :
  Forall (λ kv, decides kv.2) (props sch) →
  validateObject rec (AMap m) sch path strict = None ↔ object_ok C m sch strict.
Proof.
  intros Hps. unfold validateObject, object_ok. rewrite !check_seq_None.
  f_equiv; [|f_equiv].
  - rewrite first_error_None, Forall_forall. apply forall_proper; intros k.
    apply forall_proper; intros _. rewrite <-assoc_is_Some.
    destruct (assoc k m); naive_solver.
  - unfold props in Hps. destruct (Properties sch) as [ps|]; simpl in *; [|done].
    rewrite first_error_None, all_of_Forall, !Forall_forall. rewrite Forall_forall in Hps.
    apply forall_proper; intros kv. split; intros Hkv Hin.
    + intros v Hv. specialize (Hkv Hin). rewrite Hv in Hkv. by apply (Hps kv Hin) in Hkv.
    + destruct (assoc kv.1 m) as [v|] eqn:Hv; [|done]. apply (Hps kv Hin); auto.
  - cbv zeta. rewrite check_when_None, first_error_None. unfold closed.
    assert ((match AdditionalProperties sch with Some false => true | _ => strict end
             && (0 <? length (props sch)) = true) ↔
            (strict = true ∨ AdditionalProperties sch = Some false) ∧ props sch ≠ []) as ->.
    { rewrite andb_true_iff, Nat.ltb_lt. f_equiv.
      - destruct (AdditionalProperties sch) as [[]|], strict; naive_solver.
      - destruct (props sch); simpl; [|naive_solver lia]. split; [lia|done]. }
    apply forall_proper; intros _. rewrite Forall_forall. split.
    + intros Hall k ([k' v] & -> & Hin)%list_elem_of_fmap. specialize (Hall _ Hin). simpl in *.
      apply assoc_is_Some. destruct (assoc k' (props sch)); naive_solver.
    + intros Hall [k v] Hin. simpl. assert (k ∈ m.*1) as Hk by (apply list_elem_of_fmap; by exists (k, v)).
      apply Hall, assoc_is_Some in Hk as [? ->]. done.
Qed.

Lemma count_matches_one d path l :
  Forall decides l →
  (count_matches rec d path l = 0 ↔ none_of (C d) l) ∧
  (count_matches rec d path l = 1 ↔ exactly_one (C d) l).
Proof.
  induction 1 as [|o l Ho Hl [IH0 IH1]]; simpl; [split; (split; [done|]); done || lia|].
  specialize (Ho d path).
  destruct (rec d o path) as [e|].
  - assert (¬ C d o) by (intros Hc; by apply Ho in Hc). rewrite IH0, IH1. tauto.
  - assert (C d o) by (by apply Ho).
    split; (split; [intros; simplify_eq|]); rewrite ?(inj_iff S); tauto || lia.
Qed.

Lemma existsb_some_of d path l :
  Forall decides l →
  existsb (λ sub, match rec d sub path with None => true | Some _ => false end) l = true
  ↔ some_of (C d) l.
Proof.
  induction 1 as [|o l Ho Hl IH]; simpl; [done|]. rewrite orb_true_iff, IH.
  specialize (Ho d path). destruct (rec d o path); naive_solver.
Qed.

Lemma validateComposition_None d sch path :
  Forall decides (AnyOf sch) → Forall decides (OneOf sch) → Forall decides (AllOf sch) →
  validateComposition rec d sch path = None ↔ composition_ok C d sch.
Proof.
  intros Hany Hone Hall. unfold validateComposition, composition_ok. rewrite !check_seq_None.
  f_equiv; [|f_equiv].
  - apply length_guard. rewrite <-(existsb_some_of d path) by done.
    destruct (existsb _ _); naive_solver.
  - apply length_guard. cbv zeta. destruct (count_matches_one d path _ Hone) as [_ <-].
    destruct (count_matches rec d path (OneOf sch) =? 1) eqn:E; bool_simp; naive_solver.
  - rewrite first_error_None, all_of_Forall. clear Hany Hone.
    induction Hall as [|o l Ho Hl IH]; [by split|]. rewrite !Forall_cons, IH.
    specialize (Ho d path). destruct (rec d o path); naive_solver.
Qed.

Lemma validateConditional_None d sch path :
  decides (If_ sch) → decides (Then_ sch) → decides (Else_ sch) →
  (∀ d, C d None) →
  match If_ sch with Some _ => validateConditional rec d sch path | None => None end = None
  ↔ conditional_ok C d sch.
Proof.
  intros Hi Ht He Hn. unfold validateConditional, conditional_ok.
  specialize (Hi d path). specialize (Ht d path). specialize (He d path). specialize (Hn d).
  destruct (If_ sch) as [i|]; [|done].
  destruct (rec d (Some i) path).
  - assert (¬ C d (Some i)) by (intros Hc; by apply Hi in Hc).
    destruct (Else_ sch) as [e'|]; [destruct (rec d (Some e') path)|]; intuition congruence.
  - destruct (Then_ sch) as [t|]; [destruct (rec d (Some t) path)|]; intuition congruence.
Qed.
End with_rec.
End decide.

Section theorems.
Context `{Regexp} `{GoArch}.

Lemma validateSchema_eq strict d s path :
  validateSchema strict d s path =
    (check_when (negb (String.eqb (Type_ s) "")) (validateType d (Type_ s) path) ;;?
     check_when (0 <? length (Enum s)) (validateEnum d (Enum s) path) ;;?
     match Const s with Some c => validateConst d c path | None => None end ;;?
     validateByType (validatePtr strict) d s path strict ;;?
     validateComposition (validatePtr strict) d s path ;;?
     match If_ s with
     | Some _ => validateConditional (validatePtr strict) d s path
     | None => None
     end).
Proof. by destruct s. Qed.

Lemma conforms_eq strict d s :
  conforms strict d s ↔
    (Type_ s ≠ "" → has_type d (Type_ s)) ∧
    (Enum s ≠ [] → ∃ v, v ∈ Enum s ∧ jsonEqual d v = true) ∧
    (∀ c, Const s = Some c → jsonEqual d c = true) ∧
    shape_ok (conforms_ptr strict) d s strict ∧
    composition_ok (conforms_ptr strict) d s ∧
    conditional_ok (conforms_ptr strict) d s.
Proof. by destruct s. Qed.

(** One case of [validateByType_None]: the type is known, so three of the
    four conjuncts of [shape_ok] are vacuous. *)
Local Ltac solve_shape :=
  split;
  [ intros; split_and!; intros; try done;
    repeat match goal with
    | H : _ ∨ _ |- _ => destruct H
    | H : _ ∧ _ |- _ => destruct H
    end; simplify_eq; done
  | intros (H1 & H2 & H3 & H4);
    first [ done | exact (H1 _ eq_refl eq_refl)
          | exact (H2 _ (or_introl eq_refl) eq_refl)
          | exact (H2 _ (or_intror eq_refl) eq_refl)
          | exact (H3 eq_refl) | exact (H4 (or_introl eq_refl)) ] ].

(** Only the constraints of the declared type are looked at. *)
Lemma validateByType_None rec C d s path strict :
  Forall (decides rec C) (PrefixItems s) → decides rec C (Items s) →
  Forall (λ kv, decides rec C kv.2) (props s) →
  validateByType rec d s path strict = None ↔ shape_ok C d s strict.
Proof.
  intros Hp Hi Hps. unfold validateByType, shape_ok. cbv zeta.
  destruct (String.eqb_spec (Type_ s) "string") as [->|].
  { destruct d; rewrite ?validateString_None; solve_shape. }
  destruct (String.eqb_spec (Type_ s) "number") as [->|]; cbn [orb].
  { destruct d; rewrite ?validateNumber_None; solve_shape. }
  destruct (String.eqb_spec (Type_ s) "integer") as [->|]; cbn [orb].
  { destruct d; rewrite ?validateNumber_None; solve_shape. }
  destruct (String.eqb_spec (Type_ s) "array") as [->|].
  { destruct d; rewrite ?(validateArray_None rec C) by auto; solve_shape. }
  destruct (String.eqb_spec (Type_ s) "object") as [->|]; cbn [orb andb check_when].
  { destruct d; rewrite ?(validateObject_None rec C) by auto; solve_shape. }
  destruct (String.eqb_spec (Type_ s) "") as [Ht|]; simpl.
  - rewrite check_when_None, bool_decide_eq_true, Ht. split.
    + intros Hobj. split_and!; [done|by intros ? [?|?]|done|].
      intros [?|[_ Hp']]; [done|]. destruct d; try done.
      eapply (validateObject_None rec C); [done|]. by apply Hobj.
    + intros (_ & _ & _ & H4) Hp'. destruct d; try done.
      apply (validateObject_None rec C); [done|]. apply (H4 (or_intror (conj eq_refl Hp'))).
  - split; [|done]. intros _. split_and!; intros; try congruence; try tauto.
Qed.

Lemma validateSchema_decides strict s :
  ∀ d path, validateSchema strict d s path = None ↔ conforms strict d s.
Proof.
  induction s as [s Hprops Hitems Hany Hone Hall Hpre Hif Hthen Helse] using schema_ind'.
  assert (∀ o, optP (λ s, ∀ d path, validateSchema strict d s path = None ↔ conforms strict d s) o
    → decides (validatePtr strict) (conforms_ptr strict) o) as Hopt.
  { intros [c|] Hc d path; [apply Hc|done]. }
  assert (∀ l, Forall (optP (λ s, ∀ d path, validateSchema strict d s path = None
      ↔ conforms strict d s)) l
    → Forall (decides (validatePtr strict) (conforms_ptr strict)) l) as Hlst.
  { intros l Hl. eapply Forall_impl; [exact Hl|]. exact Hopt. }
  intros d path. rewrite validateSchema_eq, conforms_eq, !check_seq_None.
  apply and_iff_parts; [apply eqb_guard, validateType_None|].
  apply and_iff_parts; [apply length_guard, validateEnum_None|].
  apply and_iff_parts.
  { destruct (Const s) as [c|]; [rewrite validateConst_None|].
    - split; [by intros Hc ? [= <-]|eauto].
    - split; [by intros _ c|done]. }
  apply and_iff_parts.
  { apply validateByType_None; auto. eapply Forall_impl; [exact Hprops|]. auto. }
  apply and_iff_parts; [apply validateComposition_None; auto|].
  apply (validateConditional_None (validatePtr strict)); auto. done.
Qed.

Lemma validatePtr_decides strict d o path :
  validatePtr strict d o path = None ↔ conforms_ptr strict d o.
Proof. destruct o; [apply validateSchema_decides|done]. Qed.
End theorems.

(* ------------------------------------------------------------------ *)
(** ** The full reading of a schema *)
(* ------------------------------------------------------------------ *)

(** What a schema states, read without regard to the code: a keyword constrains
    every value of its kind, whether or not the schema also names a type; a length
    counts characters; native numbers are numbers; [additionalProperties: false]
    closes an object to the declared properties, be they none; and strict mode
    closes the objects of every schema that declares properties. *)
Section full.
Context `{Regexp} `{GoArch}.

(** Characters: the bytes that do not continue one, in UTF-8. *)
Definition continues (c : Ascii.ascii) : bool := (128 <=? Ascii.nat_of_ascii c) && (Ascii.nat_of_ascii c <? 192).
Fixpoint characters (s : string) : nat :=
  match s with String c s => (if continues c then 0 else 1) + characters s | "" => 0 end.

Definition type_holds (d : any) (t : string) : Prop :=
  match d with
  | ANil => t = "null"
  | ABool _ => t = "boolean"
  | AString _ => t = "string"
  | AInt _ => t = "number" ∨ t = "integer"
  | AFloat f => t = "number" ∨ (t = "integer" ∧ is_integer f = true)
  | ASlice _ => t = "array"
  | AMap _ => t = "object"
  end.

Definition string_holds (t : string) (s : JSONSchema) : Prop :=
  (∀ n, MinLength s = Some n → (n ≤ Z.of_nat (characters t))%Z) ∧
  (∀ n, MaxLength s = Some n → (Z.of_nat (characters t) ≤ n)%Z) ∧
  (Pattern s ≠ "" → ∃ matches, regexp_compile (Pattern s) = Some matches ∧ matches t = true).

Definition closes (s : JSONSchema) (strict : bool) : Prop :=
  AdditionalProperties s = Some false ∨ (strict = true ∧ props s ≠ []).

Section with_S.
Variable S : any → option JSONSchema → Prop.

Definition object_holds (m : list (string * any)) (s : JSONSchema) (strict : bool) : Prop :=
  (∀ k, k ∈ Required s → k ∈ m.*1) ∧
  match Properties s with
  | None => True
  | Some ps => all_of (λ kv, ∀ v, assoc kv.1 m = Some v → S v kv.2) ps
  end ∧
  (closes s strict → ∀ k, k ∈ m.*1 → k ∈ (props s).*1).

Definition keywords_hold (d : any) (s : JSONSchema) (strict : bool) : Prop :=
  match d with
  | AString t => string_holds t s
  | AFloat f => number_ok f s
  | AInt z => number_ok (f_of_Z z) s
  | ASlice arr => array_ok S arr s
  | AMap m => object_holds m s strict
  | ANil | ABool _ => True
  end.
End with_S.

Fixpoint satisfies (strict : bool) (d : any) (schema : JSONSchema) {struct schema} : Prop :=
  let S d o := match o with Some s => satisfies strict d s | None => True end in
  (Type_ schema ≠ "" → type_holds d (Type_ schema)) ∧
  (Enum schema ≠ [] → ∃ v, v ∈ Enum schema ∧ jsonEqual d v = true) ∧
  (∀ c, Const schema = Some c → jsonEqual d c = true) ∧
  keywords_hold S d schema strict ∧
  composition_ok S d schema ∧
  conditional_ok S d schema.
Definition satisfies_ptr (strict : bool) (d : any) (o : option JSONSchema) : Prop :=
  match o with Some s => satisfies strict d s | None => True end.

Lemma satisfies_eq strict d s :
  satisfies strict d s ↔
    (Type_ s ≠ "" → type_holds d (Type_ s)) ∧
    (Enum s ≠ [] → ∃ v, v ∈ Enum s ∧ jsonEqual d v = true) ∧
    (∀ c, Const s = Some c → jsonEqual d c = true) ∧
    keywords_hold (satisfies_ptr strict) d s strict ∧
    composition_ok (satisfies_ptr strict) d s ∧
    conditional_ok (satisfies_ptr strict) d s.
Proof. by destruct s. Qed.

(** The schemas on which the validator goes by the full reading, at every level: the
    type null, which it does not know, is not used; a schema that constrains strings,
    numbers or arrays names a type, and one that constrains objects names a type or
    declares properties; and one that is closed declares a property. [narrow]: the
    texts of the value are in ASCII, else no length is bounded. *)
Definition states_its_type (narrow : bool) (s : JSONSchema) : Prop :=
  Type_ s ≠ "null" ∧
  (narrow = false → MinLength s = None ∧ MaxLength s = None) ∧
  (AdditionalProperties s = Some false → props s ≠ []) ∧
  (Type_ s = "" →
     MinLength s = None ∧ MaxLength s = None ∧ Pattern s = "" ∧ Minimum s = None ∧ Maximum s = None ∧
     PrefixItems s = [] ∧ Items s = None ∧ (Properties s = None → Required s = [])).

Fixpoint explicit (narrow : bool) (s : JSONSchema) : Prop :=
  let P o := match o with Some c => explicit narrow c | None => True end in
  states_its_type narrow s ∧
  match Properties s with Some ps => all_of (λ kv, P kv.2) ps | None => True end ∧
  P (Items s) ∧ all_of P (AnyOf s) ∧ all_of P (OneOf s) ∧ all_of P (AllOf s) ∧ all_of P (PrefixItems s) ∧
  P (If_ s) ∧ P (Then_ s) ∧ P (Else_ s).
Definition explicit_ptr (narrow : bool) (o : option JSONSchema) : Prop :=
  match o with Some c => explicit narrow c | None => True end.

Lemma explicit_eq narrow s :
  explicit narrow s ↔
    states_its_type narrow s ∧
    match Properties s with Some ps => all_of (λ kv, explicit_ptr narrow kv.2) ps | None => True end ∧
    explicit_ptr narrow (Items s) ∧ all_of (explicit_ptr narrow) (AnyOf s) ∧
    all_of (explicit_ptr narrow) (OneOf s) ∧ all_of (explicit_ptr narrow) (AllOf s) ∧
    all_of (explicit_ptr narrow) (PrefixItems s) ∧
    explicit_ptr narrow (If_ s) ∧ explicit_ptr narrow (Then_ s) ∧ explicit_ptr narrow (Else_ s).
Proof. by destruct s. Qed.

(** A value as JSON is decoded, that is without native integers, and with texts in
    ASCII if [narrow]. *)
Fixpoint decoded (narrow : bool) (d : any) : Prop :=
  match d with
  | AInt _ => False
  | AString t => narrow = true → sall ascii_byte t = true
  | ASlice l => all_of (decoded narrow) l
  | AMap m => all_of (λ kv, decoded narrow kv.2) m
  | ANil | ABool _ | AFloat _ => True
  end.

Lemma characters_ascii s : sall ascii_byte s = true → characters s = slen s.
Proof.
  induction s as [|c s IH]; simpl; [done|]. intros; bool_simp. rewrite IH by done.
  unfold continues, ascii_byte in *. by replace (128 <=? Ascii.nat_of_ascii c) with false by (symmetry; apply Nat.leb_gt; by apply Nat.ltb_lt).
Qed.

Lemma type_holds_decoded narrow d t : decoded narrow d → t ≠ "null" → has_type d t ↔ type_holds d t.
Proof. by destruct d. Qed.

Lemma string_holds_narrow narrow t s :
  decoded narrow (AString t) → (narrow = false → MinLength s = None ∧ MaxLength s = None) →
  string_ok t s ↔ string_holds t s.
Proof.
  intros Hd Hs. unfold string_ok, string_holds. destruct narrow.
  - by rewrite (characters_ascii t) by by apply Hd.
  - destruct (Hs eq_refl) as [-> ->]. split; intros (_ & _ & Hp); by split_and!.
Qed.

Section agree.
Context (narrow : bool) (C S : any → option JSONSchema → Prop).
Definition agrees (o : option JSONSchema) : Prop := ∀ d, decoded narrow d → C d o ↔ S d o.

Lemma tuple_ok_agrees items arr :
  Forall agrees items → Forall (decoded narrow) arr → tuple_ok C items arr ↔ tuple_ok S items arr.
Proof.
  intros Hall. revert arr. induction Hall as [|o items Ho Hall IH]; intros [|x arr]; simpl; try done.
  intros [Hx Harr]%Forall_cons. by rewrite IH, (Ho x).
Qed.

Lemma array_ok_agrees arr s :
  Forall agrees (PrefixItems s) → agrees (Items s) → Forall (decoded narrow) arr →
  array_ok C arr s ↔ array_ok S arr s.
Proof.
  intros Hp Hi Harr. unfold array_ok. rewrite (tuple_ok_agrees _ arr) by done. f_equiv.
  destruct (Items s) as [it|]; [|done]. apply (Forall_drop _ (length (PrefixItems s))) in Harr.
  rewrite !Forall_forall in *. split; intros H1 x Hx; apply Hi; auto.
Qed.

Lemma object_ok_agrees m s strict :
  Forall (λ kv, agrees kv.2) (props s) → decoded narrow (AMap m) → states_its_type narrow s →
  object_ok C m s strict ↔ object_holds S m s strict.
Proof.
  intros Hps Hm (_ & _ & Hclosed & _). simpl in Hm. apply all_of_Forall in Hm. rewrite Forall_forall in Hm.
  unfold object_ok, object_holds. apply and_iff_parts; [done|]. apply and_iff_parts.
  - unfold props in Hps. destruct (Properties s) as [ps|]; [|done]. simpl in Hps. apply all_of_iff.
    eapply Forall_impl; [exact Hps|]. intros [k o] Ho. simpl in *. split; intros Hv v Ha; apply Ho; auto;
      by apply assoc_elem in Ha; apply (Hm (k, v)).
  - assert (closed s strict ↔ closes s strict) as ->; [|done]. unfold closed, closes. split; [tauto|].
    intros [Ha|[Hst Hne]]; [split; [by right|by apply Hclosed]|split; [by left|done]].
Qed.

(** Under the declared type, the constraints the validator looks at are all. *)
Lemma shape_ok_agrees d s strict :
  Forall agrees (PrefixItems s) → agrees (Items s) → Forall (λ kv, agrees kv.2) (props s) →
  decoded narrow d → states_its_type narrow s → (Type_ s ≠ "" → has_type d (Type_ s)) →
  shape_ok C d s strict ↔ keywords_hold S d s strict.
Proof.
  intros Hp Hi Hps Hd Hs Ht. pose proof Hs as (Hnull & Hlen & Hclosed & Hempty). unfold shape_ok.
  destruct (String.eqb_spec (Type_ s) "") as [E|E].
  - specialize (Hempty E). destruct Hempty as (L1 & L2 & L3 & L4 & L5 & L6 & L7 & L8). rewrite E.
    destruct d as [|b|z|f|t|arr|m]; simpl in *; try done.
    + split; [by intros _; split; intros n Hn; congruence|]. intros _. split_and!; try done; by intros ? [?|?].
    + split; [intros _|intros _; split_and!; try done; by intros ? [?|?]].
      unfold string_holds. rewrite L1, L2, L3. by split_and!.
    + split; [intros _|intros _; split_and!; try done; by intros ? [?|?]].
      unfold array_ok. rewrite L6, L7. by destruct arr.
    + rewrite <-object_ok_agrees by done. split.
      * intros (_ & _ & _ & Ho). destruct (Properties s) as [ps|] eqn:Eps; [apply Ho; right; eauto|].
        unfold object_ok, closed, props. rewrite Eps, (L8 eq_refl). simpl. split_and!; [set_solver|done|by intros [_ ?]].
      * intros Ho. split_and!; try done; by intros ? [?|?].
  - specialize (Ht E). destruct d as [|b|z|f|t|arr|m]; simpl in Ht, Hd; try done.
    + split; [intros (_ & Hn & _); apply Hn; [naive_solver|done]|]. intros Hn.
      split_and!; [done|by intros ? _ [= <-]|done|done].
    + pose proof (string_holds_narrow narrow t s Hd Hlen) as Ht'. split.
      * intros (H1 & _). by apply Ht', H1.
      * intros Hk. split_and!; [intros ? _ [= <-]; by apply Ht'|done|done|done].
    + pose proof (array_ok_agrees arr s Hp Hi (proj1 (all_of_Forall _ _) Hd)) as Ha. split.
      * intros (_ & _ & H3 & _). by apply Ha, H3.
      * intros Hk. split_and!; [done|done|by intros _; apply Ha|done].
    + pose proof (object_ok_agrees m s strict Hps Hd Hs) as Ho. split.
      * intros (_ & _ & _ & H4). apply Ho, H4. by left.
      * intros Hk. split_and!; [done|done|done|by intros _; apply Ho].
Qed.

Lemma composition_ok_agrees d s :
  Forall agrees (AnyOf s) → Forall agrees (OneOf s) → Forall agrees (AllOf s) → decoded narrow d →
  composition_ok C d s ↔ composition_ok S d s.
Proof.
  intros Hany Hone Hall Hd.
  assert (Hl : ∀ l, Forall agrees l → Forall (λ o, C d o ↔ S d o) l)
    by (intros l Hl; eapply Forall_impl; [exact Hl|]; auto).
  unfold composition_ok.
  by rewrite (some_of_iff (C d) (S d)), (exactly_one_iff (C d) (S d)), (all_of_iff (C d) (S d)) by auto.
Qed.

Lemma conditional_ok_agrees d s :
  agrees (If_ s) → agrees (Then_ s) → agrees (Else_ s) → decoded narrow d →
  conditional_ok C d s ↔ conditional_ok S d s.
Proof.
  intros Hi Ht He Hd. unfold conditional_ok. destruct (If_ s) as [i|]; [|done].
  by rewrite (Hi d Hd), (Ht d Hd), (He d Hd).
Qed.
End agree.

Lemma conforms_satisfies strict narrow s :
  explicit narrow s → ∀ d, decoded narrow d → conforms strict d s ↔ satisfies strict d s.
Proof.
  induction s as [s Hprops Hitems Hany Hone Hall Hpre Hif Hthen Helse] using schema_ind'.
  set (Q := λ s, explicit narrow s → ∀ d, decoded narrow d → conforms strict d s ↔ satisfies strict d s) in *.
  rewrite explicit_eq. intros (Hs & Eprops & Eitems & Eany & Eone & Eall & Epre & Eif & Ethen & Eelse) d Hd.
  assert (Hopt : ∀ o, optP Q o → explicit_ptr narrow o → agrees narrow (conforms_ptr strict) (satisfies_ptr strict) o)
    by (intros [c|] Hc He d' Hd'; simpl in *; [by apply Hc|done]).
  assert (Hlst : ∀ l, Forall (optP Q) l → all_of (explicit_ptr narrow) l →
    Forall (agrees narrow (conforms_ptr strict) (satisfies_ptr strict)) l).
  { intros l Hl He. apply all_of_Forall in He. rewrite Forall_forall in Hl, He |- *. auto. }
  assert (Hps : Forall (λ kv, agrees narrow (conforms_ptr strict) (satisfies_ptr strict) kv.2) (props s)).
  { unfold props in *. destruct (Properties s); simpl in *; [|done].
    apply all_of_Forall in Eprops. rewrite Forall_forall in Hprops, Eprops |- *. intros kv Hin. apply Hopt; auto. }
  rewrite conforms_eq, satisfies_eq.
  assert (Htype : (Type_ s ≠ "" → has_type d (Type_ s)) ↔ (Type_ s ≠ "" → type_holds d (Type_ s))).
  { apply forall_proper; intros _. eapply type_holds_decoded; [done|]. by destruct Hs. }
  rewrite (composition_ok_agrees narrow (conforms_ptr strict) (satisfies_ptr strict)) by auto.
  rewrite (conditional_ok_agrees narrow (conforms_ptr strict) (satisfies_ptr strict)) by auto.
  pose proof (λ Ht, shape_ok_agrees narrow (conforms_ptr strict) (satisfies_ptr strict) d s strict
    (Hlst _ Hpre Epre) (Hopt _ Hitems Eitems) Hps Hd Hs Ht) as Hshape.
  split; intros (Ht & He & Hc & Hk & Hrest);
    (split; [by apply Htype|]); (split; [done|]); (split; [done|]); (split; [|done]).
  - by apply Hshape.
  - apply Hshape; [by apply Htype|done].
Qed.
End full.

(* ------------------------------------------------------------------ *)
(** ** Where errors point *)
(* ------------------------------------------------------------------ *)

(** A [*ValidationError] whose field is the path or extends it. *)
Definition under (path : string) (e : error) : Prop :=
  ∃ suffix format args, e = ValidationError (path +:+ suffix) format args.

Lemma under_here path format args : under path (ValidationError path format args).
Proof. exists sempty, format, args. by rewrite sapp_nil_r. Qed.

Lemma under_item path i e : under (itemPath path i) e → under path e.
Proof.
  intros (suf & f & a & ->). unfold itemPath. rewrite sapp_assoc. by eexists _, f, a.
Qed.

Lemma under_dot path k e : under (dotPath path k) e → under path e.
Proof.
  intros (suf & f & a & ->). unfold dotPath. destruct (String.eqb_spec path "") as [->|_].
  - by exists (k +:+ suf), f, a.
  - rewrite sapp_assoc. by eexists _, f, a.
Qed.
#[export] Hint Resolve under_here under_item under_dot : go.

Section errors.
Context `{Regexp} `{GoArch}.

Definition reports_under (rec : any → option JSONSchema → string → option error)
    (o : option JSONSchema) : Prop :=
  ∀ d p e, rec d o p = Some e → under p e.

(** Close the leaf checks: their error is built from [path] itself. *)
Local Ltac leaf :=
  repeat match goal with
  | H : check_seq _ _ = Some _ |- _ => apply check_seq_Some in H as [H|[_ H]]
  | H : check_when _ _ = Some _ |- _ => apply check_when_Some in H as [_ H]
  | H : Some _ = Some _ |- _ => injection H as <-
  | H : None = Some _ |- _ => discriminate H
  | _ => break_match
  end; eauto with go.

Lemma validateType_under d t p e : validateType d t p = Some e → under p e.
Proof. unfold validateType. intros. leaf. Qed.
Lemma validateEnum_under d l p e : validateEnum d l p = Some e → under p e.
Proof. unfold validateEnum. intros. leaf. Qed.
Lemma validateConst_under d c p e : validateConst d c p = Some e → under p e.
Proof. unfold validateConst. intros. leaf. Qed.
Lemma validateString_under d s p e : validateString d s p = Some e → under p e.
Proof. unfold validateString. intros. leaf. Qed.
Lemma validateNumber_under d s p e : validateNumber d s p = Some e → under p e.
Proof. unfold validateNumber. intros. leaf. Qed.

Context (rec : any → option JSONSchema → string → option error).
Notation reports := (reports_under rec).

Lemma prefix_loop_under path i items arr e :
  Forall reports items → prefix_loop rec path i items arr = Some e → under path e.
Proof.
  intros Hall. revert i arr. induction Hall as [|o items Ho Hall IH]; intros i [|x arr]; simpl; try done.
  intros [H1|[_ H1]]%check_seq_Some; [|by eapply IH]. eapply under_item, Ho, H1.
Qed.

Lemma validateArray_under d s p e :
  Forall reports (PrefixItems s) → reports (Items s) →
  validateArray rec d s p = Some e → under p e.
Proof.
  intros Hp Hi. unfold validateArray. destruct d; try done.
  intros [[_ H1]%check_when_Some|[_ H1]]%check_seq_Some; [by eapply prefix_loop_under|].
  destruct (Items s) as [items|]; [|done].
  apply first_error_Some in H1 as (? & ix & ? & _ & _ & H1). eapply under_item, Hi, H1.
Qed.

Lemma validateObject_under d s p strict e :
  Forall (λ kv, reports kv.2) (props s) →
  validateObject rec d s p strict = Some e → under p e.
Proof.
  intros Hps. unfold validateObject. destruct d as [| | | | | |obj]; try done.
  intros [H1|[_ [H1|[_ [_ H1]%check_when_Some]]%check_seq_Some]]%check_seq_Some.
  - apply first_error_Some in H1 as (? & k & ? & _ & _ & H1). leaf.
  - unfold props in Hps. destruct (Properties s) as [ps|]; [|done]. simpl in Hps.
    apply first_error_Some in H1 as (l1 & kv & l2 & -> & _ & H1).
    apply Forall_app in Hps as [_ [Hkv _]%Forall_cons].
    destruct (assoc kv.1 obj); [|done]. eapply under_dot, Hkv, H1.
  - apply first_error_Some in H1 as (? & k & ? & _ & _ & H1). leaf.
Qed.

Lemma validateComposition_under d s p e :
  validateComposition rec d s p = Some e → under p e.
Proof.
  unfold validateComposition.
  intros [[_ H1]%check_when_Some|[_ [[_ H1]%check_when_Some|[_ H1]]%check_seq_Some]]%check_seq_Some.
  - destruct (existsb _ _); leaf.
  - cbv zeta in H1. destruct (_ =? 1); leaf.
  - apply first_error_Some in H1 as (? & o & ? & _ & _ & H1). leaf.
Qed.

Lemma validateConditional_under d s p e :
  validateConditional rec d s p = Some e → under p e.
Proof. unfold validateConditional. intros. leaf. Qed.
End errors.

Lemma validateSchema_under `{Regexp} `{GoArch} strict s :
  ∀ d p e, validateSchema strict d s p = Some e → under p e.
Proof.
  induction s as [s Hprops Hitems Hany Hone Hall Hpre Hif Hthen Helse] using schema_ind'.
  assert (∀ o, optP (λ s, ∀ d p e, validateSchema strict d s p = Some e → under p e) o
    → reports_under (validatePtr strict) o) as Hopt.
  { intros [c|] Hc d p e; [apply Hc|done]. }
  intros d p e. rewrite validateSchema_eq. rewrite !check_seq_Some, !check_when_Some.
  intros [[_ ?]|[_ [[_ ?]|[_ [?|[_ [Ht|[_ [?|[_ ?]]]]]]]]]].
  - by eapply validateType_under.
  - by eapply validateEnum_under.
  - destruct (Const s); [by eapply validateConst_under|done].
  - unfold validateByType in Ht. cbv zeta in Ht.
    assert (Forall (reports_under (validatePtr strict)) (PrefixItems s))
      by (eapply Forall_impl; [exact Hpre|exact Hopt]).
    assert (Forall (λ kv, reports_under (validatePtr strict) kv.2) (props s))
      by (eapply Forall_impl; [exact Hprops|]; intros; by apply Hopt).
    repeat case_match; try done;
      eauto using validateString_under, validateNumber_under, validateArray_under.
    apply check_when_Some in Ht as [_ Ht]. by eapply validateObject_under.
  - by eapply validateComposition_under.
  - destruct (If_ s); [by eapply validateConditional_under|done].
Qed.

(* ------------------------------------------------------------------ *)
(** ** Strict mode only removes values *)
(* ------------------------------------------------------------------ *)

(** No [oneOf] and no [if] anywhere: the constraints under which rejecting more
    values in a part rejects more values in the whole. *)
Fixpoint monotone_schema (s : JSONSchema) : Prop :=
  let P o := match o with Some c => monotone_schema c | None => True end in
  OneOf s = [] ∧ If_ s = None ∧
  match Properties s with Some ps => all_of (λ kv, P kv.2) ps | None => True end ∧
  P (Items s) ∧ all_of P (AnyOf s) ∧ all_of P (AllOf s) ∧ all_of P (PrefixItems s).

Definition monotone_ptr (o : option JSONSchema) : Prop :=
  match o with Some c => monotone_schema c | None => True end.

Lemma monotone_schema_eq s :
  monotone_schema s ↔
    OneOf s = [] ∧ If_ s = None ∧
    match Properties s with Some ps => all_of (λ kv, monotone_ptr kv.2) ps | None => True end ∧
    monotone_ptr (Items s) ∧ all_of monotone_ptr (AnyOf s) ∧ all_of monotone_ptr (AllOf s) ∧
    all_of monotone_ptr (PrefixItems s).
Proof. by destruct s. Qed.

Section monotone.
Context `{Regexp} `{GoArch}.
Context (C1 C2 : any → option JSONSchema → Prop).

Definition implies_at (o : option JSONSchema) : Prop := ∀ d, C1 d o → C2 d o.

Lemma tuple_ok_mono items arr :
  Forall implies_at items → tuple_ok C1 items arr → tuple_ok C2 items arr.
Proof.
  intros Hall. revert arr. induction Hall as [|o items Ho Hall IH]; intros [|x arr]; simpl; try done.
  intros [H1 H2]. split; [by apply Ho|by apply IH].
Qed.

Lemma object_ok_mono m s :
  Forall (λ kv, implies_at kv.2) (props s) → object_ok C1 m s true → object_ok C2 m s false.
Proof.
  intros Hps (Hreq & Hval & Hclosed). split_and!; [done| |].
  - unfold props in Hps. destruct (Properties s) as [ps|]; [|done]. simpl in Hps.
    rewrite all_of_Forall in Hval |- *. rewrite Forall_forall in Hps, Hval |- *.
    intros kv Hin v Hv. apply Hps, Hval; done.
  - intros [_ Hne]. apply Hclosed. split; [by left|done].
Qed.

Lemma shape_ok_mono d s :
  Forall implies_at (PrefixItems s) → implies_at (Items s) →
  Forall (λ kv, implies_at kv.2) (props s) →
  shape_ok C1 d s true → shape_ok C2 d s false.
Proof.
  intros Hp Hi Hps (H1 & H2 & H3 & H4). split_and!; [done|done| |].
  - intros Ht. specialize (H3 Ht). destruct d as [| | | | |arr|]; try done.
    destruct H3 as [Ha Hb]. split; [by apply tuple_ok_mono|].
    destruct (Items s); [|done]. eapply Forall_impl; [done|]. intros x. apply Hi.
  - intros Ht. specialize (H4 Ht). destruct d; try done. by apply object_ok_mono.
Qed.

Lemma some_of_mono d l :
  Forall implies_at l → some_of (C1 d) l → some_of (C2 d) l.
Proof. induction 1 as [|o l Ho Hl IH]; simpl; [done|]. intros [?|?]; [left; by apply Ho|right; auto]. Qed.

Lemma all_of_mono d l :
  Forall implies_at l → all_of (C1 d) l → all_of (C2 d) l.
Proof. induction 1 as [|o l Ho Hl IH]; simpl; [done|]. intros [? ?]; split; [by apply Ho|auto]. Qed.
End monotone.

Lemma conforms_strict_lenient `{Regexp} `{GoArch} s :
  monotone_schema s → ∀ d, conforms true d s → conforms false d s.
Proof.
  induction s as [s Hprops Hitems Hany Hone Hall Hpre Hif Hthen Helse] using schema_ind'.
  rewrite monotone_schema_eq.
  intros (Mone & Mif & Mprops & Mitems & Many & Mall & Mpre) d. rewrite !conforms_eq.
  set (Q := λ s, monotone_schema s → ∀ d, conforms true d s → conforms false d s) in *.
  assert (∀ o, optP Q o → monotone_ptr o → implies_at (conforms_ptr true) (conforms_ptr false) o)
    as Hopt by (intros [c|] Hc Hm d'; simpl in *; auto).
  assert (∀ l, Forall (optP Q) l → all_of monotone_ptr l →
    Forall (implies_at (conforms_ptr true) (conforms_ptr false)) l) as Hlst.
  { intros l Hl Hm. apply all_of_Forall in Hm. rewrite Forall_forall in Hl, Hm |- *. auto. }
  intros (H1 & H2 & H3 & H4 & (H5 & H6 & H7) & H8). split_and!; try done.
  - apply (shape_ok_mono (conforms_ptr true)); auto.
    unfold props in *. destruct (Properties s); simpl in *; [|done].
    apply all_of_Forall in Mprops. rewrite Forall_forall in Hprops, Mprops |- *.
    intros kv Hin. apply Hopt; auto.
  - split_and!.
    + intros Hne. eapply some_of_mono; auto.
    + by rewrite Mone.
    + eapply all_of_mono; auto.
  - unfold conditional_ok. by rewrite Mif.
Qed.

(* ------------------------------------------------------------------ *)
(** ** The outcome does not depend on map iteration order *)
(* ------------------------------------------------------------------ *)

Section order.
Context `{Regexp} `{GoArch}.

Lemma jsonEqual_equiv d1 d2 v :
  any_equiv d1 d2 → any_wf d1 → jsonEqual d1 v = jsonEqual d2 v.
Proof. intros He Hw. unfold jsonEqual, json_bytes. by rewrite (json_marshal_equiv d1 d2). Qed.

Lemma has_type_equiv d1 d2 t : any_equiv d1 d2 → has_type d1 t ↔ has_type d2 t.
Proof. by destruct 1. Qed.

Context (C : any → option JSONSchema → Prop).

(** [C] at [o] does not tell equivalent values apart. *)
Definition respects (o : option JSONSchema) : Prop :=
  ∀ d1 d2, any_equiv d1 d2 → any_wf d1 → C d1 o ↔ C d2 o.

Lemma tuple_ok_equiv items l1 l2 :
  Forall respects items → Forall2 any_equiv l1 l2 → Forall any_wf l1 →
  tuple_ok C items l1 ↔ tuple_ok C items l2.
Proof.
  intros Hall Hl. revert items Hall. induction Hl as [|x y l1 l2 Hxy Hl IH]; intros items Hall Hwf.
  { by destruct items. }
  destruct Hall as [|o items Ho Hall]; [done|]. apply Forall_cons in Hwf as [Hx Hwf]. simpl.
  rewrite (Ho x y) by done. by rewrite IH.
Qed.

Lemma array_ok_equiv l1 l2 s :
  Forall respects (PrefixItems s) → respects (Items s) →
  Forall2 any_equiv l1 l2 → Forall any_wf l1 → array_ok C l1 s ↔ array_ok C l2 s.
Proof.
  intros Hp Hi Hl Hwf. unfold array_ok. rewrite (tuple_ok_equiv _ l1 l2) by done. f_equiv.
  destruct (Items s) as [it|]; [|done].
  apply (Forall2_drop _ _ _ (length (PrefixItems s))) in Hl.
  apply (Forall_drop _ (length (PrefixItems s))) in Hwf. revert Hl Hwf.
  generalize (drop (length (PrefixItems s)) l1), (drop (length (PrefixItems s)) l2).
  intros k1 k2 Hl. induction Hl as [|x y k1 k2 Hxy Hl IH]; intros Hwf; [by rewrite !Forall_nil|].
  apply Forall_cons in Hwf as [Hx Hwf]. rewrite !Forall_cons, IH by done. by rewrite (Hi x y).
Qed.

Lemma object_ok_equiv m1 m2 m3 s strict :
  Forall (λ kv, respects kv.2) (props s) → any_wf (AMap m1) →
  Forall2 (λ p q, p.1 = q.1 ∧ any_equiv p.2 q.2) m1 m2 → m2 ≡ₚ m3 →
  object_ok C m1 s strict ↔ object_ok C m3 s strict.
Proof.
  intros Hps [Hnd Hwf]%any_wf_map Hm Hp. unfold object_ok.
  assert (∀ k, k ∈ m1.*1 ↔ k ∈ m3.*1) as Hkeys
    by (intros k; by rewrite (entries_equiv_keys _ _ Hm), Hp).
  f_equiv; [by setoid_rewrite Hkeys|]. f_equiv; [|by setoid_rewrite Hkeys].
  unfold props in Hps. destruct (Properties s) as [ps|]; [|done]. simpl in Hps.
  apply all_of_iff. eapply Forall_impl; [exact Hps|]. intros [k o] Ho. simpl in *.
  pose proof (assoc_equiv k _ _ _ Hnd Hm Hp) as Hk.
  destruct (assoc k m1) as [a|] eqn:E1, (assoc k m3) as [b|]; inversion Hk; subst; try done.
  assert (any_wf a) as Ha.
  { apply assoc_elem in E1. rewrite Forall_forall in Hwf. by apply (Hwf (k, a)). }
  assert (C a o ↔ C b o) as HC by (by apply Ho).
  split; intros Hv v [= <-]; apply HC; auto.
Qed.

Lemma shape_ok_equiv d1 d2 s strict :
  Forall respects (PrefixItems s) → respects (Items s) →
  Forall (λ kv, respects kv.2) (props s) → any_equiv d1 d2 → any_wf d1 →
  shape_ok C d1 s strict ↔ shape_ok C d2 s strict.
Proof.
  intros Hp Hi Hps He Hwf. unfold shape_ok.
  inversion He as [|l1 l2 Hl|m1 m2 m3 Hm Hp']; subst; [done| |].
  - repeat apply and_iff_parts; try done; try (split; intros; discriminate).
    apply forall_proper; intros _. apply array_ok_equiv; auto. by apply any_wf_slice.
  - repeat apply and_iff_parts; try done; try (split; intros; discriminate).
    apply forall_proper; intros _. by eapply object_ok_equiv.
Qed.

Lemma respects_list d1 d2 l :
  any_equiv d1 d2 → any_wf d1 → Forall respects l → Forall (λ o, C d1 o ↔ C d2 o) l.
Proof. intros He Hwf Hl. eapply Forall_impl; [exact Hl|]. intros o Ho. by apply Ho. Qed.

Lemma composition_ok_equiv d1 d2 s :
  Forall respects (AnyOf s) → Forall respects (OneOf s) → Forall respects (AllOf s) →
  any_equiv d1 d2 → any_wf d1 → composition_ok C d1 s ↔ composition_ok C d2 s.
Proof.
  intros Hany Hone Hall He Hwf. unfold composition_ok.
  rewrite (some_of_iff (C d1) (C d2)), (exactly_one_iff (C d1) (C d2)),
    (all_of_iff (C d1) (C d2)); auto using respects_list.
Qed.
End order.

Lemma conforms_equiv `{Regexp} `{GoArch} strict s :
  ∀ d1 d2, any_equiv d1 d2 → any_wf d1 → conforms strict d1 s ↔ conforms strict d2 s.
Proof.
  induction s as [s Hprops Hitems Hany Hone Hall Hpre Hif Hthen Helse] using schema_ind'.
  set (Q := λ s, ∀ d1 d2, any_equiv d1 d2 → any_wf d1 →
    conforms strict d1 s ↔ conforms strict d2 s) in *.
  assert (∀ o, optP Q o → respects (conforms_ptr strict) o) as Hopt
    by (intros [c|] Hc d1 d2 He Hw; [by apply Hc|done]).
  assert (∀ l, Forall (optP Q) l → Forall (respects (conforms_ptr strict)) l) as Hlst
    by (intros l Hl; eapply Forall_impl; [exact Hl|exact Hopt]).
  intros d1 d2 He Hw. rewrite !conforms_eq.
  apply and_iff_parts; [by rewrite (has_type_equiv d1 d2)|].
  apply and_iff_parts.
  { apply forall_proper; intros _. do 2 f_equiv. by rewrite (jsonEqual_equiv d1 d2). }
  apply and_iff_parts.
  { do 2 (apply forall_proper; intros ?). by rewrite (jsonEqual_equiv d1 d2). }
  apply and_iff_parts.
  { apply shape_ok_equiv; auto. eapply Forall_impl; [exact Hprops|]. intros; by apply Hopt. }
  apply and_iff_parts; [apply composition_ok_equiv; auto|].
  unfold conditional_ok. destruct (If_ s) as [i|]; [|done].
  rewrite (Hopt _ Hif d1 d2), (Hopt _ Hthen d1 d2), (Hopt _ Helse d1 d2); done.
Qed.

(* ------------------------------------------------------------------ *)
(** ** Properties *)
(* ------------------------------------------------------------------ *)


(** every error of the validator is a [*ValidationError] whose field is the
    path it was called at or extends it. *)
Theorem validation_error_location `{Regexp} `{GoArch} strict d s path e :
  validateSchema strict d s path = Some e →
  ∃ suffix format args, e = ValidationError (path +:+ suffix) format args.
Proof. apply validateSchema_under. Qed.

(** The schema [{"type": "object", "properties": {"n": {"type": "integer"}}}]. *)
Definition sample_int : JSONSchema :=
  mkJSONSchema "integer" None [] "" "" ANil [] None None "" None None [] None None [] [] [] []
    None [] None None None "" [].
Definition sample_object : JSONSchema :=
  mkJSONSchema "object" (Some [("n", Some sample_int)]) ["n"] "" "" ANil [] None None "" None None
    [] None None [] [] [] [] None [] None None None "" [].


Lemma validation_error_location_witness :
  ∃ suffix format args,
    ValidationError "in.n" "expected integer, got %T" [FA (AString "x")]
    = ValidationError ("in" +:+ suffix) format args.
Proof.
  apply (@validation_error_location regexp_any amd64 false
    (AMap [("n", AString "x")]) sample_object "in").
  vm_compute. reflexivity.
Defined.

(** for a schema without [oneOf] and [if], whatever the strict validator
    accepts the lenient one accepts. *)
Theorem strict_accepts_less `{Regexp} `{GoArch} d s path :
  monotone_schema s →
  validateSchema true d s path = None → validateSchema false d s path = None.
Proof. rewrite !validateSchema_decides. intros Hm. by apply conforms_strict_lenient. Qed.

Lemma strict_accepts_less_witness :
  @validateSchema regexp_any amd64 false (AMap [("n", AFloat (f_of_Z 3))]) sample_object "" = None.
Proof.
  apply (@strict_accepts_less regexp_any amd64).
  - vm_compute. tauto.
  - vm_compute. reflexivity.
Defined.

(** two runs that iterate over the maps of the value in different orders
    agree on whether it is valid. *)
Theorem validation_order_independent `{Regexp} `{GoArch} strict d1 d2 s path :
  any_equiv d1 d2 → any_wf d1 →
  validateSchema strict d1 s path = None ↔ validateSchema strict d2 s path = None.
Proof. rewrite !validateSchema_decides. apply conforms_equiv. Qed.

Lemma validation_order_independent_witness :
  let d1 := AMap [("n", AFloat (f_of_Z 3)); ("m", ANil)] in
  let d2 := AMap [("m", ANil); ("n", AFloat (f_of_Z 3))] in
  @validateSchema regexp_any amd64 true d1 sample_object "" = None ↔
  @validateSchema regexp_any amd64 true d2 sample_object "" = None.
Proof.
  apply (@validation_order_independent regexp_any amd64).
  - apply (eqv_map _ [("n", AFloat (f_of_Z 3)); ("m", ANil)]).
    + repeat constructor.
    + constructor.
  - vm_compute. repeat split; repeat constructor; set_solver.
Defined.

(** [errors.Is(err, ErrSchemaValidation)] holds of a validation failure
    exactly when the bytes were not JSON: a value that violates the schema is
    reported by an error that does not wrap the sentinel. *)
Theorem schema_sentinel_only_for_bad_json `{Regexp} `{GoArch} unmarshal input schema e :
  ValidateInput unmarshal input schema = Some e →
  errors_is ErrSchemaValidation e = true ↔ is_ok (unmarshal input) = false.
Proof.
  unfold ValidateInput. destruct schema as [s|]; [|done].
  destruct (unmarshal input) as [d|err]; simpl.
  - intros (suf & f & a & ->)%validateSchema_under. done.
  - intros [= <-]. done.
Qed.

Lemma schema_sentinel_only_for_bad_json_witness :
  errors_is ErrSchemaValidation
    (ValidationError "" "expected object, got %T" [FA ANil]) = true
  ↔ is_ok (E:=error) (Ok ANil) = false.
Proof.
  apply (@schema_sentinel_only_for_bad_json regexp_any amd64 (λ _, Ok ANil) "null"
           (Some sample_object)).
  vm_compute. reflexivity.
Defined.

(** A schema that only says [type: object], possibly with
    [additionalProperties]. *)
Definition bare_object (additional : option bool) : JSONSchema :=
  mkJSONSchema "object" None [] "" "" ANil [] None None "" None None
    [] None additional [] [] [] [] None [] None None None "" [].

(** unknown keys are only rejected when some property is declared: an object
    schema without [properties] accepts every object, in strict mode and with
    [additionalProperties: false] too. *)
Theorem closed_empty_object_accepts_all `{Regexp} `{GoArch} strict additional m path :
  validateSchema strict (AMap m) (bare_object additional) path = None.
Proof.
  apply validateSchema_decides, conforms_eq. split_and!; cbn; try done.
  unfold shape_ok; split_and!; cbn; try done.
  intros _. split_and!; [by intros ? ?%elem_of_nil|done|]. by intros [_ []].
Qed.

(** a native Go integer satisfies neither [type: integer] nor
    [type: number], although both accept the equal [float64]. *)
Theorem native_integers_rejected `{Regexp} `{GoArch} z s path strict :
  Type_ s = "integer" ∨ Type_ s = "number" →
  validateSchema strict (AInt z) s path
  = Some (ValidationError path
            (if String.eqb (Type_ s) "integer" then "expected integer, got %T"
             else "expected number, got %T") [FA (AInt z)]).
Proof. intros [Ht|Ht]; rewrite validateSchema_eq, Ht; done. Qed.

Lemma native_integers_rejected_witness :
  @validateSchema regexp_any amd64 false (AInt 3) sample_int "n"
  = Some (ValidationError "n" "expected integer, got %T" [FA (AInt 3)]) ∧
  @validateSchema regexp_any amd64 false (AFloat (f_of_Z 3)) sample_int "n" = None.
Proof.
  split; [|vm_compute; reflexivity].
  apply (@native_integers_rejected regexp_any amd64 3 sample_int "n" false). left. reflexivity.
Defined.
