(* ===== verification/Template.v ===== *)
(** The template engine of [src/execution/template/engine.go]: the scanner for
    [{{step.field}}] references, their resolution against the results of earlier
    steps, the extraction of the steps a string references and the coercion of
    numeric strings. *)
From S2P Require Export Regex GoValue.
From Stdlib Require Import Ascii.

(* ------------------------------------------------------------------ *)
(** ** The scanner *)
(* ------------------------------------------------------------------ *)

(** [[\w.-]] *)
Definition content_char (c : ascii) : bool :=
  word_char c || Ascii.eqb c "." || Ascii.eqb c "-".

(** The longest prefix of bytes that satisfy [P]. *)
Fixpoint stake_while (P : ascii → bool) (s : string) : string :=
  match s with
  | String c s' => if P c then String c (stake_while P s') else sempty
  | sempty => sempty
  end.

(** [templateRe] at the start of [s], that is two opening braces, a [word_char],
    any number of [content_char]s and two closing braces: the captured content.
    The greedy run is the only candidate, since a brace is not in the class. *)
Definition match_here (s : string) : option string :=
  if has_prefix s "{{" then
    let t := sdrop 2 s in
    match t with
    | String c _ =>
        let content := stake_while content_char t in
        if word_char c && has_prefix (sdrop (slen content) t) "}}" then Some content else None
    | sempty => None
    end
  else None.

(** [s] cut into the matches of [templateRe], leftmost first and without
    overlap, and the bytes between them. *)
Inductive segment : Type :=
| Lit (c : ascii)
| Ref (content : string).

Fixpoint segments_go (skip : nat) (s : string) : list segment :=
  match s with
  | sempty => []
  | String c s' =>
      match skip with
      | S k => segments_go k s'
      | 0 => match match_here s with
             | Some content => Ref content :: segments_go (slen content + 3) s'
             | None => Lit c :: segments_go 0 s'
             end
      end
  end.
Definition segments (s : string) : list segment := segments_go 0 s.

Definition ref_text (content : string) : string := "{{" +:+ content +:+ "}}".
Definition segment_text (g : segment) : string :=
  match g with Lit c => String c sempty | Ref content => ref_text content end.

(** [templateRe.FindAllStringSubmatchIndex(s, -1)]: start, end and content of
    every match. *)
Fixpoint matches_from (pos : nat) (gs : list segment) : list (nat * nat * string) :=
  match gs with
  | [] => []
  | Lit _ :: gs => matches_from (S pos) gs
  | Ref content :: gs =>
      let fin := pos + slen content + 4 in
      (pos, fin, content) :: matches_from fin gs
  end.
Definition find_all (s : string) : list (nat * nat * string) := matches_from 0 (segments s).

(* ------------------------------------------------------------------ *)
(** ** Values *)
(* ------------------------------------------------------------------ *)

(** Sorting forgets the order in which the run time ranges over the map. *)
Definition resultKeys (results : gmap string any) : list string :=
  sort_strings (map_to_list results).*1.
Definition mapKeys (m : list (string * any)) : list string := sort_strings m.*1.

Definition stringifyComplex (v : any) : any :=
  match v with
  | AString s => AString s
  | AMap _ | ASlice _ =>
      match json_marshal v with
      | Some b => AString b
      | None => AString (fmt_v v)
      end
  | _ => AString (fmt_v v)
  end.

Definition stringifyValue (v : any) : string :=
  match v with
  | AString s => s
  | AMap _ | ASlice _ =>
      match json_marshal v with
      | Some b => b
      | None => fmt_v v
      end
  | _ => fmt_v v
  end.

(** The loop of [extractField]; [walked] is [path[:i]]. *)
Fixpoint extract_loop (field : string) (walked path : list string) (current : any) :
    result error any :=
  match path with
  | [] => Ok current
  | f :: path =>
      match current with
      | AMap m =>
          match assoc f m with
          | None => Err (EFmt "field %q not found (available: %s)"
                           [FS f; FS (join ", " (mapKeys m))])
          | Some v => extract_loop field (walked ++ [f]) path v
          end
      | _ => Err (EFmt "field %q: cannot index into %T at %q"
                    [FS field; FA current; FS (join "." walked)])
      end
  end.
Definition extractField (res : any) (field : string) : result error any :=
  extract_loop field [] (split_on "." field) res.

(* ------------------------------------------------------------------ *)
(** ** Resolution *)
(* ------------------------------------------------------------------ *)

(** The loop over progressively shorter prefixes.  Each round shortens
    [candidate], so [slen content] rounds are enough ([resolve_prefix_fuel]). *)
Fixpoint resolve_prefix {V : Type} (fuel : nat) (results : gmap string V)
    (candidate candidateField : string) : option (string * string) :=
  match fuel with
  | 0 => None
  | S fuel =>
      match last_index_of "." candidate with
      | None => None
      | Some dot =>
          let candidateField := sdrop (dot + 1) candidate +:+ "." +:+ candidateField in
          let candidate := stake dot candidate in
          match results !! candidate with
          | Some _ => Some (candidate, candidateField)
          | None => resolve_prefix fuel results candidate candidateField
          end
      end
  end.

Definition resolveTemplateContent {V : Type} (content : string) (results : gmap string V) :
    string * string :=
  match results !! content with
  | Some _ => (content, "")
  | None =>
      match last_index_of "." content with
      | None => (content, "")
      | Some lastDot =>
          let candidate := stake lastDot content in
          let candidateField := sdrop (lastDot + 1) content in
          match results !! candidate with
          | Some _ => (candidate, candidateField)
          | None => default (content, "")
                      (resolve_prefix (slen content) results candidate candidateField)
          end
      end
  end.

(** A single template that spans the whole string. *)
Definition resolve_whole (s content : string) (results : gmap string any) : result error any :=
  let '(stepName, field) := resolveTemplateContent content results in
  match results !! stepName with
  | None => Err (EFmt "template: step %q not found (available: %s)"
                   [FS stepName; FS (join ", " (resultKeys results))])
  | Some res =>
      if negb (String.eqb field "") then
        match extractField res field with
        | Err err => Err (EFmt "template %q: %w" [FS s; FW err])
        | Ok v => Ok (stringifyComplex v)
        end
      else Ok (stringifyComplex res)
  end.

(** The function passed to [ReplaceAllStringFunc]: the replacement text, and the
    error it appends to [errs] if the reference does not resolve. *)
Definition replace_ref (results : gmap string any) (content : string) : string * option error :=
  let '(stepName, field) := resolveTemplateContent content results in
  match results !! stepName with
  | None => (ref_text content, Some (EFmt "step %q not found" [FS stepName]))
  | Some res =>
      if negb (String.eqb field "") then
        match extractField res field with
        | Err err => (ref_text content, Some err)
        | Ok v => (stringifyValue v, None)
        end
      else (stringifyValue res, None)
  end.

Fixpoint interpolate (results : gmap string any) (gs : list segment) (errs : list error) :
    string * list error :=
  match gs with
  | [] => (sempty, errs)
  | Lit c :: gs =>
      let '(rest, errs) := interpolate results gs errs in (String c rest, errs)
  | Ref content :: gs =>
      let '(text, oe) := replace_ref results content in
      let errs := match oe with Some e => errs ++ [e] | None => errs end in
      let '(rest, errs) := interpolate results gs errs in (text +:+ rest, errs)
  end.

Definition Resolve (s : string) (results : gmap string any) : result error any :=
  if negb (contains s "{{") || (size results =? 0) then Ok (AString s)
  else
    let matches := find_all s in
    let embedded :=
      let '(text, errs) := interpolate results (segments s) [] in
      if 0 <? length errs then Err (EFmt "template %q: %s" [FS s; FEs errs])
      else Ok (AString text) in
    match matches with
    | [] => Ok (AString s)
    | [(fullStart, fullEnd, content)] =>
        if (fullStart =? 0) && (fullEnd =? slen s) then resolve_whole s content results
        else embedded
    | _ => embedded
    end.

(* ------------------------------------------------------------------ *)
(** ** Referenced steps *)
(* ------------------------------------------------------------------ *)

(** The loop over the matches, [known[stepName]] being [true] for the names that
    map to [true]. *)
Fixpoint extract_refs (known : gmap string bool) (results : gmap string any)
    (seen : gset string) (out : list string) (ms : list (nat * nat * string)) : list string :=
  match ms with
  | [] => out
  | (_, _, content) :: ms =>
      let '(stepName, _) := resolveTemplateContent content results in
      if String.eqb stepName "" || negb (default false (known !! stepName))
         || bool_decide (stepName ∈ seen)
      then extract_refs known results seen out ms
      else extract_refs known results ({[stepName]} ∪ seen) (out ++ [stepName]) ms
  end.

Definition ExtractReferencedSteps (s : string) (known : gmap string bool) : list string :=
  if negb (contains s "{{") || (size known =? 0) then []
  else
    let results := (λ _ : bool, ANil) <$> known in
    extract_refs known results ∅ [] (find_all s).

(* ------------------------------------------------------------------ *)
(** ** Coercion of numeric strings *)
(* ------------------------------------------------------------------ *)

(** The digits after an optional leading minus sign. *)
Definition unsigned (s : string) : string :=
  match s with
  | String c s' => if Ascii.eqb c "-" then s' else s
  | sempty => sempty
  end.
Definition is_negative (s : string) : bool :=
  match s with String c _ => Ascii.eqb c "-" | sempty => false end.

(** [n = n*10 + int64(c-'0')], wrapping as [int64] does. *)
Fixpoint int_loop (n : Z) (s : string) : Z :=
  match s with
  | sempty => n
  | String c s' => int_loop (wrap64 (n * 10 + digit_val c)) s'
  end.

Definition tryParseInt (s : string) : option Z :=
  if slen s =? 0 then None
  else if negb (sall is_digit (unsigned s)) then None
  else
    let n := int_loop 0 (unsigned s) in
    Some (if is_negative s then wrap64 (- n) else n).

(** The validation loop of [tryParseFloat]: digits and at most one dot. *)
Fixpoint float_shape (hasDot : bool) (s : string) : option bool :=
  match s with
  | sempty => Some hasDot
  | String c s' =>
      if Ascii.eqb c "." then (if hasDot then None else float_shape true s')
      else if is_digit c then float_shape hasDot s' else None
  end.

Fixpoint float_int_part (val : float64) (s : string) : float64 * string :=
  match s with
  | sempty => (val, sempty)
  | String c s' =>
      if Ascii.eqb c "." then (val, s')
      else float_int_part (fadd (fmul val (f_of_Z 10)) (f_of_Z (digit_val c))) s'
  end.

Fixpoint float_frac_part (frac div : float64) (s : string) : float64 :=
  match s with
  | sempty => frac
  | String c s' =>
      float_frac_part (fadd frac (fdiv (f_of_Z (digit_val c)) div)) (fmul div (f_of_Z 10)) s'
  end.

Definition tryParseFloat (s : string) : option float64 :=
  if slen s =? 0 then None
  else
    match float_shape false (unsigned s) with
    | Some true =>
        let '(val, rest) := float_int_part (f_of_Z 0) (unsigned s) in
        let val := fadd val (float_frac_part (f_of_Z 0) (f_of_Z 10) rest) in
        Some (if is_negative s then fneg val else val)
    | _ => None
    end.

Definition tryParseBool (s : string) : option bool :=
  if String.eqb s "true" then Some true
  else if String.eqb s "false" then Some false else None.

(** What one argument becomes, if it is coerced. *)
Definition coerce_value (v : any) : option any :=
  match v with
  | AString s =>
      match tryParseInt s with
      | Some z => Some (AInt z)
      | None =>
          match tryParseFloat s with
          | Some f => Some (AFloat f)
          | None => ABool <$> tryParseBool s
          end
      end
  | _ => None
  end.

(** The loop over the map, which stores the coerced value under the key it is
    visiting: the map afterwards and the number of coercions. *)
Definition coerce_step (st : gmap string any * nat) (kv : string * any) : gmap string any * nat :=
  match coerce_value kv.2 with
  | Some v => (<[kv.1 := v]> st.1, S st.2)
  | None => st
  end.
Definition CoerceStringNumbers `{MapRange} (args : gmap string any) : gmap string any * nat :=
  foldl coerce_step (args, 0) (range args).

(* ------------------------------------------------------------------ *)
(** ** The scanner, verified *)
(* ------------------------------------------------------------------ *)

Lemma stake_while_prefix P s : stake_while P s +:+ sdrop (slen (stake_while P s)) s = s.
Proof.
  induction s as [|c s IH]; simpl; [done|]. destruct (P c); simpl; [|done]. by rewrite IH.
Qed.

(** A match is the delimiters around content that starts with a word character. *)
Lemma match_here_Some s content :
  match_here s = Some content →
  (∃ t, s = ref_text content +:+ t) ∧ ∃ c r, content = String c r ∧ word_char c = true.
Proof.
  unfold match_here. destruct (has_prefix s "{{") eqn:Hp; [|done].
  apply has_prefix_spec in Hp as [t ->]. rewrite (sdrop_app "{{"). cbv zeta.
  destruct t as [|c t]; [done|].
  destruct (word_char c) eqn:Hc; [|done].
  set (w := stake_while content_char (String c t)).
  destruct (has_prefix (sdrop (slen w) (String c t)) "}}") eqn:Hq; [|done].
  intros [= <-]. apply has_prefix_spec in Hq as [u Hu]. split.
  - exists u. unfold ref_text. rewrite <-(stake_while_prefix content_char (String c t)).
    fold w. rewrite Hu. by rewrite !sapp_assoc.
  - exists c, (stake_while content_char t). split; [|done].
    unfold w. simpl. unfold content_char at 1. by rewrite Hc.
Qed.

Lemma slen_ref_text content : slen (ref_text content) = slen content + 4.
Proof. unfold ref_text. rewrite !slen_app. simpl. lia. Qed.

Fixpoint segs_text (gs : list segment) : string :=
  match gs with [] => sempty | g :: gs => segment_text g +:+ segs_text gs end.

Lemma segments_go_text s k : k ≤ slen s → segs_text (segments_go k s) = sdrop k s.
Proof.
  revert k. induction s as [|c s IH]; intros [|k] Hk; simpl in *; try done; try lia.
  - destruct (match_here (String c s)) as [content|] eqn:Hm.
    + apply match_here_Some in Hm as [[t Ht] _]. cbn [segs_text segment_text].
      assert (Hlen : slen (String c s) = slen content + 4 + slen t)
        by (rewrite Ht, slen_app, slen_ref_text; done).
      simpl in Hlen. rewrite IH by lia. rewrite Ht. f_equal.
      replace (slen content + 3) with (slen content + 4 - 1) by lia.
      change (sdrop (slen content + 4 - 1) s)
        with (sdrop (S (slen content + 4 - 1)) (String c s)).
      replace (S (slen content + 4 - 1)) with (slen (ref_text content))
        by (rewrite slen_ref_text; lia).
      rewrite Ht. apply sdrop_app.
    + cbn [segs_text segment_text]. rewrite IH by lia. done.
  - apply IH. lia.
Qed.

(** Cutting loses nothing. *)
Lemma segments_text s : segs_text (segments s) = s.
Proof. unfold segments. rewrite segments_go_text by lia. done. Qed.

(* ------------------------------------------------------------------ *)
(** ** The scanner is the regular expression *)
(* ------------------------------------------------------------------ *)

(** [templateRe]: a word character and any number of [\w.-] between double braces;
    the group that captures them is all but the braces. *)
Definition templateRe : regex :=
  Cat (Word "{{") (Cat (Cat (Class word_char) (Star (Class content_char))) (Word "}}")).

Lemma stake_while_all P w c t :
  sall P w = true → P c = false → stake_while P (w +:+ String c t) = w.
Proof. induction w as [|d w IH]; simpl; intros Hw Hc; [by rewrite Hc|]. bool_simp. rewrite H. by rewrite IH. Qed.

Lemma sall_stake_while P s : sall P (stake_while P s) = true.
Proof. induction s as [|c s IH]; simpl; [done|]. destruct (P c) eqn:E; simpl; [by rewrite E|done]. Qed.

Lemma match_here_content s content : match_here s = Some content → sall content_char content = true.
Proof. unfold match_here. repeat case_match; intros; simplify_eq. apply sall_stake_while. Qed.

(** A reference is a match of the expression wherever it stands, *)
Lemma ref_matches prev c r b :
  word_char c = true → sall content_char r = true →
  matches templateRe (prev, ref_text (String c r) +:+ b) (after prev (ref_text (String c r)), b).
Proof.
  intros Hc Hr. unfold templateRe, ref_text. rewrite !sapp_assoc, !after_app.
  eapply match_cat; [apply Word_match|]. eapply match_cat; [|apply Word_match].
  apply (match_cat _ _ _ (Some c, r +:+ "}}" +:+ b)); [by apply match_class|].
  by apply (Star_Class_match _ r (Some c)).
Qed.

Lemma match_here_parts s content :
  match_here s = Some content →
  ∃ c r b, content = String c r ∧ s = ref_text content +:+ b ∧ word_char c = true ∧ sall content_char r = true.
Proof.
  intros Hm. pose proof (match_here_content _ _ Hm) as Hall.
  apply match_here_Some in Hm as [[b ->] (c & r & -> & Hc)]. simpl in Hall. bool_simp. by exists c, r, b.
Qed.

(** and the only one at its position. *)
Lemma templateRe_unique prev m b :
  matches templateRe (prev, m +:+ b) (after prev m, b) →
  ∃ content, m = ref_text content ∧ match_here (m +:+ b) = Some content.
Proof.
  unfold templateRe. intros (o & m1 & -> & Ho & H1)%matches_Cat_inv. apply matches_Word_inv in Ho as ->.
  apply matches_Cat_inv in H1 as (m2 & cl & -> & H2 & Hcl). apply matches_Word_inv in Hcl as ->.
  apply matches_Cat_inv in H2 as (w & r & -> & Hw & Hr). apply matches_Star_Class_inv in Hr.
  inversion Hw as [|? c ? ? Hc| | | | | |]; subst.
  match goal with E : String c ?s = w +:+ ?s |- _ =>
    change (String c s) with (String c "" +:+ s) in E; apply sapp_inj_r in E as <- end.
  exists (String c r). split; [done|]. unfold match_here.
  replace (("{{" +:+ (String c "" +:+ r) +:+ "}}") +:+ b) with ("{{" +:+ String c r +:+ "}}" +:+ b)
    by (by rewrite !sapp_assoc).
  rewrite has_prefix_app, (sdrop_app "{{"). cbv zeta.
  change (String c r +:+ "}}" +:+ b) with (String c r +:+ String "}" ("}" +:+ b)).
  rewrite stake_while_all; [|simpl; unfold content_char at 1; by rewrite Hc|done].
  cbn [String.append]. rewrite Hc.
  pose proof (sdrop_app (String c r) ("}}" +:+ b)) as Hd. cbn [String.append] in Hd. rewrite Hd.
  pose proof (has_prefix_app "}}" b) as Hp. cbn [String.append] in Hp. by rewrite Hp.
Qed.

Lemma templateRe_consuming : consuming templateRe.
Proof. apply (needs_consuming word_char). vm_compute. done. Qed.

Lemma found_templateRe prev s : found templateRe (prev, s) = ref_text <$> match_here s.
Proof.
  destruct (found templateRe (prev, s)) as [m|] eqn:E.
  - apply found_Some in E as (_ & b & Hs & Hm). simpl in *. subst.
    by apply templateRe_unique in Hm as (content & -> & ->).
  - apply found_None in E; [|apply templateRe_consuming]. rewrite run_nil in E.
    destruct (match_here s) as [content|] eqn:Hm; [|done].
    apply match_here_parts in Hm as (c & r & b & -> & -> & Hc & Hr). exfalso. by eapply E, ref_matches.
Qed.

Lemma segments_content s content :
  Ref content ∈ segments s →
  ∃ c r, content = String c r ∧ word_char c = true ∧ sall content_char r = true.
Proof.
  unfold segments. generalize 0. induction s as [|c s IH]; intros [|k]; simpl;
    try by intros ?%elem_of_nil.
  - destruct (match_here (String c s)) as [ct|] eqn:Hm; intros Hin;
      apply elem_of_cons in Hin as [Heq|Hin]; simplify_eq; eauto.
    apply match_here_parts in Hm as (c' & r & b & -> & _ & Hc & Hr). eauto.
  - apply IH.
Qed.

Definition segment_token (g : segment) : token :=
  match g with Lit c => Byte c | Ref content => Found (ref_text content) end.

Lemma segments_tokens s : map segment_token (segments s) = tokens templateRe s.
Proof.
  unfold segments, tokens. generalize (None : option ascii) as prev. generalize 0 as k.
  induction s as [|c s IH]; intros [|k] prev; cbn [segments_go tokens_go map]; try done.
  rewrite found_templateRe. destruct (match_here (String c s)) as [content|]; simpl; rewrite (IH _ (Some c)); [|done].
  do 2 f_equal. rewrite slen_app. simpl. lia.
Qed.

(** The scanner cuts every text into the matches that templateRe, as a
    regular expression with Go's leftmost-first choice, finds in it, and the bytes
    between them: what Resolve, ExtractReferencedSteps and the plan's checks read
    as references are exactly the matches of the expression, and the concatenated
    pieces are the text. *)
Theorem scanner_is_templateRe s :
  map segment_token (segments s) = tokens templateRe s ∧
  concat_str (map token_text (map segment_token (segments s))) = s ∧
  ∀ content, Ref content ∈ segments s → ∀ prev b,
    matches templateRe (prev, ref_text content +:+ b) (after prev (ref_text content), b).
Proof.
  pose proof (segments_tokens s) as H.
  split; [done|]. split; [rewrite H; apply tokens_text|]. intros content Hin prev b.
  apply segments_content in Hin as (c & r & -> & Hc & Hr). by apply ref_matches.
Qed.

Definition is_ref (g : segment) : bool := match g with Ref _ => true | Lit _ => false end.

Lemma segments_ref s content :
  Ref content ∈ segments s → ∃ c r, content = String c r ∧ word_char c = true.
Proof.
  unfold segments. generalize 0. induction s as [|c s IH]; intros [|k]; simpl;
    try by intros ?%elem_of_nil.
  - destruct (match_here (String c s)) as [ct|] eqn:Hm; intros Hin;
      apply elem_of_cons in Hin as [Heq|Hin]; simplify_eq; eauto.
    by apply match_here_Some in Hm as [_ ?].
  - apply IH.
Qed.

(** Without an opening delimiter there is no match. *)
Lemma segments_no_open s :
  contains s "{{" = false → Forall (λ g, is_ref g = false) (segments s).
Proof.
  intros Hc. apply Forall_forall. intros g Hg. destruct g as [|ct]; [done|]. exfalso.
  apply list_elem_of_split in Hg as (l1 & l2 & Heq).
  assert (∀ l, segs_text (l ++ Ref ct :: l2) = segs_text l +:+ "{{" +:+ (ct +:+ "}}" +:+ segs_text l2)) as Ht.
  { induction l as [|g l IH]; cbn [app segs_text segment_text]; [|by rewrite IH, sapp_assoc].
    unfold ref_text. by rewrite !sapp_assoc. }
  eapply (contains_false_app _ _ _ _ Hc). rewrite <-(segments_text s), Heq. apply Ht.
Qed.

(** The contents of the matches. *)
Definition refs_of (gs : list segment) : list string :=
  omap (λ g, match g with Ref ct => Some ct | Lit _ => None end) gs.

Lemma matches_from_refs pos gs : (matches_from pos gs).*2 = refs_of gs.
Proof.
  revert pos. induction gs as [|[c|ct] gs IH]; intros pos; csimpl; [done|apply IH|].
  f_equal. apply IH.
Qed.

Lemma matches_from_pos pos gs m :
  m ∈ matches_from pos gs → pos ≤ m.1.1 ∧ m.1.2 ≤ pos + slen (segs_text gs).
Proof.
  revert pos. induction gs as [|[c|ct] gs IH]; intros pos; cbn [matches_from segs_text segment_text];
    [by intros ?%elem_of_nil| |].
  - intros Hin. apply IH in Hin. rewrite slen_app. simpl. lia.
  - rewrite slen_app, slen_ref_text. intros [->|Hin]%elem_of_cons; simpl; [lia|].
    apply IH in Hin. lia.
Qed.

(** A single match from the first byte to the last is the whole string. *)
Lemma find_all_whole s ct :
  find_all s = [(0, slen s, ct)] → segments s = [Ref ct].
Proof.
  unfold find_all. pose proof (segments_text s) as Ht. revert Ht.
  destruct (segments s) as [|[c|d] gs]; simpl; [done| |].
  - intros _ Heq. assert (Hin : (0, slen s, ct) ∈ matches_from 1 gs) by (rewrite Heq; set_solver).
    apply matches_from_pos in Hin. simpl in Hin. lia.
  - intros Ht Heq. injection Heq as Hlen -> Hgs.
    assert (Hl : slen (segs_text gs) = 0).
    { rewrite <-Ht in Hlen. simpl in Hlen. rewrite !slen_app in Hlen. simpl in Hlen. lia. }
    destruct gs as [|g gs]; [done|]. destruct g as [c|e]; exfalso; revert Hl; cbn [segs_text segment_text].
    + rewrite slen_app. simpl. lia.
    + rewrite slen_app, slen_ref_text. lia.
Qed.

Lemma refs_of_nil gs : refs_of gs = [] → Forall (λ g, is_ref g = false) gs.
Proof. induction gs as [|[c|ct] gs IH]; csimpl; [done| |done]. by constructor; auto. Qed.

(* ------------------------------------------------------------------ *)
(** ** Resolution is substitution *)
(* ------------------------------------------------------------------ *)

(** The text a reference stands for, if it resolves. *)
Definition ref_value (results : gmap string any) (content : string) : option string :=
  let '(step, field) := resolveTemplateContent content results in
  res ← results !! step;
  if String.eqb field "" then Some (stringifyValue res)
  else match extractField res field with Ok v => Some (stringifyValue v) | Err _ => None end.

Definition segment_value (results : gmap string any) (g : segment) : option string :=
  match g with Lit c => Some (String c sempty) | Ref ct => ref_value results ct end.

Lemma stringifyComplex_value v : stringifyComplex v = AString (stringifyValue v).
Proof. unfold stringifyComplex, stringifyValue. by repeat case_match. Qed.

Lemma replace_ref_value results ct :
  match ref_value results ct with
  | Some t => replace_ref results ct = (t, None)
  | None => ∃ t e, replace_ref results ct = (t, Some e)
  end.
Proof.
  unfold ref_value, replace_ref. destruct (resolveTemplateContent ct results) as [step field].
  destruct (results !! step) as [res|]; simpl; [|eauto].
  destruct (String.eqb field ""); simpl; [done|].
  destruct (extractField res field); eauto.
Qed.

Lemma resolve_whole_value s results ct :
  match ref_value results ct with
  | Some t => resolve_whole s ct results = Ok (AString t)
  | None => ∃ e, resolve_whole s ct results = Err e
  end.
Proof.
  unfold ref_value, resolve_whole. destruct (resolveTemplateContent ct results) as [step field].
  destruct (results !! step) as [res|]; simpl; [|eauto].
  destruct (String.eqb field ""); simpl; [by rewrite stringifyComplex_value|].
  destruct (extractField res field); [by rewrite stringifyComplex_value|eauto].
Qed.

Lemma interpolate_value results gs errs :
  match mapM (segment_value results) gs with
  | Some parts => interpolate results gs errs = (concat_str parts, errs)
  | None => length errs < length (interpolate results gs errs).2
  end ∧ length errs ≤ length (interpolate results gs errs).2.
Proof.
  revert errs. induction gs as [|[c|ct] gs IH]; intros errs; simpl.
  - done.
  - specialize (IH errs). destruct (interpolate results gs errs) as [rest errs'].
    destruct (mapM _ gs); simpl in *; naive_solver.
  - pose proof (replace_ref_value results ct) as Hr. destruct (ref_value results ct) as [t|]; simpl.
    + rewrite Hr. specialize (IH errs). destruct (interpolate results gs errs) as [rest errs'].
      destruct (mapM _ gs); simpl in *; naive_solver.
    + destruct Hr as (t & e & ->). destruct (IH (errs ++ [e])) as [_ IH2].
      destruct (interpolate results gs (errs ++ [e])) as [rest errs']. simpl in *.
      rewrite length_app in IH2. simpl in IH2. lia.
Qed.

Lemma embedded_value s results :
  match mapM (segment_value results) (segments s) with
  | Some parts =>
      (let '(text, errs) := interpolate results (segments s) [] in
       if 0 <? length errs then Err (EFmt "template %q: %s" [FS s; FEs errs])
       else Ok (AString text)) = Ok (AString (concat_str parts))
  | None => ∃ e,
      (let '(text, errs) := interpolate results (segments s) [] in
       if 0 <? length errs then Err (EFmt "template %q: %s" [FS s; FEs errs])
       else Ok (AString text)) = Err e
  end.
Proof.
  pose proof (interpolate_value results (segments s) []) as [H1 H2].
  destruct (interpolate results (segments s) []) as [text errs]. simpl in *.
  destruct (mapM (segment_value results) (segments s)); simplify_eq/=; [done|].
  apply Nat.ltb_lt in H1. rewrite H1. eauto.
Qed.

Lemma no_refs_value results gs :
  Forall (λ g, is_ref g = false) gs →
  ∃ parts, mapM (segment_value results) gs = Some parts ∧ concat_str parts = segs_text gs.
Proof.
  induction 1 as [|[c|ct] gs Hg Hgs IH]; simpl; [by exists []| |done].
  destruct IH as (parts & -> & Hc). simpl. eexists; split; [done|]. simpl. by rewrite Hc.
Qed.

(** What [Resolve] computes: every reference is replaced by the text it stands
    for, and a reference that stands for nothing is an error. *)
Lemma Resolve_substitutes s results :
  size results ≠ 0 →
  match mapM (segment_value results) (segments s) with
  | Some parts => Resolve s results = Ok (AString (concat_str parts))
  | None => ∃ e, Resolve s results = Err e
  end.
Proof.
  intros Hsz. unfold Resolve. apply Nat.eqb_neq in Hsz. rewrite Hsz, orb_false_r.
  destruct (contains s "{{") eqn:Hc; cbv zeta; simpl.
  2:{ destruct (no_refs_value results _ (segments_no_open s Hc)) as (parts & -> & Hp).
      by rewrite Hp, segments_text. }
  pose proof (matches_from_refs 0 (segments s)) as Hrefs. fold (find_all s) in Hrefs.
  pose proof (embedded_value s results) as He.
  destruct (find_all s) as [|[[a b] ct] ms] eqn:Hf; simpl in Hrefs.
  - destruct (no_refs_value results _ (refs_of_nil _ (eq_sym Hrefs))) as (parts & -> & Hp).
    by rewrite Hp, segments_text.
  - destruct ms as [|m ms]; [|exact He].
    destruct ((a =? 0) && (b =? slen s)) eqn:Hw; [|exact He]. bool_simp. subst a b.
    rewrite (find_all_whole s ct Hf). simpl. pose proof (resolve_whole_value s results ct) as Hr.
    destruct (ref_value results ct) as [t|]; simpl; [|exact Hr]. by rewrite sapp_nil_r.
Qed.

Lemma Resolve_text s results v : Resolve s results = Ok v → ∃ t, v = AString t.
Proof.
  intros Hv. destruct (decide (size results = 0)) as [Hz|Hz].
  - unfold Resolve in Hv. rewrite Hz, orb_true_r in Hv. simplify_eq. eauto.
  - pose proof (Resolve_substitutes s results Hz) as Hs.
    destruct (mapM _ _); [|destruct Hs]; rewrite Hv in *; simplify_eq; eauto.
Qed.

(* ------------------------------------------------------------------ *)
(** ** The step a reference names *)
(* ------------------------------------------------------------------ *)

(** [p] is what is left of [s] when a dot and what follows it are cut off. *)
Definition dot_prefix (p s : string) : Prop := ∃ f, s = p +:+ "." +:+ f.

Lemma dot_prefix_step p a b :
  has_byte "." b = false → dot_prefix p (a +:+ "." +:+ b) ↔ p = a ∨ dot_prefix p a.
Proof.
  intros Hb. split.
  - intros [f Hf]. symmetry in Hf. destruct (app_byte_inv "." p f a b Hf Hb) as [[-> _]|[f' ->]].
    + by left.
    + right. by exists f'.
  - intros [->|[f ->]]; [by exists b|]. exists (f +:+ "." +:+ b). by rewrite !sapp_assoc.
Qed.

Lemma dot_prefix_none p s : has_byte "." s = false → ¬ dot_prefix p s.
Proof. intros Hs [f ->]. rewrite has_byte_app in Hs. simpl in Hs. rewrite has_byte_cons in Hs.
  by rewrite orb_true_r in Hs. Qed.

Lemma dot_prefix_len p s : dot_prefix p s → slen p < slen s.
Proof. intros [f ->]. rewrite !slen_app. simpl. lia. Qed.

(** The longest known prefix, found by the loop. *)
Lemma resolve_prefix_spec {V} (results : gmap string V) content fuel candidate field :
  slen candidate < fuel →
  content = candidate +:+ "." +:+ field →
  (∀ p, dot_prefix p content → p ≠ content → results !! p ≠ None → p = candidate ∨ dot_prefix p candidate) →
  results !! candidate = None →
  match resolve_prefix fuel results candidate field with
  | Some (step, f) =>
      content = step +:+ "." +:+ f ∧ is_Some (results !! step) ∧
      ∀ p, dot_prefix p content → results !! p ≠ None → slen p ≤ slen step
  | None => ∀ p, dot_prefix p content → results !! p = None
  end.
Proof.
  revert candidate field. induction fuel as [|fuel IH]; intros candidate field Hfuel Hc Hall Hnone; [lia|].
  simpl. pose proof (last_index_of_byte "." candidate) as Hl.
  destruct (last_index_of "." candidate) as [i|] eqn:Hi.
  2:{ intros p Hp. apply eq_None_not_Some. intros [v Hv].
      destruct (Hall p Hp) as [->|Hd]; [|congruence|congruence|].
      - intros ->. apply dot_prefix_len in Hp. lia.
      - by eapply dot_prefix_none. }
  destruct Hl as [Hl1 Hl2]. set (a := stake i candidate) in *. set (b := sdrop (i + 1) candidate) in *.
  assert (Hc' : content = a +:+ "." +:+ (b +:+ "." +:+ field)).
  { rewrite Hc, Hl1. cbn. by rewrite !sapp_assoc. }
  assert (Hall' : ∀ p, dot_prefix p content → p ≠ content → results !! p ≠ None → p = a ∨ dot_prefix p a).
  { intros p Hp Hpc Hr. destruct (Hall p Hp Hpc Hr) as [->|Hd]; [done|].
    rewrite Hl1 in Hd. by apply (dot_prefix_step p a b) in Hd. }
  destruct (results !! a) as [v|] eqn:Ha.
  - split_and!; [done|by eexists|]. intros p Hp Hr.
    destruct (Hall' p Hp) as [->|Hd]; [|done|done|].
    + intros ->. apply dot_prefix_len in Hp. lia.
    + apply dot_prefix_len in Hd. lia.
  - apply IH; try done. rewrite Hl1, slen_app in Hfuel. simpl in Hfuel. lia.
Qed.

(** What a reference names: a known step and a field of it, the step as long as
    the names allow, or the whole content when no prefix of it is known. *)
Lemma resolveTemplateContent_spec {V} (results : gmap string V) content step field :
  resolveTemplateContent content results = (step, field) →
  (is_Some (results !! step) ∧
   (step = content ∧ field = "" ∨ content = step +:+ "." +:+ field) ∧
   ∀ p, p = content ∨ dot_prefix p content → is_Some (results !! p) → slen p ≤ slen step) ∨
  (step = content ∧ field = "" ∧
   ∀ p, p = content ∨ dot_prefix p content → results !! p = None).
Proof.
  unfold resolveTemplateContent. destruct (results !! content) as [v|] eqn:Hc.
  { intros [= <- <-]. left. split_and!; [by eexists|by left|].
    intros p [->|Hd] _; [done|]. apply dot_prefix_len in Hd. lia. }
  pose proof (last_index_of_byte "." content) as Hl.
  destruct (last_index_of "." content) as [i|] eqn:Hi.
  2:{ intros [= <- <-]. right. split_and!; [done..|]. intros p [->|Hd]; [done|].
      by eapply dot_prefix_none in Hl. }
  destruct Hl as [Hl1 Hl2]. cbv zeta.
  set (a := stake i content) in *. set (b := sdrop (i + 1) content) in *.
  assert (Hcut : ∀ p, dot_prefix p content → p = a ∨ dot_prefix p a).
  { intros p Hp. rewrite Hl1 in Hp. by apply (dot_prefix_step p a b) in Hp. }
  destruct (results !! a) as [v|] eqn:Ha.
  { intros [= <- <-]. left. split_and!; [by eexists|by right|].
    intros p [->|Hd] [w Hw]; [congruence|].
    destruct (Hcut p Hd) as [->|Hd']; [done|]. apply dot_prefix_len in Hd'. lia. }
  pose proof (resolve_prefix_spec results content (slen content) a b) as Hp.
  specialize (Hp (dot_prefix_len a content (ex_intro _ b Hl1)) Hl1 (λ p Hp _ _, Hcut p Hp) Ha).
  destruct (resolve_prefix (slen content) results a b) as [[step' f']|]; simpl.
  - destruct Hp as (H1 & H2 & H3). intros [= <- <-]. left. split_and!; [done|by right|].
    intros p [->|Hd] Hs; [destruct Hs; congruence|]. apply H3; [done|]. by destruct Hs as [? ->].
  - intros [= <- <-]. right. split_and!; [done..|]. intros p [->|Hd]; auto.
Qed.

(** Only the set of known names matters. *)
Lemma resolveTemplateContent_dom {V W} (r1 : gmap string V) (r2 : gmap string W) content :
  dom r1 = dom r2 → resolveTemplateContent content r1 = resolveTemplateContent content r2.
Proof.
  intros Hd. assert (Hk : ∀ k, (∃ v, r1 !! k = Some v) ↔ (∃ v, r2 !! k = Some v)).
  { intros k. pose proof (elem_of_dom r1 k) as H1. pose proof (elem_of_dom r2 k) as H2.
    unfold is_Some in *. rewrite Hd in H1. tauto. }
  assert (Hk2 : ∀ {A} k (x y : A), match r1 !! k with Some _ => x | None => y end
                  = match r2 !! k with Some _ => x | None => y end).
  { intros A k x y. specialize (Hk k). destruct (r1 !! k), (r2 !! k); try done; exfalso;
      destruct Hk as [H1 H2]; [destruct H1|destruct H2]; eauto; done. }
  assert (∀ fuel c f, resolve_prefix fuel r1 c f = resolve_prefix fuel r2 c f) as Hp.
  { induction fuel as [|fuel IH]; intros c f; simpl; [done|].
    destruct (last_index_of "." c); [|done]. by rewrite Hk2, IH. }
  unfold resolveTemplateContent. rewrite Hk2. destruct (r2 !! content); [done|].
  destruct (last_index_of "." content); [|done]. by rewrite Hk2, Hp.
Qed.

(* ------------------------------------------------------------------ *)
(** ** The steps a string depends on *)
(* ------------------------------------------------------------------ *)

Definition ref_step {V : Type} (results : gmap string V) (content : string) : string :=
  (resolveTemplateContent content results).1.

Lemma extract_refs_spec known results ms seen out :
  (∀ x, x ∈ seen ↔ x ∈ out) → NoDup out →
  NoDup (extract_refs known results seen out ms) ∧
  ∀ step, step ∈ extract_refs known results seen out ms ↔
    step ∈ out ∨ (step ≠ "" ∧ known !! step = Some true ∧
                  ∃ ct, ct ∈ ms.*2 ∧ ref_step results ct = step).
Proof.
  revert seen out. induction ms as [|[ab ct] ms IH]; intros seen out Hseen Hnd.
  { split; [done|]. intros step. simpl. split; [by left|]. intros [?|(_ & _ & ct & Hin & _)]; [done|].
    by apply elem_of_nil in Hin. }
  destruct ab as [a b]. cbn [extract_refs]. destruct (resolveTemplateContent ct results) as [step0 f] eqn:Hr.
  assert (Hs0 : ref_step results ct = step0) by (unfold ref_step; by rewrite Hr).
  destruct (String.eqb step0 "" || negb (default false (known !! step0)) || bool_decide (step0 ∈ seen)) eqn:Hg.
  - destruct (IH seen out Hseen Hnd) as [IH1 IH2]. split; [done|]. intros step. rewrite IH2.
    csimpl. setoid_rewrite elem_of_cons. split; [naive_solver|].
    intros [?|(Hne & Hk & ct' & [->|Hin] & Hs)]; [by left| |naive_solver].
    rewrite Hs0 in Hs. rewrite <-Hs in Hne, Hk |- *. rewrite Hk in Hg. simpl in Hg. rewrite orb_false_r in Hg.
    apply orb_true_iff in Hg as [Hg%String.eqb_eq|Hg%bool_decide_eq_true]; [done|].
    left. by apply Hseen.
  - apply orb_false_iff in Hg as [[Hne Hk]%orb_false_iff Hns].
    apply String.eqb_neq in Hne. apply bool_decide_eq_false in Hns.
    destruct (known !! step0) as [[|]|] eqn:Hk0; simpl in Hk; try done.
    destruct (IH ({[step0]} ∪ seen) (out ++ [step0])) as [IH1 IH2].
    { intros x. set_solver. }
    { apply NoDup_app. split_and!; [done| |apply NoDup_singleton]. set_solver. }
    split; [done|]. intros step. rewrite IH2. csimpl. setoid_rewrite elem_of_cons.
    rewrite elem_of_app, list_elem_of_singleton. split; [|naive_solver].
    intros [[?|Heq]|(? & ? & ct' & ? & ?)]; [by left| |]; right; subst; split_and!; eauto.
Qed.

Lemma refs_of_elem gs ct : ct ∈ refs_of gs ↔ Ref ct ∈ gs.
Proof.
  unfold refs_of. rewrite list_elem_of_omap. split.
  - intros ([c|d] & Hin & Heq); simplify_eq/=. done.
  - intros Hin. by exists (Ref ct).
Qed.

(** The names extracted: the known steps that references of [s] resolve to. *)
Lemma ExtractReferencedSteps_elem s known step :
  step ∈ ExtractReferencedSteps s known ↔
  known !! step = Some true ∧ ∃ ct, Ref ct ∈ segments s ∧ ref_step known ct = step.
Proof.
  assert (Hnoref : (∀ ct, Ref ct ∉ segments s) →
    (known !! step = Some true ∧ ∃ ct, Ref ct ∈ segments s ∧ ref_step known ct = step) → False)
    by (intros Hn (_ & ct & Hin & _); by eapply Hn).
  unfold ExtractReferencedSteps. destruct (contains s "{{") eqn:Hc; simpl.
  2:{ split; [by intros ?%elem_of_nil|]. intros H. exfalso. apply Hnoref; [|done].
      intros ct Hin. pose proof (segments_no_open s Hc) as Hf. rewrite Forall_forall in Hf.
      specialize (Hf _ Hin). done. }
  destruct (size known =? 0) eqn:Hz.
  { bool_simp. apply map_size_empty_inv in Hz. subst known.
    split; [by intros ?%elem_of_nil|]. intros [Hk _]. by rewrite lookup_empty in Hk. }
  destruct (extract_refs_spec known ((λ _, ANil) <$> known) (find_all s) ∅ []) as [_ Hspec];
    [set_solver|constructor|].
  rewrite Hspec. unfold find_all. rewrite matches_from_refs. setoid_rewrite refs_of_elem.
  assert (Hd : ∀ ct, ref_step ((λ _ : bool, ANil) <$> known) ct = ref_step known ct).
  { intros ct. unfold ref_step. f_equal. apply resolveTemplateContent_dom, dom_fmap_L. }
  split.
  - intros [Hin|(Hne & Hk & ct & Hin & Hs)]; [by apply elem_of_nil in Hin|].
    split; [done|]. exists ct. by rewrite <-Hd.
  - intros (Hk & ct & Hin & Hs). right. split_and!; [|done|exists ct; by rewrite Hd].
    destruct (segments_ref _ _ Hin) as (c & r & -> & Hw).
    unfold ref_step in Hs. destruct (resolveTemplateContent (String c r) known) as [st f] eqn:Hr.
    simpl in Hs. subst st. intros ->.
    apply resolveTemplateContent_spec in Hr as [(_ & [[Hx _]|Hx] & _)|(Hx & _)].
    + done.
    + simpl in Hx. simplify_eq.
    + done.
Qed.

Lemma ExtractReferencedSteps_NoDup s known : NoDup (ExtractReferencedSteps s known).
Proof.
  unfold ExtractReferencedSteps. destruct (_ || _); [constructor|].
  apply extract_refs_spec; [set_solver|constructor].
Qed.

Lemma resultKeys_dom r1 r2 : dom r1 = dom r2 → resultKeys r1 = resultKeys r2.
Proof.
  intros Hd. apply sort_strings_proper. apply NoDup_Permutation; [apply NoDup_fst_map_to_list..|].
  intros k. rewrite (@elem_of_range_keys range_fwd _ r1 k), (@elem_of_range_keys range_fwd _ r2 k).
  by rewrite <-!elem_of_dom, Hd.
Qed.

(** The outcome of resolution, the error message included, depends on the
    results of the extracted steps only. *)
Lemma Resolve_agree s r1 r2 :
  dom r1 = dom r2 →
  (∀ step, step ∈ ExtractReferencedSteps s ((λ _, true) <$> r1) → r1 !! step = r2 !! step) →
  Resolve s r1 = Resolve s r2.
Proof.
  intros Hd Hagree.
  assert (Href : ∀ ct, Ref ct ∈ segments s → r1 !! ref_step r1 ct = r2 !! ref_step r1 ct).
  { intros ct Hin. destruct (r1 !! ref_step r1 ct) as [v|] eqn:Hl.
    - rewrite <-Hl. apply Hagree, ExtractReferencedSteps_elem. split; [by rewrite lookup_fmap, Hl|].
      exists ct. split; [done|]. unfold ref_step. f_equal.
      apply resolveTemplateContent_dom, dom_fmap_L.
    - symmetry. apply not_elem_of_dom. rewrite <-Hd. by apply not_elem_of_dom. }
  assert (Hrep : ∀ ct, Ref ct ∈ segments s → replace_ref r1 ct = replace_ref r2 ct).
  { intros ct Hin. specialize (Href ct Hin). unfold replace_ref, ref_step in *.
    rewrite <-(resolveTemplateContent_dom r1 r2) by done.
    destruct (resolveTemplateContent ct r1) as [step f]. simpl in Href. by rewrite Href. }
  assert (Hint : ∀ gs errs, (∀ ct, Ref ct ∈ gs → Ref ct ∈ segments s) →
            interpolate r1 gs errs = interpolate r2 gs errs).
  { induction gs as [|[c|ct] gs IH]; intros errs Hin; simpl; [done| |].
    - rewrite IH; [done|]. intros ct ?. apply Hin. set_solver.
    - rewrite Hrep by (apply Hin; set_solver). destruct (replace_ref r2 ct) as [t oe].
      rewrite IH; [done|]. intros ct' ?. apply Hin. set_solver. }
  unfold Resolve. rewrite <-!size_dom, Hd, Hint by auto.
  destruct (negb _ || _); [done|]. cbv zeta.
  destruct (find_all s) as [|[[a b] ct] [|m ms]] eqn:Hf; [done| |done].
  destruct ((a =? 0) && (b =? slen s)) eqn:Hw; [|done]. bool_simp. subst a b.
  assert (Hin : Ref ct ∈ segments s) by (rewrite (find_all_whole _ _ Hf); set_solver).
  specialize (Href ct Hin). unfold resolve_whole, ref_step in *.
  rewrite <-(resolveTemplateContent_dom r1 r2), <-(resultKeys_dom r1 r2) by done.
  destruct (resolveTemplateContent ct r1) as [step f]. simpl in Href. by rewrite Href.
Qed.

(* ------------------------------------------------------------------ *)
(** ** Integers in decimal *)
(* ------------------------------------------------------------------ *)

Lemma dec_value_wrap a b s : wrap64 a = wrap64 b → wrap64 (dec_value a s) = wrap64 (dec_value b s).
Proof.
  revert a b. induction s as [|c s IH]; intros a b Hab; simpl; [done|]. apply IH.
  rewrite <-(wrap64_add_l (a * 10)), <-(wrap64_mul_l a), Hab. by rewrite wrap64_mul_l, wrap64_add_l.
Qed.

Lemma int_loop_value n s : in_int64 n → int_loop n s = wrap64 (dec_value n s).
Proof.
  revert n. induction s as [|c s IH]; intros n Hn; simpl; [by rewrite wrap64_id|].
  rewrite IH by apply wrap64_range. apply dec_value_wrap.
  apply wrap64_id, wrap64_range.
Qed.

(** The parser computes modulo 2^64: it never reports an overflow. *)
Lemma tryParseInt_value s :
  tryParseInt s =
  if (slen s =? 0) || negb (sall is_digit (unsigned s)) then None
  else Some (wrap64 (if is_negative s then - dec_value 0 (unsigned s)
                     else dec_value 0 (unsigned s))).
Proof.
  unfold tryParseInt. destruct (slen s =? 0); [done|].
  destruct (sall is_digit (unsigned s)); simpl; [|done].
  rewrite int_loop_value by (unfold in_int64, min_int64, max_int64; lia).
  destruct (is_negative s); [|done]. by rewrite wrap64_opp.
Qed.

(** Every [int64] printed in decimal reads back, and a larger integer reads
    back modulo 2^64. *)
Lemma tryParseInt_pretty z : tryParseInt (pretty z) = Some (wrap64 z).
Proof.
  rewrite tryParseInt_value. destruct z as [|p|p]; [done| |].
  - change (pretty (Z.pos p)) with (pretty (N.pos p)).
    destruct (pretty_pos_head p) as (c & s & Hp & Hc). destruct (pretty_pos_digits p) as [Hd Hv].
    rewrite Hp in *. unfold unsigned, is_negative. by rewrite Hc, Hd, Hv.
  - change (pretty (Z.neg p)) with ("-" +:+ pretty (N.pos p)).
    destruct (pretty_pos_digits p) as [Hd Hv]. simpl. by rewrite Hd, Hv.
Qed.

(* ------------------------------------------------------------------ *)
(** ** Coercion is a map over the arguments *)
(* ------------------------------------------------------------------ *)

Definition coerced (v : any) : any := default v (coerce_value v).
Definition is_coerced (v : any) : bool := bool_decide (is_Some (coerce_value v)).

Lemma coerce_value_twice v : coerce_value (coerced v) = None.
Proof.
  unfold coerced. destruct (coerce_value v) as [w|] eqn:Hw; [|done].
  destruct v as [| | | |s| |]; simpl in Hw; try done.
  destruct (tryParseInt s); simplify_eq/=; [done|].
  destruct (tryParseFloat s); simplify_eq/=; [done|].
  destruct (tryParseBool s); simplify_eq/=; done.
Qed.

Lemma coerce_loop l m n :
  NoDup l.*1 → (∀ k v, (k, v) ∈ l → m !! k = Some v) →
  let '(m', n') := foldl coerce_step (m, n) l in
  n' = n + length (filter (λ kv, is_coerced kv.2 = true) l) ∧
  ∀ k, m' !! k = if decide (k ∈ l.*1) then coerced <$> m !! k else m !! k.
Proof.
  revert m n. induction l as [|[k v] l IH]; intros m n; csimpl.
  { intros _ _. split; [lia|]. done. }
  intros [Hk Hnd]%NoDup_cons Hin. assert (Hmk : m !! k = Some v) by (apply Hin; set_solver).
  unfold coerce_step at 2. simpl.
  assert (Hout : ∀ m', (∀ k', k' ≠ k → m' !! k' = m !! k') → m' !! k = coerced <$> m !! k →
            ∀ n0, let '(m'', n'') := foldl coerce_step (m', n0) l in
            n'' = n0 + length (filter (λ kv, is_coerced kv.2 = true) l) ∧
            ∀ k0, m'' !! k0 = if decide (k0 ∈ k :: l.*1) then coerced <$> m !! k0 else m !! k0).
  { intros m' Hm' Hm'k n0. specialize (IH m' n0 Hnd).
    destruct (foldl coerce_step (m', n0) l) as [m'' n''].
    destruct IH as [-> IH].
    { intros k' v' Hin'. rewrite Hm'; [apply Hin; set_solver|]. intros ->. apply Hk.
      apply list_elem_of_fmap. by exists (k, v'). }
    split; [done|]. intros k0. rewrite IH. destruct (decide (k0 = k)) as [->|Hne].
    - rewrite decide_False by done. rewrite decide_True by set_solver. done.
    - rewrite Hm' by done. destruct (decide (k0 ∈ l.*1)), (decide (k0 ∈ k :: l.*1)); set_solver. }
  rewrite filter_cons. cbn [snd].
  destruct (coerce_value v) as [w|] eqn:Hw.
  - rewrite decide_True by (by unfold is_coerced; rewrite Hw).
    specialize (Hout (<[k:=w]> m)). cbn [length]. rewrite <-Nat.add_succ_comm. apply Hout.
    + intros k' Hne. by rewrite lookup_insert_ne.
    + rewrite lookup_insert_eq, Hmk. unfold coerced. simpl. by rewrite Hw.
  - rewrite decide_False by (by unfold is_coerced; rewrite Hw).
    apply Hout; [done|]. rewrite Hmk. unfold coerced. simpl. by rewrite Hw.
Qed.

(** In any iteration order, every argument becomes its coerced value and the
    count is the number of arguments that had one. *)
Lemma CoerceStringNumbers_map `{MapRange} args :
  CoerceStringNumbers args
  = (coerced <$> args, length (filter (λ kv, is_coerced kv.2 = true) (map_to_list args))).
Proof.
  unfold CoerceStringNumbers.
  pose proof (coerce_loop (range args) args 0 (range_NoDup_keys args)) as Hl.
  destruct (foldl coerce_step (args, 0) (range args)) as [m' n'].
  destruct Hl as [-> Hm']; [intros k v Hin; by apply elem_of_range|]. f_equal.
  - apply map_eq. intros k. rewrite Hm', lookup_fmap.
    destruct (decide (k ∈ (range args).*1)) as [|Hn]; [done|].
    destruct (args !! k) eqn:Hk; [|done]. exfalso. apply Hn.
    apply elem_of_range_keys. eauto.
  - simpl. by rewrite range_perm.
Qed.

(* ------------------------------------------------------------------ *)
(** ** What a template means *)
(* ------------------------------------------------------------------ *)

(** The meaning of a template, stated without the code: the text of a value, *)
Definition composite (v : any) : bool := match v with AMap _ | ASlice _ => true | _ => false end.

Inductive text_of : any → string → Prop :=
| text_of_string s : text_of (AString s) s
| text_of_json v b : composite v = true → json_marshal v = Some b → text_of v b
| text_of_unwritable v : composite v = true → json_marshal v = None → text_of v (fmt_v v)
| text_of_scalar v : composite v = false → (∀ s, v ≠ AString s) → text_of v (fmt_v v).

(** the value at a path of keys, *)
Inductive value_at : any → list string → any → Prop :=
| value_here v : value_at v [] v
| value_below m k path v w : assoc k m = Some v → value_at v path w → value_at (AMap m) (k :: path) w.

(** the step and the field a reference names, which are read at the last place a
    known name ends: the name is the longest known one that is the whole content
    or is followed by a dot, *)
Inductive names {V} (results : gmap string V) (content : string) : string → option string → Prop :=
| names_step : is_Some (results !! content) → names results content content None
| names_field step field :
    results !! content = None → is_Some (results !! step) → content = step +:+ "." +:+ field →
    (∀ p, dot_prefix p content → is_Some (results !! p) → slen p ≤ slen step) →
    names results content step (Some field).

(** what a reference stands for (nothing after the dot is the whole result), *)
Inductive stands_for (results : gmap string any) (content t : string) : Prop :=
| stands_for_step step field res :
    names results content step field → results !! step = Some res →
    match field with None | Some "" => text_of res t
                   | Some f => ∃ v, value_at res (split_on "." f) v ∧ text_of v t end →
    stands_for results content t.

(** and a text with every match of [templateRe] replaced by what it stands for. *)
Inductive substituted (results : gmap string any) : list token → string → Prop :=
| substituted_nil : substituted results [] ""
| substituted_byte c ts t :
    substituted results ts t → substituted results (Byte c :: ts) (String c t)
| substituted_ref content r ts t :
    stands_for results content r → substituted results ts t →
    substituted results (Found (ref_text content) :: ts) (r +:+ t).

Lemma text_of_stringify v t : text_of v t ↔ stringifyValue v = t.
Proof.
  split.
  - destruct 1 as [s|v b Hc Hj|v Hc Hj|v Hc Hs]; [done|..]; destruct v; simplify_eq/=;
      rewrite ?Hj; done.
  - intros <-. destruct v as [| | | |s|l|m]; [by apply text_of_scalar..|by apply text_of_string| |];
      unfold stringifyValue.
    + by destruct (json_marshal (ASlice l)) eqn:E; constructor.
    + by destruct (json_marshal (AMap m)) eqn:E; constructor.
Qed.

Lemma extract_loop_value field walked path v w :
  extract_loop field walked path v = Ok w ↔ value_at v path w.
Proof.
  revert walked v. induction path as [|k path IH]; intros walked v; simpl.
  { split; [intros [= ->]; constructor|]. by inversion 1. }
  split.
  - destruct v as [| | | | | |m]; try done. destruct (assoc k m) eqn:E; [|done].
    intros H%IH. by econstructor.
  - inversion 1 as [|m k' path' v' w' Ha Hv]; subst. rewrite Ha. by apply IH.
Qed.

Lemma names_resolve {V} (results : gmap string V) content step field :
  names results content step field →
  resolveTemplateContent content results = (step, default "" field).
Proof.
  intros Hn. destruct (resolveTemplateContent content results) as [st f] eqn:Hr.
  pose proof (resolveTemplateContent_spec _ _ _ _ Hr) as Hs.
  destruct Hn as [Hin|step field Hno Hin -> Hmax]; simpl.
  - unfold resolveTemplateContent in Hr. destruct Hin as [v Hv]. rewrite Hv in Hr. congruence.
  - assert (Hd : dot_prefix step (step +:+ "." +:+ field)) by (by exists field).
    destruct Hs as [(Hst & [[-> ->]|Heq] & Hm)|(-> & -> & Hm)].
    + destruct Hst. congruence.
    + assert (slen st ≤ slen step) by (apply Hmax; [by exists f|done]).
      assert (slen step ≤ slen st) by (apply Hm; [by right|done]).
      assert (step = st) as <-.
      { apply (f_equal (stake (slen step))) in Heq. rewrite stake_app in Heq.
        replace (slen step) with (slen st) in Heq by lia. by rewrite stake_app in Heq. }
      apply sapp_inj_l in Heq. by simplify_eq/=.
    + destruct Hin as [v Hv]. rewrite Hm in Hv by (by right). done.
Qed.

Lemma ref_value_stands results content t :
  ref_value results content = Some t ↔ stands_for results content t.
Proof.
  unfold ref_value. split.
  - destruct (resolveTemplateContent content results) as [step field] eqn:Hr.
    destruct (results !! step) as [res|] eqn:Hres; [simpl|done]. intros Ht.
    destruct (results !! content) as [v|] eqn:Hc.
    + unfold resolveTemplateContent in Hr. rewrite Hc in Hr. simplify_eq/=.
      apply (stands_for_step _ _ _ step None res); [by apply names_step|done|by apply text_of_stringify].
    + destruct (resolveTemplateContent_spec _ _ _ _ Hr) as [(Hst & [[-> ->]|Heq] & Hm)|(-> & -> & _)]; [congruence| |congruence].
      apply (stands_for_step _ _ _ step (Some field) res); [|done|].
      * apply names_field; [done|by eexists|done|]. intros p Hp. apply Hm. by right.
      * destruct field as [|c f]; simpl in *; [simplify_eq; by apply text_of_stringify|].
        destruct (extractField res (String c f)) as [v|] eqn:He; [|done]. simplify_eq/=.
        exists v. split; [by eapply extract_loop_value|by apply text_of_stringify].
  - intros [step field res Hn Hres Ht]. rewrite (names_resolve _ _ _ _ Hn), Hres. simpl.
    destruct field as [[|c f]|]; simpl; try (by apply text_of_stringify in Ht as ->).
    destruct Ht as (v & Hv%(extract_loop_value (String c f) []) & <-%text_of_stringify).
    unfold extractField. by rewrite Hv.
Qed.

Lemma substituted_segments results gs t :
  substituted results (map segment_token gs) t ↔
  ∃ parts, mapM (segment_value results) gs = Some parts ∧ t = concat_str parts.
Proof.
  revert t. induction gs as [|[c|ct] gs IH]; intros t; simpl.
  - split; [inversion 1; by exists []|]. intros (? & [= <-] & ->). constructor.
  - split.
    + inversion 1 as [|? ? t' Hs|]; subst. apply IH in Hs as (parts & -> & ->). simpl. by eexists.
    + intros (parts & Hm & ->). destruct (mapM _ gs) as [l|] eqn:E; [|done].
      injection Hm as <-. apply substituted_byte, IH. by exists l.
  - split.
    + inversion 1 as [| |ct' r ts t' Hr Hs Heq]; subst. apply sapp_inj_r in Heq as ->.
      apply ref_value_stands in Hr as ->. apply IH in Hs as (parts & -> & ->). simpl. by eexists.
    + intros (parts & Hm & ->). destruct (ref_value results ct) as [r|] eqn:Hr; [|done].
      destruct (mapM _ gs) as [l|] eqn:E; [|done].
      injection Hm as <-. apply substituted_ref; [by apply ref_value_stands|]. apply IH. by exists l.
Qed.

Lemma unresolved_segment results gs :
  mapM (segment_value results) gs = None → ∃ ct, Ref ct ∈ gs ∧ ref_value results ct = None.
Proof.
  intros H%eq_None_not_Some.
  induction gs as [|[c|ct] gs IH]; simpl in *.
  - destruct H. by eexists.
  - destruct IH as (ct & Hin & Hr); [|exists ct; split; [set_solver|done]].
    intros [parts Hp]. apply H. rewrite Hp. by eexists.
  - destruct (ref_value results ct) as [r|] eqn:Hr; [|exists ct; split; [set_solver|done]].
    destruct IH as (ct' & Hin & Hr'); [|exists ct'; split; [set_solver|done]].
    intros [parts Hp]. apply H. rewrite Hp. by eexists.
Qed.

(** The strings that read as a number or a boolean, and as what.  An integer is
    read modulo 2^64; a sign or a dot needs no digit beside it. *)
Inductive sign_text : string → bool → Prop :=
| sign_plus : sign_text "" false
| sign_minus : sign_text "-" true.

Definition digits_of (s : string) : list Z := map digit_val (String.list_ascii_of_string s).

(** The integer of some digits in base ten. *)
Definition decimal (s : string) : Z := foldl (λ v d, 10 * v + d)%Z 0%Z (digits_of s).

(** The digits before the dot, in base ten, and those after it, each over its
    power of ten, in the arithmetic of [float64]. *)
Definition whole_part (ds : list Z) : float64 :=
  foldl (λ v d, fadd (fmul v (f_of_Z 10)) (f_of_Z d)) (f_of_Z 0) ds.
Fixpoint tens (p : float64) (n : nat) : list float64 :=
  match n with 0 => [] | S n => p :: tens (fmul p (f_of_Z 10)) n end.
Definition fraction_part (ds : list Z) : float64 :=
  foldl (λ v dp, fadd v (fdiv (f_of_Z dp.1) dp.2)) (f_of_Z 0) (zip ds (tens (f_of_Z 10) (length ds))).

Inductive reads_as : string → any → Prop :=
| reads_int sign neg ds :
    sign_text sign neg → sall is_digit ds = true → sign +:+ ds ≠ "" →
    reads_as (sign +:+ ds)
      (AInt (wrap64 (if neg then - decimal ds else decimal ds)))
| reads_float sign neg a b :
    sign_text sign neg → sall is_digit a = true → sall is_digit b = true →
    let v := fadd (whole_part (digits_of a)) (fraction_part (digits_of b)) in
    reads_as (sign +:+ a +:+ "." +:+ b) (AFloat (if neg then fneg v else v))
| reads_true : reads_as "true" (ABool true)
| reads_false : reads_as "false" (ABool false).


Lemma sign_unsigned s : sign_text (if is_negative s then "-" else "") (is_negative s) ∧
  s = (if is_negative s then "-" else "") +:+ unsigned s.
Proof.
  destruct s as [|c s]; simpl; [by split; [constructor|]|].
  destruct (Ascii.eqb c "-") eqn:Hc; [apply Ascii.eqb_eq in Hc as ->|]; by split; [constructor|].
Qed.

Lemma unsigned_sign sign neg u :
  sign_text sign neg → is_negative u = false →
  unsigned (sign +:+ u) = u ∧ is_negative (sign +:+ u) = neg.
Proof. destruct 1; [|done]. destruct u as [|c u]; simpl; [done|]. by intros ->. Qed.

Lemma digits_not_negative s : sall is_digit s = true → is_negative s = false.
Proof.
  destruct s as [|c s]; simpl; [done|]. destruct (Ascii.eqb c "-") eqn:Hc; [|done].
  apply Ascii.eqb_eq in Hc as ->. done.
Qed.

Lemma dec_value_digits s : dec_value 0 s = decimal s.
Proof.
  unfold decimal. generalize 0%Z as n.
  induction s as [|c s IH]; intros n; simpl; [done|]. rewrite IH. f_equal. lia.
Qed.

Lemma slen_nonempty s : (slen s =? 0) = bool_decide (s = "").
Proof. by destruct s. Qed.

Lemma parse_int_reads s z :
  tryParseInt s = Some z ↔
  ∃ sign neg ds, sign_text sign neg ∧ sall is_digit ds = true ∧ s = sign +:+ ds ∧ s ≠ "" ∧
    z = wrap64 (if neg then - decimal ds else decimal ds).
Proof.
  rewrite tryParseInt_value, slen_nonempty. split.
  - case_bool_decide as He; [done|]. destruct (sall is_digit (unsigned s)) eqn:Hd; [|done]. simpl.
    intros [= <-]. destruct (sign_unsigned s) as [Hs Heq]. exists (if is_negative s then "-" else ""), (is_negative s), (unsigned s).
    by rewrite <-!dec_value_digits.
  - intros (sign & neg & ds & Hs & Hd & -> & Hne & ->). rewrite bool_decide_false by done.
    destruct (unsigned_sign sign neg ds Hs (digits_not_negative _ Hd)) as [-> ->].
    rewrite Hd, <-!dec_value_digits. done.
Qed.

Lemma digit_not_dot c : is_digit c = true → Ascii.eqb c "." = false.
Proof. intros Hc. destruct (Ascii.eqb c ".") eqn:E; [|done]. apply Ascii.eqb_eq in E as ->. done. Qed.

Lemma float_shape_digits b : float_shape true b = Some true ↔ sall is_digit b = true.
Proof.
  induction b as [|c b IH]; simpl; [done|]. destruct (Ascii.eqb c ".") eqn:Hc.
  - apply Ascii.eqb_eq in Hc as ->. done.
  - by destruct (is_digit c).
Qed.

Lemma float_shape_dot u :
  float_shape false u = Some true ↔
  ∃ a b, u = a +:+ "." +:+ b ∧ sall is_digit a = true ∧ sall is_digit b = true.
Proof.
  induction u as [|c u IH]; simpl.
  { split; [done|]. intros (a & b & Hu & _). by destruct a. }
  destruct (Ascii.eqb c ".") eqn:Hc.
  - apply Ascii.eqb_eq in Hc as ->. rewrite float_shape_digits. split; [by exists "", u|].
    intros ([|d a] & b & Hu & Ha & Hb); simplify_eq/=. done.
  - destruct (is_digit c) eqn:Hd.
    + rewrite IH. split.
      * intros (a & b & -> & Ha & Hb). exists (String c a), b. simpl. by rewrite Hd.
      * intros ([|d a] & b & Hu & Ha & Hb); simplify_eq/=. bool_simp. by exists a, b.
    + split; [done|]. intros ([|d a] & b & Hu & Ha & Hb); simplify_eq/=. bool_simp. congruence.
Qed.

Lemma float_int_part_digits v a b :
  sall is_digit a = true →
  float_int_part v (a +:+ "." +:+ b)
  = (foldl (λ v d, fadd (fmul v (f_of_Z 10)) (f_of_Z d)) v (digits_of a), b).
Proof.
  revert v. induction a as [|c a IH]; intros v Ha; simpl in *; [done|]. bool_simp.
  rewrite digit_not_dot by done. by apply IH.
Qed.

Lemma float_frac_part_digits v p b :
  float_frac_part v p b
  = foldl (λ v dp, fadd v (fdiv (f_of_Z dp.1) dp.2)) v (zip (digits_of b) (tens p (length (digits_of b)))).
Proof. revert v p. induction b as [|c b IH]; intros v p; simpl; [done|]. by rewrite IH. Qed.

Lemma parse_float_reads s f :
  tryParseFloat s = Some f ↔
  ∃ sign neg a b, sign_text sign neg ∧ sall is_digit a = true ∧ sall is_digit b = true ∧
    s = sign +:+ a +:+ "." +:+ b ∧
    f = let v := fadd (whole_part (digits_of a)) (fraction_part (digits_of b)) in if neg then fneg v else v.
Proof.
  unfold tryParseFloat. rewrite slen_nonempty. split.
  - case_bool_decide as He; [done|]. destruct (float_shape false (unsigned s)) as [[|]|] eqn:Hf; [|done..].
    apply float_shape_dot in Hf as (a & b & Hu & Ha & Hb). rewrite Hu, float_int_part_digits by done.
    rewrite float_frac_part_digits. intros [= <-]. destruct (sign_unsigned s) as [Hs Heq].
    exists (if is_negative s then "-" else ""), (is_negative s), a, b. by rewrite <-Hu.
  - intros (sign & neg & a & b & Hs & Ha & Hb & -> & ->).
    destruct (unsigned_sign sign neg (a +:+ "." +:+ b) Hs) as [-> ->].
    { destruct a as [|c a]; [done|]. by apply digits_not_negative in Ha. }
    rewrite bool_decide_false by (intros H; apply (f_equal slen) in H; rewrite !slen_app in H; simpl in H; lia).
    rewrite (proj2 (float_shape_dot _)) by (by exists a, b).
    by rewrite float_int_part_digits, float_frac_part_digits.
Qed.

Lemma dotted_no_int sign neg a b : sign_text sign neg → tryParseInt (sign +:+ a +:+ "." +:+ b) = None.
Proof.
  intros Hs. destruct (tryParseInt _) as [z|] eqn:E; [exfalso|done].
  apply parse_int_reads in E as (sign' & neg' & ds & Hs' & Hd & Heq & _).
  assert (Hdot : has_byte "." ds = true).
  { assert (H : has_byte "." (sign' +:+ ds) = true) by (rewrite <-Heq, !has_byte_app; simpl; by rewrite orb_true_r, orb_true_r).
    rewrite has_byte_app in H. by destruct Hs'. }
  clear -Hd Hdot. induction ds as [|c ds IH]; [done|]. simpl in *. rewrite has_byte_cons in Hdot. bool_simp.
  apply orb_true_iff in Hdot as [Hc|]; [|auto]. apply Ascii.eqb_eq in Hc as <-. done.
Qed.

Lemma coerce_value_reads s w : coerce_value (AString s) = Some w ↔ reads_as s w.
Proof.
  simpl. split.
  - destruct (tryParseInt s) as [z|] eqn:Hi.
    { intros [= <-]. apply parse_int_reads in Hi as (sign & neg & ds & Hs & Hd & -> & Hne & ->). by constructor. }
    destruct (tryParseFloat s) as [f|] eqn:Hf.
    { intros [= <-]. apply parse_float_reads in Hf as (sign & neg & a & b & Hs & Ha & Hb & -> & ->). by constructor. }
    unfold tryParseBool. destruct (String.eqb s "true") eqn:Ht; [apply String.eqb_eq in Ht as ->; intros [= <-]; constructor|].
    destruct (String.eqb s "false") eqn:Hb; [apply String.eqb_eq in Hb as ->; intros [= <-]; constructor|done].
  - destruct 1 as [sign neg ds Hs Hd Hne|sign neg a b Hs Ha Hb v| |]; [| |done..].
    + destruct (parse_int_reads (sign +:+ ds) (wrap64 (if neg then - decimal ds else decimal ds))) as [_ ->]; [done|].
      by exists sign, neg, ds.
    + rewrite (dotted_no_int _ _ _ _ Hs).
      destruct (parse_float_reads (sign +:+ a +:+ "." +:+ b) (if neg then fneg v else v)) as [_ ->]; [done|].
      by exists sign, neg, a, b.
Qed.

Lemma coerced_lookup (o : option any) w :
  coerced <$> o = Some w ↔
  (∃ s, o = Some (AString s) ∧ reads_as s w) ∨
  (o = Some w ∧ ∀ s w', w = AString s → ¬ reads_as s w').
Proof.
  unfold coerced. destruct o as [v|]; simpl; [|naive_solver].
  destruct (coerce_value v) as [w'|] eqn:Hv; simpl.
  - destruct v as [| | | |s| |]; try done. pose proof Hv as Hr%coerce_value_reads. split.
    + intros [= ->]. left. by exists s.
    + intros [(s' & [= <-] & Hs%coerce_value_reads)|([= <-] & Hn)]; [congruence|]. by destruct (Hn s w').
  - split.
    + intros [= <-]. right. split; [done|]. intros s w' -> Hs%coerce_value_reads. congruence.
    + intros [(s & [= ->] & Hs%coerce_value_reads)|([= ->] & _)]; [congruence|done].
Qed.

Lemma coerced_keys (args : gmap string any) k :
  k ∈ (filter (λ kv, is_coerced kv.2 = true) (map_to_list args)).*1 ↔
  ∃ s w, args !! k = Some (AString s) ∧ reads_as s w.
Proof.
  rewrite list_elem_of_fmap. setoid_rewrite list_elem_of_filter. unfold is_coerced. split.
  - intros ([k' v] & -> & Hv%bool_decide_eq_true & Hin%elem_of_map_to_list). destruct Hv as [w Hw].
    simpl in *. destruct v as [| | | |s| |]; try done. exists s, w. split; [done|]. by apply coerce_value_reads.
  - intros (s & w & Hk & Hr%coerce_value_reads). exists (k, AString s). split; [done|].
    split; [apply bool_decide_eq_true; eauto|by apply elem_of_map_to_list].
Qed.

Lemma coerced_args_settled `{MapRange} args : CoerceStringNumbers (coerced <$> args) = (coerced <$> args, 0).
Proof.
  rewrite CoerceStringNumbers_map. f_equal.
  - rewrite <-map_fmap_compose. apply map_fmap_ext. intros k v _. simpl.
    unfold coerced at 1. by rewrite coerce_value_twice.
  - apply length_zero_iff_nil, Permutation_nil_r. rewrite map_to_list_fmap.
    induction (map_to_list args) as [|[k v] l IH]; [done|]. csimpl.
    rewrite filter_cons, decide_False; [done|]. simpl. unfold is_coerced.
    by rewrite coerce_value_twice.
Qed.

Lemma Resolve_means s results :
  size results ≠ 0 →
  (∀ v, Resolve s results = Ok v ↔ ∃ t, v = AString t ∧ substituted results (tokens templateRe s) t) ∧
  (∀ e, Resolve s results = Err e →
     ∃ content, Found (ref_text content) ∈ tokens templateRe s ∧ ∀ t, ¬ stands_for results content t).
Proof.
  intros Hsz. pose proof (Resolve_substitutes s results Hsz) as Hr.
  rewrite <-segments_tokens. setoid_rewrite substituted_segments.
  destruct (mapM (segment_value results) (segments s)) as [parts|] eqn:Hp.
  - rewrite Hr. split; [|done]. intros v. naive_solver.
  - destruct Hr as [e0 Hr]. rewrite Hr. split; [naive_solver|]. intros e _.
    destruct (unresolved_segment results _ Hp) as (ct & Hin & Hn). exists ct. split.
    + apply list_elem_of_fmap. by exists (Ref ct).
    + intros t Ht%ref_value_stands. congruence.
Qed.

(* ------------------------------------------------------------------ *)
(** ** Properties *)
(* ------------------------------------------------------------------ *)

(** C2: with results to resolve against, Resolve is substitution: it succeeds with
    a text exactly when every match of templateRe in the string stands for one, the
    text being the string with each match replaced, and when it fails some match
    stands for nothing, so that no reference is left in place silently. What a
    reference stands for is stated apart from the code: the step is the longest
    known name that is the whole content or is followed by a dot in it, the rest
    is a path of map keys, and the value found is written as it is when it is a
    string, as JSON when it is a map or a slice and as fmt writes it otherwise.
    The result is this text also when one template spans the whole string, where
    the comment of Resolve (engine.go:18) promises the type of the value; the tests
    of the package expect the text. *)
Theorem resolve_is_substitution s results :
  size results ≠ 0 →
  (∀ v, Resolve s results = Ok v ↔ ∃ t, v = AString t ∧ substituted results (tokens templateRe s) t) ∧
  (∀ e, Resolve s results = Err e →
     ∃ content, Found (ref_text content) ∈ tokens templateRe s ∧ ∀ t, ¬ stands_for results content t).
Proof. apply Resolve_means. Qed.

(** Two earlier steps, one of them with dots in its name. *)
Definition sample_results : gmap string any :=
  {[ "mcp.his.query" := AMap [("id", AFloat (f_of_Z 7))]; "a" := AString "hi" ]}.

Lemma resolve_is_substitution_witness :
  ∃ t, AString "7" = AString t ∧ substituted sample_results (tokens templateRe "{{mcp.his.query.id}}") t.
Proof.
  assert (Hsz : size sample_results ≠ 0) by (vm_compute; lia).
  apply (resolve_is_substitution "{{mcp.his.query.id}}" sample_results Hsz). vm_compute. reflexivity.
Defined.

(** a reference is attributed to the longest known step name that is the
    whole content or ends at one of its dots; the rest is the field path; if
    there is no such name the whole content is taken as the step. *)
Theorem reference_names_longest_step (results : gmap string any) content step field :
  resolveTemplateContent content results = (step, field) →
  (is_Some (results !! step) ∧
   (step = content ∧ field = "" ∨ content = step +:+ "." +:+ field) ∧
   ∀ p, p = content ∨ dot_prefix p content → is_Some (results !! p) → slen p ≤ slen step) ∨
  (step = content ∧ field = "" ∧
   ∀ p, p = content ∨ dot_prefix p content → results !! p = None).
Proof. apply resolveTemplateContent_spec. Qed.

Lemma reference_names_longest_step_witness :
  resolveTemplateContent "mcp.his.query.id" sample_results = ("mcp.his.query", "id") ∧
  (∀ p, p = "mcp.his.query.id" ∨ dot_prefix p "mcp.his.query.id" →
        is_Some (sample_results !! p) → slen p ≤ 13).
Proof.
  assert (H : resolveTemplateContent "mcp.his.query.id" sample_results = ("mcp.his.query", "id"))
    by (vm_compute; reflexivity).
  split; [exact H|].
  destruct (reference_names_longest_step _ _ _ _ H) as [(_ & _ & Hmax)|(Heq & _)];
    [exact Hmax|discriminate Heq].
Defined.

(** resolution reads only the results of the steps that
    [ExtractReferencedSteps] reports, so evidence bubbled from those steps covers
    everything that can influence the outcome, error messages included. *)
Theorem resolve_reads_only_referenced_steps s r1 r2 :
  dom r1 = dom r2 →
  (∀ step, step ∈ ExtractReferencedSteps s ((λ _, true) <$> r1) → r1 !! step = r2 !! step) →
  Resolve s r1 = Resolve s r2.
Proof. apply Resolve_agree. Qed.

Lemma resolve_reads_only_referenced_steps_witness :
  Resolve "id {{mcp.his.query.id}}" sample_results
  = Resolve "id {{mcp.his.query.id}}" (<["a" := ANil]> sample_results).
Proof.
  apply resolve_reads_only_referenced_steps.
  - vm_compute. reflexivity.
  - intros step Hin.
    assert (E : ExtractReferencedSteps "id {{mcp.his.query.id}}" ((λ _, true) <$> sample_results)
                = ["mcp.his.query"]) by (vm_compute; reflexivity).
    rewrite E in Hin. apply list_elem_of_singleton in Hin. subst step. vm_compute. reflexivity.
Defined.


(** an integer argument given as a decimal string is read modulo 2^64: in
    the [int64] range it is read exactly, beyond it wraps without an error. *)
Theorem integer_strings_read_modulo z :
  tryParseInt (pretty z) = Some (wrap64 z) ∧ (in_int64 z → wrap64 z = z).
Proof. split; [apply tryParseInt_pretty|apply wrap64_id]. Qed.

(** the value [Resolve] returns is always a string, also for a single
    template that spans the whole input and names a number, an object or nil. *)
Theorem resolve_returns_a_string s results v :
  Resolve s results = Ok v → ∃ t, v = AString t.
Proof. apply Resolve_text. Qed.

Lemma resolve_returns_a_string_witness : ∃ t, AString "7" = AString t.
Proof.
  apply (resolve_returns_a_string "{{mcp.his.query.id}}" sample_results).
  vm_compute. reflexivity.
Defined.
