(* ===== verification/Plan.v ===== *)
(** Execution plans ([src/execution]): steps and their preparation for dispatch,
    plan validation and freezing, parallel batches, permissions, evidence and
    the request-scoped result log. *)
From S2P Require Export Template Types.

(* ------------------------------------------------------------------ *)
(** ** Steps and the argument store *)
(* ------------------------------------------------------------------ *)

(** A Go map is a reference: two steps may share one [Arguments] map.  The store
    holds the maps, a step holds a location or nil. *)
Abbreviation loc := positive.
Abbreviation heap := (gmap positive (gmap string any)).

Definition StepType : Type := string.
Definition StepTypeSkill : StepType := "skill".
Definition StepTypeTool : StepType := "tool".
Definition StepTypeLLM : StepType := "llm".

Record ExecutionStep := mkExecutionStep {
  es_Name : string;
  es_Type : StepType;
  es_Arguments : option loc;
  es_StepID : string;
  es_Timeout : Z;
  es_ExpectedOutput : string;
  es_OutputSchema : option JSONSchema;
  es_Parallelizable : bool;
  es_ParallelGroup : string;
  es_RiskLevel : string
}.

Definition set_Arguments (a : option loc) (s : ExecutionStep) : ExecutionStep :=
  mkExecutionStep (es_Name s) (es_Type s) a (es_StepID s) (es_Timeout s) (es_ExpectedOutput s)
    (es_OutputSchema s) (es_Parallelizable s) (es_ParallelGroup s) (es_RiskLevel s).
Definition set_StepID (id : string) (s : ExecutionStep) : ExecutionStep :=
  mkExecutionStep (es_Name s) (es_Type s) (es_Arguments s) id (es_Timeout s) (es_ExpectedOutput s)
    (es_OutputSchema s) (es_Parallelizable s) (es_ParallelGroup s) (es_RiskLevel s).

(** The map a location holds. *)
Definition args_at (h : heap) (l : loc) : gmap string any := default ∅ (h !! l).

Section prepare.
Context `{MapRange}.

(** [make(map[string]any)] and the loop that copies the entries. *)
Definition Clone (h : heap) (s : ExecutionStep) : heap * ExecutionStep :=
  match es_Arguments s with
  | None => (h, s)
  | Some l =>
      let l' := fresh (dom h) in
      let copy := foldl (λ m kv, <[kv.1 := kv.2]> m) ∅ (range (args_at h l)) in
      (<[l' := copy]> h, set_Arguments (Some l') s)
  end.

Definition ArgumentsJSON (h : heap) (s : ExecutionStep) : option string :=
  match es_Arguments s with
  | None => Some "{}"
  | Some l => json_marshal (AMap (range (args_at h l)))
  end.

Definition CoerceArguments (h : heap) (s : ExecutionStep) : heap * nat :=
  match es_Arguments s with
  | None => (h, 0)
  | Some l =>
      let '(m, n) := CoerceStringNumbers (args_at h l) in (<[l := m]> h, n)
  end.

(** The loop over the arguments: it stores each resolved value as it goes and
    stops at the first that does not resolve. *)
Fixpoint resolve_loop (results : gmap string any) (m : gmap string any)
    (kvs : list (string * any)) : gmap string any * option error :=
  match kvs with
  | [] => (m, None)
  | (key, val) :: kvs =>
      match val with
      | AString strVal =>
          match Resolve strVal results with
          | Err err => (m, Some (EFmt "arg %q: %w" [FS key; FW err]))
          | Ok resolved => resolve_loop results (<[key := resolved]> m) kvs
          end
      | _ => resolve_loop results m kvs
      end
  end.

Definition ResolveArguments (h : heap) (s : ExecutionStep) (results : gmap string any) :
    heap * option error :=
  match es_Arguments s with
  | None => (h, None)
  | Some l =>
      if size results =? 0 then (h, None)
      else
        let '(m, err) := resolve_loop results (args_at h l) (range (args_at h l)) in
        (<[l := m]> h, err)
  end.

Definition Prepare (h : heap) (s : ExecutionStep) (results : gmap string any) :
    heap * result error ExecutionStep :=
  let '(h, clone) := Clone h s in
  let '(h, _) := CoerceArguments h clone in
  match ResolveArguments h clone results with
  | (h, Some err) => (h, Err (EFmt "step %q: %w" [FS (es_Name clone); FW err]))
  | (h, None) => (h, Ok clone)
  end.
End prepare.

(* ------------------------------------------------------------------ *)
(** ** Plans *)
(* ------------------------------------------------------------------ *)

Record ExecutionPlan := mkExecutionPlan {
  ep_ID : string;
  ep_ParentID : string;
  ep_AssistantID : string;
  ep_Steps : list ExecutionStep;
  ep_Reasoning : string;
  ep_frozen : bool
}.

Definition set_plan_ID (id : string) (p : ExecutionPlan) : ExecutionPlan :=
  mkExecutionPlan id (ep_ParentID p) (ep_AssistantID p) (ep_Steps p) (ep_Reasoning p) (ep_frozen p).
Definition set_Steps (ss : list ExecutionStep) (p : ExecutionPlan) : ExecutionPlan :=
  mkExecutionPlan (ep_ID p) (ep_ParentID p) (ep_AssistantID p) ss (ep_Reasoning p) (ep_frozen p).
Definition Freeze (p : ExecutionPlan) : ExecutionPlan :=
  mkExecutionPlan (ep_ID p) (ep_ParentID p) (ep_AssistantID p) (ep_Steps p) (ep_Reasoning p) true.
Definition IsFrozen (p : ExecutionPlan) : bool := ep_frozen p.

Definition valid_step_type (t : StepType) : bool :=
  String.eqb t StepTypeSkill || String.eqb t StepTypeTool || String.eqb t StepTypeLLM.

Section validate.
(** [uuid.NewString()]: the identifiers the library hands out, in call order. *)
Variable uuid : nat → string.

(** The loop over the steps, which fills in missing identifiers as it goes and
    returns at the first bad step: the steps afterwards, the next identifier
    and the error.  [n] identifiers have been handed out. *)
Fixpoint validate_steps (i : nat) (seen : gmap string nat) (n : nat)
    (steps : list ExecutionStep) : list ExecutionStep * nat * option error :=
  match steps with
  | [] => ([], n, None)
  | step :: rest =>
      if String.eqb (es_Name step) "" then
        (steps, n, Some (EFmt "step %d has empty name" [FN i]))
      else if negb (valid_step_type (es_Type step)) then
        (steps, n, Some (EFmt "step %d has invalid type: %s" [FN i; FS (es_Type step)]))
      else
        match seen !! es_Name step with
        | Some prev =>
            (steps, n, Some (EFmt "duplicate step name %q at positions %d and %d"
                               [FS (es_Name step); FN prev; FN i]))
        | None =>
            let seen := <[es_Name step := i]> seen in
            let '(step, n) :=
              if String.eqb (es_StepID step) "" then (set_StepID (uuid n) step, S n)
              else (step, n) in
            let '(rest, n, err) := validate_steps (S i) seen n rest in
            (step :: rest, n, err)
        end
  end.

Definition Validate (n : nat) (p : ExecutionPlan) : ExecutionPlan * nat * option error :=
  if ep_frozen p then
    (p, n, Some (EFmt "plan is already frozen and cannot be re-validated" []))
  else if length (ep_Steps p) =? 0 then
    (p, n, Some (EFmt "plan must have at least one step" []))
  else
    let '(p, n) :=
      if String.eqb (ep_ID p) "" then (set_plan_ID (uuid n) p, S n) else (p, n) in
    match validate_steps 0 ∅ n (ep_Steps p) with
    | (steps, n, Some err) => (set_Steps steps p, n, Some err)
    | (steps, n, None) => (Freeze (set_Steps steps p), n, None)
    end.
End validate.

(* ------------------------------------------------------------------ *)
(** ** Parallel batches *)
(* ------------------------------------------------------------------ *)

Definition in_group (group : string) (s : ExecutionStep) : bool :=
  es_Parallelizable s && String.eqb (es_ParallelGroup s) group.
Definition groupable (s : ExecutionStep) : bool :=
  es_Parallelizable s && negb (String.eqb (es_ParallelGroup s) "").

(** The inner loop: the longest run of steps of [group] and what follows it. *)
Fixpoint group_run (group : string) (steps : list ExecutionStep) :
    list ExecutionStep * list ExecutionStep :=
  match steps with
  | s :: rest =>
      if in_group group s then
        let '(batch, rest) := group_run group rest in (s :: batch, rest)
      else ([], steps)
  | [] => ([], [])
  end.

(** The outer loop over the steps from index [i] on; every round consumes a step,
    so [length steps] rounds are enough. *)
Fixpoint group_loop (fuel : nat) (steps : list ExecutionStep) : list (list ExecutionStep) :=
  match fuel, steps with
  | S fuel, s :: rest =>
      if groupable s then
        let '(batch, rest) := group_run (es_ParallelGroup s) steps in
        batch :: group_loop fuel rest
      else [s] :: group_loop fuel rest
  | _, _ => []
  end.

Definition GroupParallelSteps (steps : list ExecutionStep) : list (list ExecutionStep) :=
  group_loop (length steps) steps.

(* ------------------------------------------------------------------ *)
(** ** Permissions, evidence, retry policy *)
(* ------------------------------------------------------------------ *)

Definition ApprovalModeAuto : string := "auto".
Definition ApprovalModeRequire : string := "require".
Definition ApprovalModeDeny : string := "deny".

Record PermissionConfig := mkPermissionConfig {
  AllowedTools : gmap string bool;
  DeniedTools : gmap string bool;
  ApprovalMode : string
}.

(** [m[name]]: a missing key reads as [false]. *)
Definition flag (m : gmap string bool) (name : string) : bool := default false (m !! name).

Definition IsAllowed (pc : option PermissionConfig) (name : string) : bool * string :=
  match pc with
  | None => (true, "")
  | Some pc =>
      if (0 <? size (DeniedTools pc)) && flag (DeniedTools pc) name then
        (false, "denied by permission config")
      else if (0 <? size (AllowedTools pc)) && negb (flag (AllowedTools pc) name) then
        (false, "not in allowed list")
      else if String.eqb (ApprovalMode pc) ApprovalModeDeny then
        (false, "approval mode is deny")
      else (true, "")
  end.

Record Evidence := mkEvidence {
  ev_Source : string;
  ev_Kind : string;
  ev_Resource : string;
  ev_ID : string;
  ev_URI : string;
  ev_Timestamp : Z;
  ev_FetchedAt : Z;
  ev_TraceID : string;
  ev_Hash : string;
  ev_OutputField : string
}.

Definition Evidence_Validate (e : Evidence) : option error :=
  if String.eqb (ev_Source e) "" then Some (EFmt "evidence: Source is required" []) else None.

(** Durations are in nanoseconds. *)
Definition Millisecond : Z := 1000000.
Definition Second : Z := 1000000000.

Record RetryPolicy := mkRetryPolicy {
  MaxRetries : Z;
  InitialBackoff : Z;
  MaxBackoff : Z;
  FailFast : bool;
  FallbackTool : string
}.
Definition DefaultRetryPolicy : RetryPolicy :=
  mkRetryPolicy 2 (500 * Millisecond) (5 * Second) true "".

(* ------------------------------------------------------------------ *)
(** ** Results of a request *)
(* ------------------------------------------------------------------ *)

Record StepResult := mkStepResult {
  sr_StepName : string;
  sr_Type : string;
  sr_Output : any;
  sr_Evidence : list Evidence;
  sr_Error : option error;
  sr_Duration : Z;
  sr_StepID : string;
  sr_Retries : Z;
  sr_Fallback : bool;
  sr_OutputSchema : option JSONSchema
}.

(** The part of [ExecutionContext] its methods read and write. *)
Record ExecutionContext (P : Type) := mkExecutionContext {
  ec_RequestID : string;
  ec_AssistantID : string;
  ec_SessionID : string;
  ec_TenantID : string;
  ec_UserID : string;
  ec_StartedAt : Z;
  ec_Deadline : option Z;
  ec_plannerCtx : option P;
  ec_results : list StepResult
}.
Arguments mkExecutionContext {P}.
Arguments ec_RequestID {P}.
Arguments ec_AssistantID {P}.
Arguments ec_SessionID {P}.
Arguments ec_TenantID {P}.
Arguments ec_UserID {P}.
Arguments ec_StartedAt {P}.
Arguments ec_Deadline {P}.
Arguments ec_plannerCtx {P}.
Arguments ec_results {P}.

(** [deadline] is what the parent context has, [now] what the clock reads. *)
Definition NewExecutionContext {P : Type} (deadline : option Z) (now : Z)
    (reqID asstID sessionID tenantID userID : string) : ExecutionContext P :=
  mkExecutionContext reqID asstID sessionID tenantID userID now deadline None [].

Definition AddResult {P : Type} (ec : ExecutionContext P) (res : StepResult) : ExecutionContext P :=
  mkExecutionContext (ec_RequestID ec) (ec_AssistantID ec) (ec_SessionID ec) (ec_TenantID ec)
    (ec_UserID ec) (ec_StartedAt ec) (ec_Deadline ec) (ec_plannerCtx ec) (ec_results ec ++ [res]).

Definition SetPlannerContext {P : Type} (ec : ExecutionContext P) (p : option P) : ExecutionContext P :=
  mkExecutionContext (ec_RequestID ec) (ec_AssistantID ec) (ec_SessionID ec) (ec_TenantID ec)
    (ec_UserID ec) (ec_StartedAt ec) (ec_Deadline ec) p (ec_results ec).

Definition get_PlannerContext {P : Type} (ec : ExecutionContext P) : option P := ec_plannerCtx ec.

Definition Results {P : Type} (ec : ExecutionContext P) : list StepResult := ec_results ec.

(* ------------------------------------------------------------------ *)
(** ** Preparation, verified *)
(* ------------------------------------------------------------------ *)

(** What one argument resolves to. *)
Definition resolve_value (results : gmap string any) (v : any) : result error any :=
  match v with AString s => Resolve s results | _ => Ok v end.

Lemma resolve_loop_spec results kvs m :
  NoDup kvs.*1 → (∀ k v, (k, v) ∈ kvs → m !! k = Some v) →
  match resolve_loop results m kvs with
  | (m', None) =>
      (∀ k v, (k, v) ∈ kvs → ∃ v', resolve_value results v = Ok v' ∧ m' !! k = Some v') ∧
      (∀ k, k ∉ kvs.*1 → m' !! k = m !! k)
  | (_, Some e) => ∃ k v e0, (k, v) ∈ kvs ∧ resolve_value results v = Err e0 ∧
                            e = EFmt "arg %q: %w" [FS k; FW e0]
  end.
Proof.
  revert m. induction kvs as [|[k v] kvs IH]; intros m Hnd Hin.
  { split; [by intros ?? ?%elem_of_nil|done]. }
  apply NoDup_cons in Hnd as [Hk Hnd]. csimpl in *.
  assert (Hstep : ∀ m1 v1, resolve_value results v = Ok v1 → m1 !! k = Some v1 →
            (∀ k', k' ≠ k → m1 !! k' = m !! k') →
            match resolve_loop results m1 kvs with
            | (m', None) =>
                (∀ k' v', (k', v') ∈ (k, v) :: kvs → ∃ w, resolve_value results v' = Ok w ∧ m' !! k' = Some w) ∧
                (∀ k', k' ∉ k :: kvs.*1 → m' !! k' = m !! k')
            | (_, Some e) => ∃ k' v' e0, (k', v') ∈ (k, v) :: kvs ∧ resolve_value results v' = Err e0 ∧
                                      e = EFmt "arg %q: %w" [FS k'; FW e0]
            end).
  { intros m1 v1 Hv Hm1 Hm. specialize (IH m1 Hnd).
    destruct (resolve_loop results m1 kvs) as [m' [e|]].
    - destruct IH as (k' & v' & e0 & Hin' & ?).
      { intros k' v' Hin'. rewrite Hm; [apply Hin; set_solver|]. intros ->. apply Hk.
        apply list_elem_of_fmap. by exists (k, v'). }
      exists k', v', e0. split; [set_solver|done].
    - destruct IH as [IH1 IH2].
      { intros k' v' Hin'. rewrite Hm; [apply Hin; set_solver|]. intros ->. apply Hk.
        apply list_elem_of_fmap. by exists (k, v'). }
      split.
      + intros k' v' [[= -> ->]|Hin']%elem_of_cons; [|by apply IH1].
        exists v1. split; [done|]. by rewrite IH2.
      + intros k' [Hne Hni]%not_elem_of_cons. rewrite IH2 by done. by apply Hm. }
  assert (Hmk : m !! k = Some v) by (apply Hin; set_solver).
  destruct v as [| | | |s| |]; try (apply (Hstep m _ eq_refl); [done|done]).
  cbn [resolve_loop]. destruct (Resolve s results) as [r|err] eqn:Hr.
  - apply (Hstep _ r); [done|by rewrite lookup_insert_eq|].
    intros k' Hne. by rewrite lookup_insert_ne.
  - exists k, (AString s), err. split; [set_solver|done].
Qed.

Lemma Resolve_no_results s results : size results = 0 → Resolve s results = Ok (AString s).
Proof. intros Hz. unfold Resolve. by rewrite Hz, orb_true_r. Qed.

Lemma resolve_value_no_results results v : size results = 0 → resolve_value results v = Ok v.
Proof. intros Hz. destruct v; simpl; try done. by apply Resolve_no_results. Qed.

Lemma ResolveArguments_spec `{MapRange} h s l results :
  es_Arguments s = Some l → is_Some (h !! l) →
  let '(h', err) := ResolveArguments h s results in
  (∀ l0, l0 ≠ l → h' !! l0 = h !! l0) ∧
  match err with
  | None => ∃ m', h' !! l = Some m' ∧ dom m' = dom (args_at h l) ∧
      ∀ k v, args_at h l !! k = Some v → ∃ v', resolve_value results v = Ok v' ∧ m' !! k = Some v'
  | Some e => ∃ k v e0, args_at h l !! k = Some v ∧ resolve_value results v = Err e0 ∧
                        e = EFmt "arg %q: %w" [FS k; FW e0]
  end.
Proof.
  intros Hl [m Hm]. unfold ResolveArguments, args_at. rewrite Hl, Hm. simpl.
  destruct (size results =? 0) eqn:Hz.
  { bool_simp. split; [done|]. exists m. split_and!; [done..|]. intros k v Hv. exists v.
    by rewrite resolve_value_no_results. }
  pose proof (resolve_loop_spec results (range m) m (range_NoDup_keys m)) as Hs.
  destruct (resolve_loop results m (range m)) as [m' err].
  split; [intros l0 Hne; by rewrite lookup_insert_ne|].
  assert (Hin : ∀ k v, (k, v) ∈ range m → m !! k = Some v) by (intros; by apply elem_of_range).
  specialize (Hs Hin). destruct err as [e|].
  - destruct Hs as (k & v & e0 & Hkv & ?). exists k, v, e0. split; [by apply elem_of_range|done].
  - destruct Hs as [Hs1 Hs2]. exists m'. split_and!; [by rewrite lookup_insert_eq| |].
    + apply set_eq. intros k. rewrite !elem_of_dom. destruct (m !! k) as [v|] eqn:Hk.
      * apply elem_of_range in Hk. destruct (Hs1 k v Hk) as (v' & _ & ->). split; eauto.
      * rewrite Hs2; [by rewrite Hk|]. intros [v Hv]%elem_of_range_keys. congruence.
    + intros k v Hkv. apply Hs1. by apply elem_of_range.
Qed.

(** [Prepare] in one statement. *)
Lemma Prepare_spec `{MapRange} h s l m results :
  es_Arguments s = Some l → h !! l = Some m →
  let '(h', r) := Prepare h s results in
  (∀ l0, l0 ∈ dom h → h' !! l0 = h !! l0) ∧
  match r with
  | Ok s' => ∃ l' m', s' = set_Arguments (Some l') s ∧ l' ∉ dom h ∧ h' !! l' = Some m' ∧
      dom m' = dom m ∧
      ∀ k v, m !! k = Some v → ∃ v', resolve_value results (coerced v) = Ok v' ∧ m' !! k = Some v'
  | Err e => ∃ k v e0, m !! k = Some v ∧ resolve_value results (coerced v) = Err e0 ∧
      e = EFmt "step %q: %w" [FS (es_Name s); FW (EFmt "arg %q: %w" [FS k; FW e0])]
  end.
Proof.
  intros Hl Hm. unfold Prepare, Clone. rewrite Hl. cbv zeta.
  set (l' := fresh (dom h)). assert (Hfresh : l' ∉ dom h) by apply is_fresh.
  rewrite copy_map. unfold CoerceArguments. cbn [set_Arguments es_Arguments].
  unfold args_at at 1 2. rewrite lookup_insert_eq, Hm. simpl. rewrite CoerceStringNumbers_map.
  rewrite insert_insert_eq. set (h1 := <[l' := coerced <$> m]> h).
  pose proof (ResolveArguments_spec h1 (set_Arguments (Some l') s) l' results eq_refl) as Hr.
  destruct (ResolveArguments h1 (set_Arguments (Some l') s) results) as [h' err].
  destruct Hr as [Hr1 Hr2]; [unfold h1; rewrite lookup_insert_eq; eauto|].
  assert (Ha : args_at h1 l' = coerced <$> m) by (unfold args_at, h1; by rewrite lookup_insert_eq).
  rewrite Ha in Hr2.
  assert (Hold : ∀ l0, l0 ∈ dom h → h' !! l0 = h !! l0).
  { intros l0 Hl0. assert (l0 ≠ l') by (intros ->; done).
    rewrite Hr1 by done. unfold h1. by rewrite lookup_insert_ne. }
  destruct err as [e|]; (split; [done|]).
  - destruct Hr2 as (k & v & e0 & Hk & He & ->). rewrite lookup_fmap in Hk.
    destruct (m !! k) as [v0|] eqn:Hk0; simplify_eq/=. by exists k, v0, e0.
  - destruct Hr2 as (m' & Hm' & Hd & Hv). exists l', m'. split_and!; try done.
    + by rewrite Hd, dom_fmap_L.
    + intros k v Hk. apply Hv. by rewrite lookup_fmap, Hk.
Qed.

(** What an argument is when the step is dispatched, stated by what texts mean:
    what a string reads as, if it reads as a number or a boolean; otherwise, with
    results to refer to, the string with each reference replaced; without any, the
    string as it is; and anything else as it is. *)
Inductive prepared (results : gmap string any) : any → any → Prop :=
| prepared_read s w : reads_as s w → prepared results (AString s) w
| prepared_text s t :
    (∀ w, ¬ reads_as s w) → size results ≠ 0 → substituted results (tokens templateRe s) t →
    prepared results (AString s) (AString t)
| prepared_literal s :
    (∀ w, ¬ reads_as s w) → size results = 0 → prepared results (AString s) (AString s)
| prepared_other v : (∀ s, v ≠ AString s) → prepared results v v.

Lemma coerced_not_text s w t : reads_as s w → w ≠ AString t.
Proof. by destruct 1. Qed.

Lemma resolve_value_prepared results v w :
  resolve_value results (coerced v) = Ok w ↔ prepared results v w.
Proof.
  assert ((∃ s, v = AString s) ∨ ∀ s, v ≠ AString s) as [[s ->]|Hv] by (destruct v; eauto).
  2:{ assert (resolve_value results (coerced v) = Ok v) as ->
        by (destruct v; try done; by destruct (Hv s)).
      split; [intros [= <-]; by apply prepared_other|]. by inversion 1; subst; try destruct (Hv s). }
  unfold coerced. destruct (coerce_value (AString s)) as [w'|] eqn:Hc; simpl.
  - apply coerce_value_reads in Hc as Hr. assert (resolve_value results w' = Ok w') as ->.
    { destruct w'; try done. by destruct (coerced_not_text _ _ s0 Hr). }
    split; [intros [= <-]; by constructor|]. inversion 1 as [? ? Hr'|? ? Hn|? Hn|? Hn]; subst.
    + apply coerce_value_reads in Hr'. congruence.
    + by destruct (Hn w').
    + by destruct (Hn w').
    + by destruct (Hn s).
  - assert (Hn : ∀ w, ¬ reads_as s w) by (intros w0 H%coerce_value_reads; congruence).
    destruct (decide (size results = 0)) as [Hz|Hz].
    + rewrite Resolve_no_results by done. split; [intros [= <-]; by constructor|].
      inversion 1 as [? ? Hr|? ? _ Hz'|? ? _|? Ho]; subst; [by destruct (Hn w)|done..].
    + destruct (Resolve_means s results Hz) as [Hok _]. rewrite Hok. split.
      * intros (t & -> & Ht). by apply prepared_text.
      * inversion 1 as [? ? Hr|? t _ _ Ht|? ? Hz'|? Ho]; subst; [by destruct (Hn w)|by exists t|done|by destruct (Ho s)].
Qed.

(* ------------------------------------------------------------------ *)
(** ** Validation, verified *)
(* ------------------------------------------------------------------ *)

(** A step [Validate] accepts on its own. *)
Definition step_ok (s : ExecutionStep) : Prop :=
  es_Name s ≠ "" ∧ valid_step_type (es_Type s) = true.

(** [s'] is [s] up to an identifier filled in where there was none. *)
Definition id_filled (s s' : ExecutionStep) : Prop :=
  ∃ id, s' = set_StepID id s ∧ (es_StepID s ≠ "" → id = es_StepID s).

Lemma set_StepID_same s : set_StepID (es_StepID s) s = s.
Proof. by destruct s. Qed.

Lemma id_filled_refl s : id_filled s s.
Proof. exists (es_StepID s). by rewrite set_StepID_same. Qed.

Section validate_spec.
Variable uuid : nat → string.

Lemma validate_steps_spec i seen n steps :
  let '(steps', n', err) := validate_steps uuid i seen n steps in
  n ≤ n' ∧ Forall2 id_filled steps steps' ∧
  (err = None ↔ Forall step_ok steps ∧ NoDup (map es_Name steps) ∧
                Forall (λ s, seen !! es_Name s = None) steps) ∧
  (err = None → Forall (λ s, es_StepID s ≠ "" ∨ ∃ j, n ≤ j < n' ∧ es_StepID s = uuid j) steps').
Proof.
  revert i seen n. induction steps as [|s rest IH]; intros i seen n; simpl.
  { split_and!; auto. split; [|done]. intros _. split_and!; constructor. }
  assert (Hself : Forall2 id_filled (s :: rest) (s :: rest))
    by (apply Forall_Forall2_diag, Forall_true; intros; apply id_filled_refl).
  destruct (String.eqb (es_Name s) "") eqn:Hn.
  { bool_simp. split_and!; try done. split; [done|].
    intros ([[? _] _]%Forall_cons & _). done. }
  destruct (valid_step_type (es_Type s)) eqn:Ht; simpl.
  2:{ split_and!; try done. split; [done|]. intros ([[_ Ht'] _]%Forall_cons & _). congruence. }
  bool_simp. destruct (seen !! es_Name s) as [prev|] eqn:Hs.
  { split_and!; try done. split; [done|]. intros (_ & _ & [Hs' _]%Forall_cons). congruence. }
  assert (Hid : ∃ s' n1, (if String.eqb (es_StepID s) "" then (set_StepID (uuid n) s, S n) else (s, n))
            = (s', n1) ∧ n ≤ n1 ∧ id_filled s s' ∧
            (es_StepID s' ≠ "" ∨ (n < n1 ∧ es_StepID s' = uuid n))).
  { destruct (String.eqb (es_StepID s) "") eqn:He; bool_simp; do 2 eexists; (split; [done|]).
    - split_and!; [lia| |right; split; [lia|done]]. exists (uuid n). by rewrite He.
    - split_and!; [lia|apply id_filled_refl|by left]. }
  destruct Hid as (s' & n1 & -> & Hn1 & Hf & Hsid).
  specialize (IH (S i) (<[es_Name s := i]> seen) n1).
  destruct (validate_steps uuid (S i) (<[es_Name s := i]> seen) n1 rest) as [[rest' n'] err].
  destruct IH as (Hn' & Hf2 & Herr & Hids). split_and!; [lia|by constructor| |].
  - rewrite Herr, !Forall_cons, NoDup_cons. unfold step_ok at 2.
    assert (Hseen : Forall (λ x, <[es_Name s := i]> seen !! es_Name x = None) rest ↔
              es_Name s ∉ map es_Name rest ∧ Forall (λ x, seen !! es_Name x = None) rest).
    { clear. induction rest as [|r rest IH]; simpl; [split; [split; [set_solver|done]|done]|].
      rewrite !Forall_cons, IH, not_elem_of_cons.
      destruct (decide (es_Name s = es_Name r)) as [E|E].
      - rewrite E, lookup_insert_eq. naive_solver.
      - rewrite lookup_insert_ne by done. tauto. }
    rewrite Hseen. tauto.
  - intros He. constructor.
    + destruct Hsid as [?|[? Hj]]; [by left|]. right. exists n. split; [lia|done].
    + eapply Forall_impl; [by apply Hids|]. intros x [?|(j & ? & ?)]; [by left|right].
      exists j. split; [lia|done].
Qed.
End validate_spec.

Lemma valid_step_type_elem t : valid_step_type t = true ↔ t ∈ ["skill"; "tool"; "llm"].
Proof.
  unfold valid_step_type. rewrite !orb_true_iff, !String.eqb_eq, !elem_of_cons, elem_of_nil.
  unfold StepTypeSkill, StepTypeTool, StepTypeLLM. tauto.
Qed.

Definition plan_ok (p : ExecutionPlan) : Prop :=
  ep_Steps p ≠ [] ∧ Forall step_ok (ep_Steps p) ∧ NoDup (map es_Name (ep_Steps p)).

Section validate_plan.
Variable uuid : nat → string.

Lemma Validate_spec n p :
  let '(p', n', err) := Validate uuid n p in
  n ≤ n' ∧ (err = None ↔ ep_frozen p = false ∧ plan_ok p) ∧
  Forall2 id_filled (ep_Steps p) (ep_Steps p') ∧
  ep_frozen p' = ep_frozen p || bool_decide (err = None) ∧
  (err = None →
     (ep_ID p ≠ "" → ep_ID p' = ep_ID p) ∧
     Forall (λ id, id ≠ "" ∨ ∃ j, n ≤ j < n' ∧ id = uuid j)
       (ep_ID p' :: map es_StepID (ep_Steps p'))).
Proof.
  assert (Hself : Forall2 id_filled (ep_Steps p) (ep_Steps p))
    by (apply Forall_Forall2_diag, Forall_true; intros; apply id_filled_refl).
  unfold Validate. destruct (ep_frozen p) eqn:Hfr.
  { split_and!; try done. split; [done|]. by intros [? _]. }
  destruct (length (ep_Steps p) =? 0) eqn:Hlen.
  { bool_simp. apply length_zero_iff_nil in Hlen. split_and!; try done.
    split; [done|]. intros (_ & ? & _). done. }
  bool_simp.
  assert (Hne : ep_Steps p ≠ []) by (intros E; by rewrite E in Hlen).
  assert (Hid : ∃ p1 n1, (if String.eqb (ep_ID p) "" then (set_plan_ID (uuid n) p, S n) else (p, n))
            = (p1, n1) ∧ n ≤ n1 ∧ ep_Steps p1 = ep_Steps p ∧ ep_frozen p1 = false ∧
            (ep_ID p ≠ "" → ep_ID p1 = ep_ID p) ∧
            (ep_ID p1 ≠ "" ∨ (n < n1 ∧ ep_ID p1 = uuid n))).
  { destruct (String.eqb (ep_ID p) "") eqn:He; bool_simp; do 2 eexists; (split; [done|]);
      split_and!; auto; try lia; try done. }
  destruct Hid as (p1 & n1 & -> & Hn1 & Hst & Hfr1 & Hkeep & Hpid).
  pose proof (validate_steps_spec uuid 0 ∅ n1 (ep_Steps p1)) as Hv. rewrite Hst in *.
  destruct (validate_steps uuid 0 ∅ n1 (ep_Steps p)) as [[steps' n'] err].
  destruct Hv as (Hn' & Hf2 & Herr & Hids).
  assert (Hseen : Forall (λ s, (∅ : gmap string nat) !! es_Name s = None) (ep_Steps p))
    by (apply Forall_true; intros; apply lookup_empty).
  assert (Hacc : err = None ↔ plan_ok p) by (rewrite Herr; unfold plan_ok; tauto).
  destruct err as [e|]; cbn [ep_Steps Freeze set_Steps ep_frozen ep_ID]; split_and!; try lia; try done.
  - split; [done|]. intros [_ ?]. by apply Hacc.
  - split; [|done]. intros _. split; [done|]. by apply Hacc.
  - intros _. split; [done|]. constructor.
    + destruct Hpid as [?|[??]]; [by left|right]. exists n. split; [lia|done].
    + apply Forall_map. eapply Forall_impl; [by apply Hids|].
      intros s [?|(j & ? & ?)]; [by left|right]. exists j. split; [lia|done].
Qed.

(** The identifiers in the order in which they are looked at: the first [k] are
    there afterwards, a missing one taken from the generator, which is asked once
    for each one that is missing; the others are as they were. *)
Definition missing (ids : list string) : nat := length (filter (λ id, id = "") ids).
Definition identified (k n : nat) (ids ids' : list string) : Prop :=
  ∀ j id, ids !! j = Some id →
    ids' !! j = Some (if bool_decide (id = "" ∧ j < k) then uuid (n + missing (take j ids)) else id).

Lemma identified_none n ids : identified 0 n ids ids.
Proof. intros j id Hj. rewrite bool_decide_false by lia. done. Qed.

Lemma identified_cons k n id ids ids' :
  identified k (n + missing [id]) ids ids' →
  identified (S k) n (id :: ids) ((if String.eqb id "" then uuid n else id) :: ids').
Proof.
  intros Hi [|j] x; simpl.
  - intros [= ->]. rewrite Nat.add_0_r. destruct (String.eqb x "") eqn:He; bool_simp.
    + by rewrite bool_decide_true by (split; [done|lia]).
    + rewrite bool_decide_false; naive_solver.
  - intros Hj. rewrite (Hi _ _ Hj). f_equal.
    rewrite (bool_decide_ext (x = "" ∧ j < k) (x = "" ∧ S j < S k)) by (rewrite <-Nat.succ_lt_mono; done).
    case_bool_decide; [|done]. f_equal.
    unfold missing. rewrite !filter_cons. destruct (decide (id = "")); simpl; lia.
Qed.

Lemma validate_steps_identifies i seen n steps :
  let '(steps', n', err) := validate_steps uuid i seen n steps in
  ∃ k, (err = None → k = length steps) ∧ n' = n + missing (take k (map es_StepID steps)) ∧
       identified k n (map es_StepID steps) (map es_StepID steps').
Proof.
  revert i seen n. induction steps as [|s rest IH]; intros i seen n; simpl.
  { exists 0. split_and!; [done|unfold missing; simpl; lia|apply identified_none]. }
  assert (Hstop : ∀ e : error, ∃ k, (Some e = None → k = S (length rest)) ∧
    n = n + missing (take k (es_StepID s :: map es_StepID rest)) ∧
    identified k n (es_StepID s :: map es_StepID rest) (es_StepID s :: map es_StepID rest))
    by (intros e; exists 0; split_and!; [done|unfold missing; simpl; lia|apply identified_none]).
  destruct (String.eqb (es_Name s) ""); [apply Hstop|].
  destruct (negb (valid_step_type (es_Type s))); [apply Hstop|].
  destruct (seen !! es_Name s); [apply Hstop|].
  set (s1 := if String.eqb (es_StepID s) "" then set_StepID (uuid n) s else s).
  assert (Hs1 : (if String.eqb (es_StepID s) "" then (set_StepID (uuid n) s, S n) else (s, n))
                = (s1, n + missing [es_StepID s])).
  { unfold s1, missing. rewrite filter_cons. destruct (String.eqb (es_StepID s) "") eqn:He; bool_simp.
    - rewrite decide_True by done. f_equal. simpl. lia.
    - rewrite decide_False by done. f_equal. simpl. lia. }
  rewrite Hs1. specialize (IH (S i) (<[es_Name s := i]> seen) (n + missing [es_StepID s])).
  destruct (validate_steps uuid (S i) _ _ rest) as [[rest' n'] err].
  destruct IH as (k & Hk & -> & Hi). exists (S k). split_and!.
  - intros He. by rewrite Hk.
  - simpl. unfold missing. rewrite !filter_cons. destruct (decide (es_StepID s = "")); simpl; lia.
  - assert (Hid : es_StepID s1 = if String.eqb (es_StepID s) "" then uuid n else es_StepID s)
      by (unfold s1; by destruct (String.eqb (es_StepID s) "")).
    simpl. rewrite Hid. by apply identified_cons.
Qed.

Definition plan_ids (p : ExecutionPlan) : list string := ep_ID p :: map es_StepID (ep_Steps p).

Lemma Validate_identifies n p :
  let '(p', n', err) := Validate uuid n p in
  p' = mkExecutionPlan (ep_ID p') (ep_ParentID p) (ep_AssistantID p) (ep_Steps p') (ep_Reasoning p) (ep_frozen p') ∧
  ∃ k, (err = None → k = length (plan_ids p)) ∧ n' = n + missing (take k (plan_ids p)) ∧
       identified k n (plan_ids p) (plan_ids p').
Proof.
  unfold Validate.
  destruct (ep_frozen p) eqn:Hfr.
  { split; [by destruct p; simplify_eq/=|]. exists 0. split_and!; [done|unfold missing; simpl; lia|apply identified_none]. }
  destruct (length (ep_Steps p) =? 0).
  { split; [by destruct p|]. exists 0. split_and!; [done|unfold missing; simpl; lia|apply identified_none]. }
  set (p1 := if String.eqb (ep_ID p) "" then set_plan_ID (uuid n) p else p).
  assert (Hp1 : (if String.eqb (ep_ID p) "" then (set_plan_ID (uuid n) p, S n) else (p, n))
                = (p1, n + missing [ep_ID p])).
  { unfold p1, missing. rewrite filter_cons. destruct (String.eqb (ep_ID p) "") eqn:He; bool_simp.
    - rewrite decide_True by done. f_equal. simpl. lia.
    - rewrite decide_False by done. f_equal. simpl. lia. }
  rewrite Hp1. assert (Hst : ep_Steps p1 = ep_Steps p) by (unfold p1; by destruct (String.eqb _ _)).
  assert (Hid : ep_ID p1 = if String.eqb (ep_ID p) "" then uuid n else ep_ID p)
    by (unfold p1; by destruct (String.eqb (ep_ID p) "")).
  assert (Hrest : (ep_ParentID p1, ep_AssistantID p1, ep_Reasoning p1) = (ep_ParentID p, ep_AssistantID p, ep_Reasoning p))
    by (unfold p1; by destruct (String.eqb (ep_ID p) "")).
  injection Hrest as Hpa Has Hre.
  pose proof (validate_steps_identifies 0 ∅ (n + missing [ep_ID p]) (ep_Steps p1)) as Hv. rewrite Hst in *.
  destruct (validate_steps uuid 0 ∅ _ (ep_Steps p)) as [[steps' n'] err].
  destruct Hv as (k & Hk & -> & Hi).
  assert (Hall : n + missing [ep_ID p] + missing (take k (map es_StepID (ep_Steps p)))
    = n + missing (take (S k) (plan_ids p))).
  { unfold plan_ids, missing. simpl. rewrite !filter_cons. destruct (decide (ep_ID p = "")); simpl; lia. }
  apply identified_cons in Hi. rewrite <-Hid in Hi.
  destruct err as [e|]; cbn [set_Steps Freeze ep_ID ep_ParentID ep_AssistantID ep_Steps ep_Reasoning ep_frozen];
    (split; [by rewrite <-Hpa, <-Has, <-Hre|]); exists (S k); (split_and!; [|exact Hall|exact Hi]).
  { done. }
  intros He. unfold plan_ids. simpl. by rewrite length_map, Hk.
Qed.

(** Steps without identifiers get consecutive ones. *)
Lemma validate_steps_fresh_ids i seen n steps :
  Forall (λ s, es_StepID s = "") steps →
  match validate_steps uuid i seen n steps with
  | (steps', n', None) => map es_StepID steps' = map uuid (seq n (length steps)) ∧ n' = n + length steps
  | _ => True
  end.
Proof.
  intros Hall. revert i seen n. induction Hall as [|s rest Hs Hall IH]; intros i seen n; simpl; [split; [done|lia]|].
  destruct (String.eqb (es_Name s) ""); [done|].
  destruct (valid_step_type (es_Type s)); simpl; [|done].
  destruct (seen !! es_Name s); [done|]. rewrite Hs. simpl.
  specialize (IH (S i) (<[es_Name s := i]> seen) (S n)).
  destruct (validate_steps uuid (S i) (<[es_Name s := i]> seen) (S n) rest) as [[rest' n'] [e|]]; [done|].
  destruct IH as [IH ->]. simpl. rewrite IH. split; [done|lia].
Qed.

(** So does a plan that comes without any. *)
Lemma Validate_ids n p p' n' :
  ep_ID p = "" → Forall (λ s, es_StepID s = "") (ep_Steps p) → Validate uuid n p = (p', n', None) →
  ep_ID p' :: map es_StepID (ep_Steps p') = map uuid (seq n (S (length (ep_Steps p)))) ∧
  n' = n + S (length (ep_Steps p)).
Proof.
  intros Hid Hall. unfold Validate. rewrite Hid. simpl.
  destruct (ep_frozen p); [done|]. destruct (length (ep_Steps p) =? 0); [done|].
  pose proof (validate_steps_fresh_ids 0 ∅ (S n) (ep_Steps p) Hall) as Hv.
  destruct (validate_steps uuid 0 ∅ (S n) (ep_Steps p)) as [[steps' n2] [e|]]; [done|].
  destruct Hv as [Hv Hn]. intros [= <- <-]. cbn [ep_ID Freeze set_Steps set_plan_ID ep_Steps].
  rewrite Hv. split; [done|lia].
Qed.

(** What the first bad step of a plan is. *)
Definition bad_step (steps : list ExecutionStep) (j : nat) (e : error) : Prop :=
  ∃ s, steps !! j = Some s ∧
    (es_Name s = "" ∧ e = EFmt "step %d has empty name" [FN j] ∨
     valid_step_type (es_Type s) = false ∧
       e = EFmt "step %d has invalid type: %s" [FN j; FS (es_Type s)] ∨
     ∃ prev s0, prev < j ∧ steps !! prev = Some s0 ∧ es_Name s0 = es_Name s ∧
       e = EFmt "duplicate step name %q at positions %d and %d" [FS (es_Name s); FN prev; FN j]).

Lemma validate_steps_error all walked seen n steps :
  all = walked ++ steps → Forall step_ok walked → NoDup (map es_Name walked) →
  (∀ nm, match seen !! nm with
         | Some p => ∃ s0, walked !! p = Some s0 ∧ es_Name s0 = nm
         | None => nm ∉ map es_Name walked
         end) →
  match validate_steps uuid (length walked) seen n steps with
  | (_, _, Some e) => ∃ j, bad_step all j e ∧ Forall step_ok (take j all) ∧
                           NoDup (map es_Name (take j all))
  | _ => True
  end.
Proof.
  revert walked seen n. induction steps as [|s rest IH]; intros walked seen n Hall Hok Hnd Hseen; simpl; [done|].
  assert (Hhere : ∀ e, (∃ s, all !! length walked = Some s ∧
      (es_Name s = "" ∧ e = EFmt "step %d has empty name" [FN (length walked)] ∨
       valid_step_type (es_Type s) = false ∧
         e = EFmt "step %d has invalid type: %s" [FN (length walked); FS (es_Type s)] ∨
       ∃ prev s0, prev < length walked ∧ all !! prev = Some s0 ∧ es_Name s0 = es_Name s ∧
         e = EFmt "duplicate step name %q at positions %d and %d"
               [FS (es_Name s); FN prev; FN (length walked)])) →
    ∃ j, bad_step all j e ∧ Forall step_ok (take j all) ∧ NoDup (map es_Name (take j all))).
  { intros e He. exists (length walked). split; [done|]. by rewrite Hall, take_app_length. }
  assert (Hs : all !! length walked = Some s) by (rewrite Hall; by apply list_lookup_middle).
  destruct (String.eqb (es_Name s) "") eqn:Hn.
  { bool_simp. apply Hhere. exists s. auto. }
  destruct (valid_step_type (es_Type s)) eqn:Ht; simpl.
  2:{ apply Hhere. exists s. auto. }
  bool_simp. pose proof (Hseen (es_Name s)) as Hsn.
  destruct (seen !! es_Name s) as [prev|] eqn:Hp.
  { destruct Hsn as (s0 & Hs0 & Hn0). apply Hhere. exists s. split; [done|]. right; right.
    exists prev, s0. split_and!; [by eapply lookup_lt_Some| |done|done].
    rewrite Hall. by apply lookup_app_l_Some. }
  destruct (if String.eqb (es_StepID s) "" then _ else _) as [s' n1].
  specialize (IH (walked ++ [s]) (<[es_Name s := length walked]> seen) n1).
  rewrite length_app in IH. simpl in IH. rewrite Nat.add_1_r in IH.
  destruct (validate_steps uuid (S (length walked)) _ n1 rest) as [[rest' n'] [e|]]; [|done].
  apply IH.
  - by rewrite Hall, <-app_assoc.
  - apply Forall_app. split; [done|]. by constructor.
  - rewrite map_app. apply NoDup_app. split_and!; [done| |apply NoDup_singleton]. set_solver.
  - intros nm. destruct (decide (nm = es_Name s)) as [->|Hne].
    + rewrite lookup_insert_eq. exists s. split; [by apply list_lookup_middle|done].
    + rewrite lookup_insert_ne by done. specialize (Hseen nm). destruct (seen !! nm).
      * destruct Hseen as (s0 & ? & ?). exists s0. split; [by apply lookup_app_l_Some|done].
      * rewrite map_app. set_solver.
Qed.
End validate_plan.

(* ------------------------------------------------------------------ *)
(** ** Batches, verified *)
(* ------------------------------------------------------------------ *)

Lemma group_run_spec g steps :
  let '(batch, rest) := group_run g steps in
  steps = batch ++ rest ∧ Forall (λ s, in_group g s = true) batch ∧
  match rest with s :: _ => in_group g s = false | [] => True end.
Proof.
  induction steps as [|s steps IH]; simpl; [done|]. destruct (in_group g s) eqn:Hs; [|done].
  destruct (group_run g steps) as [batch rest]. destruct IH as (-> & ? & ?).
  split_and!; [done|by constructor|done].
Qed.

(** A step that may run beside the others of the group [g]. *)
Definition member (g : string) (s : ExecutionStep) : Prop :=
  g ≠ "" ∧ es_Parallelizable s = true ∧ es_ParallelGroup s = g.

(** A batch is one step of no group, or steps of one group. *)
Inductive batch_ok : list ExecutionStep → Prop :=
| batch_single s : (∀ g, ¬ member g s) → batch_ok [s]
| batch_group g b : b ≠ [] → Forall (member g) b → batch_ok b.

(** Neighbouring batches are never of the same group. *)
Definition apart (b1 b2 : list ExecutionStep) : Prop :=
  ∀ g s1 s2, last b1 = Some s1 → head b2 = Some s2 → ¬ (member g s1 ∧ member g s2).

Fixpoint maximal (bs : list (list ExecutionStep)) : Prop :=
  match bs with
  | b1 :: rest => match rest with b2 :: _ => apart b1 b2 | [] => True end ∧ maximal rest
  | [] => True
  end.

Lemma member_in_group g s : g ≠ "" → in_group g s = true → member g s.
Proof. unfold in_group. intros Hne Hg. by bool_simp. Qed.

Lemma member_unique g1 g2 s : member g1 s → member g2 s → g1 = g2.
Proof. intros (_ & _ & <-) (_ & _ & <-). done. Qed.

Lemma groupable_false s g : groupable s = false → ¬ member g s.
Proof.
  unfold groupable. intros Hg (Hne & Hp & Heq). rewrite Hp in Hg. simpl in Hg.
  apply negb_false_iff, String.eqb_eq in Hg. congruence.
Qed.

Lemma group_loop_spec fuel steps :
  length steps ≤ fuel →
  concat (group_loop fuel steps) = steps ∧ Forall batch_ok (group_loop fuel steps) ∧
  maximal (group_loop fuel steps) ∧
  match group_loop fuel steps with b :: _ => head b = head steps | [] => steps = [] end.
Proof.
  revert steps. induction fuel as [|fuel IH]; intros [|s rest] Hf; simpl in *; try done; try lia.
  destruct (groupable s) eqn:Hg.
  - pose proof (group_run_spec (es_ParallelGroup s) (s :: rest)) as Hr.
    assert (Hin : in_group (es_ParallelGroup s) s = true).
    { unfold groupable in Hg. unfold in_group. bool_simp. rewrite H, String.eqb_refl. done. }
    assert (Hgne : es_ParallelGroup s ≠ "") by (unfold groupable in Hg; by bool_simp).
    cbn [group_run] in *. rewrite Hin in *.
    destruct (group_run (es_ParallelGroup s) rest) as [batch rest'].
    destruct Hr as (Heq & Hall & Hnext). injection Heq as Heq. subst rest.
    destruct (IH rest') as (IH1 & IH2 & IH3 & IH4); [rewrite length_app in Hf; lia|].
    cbn [concat maximal]. rewrite IH1. split_and!; try done.
    + constructor; [|done]. eapply batch_group; [done|].
      eapply Forall_impl; [exact Hall|]. intros s'. by apply member_in_group.
    + destruct (group_loop fuel rest') as [|b bs]; [done|]. intros g s1 s2 Hl Hh [H1 H2].
      assert (Hs1 : s1 ∈ s :: batch) by (apply last_Some in Hl as [l' ->]; set_solver).
      rewrite Forall_forall in Hall. specialize (Hall _ Hs1).
      apply member_in_group in Hall; [|done]. pose proof (member_unique _ _ _ Hall H1). subst g.
      rewrite IH4 in Hh. destruct rest' as [|s2' ?]; simplify_eq/=.
      destruct H2 as (_ & Hp & Hq). unfold in_group in Hnext.
      rewrite Hp, Hq, String.eqb_refl in Hnext. done.
  - destruct (IH rest) as (IH1 & IH2 & IH3 & IH4); [lia|].
    cbn [concat maximal]. rewrite IH1. split_and!; try done.
    + constructor; [|done]. constructor. intros g. by apply groupable_false.
    + destruct (group_loop fuel rest) as [|b bs]; [done|]. intros g s1 s2 Hl Hh [H1 H2].
      simpl in Hl. simplify_eq. by destruct (groupable_false _ _ Hg H1).
Qed.

(* ------------------------------------------------------------------ *)
(** ** Permissions, verified *)
(* ------------------------------------------------------------------ *)

Lemma size_pos_flag (m : gmap string bool) name : flag m name = true → (0 <? size m) = true.
Proof.
  unfold flag. intros H. apply Nat.ltb_lt. destruct (m !! name) as [b|] eqn:E; [|done].
  assert (m ≠ ∅) as Hne by (intros ->; by rewrite lookup_empty in E).
  apply map_size_non_empty_iff in Hne. lia.
Qed.

(* ------------------------------------------------------------------ *)
(** ** Properties *)
(* ------------------------------------------------------------------ *)

(** C8: Prepare never touches a map the store already held, so the frozen plan's
    step and every step that shares its arguments keep theirs. With results of
    earlier steps it succeeds exactly when every argument that does not read as a
    number or a boolean has a text for each of its references; the prepared step
    then has a fresh map with the same keys, each holding what the argument's text
    means, and otherwise the error names an argument that has no meaning. Without
    results it never fails, and an argument with references keeps them literally,
    contrary to the comment of ResolveArguments (plan.go:88), by which the step
    must fail. All this holds for every iteration order. *)
Theorem prepare_leaves_the_plan_untouched `{MapRange} h s l m results :
  es_Arguments s = Some l → h !! l = Some m →
  let '(h', r) := Prepare h s results in
  (∀ l0, l0 ∈ dom h → h' !! l0 = h !! l0) ∧
  match r with
  | Ok s' => ∃ l' m', s' = set_Arguments (Some l') s ∧ l' ∉ dom h ∧ h' !! l' = Some m' ∧
      dom m' = dom m ∧
      ∀ k v w, m !! k = Some v → m' !! k = Some w ↔ prepared results v w
  | Err e => size results ≠ 0 ∧ ∃ k v e0, m !! k = Some v ∧ (∀ w, ¬ prepared results v w) ∧
      e = EFmt "step %q: %w" [FS (es_Name s); FW (EFmt "arg %q: %w" [FS k; FW e0])]
  end ∧
  (size results = 0 → ∃ s', r = Ok s' ∧
     ∀ k txt, m !! k = Some (AString txt) → (∀ w, ¬ reads_as txt w) →
       ∃ l', es_Arguments s' = Some l' ∧ args_at h' l' !! k = Some (AString txt)).
Proof.
  intros Hl Hm. pose proof (Prepare_spec h s l m results Hl Hm) as Hp.
  destruct (Prepare h s results) as [h' r]. destruct Hp as [Hold Hr]. split; [done|].
  destruct r as [s'|e].
  - destruct Hr as (l' & m' & -> & Hl' & Hm' & Hd & Hv).
    assert (Hpr : ∀ k v w, m !! k = Some v → m' !! k = Some w ↔ prepared results v w).
    { intros k v w Hk. rewrite <-resolve_value_prepared. destruct (Hv k v Hk) as (v' & -> & ->). naive_solver. }
    split; [by exists l', m'|]. intros Hz. eexists. split; [done|]. intros k txt Hk Hn. exists l'.
    split; [done|]. unfold args_at. rewrite Hm'. simpl. apply (Hpr _ _ _ Hk). by apply prepared_literal.
  - destruct Hr as (k & v & e0 & Hk & He & ->).
    assert (Hz : size results ≠ 0) by (intros Hz; rewrite resolve_value_no_results in He; done).
    split; [|done]. split; [done|]. exists k, v, e0. split_and!; [done| |done].
    intros w Hw%resolve_value_prepared. congruence.
Qed.

Definition sample_args : gmap string any := {[ "n" := AString "42"; "q" := AString "for {{a}}" ]}.
Definition sample_step : ExecutionStep :=
  mkExecutionStep "b" StepTypeTool (Some 1%positive) "" 0 "" None false "" "".

Definition sample_heap : heap := {[ 1%positive := sample_args ]}.

Lemma prepare_leaves_the_plan_untouched_witness :
  ∃ h' s' l',
    @Prepare range_rev sample_heap sample_step sample_results = (h', Ok s') ∧
    (∀ l0, l0 ∈ dom sample_heap → h' !! l0 = sample_heap !! l0) ∧ es_Arguments s' = Some l' ∧
    args_at h' l' = {[ "n" := AInt 42; "q" := AString "for hi" ]}.
Proof.
  assert (Hm : sample_heap !! 1%positive = Some sample_args) by (vm_compute; reflexivity).
  pose proof (@prepare_leaves_the_plan_untouched range_rev sample_heap sample_step 1%positive
    sample_args sample_results eq_refl Hm) as H.
  assert (Ha : match @Prepare range_rev sample_heap sample_step sample_results with
               | (h', Ok s') => es_Arguments s' = Some 2%positive ∧
                   args_at h' 2%positive = {[ "n" := AInt 42; "q" := AString "for hi" ]}
               | _ => False
               end) by (vm_compute; split; reflexivity).
  destruct (@Prepare range_rev sample_heap sample_step sample_results) as [h' [s'|e]].
  - destruct H as (Hold & _), Ha as [Ha1 Ha2]. exists h', s', 2%positive. repeat split; assumption.
  - destruct Ha.
Defined.


(** the error of [Validate] is about the first bad step: the steps before it
    are well formed and have distinct names, and a duplicate is reported with
    the position of its first occurrence. *)
Theorem validation_reports_first_bad_step uuid n p p' n' e :
  ep_frozen p = false → ep_Steps p ≠ [] → Validate uuid n p = (p', n', Some e) →
  ∃ j, bad_step (ep_Steps p) j e ∧ Forall step_ok (take j (ep_Steps p)) ∧
       NoDup (map es_Name (take j (ep_Steps p))).
Proof.
  intros Hfr Hne. unfold Validate. rewrite Hfr.
  destruct (length (ep_Steps p) =? 0) eqn:Hlen; [bool_simp; by apply length_zero_iff_nil in Hlen|].
  destruct (if String.eqb (ep_ID p) "" then _ else _) as [p1 n1] eqn:Hp1.
  assert (Hst : ep_Steps p1 = ep_Steps p) by (destruct (String.eqb (ep_ID p) ""); simplify_eq; done).
  rewrite Hst.
  pose proof (validate_steps_error uuid (ep_Steps p) [] ∅ n1 (ep_Steps p) eq_refl) as Hv.
  simpl in Hv. destruct (validate_steps uuid 0 ∅ n1 (ep_Steps p)) as [[steps' n2] [e'|]]; [|done].
  intros [= <- <- <-]. apply Hv; [constructor|constructor|].
  intros nm. rewrite lookup_empty. by apply not_elem_of_nil.
Qed.

Definition sample_uuid (n : nat) : string := "id-" +:+ pretty (Z.of_nat n).
Definition dup_plan : ExecutionPlan :=
  mkExecutionPlan "" "" "asst" [sample_step; set_Arguments None sample_step] "" false.

Lemma validation_reports_first_bad_step_witness :
  ∃ j, bad_step (ep_Steps dup_plan) j
         (EFmt "duplicate step name %q at positions %d and %d" [FS "b"; FN 0; FN 1]) ∧
       Forall step_ok (take j (ep_Steps dup_plan)) ∧
       NoDup (map es_Name (take j (ep_Steps dup_plan))).
Proof.
  eapply (validation_reports_first_bad_step sample_uuid 0 dup_plan).
  - reflexivity.
  - discriminate.
  - vm_compute. reflexivity.
Defined.

(** when the generator never repeats itself and no step came with an
    identifier, the validated plan and its steps have pairwise distinct ones. *)
Theorem validation_gives_distinct_ids uuid n p p' n' :
  Inj (=) (=) uuid → ep_ID p = "" → Forall (λ s, es_StepID s = "") (ep_Steps p) →
  Validate uuid n p = (p', n', None) →
  NoDup (ep_ID p' :: map es_StepID (ep_Steps p')).
Proof.
  intros Hinj Hid Hall Hv. destruct (Validate_ids uuid n p p' n') as [-> _]; [done..|].
  apply (NoDup_fmap_2 uuid), NoDup_seq.
Qed.

Definition two_steps : list ExecutionStep :=
  [sample_step; mkExecutionStep "c" StepTypeLLM None "" 0 "" None false "" ""].

Lemma sample_uuid_inj : Inj (=) (=) sample_uuid.
Proof. intros i j Hij. apply (sapp_inj_l "id-"), (inj pretty) in Hij. lia. Qed.

Lemma validation_gives_distinct_ids_witness :
  NoDup ("id-0" :: ["id-1"; "id-2"]).
Proof.
  refine (validation_gives_distinct_ids sample_uuid 0
    (mkExecutionPlan "" "" "asst" two_steps "" false)
    (mkExecutionPlan "id-0" "" "asst"
       [set_StepID "id-1" sample_step;
        mkExecutionStep "c" StepTypeLLM None "id-2" 0 "" None false "" ""] "" true) 3
    sample_uuid_inj eq_refl _ _).
  - repeat constructor.
  - vm_compute. reflexivity.
Defined.

(** C9: batching keeps every step, in order; a batch is a single step that runs
    alone or steps marked parallelizable of one non-empty group, and runs of a
    group are never split. *)
Theorem batches_partition_the_plan steps :
  concat (GroupParallelSteps steps) = steps ∧
  Forall batch_ok (GroupParallelSteps steps) ∧ maximal (GroupParallelSteps steps).
Proof.
  destruct (group_loop_spec (length steps) steps) as (? & ? & ? & _); [done|]. done.
Qed.

(** a tool is allowed exactly when it is not denied, is on the allow list if
    there is one, and the approval mode does not deny everything; denial wins
    over the allow list. *)
Theorem permission_decision pc name :
  (IsAllowed (Some pc) name).1 = true ↔
  flag (DeniedTools pc) name = false ∧
  (AllowedTools pc = ∅ ∨ flag (AllowedTools pc) name = true) ∧
  ApprovalMode pc ≠ ApprovalModeDeny.
Proof.
  unfold IsAllowed. destruct (flag (DeniedTools pc) name) eqn:Hd.
  { rewrite (size_pos_flag _ _ Hd). simpl. split; [done|by intros [? _]]. }
  rewrite andb_false_r.
  assert (Hs : (0 <? size (AllowedTools pc)) && negb (flag (AllowedTools pc) name) = false ↔
               AllowedTools pc = ∅ ∨ flag (AllowedTools pc) name = true).
  { rewrite andb_false_iff, negb_false_iff, Nat.ltb_ge, <-map_size_empty_iff.
    intuition lia. }
  rewrite <-Hs. destruct (_ && negb _); simpl; [split; [done|by intros (_ & ? & _)]|].
  destruct (String.eqb_spec (ApprovalMode pc) ApprovalModeDeny); simpl; naive_solver.
Qed.
