(* ===== verification/Profile.v ===== *)
(** Assistant profiles ([src/control/profile]): the profile record, the scope
    permission matrix, the merge of the three scopes, the persona and domain
    vocabularies and the prompts rendered from a profile. *)
From S2P Require Export GoValue.
From Stdlib Require Import Ascii.

(* ------------------------------------------------------------------ *)
(** ** The profile record (profile.go) *)
(* ------------------------------------------------------------------ *)

Definition ProfileScope : Type := string.
Definition ScopeGlobal : ProfileScope := "global".
Definition ScopeTenant : ProfileScope := "tenant".
Definition ScopeSession : ProfileScope := "session".

Definition Scope_Valid (s : ProfileScope) : bool :=
  String.eqb s ScopeGlobal || String.eqb s ScopeTenant || String.eqb s ScopeSession.

Record Identity := mkIdentity {
  id_Name : string;
  id_Description : string;
  id_Persona : string;
  id_Domain : string;
  id_Avatar : string
}.

(** A [*bool] is an [option bool]: nil means inherit. *)
Record Behavior := mkBehavior {
  bh_Tone : string;
  bh_Citations : option bool
}.

Record Soul := mkSoul {
  soul_Identity : Identity;
  soul_Behavior : Behavior
}.

Record ReasoningPolicy := mkReasoningPolicy {
  rp_Enabled : option bool;
  rp_ShowReasoning : option bool
}.

Record SafetyPolicy := mkSafetyPolicy {
  sp_HallucinationGuard : option bool;
  sp_MedicalMode : option bool;
  sp_ContentFilter : option bool
}.

Record EvidencePolicy := mkEvidencePolicy {
  evp_Required : option bool;
  evp_RequiredFields : list string;
  evp_CitationRequired : option bool
}.

Record OutputPolicy := mkOutputPolicy {
  op_Language : string;
  op_Markdown : option bool;
  op_Citations : option bool;
  op_Temperature : option float64
}.

Record PresentationPolicy := mkPresentationPolicy {
  pp_ReasoningSummary : option bool;
  pp_CompactMode : option bool;
  pp_Theme : string
}.

Record AssistantProfile := mkAssistantProfile {
  ap_ID : string;
  ap_Name : string;
  ap_Description : string;
  ap_Scope : ProfileScope;
  ap_TenantID : string;
  ap_Soul : Soul;
  ap_Reasoning : ReasoningPolicy;
  ap_Safety : SafetyPolicy;
  ap_Evidence : EvidencePolicy;
  ap_Output : OutputPolicy;
  ap_Presentation : PresentationPolicy
}.

(* ------------------------------------------------------------------ *)
(** ** The permission matrix (scope.go) *)
(* ------------------------------------------------------------------ *)

Record Violation := mkViolation {
  v_Scope : ProfileScope;
  v_Field : string;
  v_Reason : string
}.

Definition is_set {A : Type} (o : option A) : bool := match o with Some _ => true | None => false end.
Definition nonempty (s : string) : bool := negb (String.eqb s "").

(** [if set { out = append(out, x) }] *)
Definition append_if {A : Type} (b : bool) (x : A) : list A := if b then [x] else [].

Definition tenantSessionOnlyViolations (p : AssistantProfile) : list Violation :=
  append_if (is_set (rp_ShowReasoning (ap_Reasoning p)))
    (mkViolation ScopeTenant "reasoning.show_reasoning" "field not overridable at tenant scope") ++
  append_if (is_set (pp_CompactMode (ap_Presentation p)))
    (mkViolation ScopeTenant "presentation.compact_mode" "field not overridable at tenant scope") ++
  append_if (nonempty (pp_Theme (ap_Presentation p)))
    (mkViolation ScopeTenant "presentation.theme" "field not overridable at tenant scope").

Definition constitutionViolations (scope : ProfileScope) (block : string) (leaves : list string) :
    list Violation :=
  map (λ l, mkViolation scope (block +:+ "." +:+ l)
              "constitution field, only Global scope may set it") leaves.

Definition safetySetFields (s : SafetyPolicy) : list string :=
  append_if (is_set (sp_HallucinationGuard s)) "hallucination_guard" ++
  append_if (is_set (sp_MedicalMode s)) "medical_mode" ++
  append_if (is_set (sp_ContentFilter s)) "content_filter".

Definition evidenceSetFields (e : EvidencePolicy) : list string :=
  append_if (is_set (evp_Required e)) "required" ++
  append_if (0 <? length (evp_RequiredFields e)) "required_fields" ++
  append_if (is_set (evp_CitationRequired e)) "citation_required".

Definition sessionAllowedFields : list string :=
  ["reasoning.show_reasoning"; "output.language"; "output.markdown";
   "presentation.compact_mode"; "presentation.theme";
   "id"; "name"; "description"; "scope"; "tenant_id"].

(** The closure [report]. *)
Definition report (path : string) (set : bool) : list Violation :=
  append_if (set && negb (bool_decide (path ∈ sessionAllowedFields)))
    (mkViolation ScopeSession path "field not overridable at session scope").

Definition less_field (a b : Violation) : bool := str_ltb (v_Field a) (v_Field b).
Definition less_scope_field (a b : Violation) : bool :=
  if negb (String.eqb (v_Scope a) (v_Scope b)) then str_ltb (v_Scope a) (v_Scope b)
  else str_ltb (v_Field a) (v_Field b).

(** [sort.SliceStable] with the given [less]; the fields reported are distinct,
    so [sort.Slice] gives the same list. *)
Definition sort_by (less : Violation → Violation → bool) (vs : list Violation) : list Violation :=
  isort (λ a b, negb (less b a)) vs.

Definition sessionAllowListViolations (p : AssistantProfile) : list Violation :=
  let i := soul_Identity (ap_Soul p) in
  let b := soul_Behavior (ap_Soul p) in
  sort_by less_field
    (report "soul.identity.name" (nonempty (id_Name i)) ++
     report "soul.identity.description" (nonempty (id_Description i)) ++
     report "soul.identity.persona" (nonempty (id_Persona i)) ++
     report "soul.identity.domain" (nonempty (id_Domain i)) ++
     report "soul.identity.avatar" (nonempty (id_Avatar i)) ++
     report "soul.behavior.tone" (nonempty (bh_Tone b)) ++
     report "soul.behavior.citations" (is_set (bh_Citations b)) ++
     report "reasoning.enabled" (is_set (rp_Enabled (ap_Reasoning p))) ++
     report "reasoning.show_reasoning" (is_set (rp_ShowReasoning (ap_Reasoning p))) ++
     report "output.language" (nonempty (op_Language (ap_Output p))) ++
     report "output.markdown" (is_set (op_Markdown (ap_Output p))) ++
     report "output.citations" (is_set (op_Citations (ap_Output p))) ++
     report "output.temperature" (is_set (op_Temperature (ap_Output p))) ++
     report "presentation.reasoning_summary" (is_set (pp_ReasoningSummary (ap_Presentation p))) ++
     report "presentation.compact_mode" (is_set (pp_CompactMode (ap_Presentation p))) ++
     report "presentation.theme" (nonempty (pp_Theme (ap_Presentation p)))).

Definition ValidateScope (p : AssistantProfile) : list Violation :=
  if negb (Scope_Valid (ap_Scope p)) then [mkViolation (ap_Scope p) "scope" "unknown scope"]
  else
    (if negb (String.eqb (ap_Scope p) ScopeGlobal) then
       constitutionViolations (ap_Scope p) "safety" (safetySetFields (ap_Safety p)) ++
       constitutionViolations (ap_Scope p) "evidence" (evidenceSetFields (ap_Evidence p))
     else []) ++
    (if String.eqb (ap_Scope p) ScopeTenant then tenantSessionOnlyViolations p else []) ++
    (if String.eqb (ap_Scope p) ScopeSession then sessionAllowListViolations p else []).

Definition SortedViolations (vs : list Violation) : list Violation := sort_by less_scope_field vs.

(* ------------------------------------------------------------------ *)
(** ** Merging (merge.go) *)
(* ------------------------------------------------------------------ *)

Definition mergeString (dst src : string) : string := if negb (String.eqb src "") then src else dst.
Definition mergeBoolPtr (dst src : option bool) : option bool :=
  match src with Some _ => src | None => dst end.
Definition mergeFloatPtr (dst src : option float64) : option float64 :=
  match src with Some _ => src | None => dst end.

(** The assignments of [mergeTenant], field by field, and its violations. *)
Definition mergeTenant (e t : AssistantProfile) : AssistantProfile * list Violation :=
  let ei := soul_Identity (ap_Soul e) in let ti := soul_Identity (ap_Soul t) in
  let eb := soul_Behavior (ap_Soul e) in let tb := soul_Behavior (ap_Soul t) in
  let eo := ap_Output e in let to := ap_Output t in
  (mkAssistantProfile (ap_ID e) (ap_Name e) (ap_Description e) (ap_Scope e) (ap_TenantID e)
     (mkSoul
        (mkIdentity (mergeString (id_Name ei) (id_Name ti))
           (mergeString (id_Description ei) (id_Description ti))
           (mergeString (id_Persona ei) (id_Persona ti))
           (mergeString (id_Domain ei) (id_Domain ti))
           (mergeString (id_Avatar ei) (id_Avatar ti)))
        (mkBehavior (mergeString (bh_Tone eb) (bh_Tone tb))
           (mergeBoolPtr (bh_Citations eb) (bh_Citations tb))))
     (mkReasoningPolicy
        (mergeBoolPtr (rp_Enabled (ap_Reasoning e)) (rp_Enabled (ap_Reasoning t)))
        (rp_ShowReasoning (ap_Reasoning e)))
     (ap_Safety e) (ap_Evidence e)
     (mkOutputPolicy (mergeString (op_Language eo) (op_Language to))
        (mergeBoolPtr (op_Markdown eo) (op_Markdown to))
        (mergeBoolPtr (op_Citations eo) (op_Citations to))
        (mergeFloatPtr (op_Temperature eo) (op_Temperature to)))
     (mkPresentationPolicy
        (mergeBoolPtr (pp_ReasoningSummary (ap_Presentation e)) (pp_ReasoningSummary (ap_Presentation t)))
        (pp_CompactMode (ap_Presentation e)) (pp_Theme (ap_Presentation e))),
   tenantSessionOnlyViolations t ++
   constitutionViolations ScopeTenant "safety" (safetySetFields (ap_Safety t)) ++
   constitutionViolations ScopeTenant "evidence" (evidenceSetFields (ap_Evidence t))).

Definition mergeSession (e s : AssistantProfile) : AssistantProfile * list Violation :=
  let eo := ap_Output e in let so := ap_Output s in
  (mkAssistantProfile (ap_ID e) (ap_Name e) (ap_Description e) (ap_Scope e) (ap_TenantID e)
     (ap_Soul e)
     (mkReasoningPolicy (rp_Enabled (ap_Reasoning e))
        (mergeBoolPtr (rp_ShowReasoning (ap_Reasoning e)) (rp_ShowReasoning (ap_Reasoning s))))
     (ap_Safety e) (ap_Evidence e)
     (mkOutputPolicy (mergeString (op_Language eo) (op_Language so))
        (mergeBoolPtr (op_Markdown eo) (op_Markdown so))
        (op_Citations eo) (op_Temperature eo))
     (mkPresentationPolicy (pp_ReasoningSummary (ap_Presentation e))
        (mergeBoolPtr (pp_CompactMode (ap_Presentation e)) (pp_CompactMode (ap_Presentation s)))
        (mergeString (pp_Theme (ap_Presentation e)) (pp_Theme (ap_Presentation s)))),
   ValidateScope s).

Definition Merge (global : AssistantProfile) (tenant session : option AssistantProfile) :
    AssistantProfile * list Violation :=
  let effective :=
    mkAssistantProfile (ap_ID global) (ap_Name global) (ap_Description global) ScopeGlobal ""
      (ap_Soul global) (ap_Reasoning global) (ap_Safety global) (ap_Evidence global)
      (ap_Output global) (ap_Presentation global) in
  let '(effective, vs1) :=
    match tenant with Some t => mergeTenant effective t | None => (effective, []) end in
  let '(effective, vs2) :=
    match session with Some s => mergeSession effective s | None => (effective, []) end in
  (effective, SortedViolations (vs1 ++ vs2)).

(* ------------------------------------------------------------------ *)
(** ** Vocabularies (personas.go) *)
(* ------------------------------------------------------------------ *)

Definition PersonaGeneral : string := "general".
Definition DomainGeneral : string := "general".

Definition ErrProtectedVocabulary : error :=
  ESentinel "profile: 'general' is protected and cannot be deleted".
Definition ErrUnknownVocabulary : error := ESentinel "profile: unknown vocabulary token".

(** The two package-level registries. *)
Record Vocab := mkVocab {
  personaRegistry : gmap string bool;
  domainRegistry : gmap string bool
}.

Definition all_true (l : list string) : gmap string bool := list_to_map (map (λ k, (k, true)) l).
Definition initial_vocab : Vocab :=
  mkVocab (all_true ["general"; "icu"; "nursing"; "radiology"; "emergency"])
          (all_true ["general"; "healthcare"; "finance"; "legal"]).

Definition registered (reg : gmap string bool) (token : string) : bool := default false (reg !! token).

Definition RegisterPersona (token : string) (v : Vocab) : Vocab :=
  if String.eqb token "" then v
  else mkVocab (<[token := true]> (personaRegistry v)) (domainRegistry v).
Definition RegisterDomain (token : string) (v : Vocab) : Vocab :=
  if String.eqb token "" then v
  else mkVocab (personaRegistry v) (<[token := true]> (domainRegistry v)).

Definition DeletePersona (token : string) (v : Vocab) : Vocab * option error :=
  if String.eqb token PersonaGeneral then (v, Some ErrProtectedVocabulary)
  else if negb (registered (personaRegistry v) token) then (v, Some ErrUnknownVocabulary)
  else (mkVocab (delete token (personaRegistry v)) (domainRegistry v), None).
Definition DeleteDomain (token : string) (v : Vocab) : Vocab * option error :=
  if String.eqb token DomainGeneral then (v, Some ErrProtectedVocabulary)
  else if negb (registered (domainRegistry v) token) then (v, Some ErrUnknownVocabulary)
  else (mkVocab (personaRegistry v) (delete token (domainRegistry v)), None).

Definition ValidPersona (v : Vocab) (token : string) : bool :=
  if String.eqb token "" then true else registered (personaRegistry v) token.
Definition ValidDomain (v : Vocab) (token : string) : bool :=
  if String.eqb token "" then true else registered (domainRegistry v) token.

Record VocabEntry := mkVocabEntry { ve_Token : string; ve_Deletable : bool }.

(** Sorting forgets the order of the range over the registry. *)
Definition vocabEntries (reg : gmap string bool) : list VocabEntry :=
  map (λ k, mkVocabEntry k (negb (String.eqb k PersonaGeneral)))
    (sort_strings (map_to_list reg).*1).
Definition ListPersonas (v : Vocab) : list VocabEntry := vocabEntries (personaRegistry v).
Definition ListDomains (v : Vocab) : list VocabEntry := vocabEntries (domainRegistry v).

Definition ValidatePersonaFields (v : Vocab) (p : AssistantProfile) : list Violation :=
  let i := soul_Identity (ap_Soul p) in
  append_if (negb (ValidPersona v (id_Persona i)))
    (mkViolation (ap_Scope p) "soul.identity.persona" ("unknown persona token: " +:+ id_Persona i)) ++
  append_if (negb (ValidDomain v (id_Domain i)))
    (mkViolation (ap_Scope p) "soul.identity.domain" ("unknown domain token: " +:+ id_Domain i)).

(* ------------------------------------------------------------------ *)
(** ** Prompts (prompt.go) *)
(* ------------------------------------------------------------------ *)

(** [if b.Len() > 0 { b.WriteString(sep) }] and then the text. *)
Definition write_sep (b sep text : string) : string :=
  (if 0 <? slen b then b +:+ sep else b) +:+ text.

Definition RenderPrompt (s : Soul) : string :=
  let i := soul_Identity s in
  let h := soul_Behavior s in
  let b := if nonempty (id_Persona i) then
             "Persona: " +:+ id_Persona i +:+
             (if nonempty (id_Name i) then " (" +:+ id_Name i +:+ ")" else "")
           else "" in
  let b := if nonempty (id_Domain i) then write_sep b ". " ("Domain: " +:+ id_Domain i) else b in
  let b := if nonempty (bh_Tone h) then write_sep b ". " ("Tone: " +:+ bh_Tone h) else b in
  let b := match bh_Citations h with
           | Some true => write_sep b ". " "Cite evidence when reporting factual claims."
           | _ => b
           end in
  trim_space b.

(** [strings.EqualFold(s, "general")]: no character outside ASCII folds to a
    letter of that word. *)
Definition fold_general (s : string) : bool := String.eqb (lower s) "general".

Definition RenderPromptFull (s : Soul) : string :=
  let i := soul_Identity s in
  let b := if nonempty (id_Name i) then
             "You are acting as: " +:+ id_Name i +:+
             (if nonempty (id_Persona i) && negb (fold_general (id_Persona i))
              then " (" +:+ id_Persona i +:+ " persona)" else "")
           else "" in
  let b := if nonempty (id_Description i) then write_sep b ". " (id_Description i) else b in
  let b := if nonempty (id_Domain i) && negb (fold_general (id_Domain i))
           then write_sep b " " ("Operating domain: " +:+ id_Domain i +:+ ".") else b in
  let tag := RenderPrompt s in
  let b := if nonempty tag then write_sep b (nl +:+ nl) tag else b in
  trim_space b.

Definition RenderOutputDirective (o : OutputPolicy) : string :=
  join ". "
    (append_if (nonempty (op_Language o)) ("Respond in " +:+ op_Language o) ++
     append_if (bool_decide (op_Markdown o = Some true)) "Format the response in Markdown" ++
     append_if (bool_decide (op_Citations o = Some true)) "Cite evidence sources for factual claims").

Definition DefaultGlobal : AssistantProfile :=
  mkAssistantProfile "global" "Default Assistant" "OpenBotStack default global assistant profile"
    ScopeGlobal ""
    (mkSoul (mkIdentity "Assistant" "OpenBotStack assistant" PersonaGeneral DomainGeneral "")
       (mkBehavior "concise" None))
    (mkReasoningPolicy (Some true) (Some false))
    (mkSafetyPolicy (Some true) (Some false) (Some true))
    (mkEvidencePolicy (Some true) [] (Some true))
    (mkOutputPolicy "zh-CN" (Some true) (Some true) (Some (dec_to_float false 3 (-1))))
    (mkPresentationPolicy (Some false) (Some false) "light").

(* ------------------------------------------------------------------ *)
(** ** The documented matrix as a specification *)
(* ------------------------------------------------------------------ *)

(** The governed fields, a line of the table in the comment of [Merge] each. *)
Inductive Field :=
| FName | FDescription | FPersona | FDomain | FAvatar | FTone | FSoulCitations
| FEnabled | FShowReasoning
| FHallucinationGuard | FMedicalMode | FContentFilter
| FRequired | FRequiredFields | FCitationRequired
| FLanguage | FMarkdown | FCitations | FTemperature
| FReasoningSummary | FCompactMode | FTheme.

Definition field_path (f : Field) : string :=
  match f with
  | FName => "soul.identity.name" | FDescription => "soul.identity.description"
  | FPersona => "soul.identity.persona" | FDomain => "soul.identity.domain"
  | FAvatar => "soul.identity.avatar" | FTone => "soul.behavior.tone"
  | FSoulCitations => "soul.behavior.citations"
  | FEnabled => "reasoning.enabled" | FShowReasoning => "reasoning.show_reasoning"
  | FHallucinationGuard => "safety.hallucination_guard" | FMedicalMode => "safety.medical_mode"
  | FContentFilter => "safety.content_filter"
  | FRequired => "evidence.required" | FRequiredFields => "evidence.required_fields"
  | FCitationRequired => "evidence.citation_required"
  | FLanguage => "output.language" | FMarkdown => "output.markdown"
  | FCitations => "output.citations" | FTemperature => "output.temperature"
  | FReasoningSummary => "presentation.reasoning_summary"
  | FCompactMode => "presentation.compact_mode" | FTheme => "presentation.theme"
  end.

(** Whether a tenant or a session may override a field. *)
Definition tenant_may (f : Field) : bool :=
  match f with
  | FShowReasoning | FHallucinationGuard | FMedicalMode | FContentFilter
  | FRequired | FRequiredFields | FCitationRequired | FCompactMode | FTheme => false
  | _ => true
  end.
Definition session_may (f : Field) : bool :=
  match f with
  | FShowReasoning | FLanguage | FMarkdown | FCompactMode | FTheme => true
  | _ => false
  end.
Definition may_set (scope : ProfileScope) (f : Field) : bool :=
  if String.eqb scope ScopeGlobal then true
  else if String.eqb scope ScopeTenant then tenant_may f
  else session_may f.

(** The value a profile gives a field, if it sets it. *)
Inductive field_value :=
| VStr (s : string)
| VBool (b : bool)
| VFloat (x : float64)
| VList (l : list string).

Definition str_value (s : string) : option field_value :=
  if nonempty s then Some (VStr s) else None.

Definition get_field (f : Field) (p : AssistantProfile) : option field_value :=
  let i := soul_Identity (ap_Soul p) in
  let b := soul_Behavior (ap_Soul p) in
  match f with
  | FName => str_value (id_Name i) | FDescription => str_value (id_Description i)
  | FPersona => str_value (id_Persona i) | FDomain => str_value (id_Domain i)
  | FAvatar => str_value (id_Avatar i) | FTone => str_value (bh_Tone b)
  | FSoulCitations => VBool <$> bh_Citations b
  | FEnabled => VBool <$> rp_Enabled (ap_Reasoning p)
  | FShowReasoning => VBool <$> rp_ShowReasoning (ap_Reasoning p)
  | FHallucinationGuard => VBool <$> sp_HallucinationGuard (ap_Safety p)
  | FMedicalMode => VBool <$> sp_MedicalMode (ap_Safety p)
  | FContentFilter => VBool <$> sp_ContentFilter (ap_Safety p)
  | FRequired => VBool <$> evp_Required (ap_Evidence p)
  | FRequiredFields => match evp_RequiredFields (ap_Evidence p) with [] => None | l => Some (VList l) end
  | FCitationRequired => VBool <$> evp_CitationRequired (ap_Evidence p)
  | FLanguage => str_value (op_Language (ap_Output p))
  | FMarkdown => VBool <$> op_Markdown (ap_Output p)
  | FCitations => VBool <$> op_Citations (ap_Output p)
  | FTemperature => VFloat <$> op_Temperature (ap_Output p)
  | FReasoningSummary => VBool <$> pp_ReasoningSummary (ap_Presentation p)
  | FCompactMode => VBool <$> pp_CompactMode (ap_Presentation p)
  | FTheme => str_value (pp_Theme (ap_Presentation p))
  end.

(** What an overlay contributes to a field. *)
Definition overlay (may : Field → bool) (f : Field) (p : option AssistantProfile) :
    option field_value :=
  p ← p; if may f then get_field f p else None.

(** The session if it may and does set the field, else the tenant, else global. *)
Definition layered (f : Field) (global : AssistantProfile) (tenant session : option AssistantProfile) :
    option field_value :=
  match overlay session_may f session with
  | Some v => Some v
  | None => match overlay tenant_may f tenant with
            | Some v => Some v
            | None => get_field f global
            end
  end.

Lemma merge_str_value d s :
  str_value (mergeString d s) = match str_value s with Some v => Some v | None => str_value d end.
Proof. unfold mergeString, str_value, nonempty. destruct (String.eqb s "") eqn:E; simpl; [done|]. by rewrite E.
Qed.

Lemma merge_bool_value d s :
  VBool <$> mergeBoolPtr d s = match VBool <$> s with Some v => Some v | None => VBool <$> d end.
Proof. by destruct s. Qed.

Lemma merge_float_value d s :
  VFloat <$> mergeFloatPtr d s = match VFloat <$> s with Some v => Some v | None => VFloat <$> d end.
Proof. by destruct s. Qed.

Lemma mergeTenant_field f e t :
  get_field f (mergeTenant e t).1
  = match overlay tenant_may f (Some t) with Some v => Some v | None => get_field f e end.
Proof.
  destruct f; cbn; rewrite ?merge_str_value, ?merge_bool_value, ?merge_float_value; done.
Qed.

Lemma mergeSession_field f e s :
  get_field f (mergeSession e s).1
  = match overlay session_may f (Some s) with Some v => Some v | None => get_field f e end.
Proof.
  destruct f; cbn; rewrite ?merge_str_value, ?merge_bool_value, ?merge_float_value; done.
Qed.

Lemma Merge_layered f g t s : get_field f (Merge g t s).1 = layered f g t s.
Proof.
  unfold Merge, layered. cbv zeta.
  set (e0 := mkAssistantProfile _ _ _ ScopeGlobal "" _ _ _ _ _ _).
  assert (He0 : get_field f e0 = get_field f g) by (by destruct f).
  destruct (match t with Some t => mergeTenant e0 t | None => (e0, []) end) as [e1 vs1] eqn:E1.
  assert (He1 : get_field f e1
          = match overlay tenant_may f t with Some v => Some v | None => get_field f g end).
  { destruct t as [t|].
    - rewrite <-He0, <-mergeTenant_field. by rewrite E1.
    - by injection E1 as <- _. }
  destruct (match s with Some s => mergeSession e1 s | None => (e1, []) end) as [e2 vs2] eqn:E2.
  simpl. rewrite <-He1. destruct s as [s|].
  - rewrite <-mergeSession_field. by rewrite E2.
  - by injection E2 as <- _.
Qed.

(* ------------------------------------------------------------------ *)
(** ** The validator against the matrix *)
(* ------------------------------------------------------------------ *)

Lemma append_if_nil {A} b (x : A) : append_if b x = [] ↔ b = false.
Proof. destruct b; simpl; split; done. Qed.

Lemma elem_of_append_if {A} b (x y : A) : y ∈ append_if b x ↔ b = true ∧ y = x.
Proof. destruct b; simpl; set_solver. Qed.

Lemma is_set_fmap {A B} (g : A → B) o : is_set (g <$> o) = is_set o.
Proof. by destruct o. Qed.

Lemma is_set_str s : is_set (str_value s) = nonempty s.
Proof. unfold str_value. by destruct (nonempty s). Qed.

(** The fields a profile sets against the rules of its scope. *)
Definition offends (scope : ProfileScope) (p : AssistantProfile) (f : Field) : bool :=
  is_set (get_field f p) && negb (may_set scope f).

Definition all_fields : list Field :=
  [FName; FDescription; FPersona; FDomain; FAvatar; FTone; FSoulCitations; FEnabled;
   FShowReasoning; FHallucinationGuard; FMedicalMode; FContentFilter; FRequired;
   FRequiredFields; FCitationRequired; FLanguage; FMarkdown; FCitations; FTemperature;
   FReasoningSummary; FCompactMode; FTheme].

Lemma all_fields_complete f : f ∈ all_fields.
Proof. destruct f; unfold all_fields; set_solver. Qed.

Definition offending_paths (scope : ProfileScope) (p : AssistantProfile) : list string :=
  flat_map (λ f, append_if (offends scope p f) (field_path f)) all_fields.

Lemma elem_of_offending scope p x :
  x ∈ offending_paths scope p ↔ ∃ f, offends scope p f = true ∧ x = field_path f.
Proof.
  unfold offending_paths. rewrite list_elem_of_In, in_flat_map. split.
  - intros (f & _ & Hx%list_elem_of_In%elem_of_append_if). eauto.
  - intros (f & Hf). exists f. split; [apply list_elem_of_In, all_fields_complete|].
    by apply list_elem_of_In, elem_of_append_if.
Qed.

Lemma sort_by_perm less vs : sort_by less vs ≡ₚ vs.
Proof. apply isort_perm. Qed.

(** The violations of a block, as pieces that are there or not. *)
Lemma map_append_if {A B} (g : A → B) b x : map g (append_if b x) = append_if b (g x).
Proof. by destruct b. Qed.

Lemma constitution_fields scope p :
  map v_Field (constitutionViolations scope "safety" (safetySetFields (ap_Safety p)) ++
               constitutionViolations scope "evidence" (evidenceSetFields (ap_Evidence p)))
  = flat_map (λ f, append_if (is_set (get_field f p)) (field_path f))
      [FHallucinationGuard; FMedicalMode; FContentFilter; FRequired; FRequiredFields; FCitationRequired].
Proof.
  unfold constitutionViolations, safetySetFields, evidenceSetFields.
  rewrite map_app, !map_map, !map_app, !map_append_if. cbn [flat_map get_field field_path].
  rewrite !is_set_fmap, !app_nil_r, <-!app_assoc. do 4 f_equal.
  by destruct (evp_RequiredFields (ap_Evidence p)).
Qed.

Lemma tenant_only_fields p :
  map v_Field (tenantSessionOnlyViolations p)
  = flat_map (λ f, append_if (is_set (get_field f p)) (field_path f)) [FShowReasoning; FCompactMode; FTheme].
Proof.
  unfold tenantSessionOnlyViolations. rewrite !map_app, !map_append_if. cbn [flat_map get_field field_path].
  by rewrite !is_set_fmap, is_set_str, !app_nil_r.
Qed.

Lemma report_allowed path b : path ∈ sessionAllowedFields → report path b = [].
Proof. intros H. unfold report. rewrite bool_decide_true by done. by rewrite andb_false_r. Qed.

Lemma session_fields p :
  map v_Field (sessionAllowListViolations p)
  ≡ₚ flat_map (λ f, append_if (is_set (get_field f p)) (field_path f))
       [FName; FDescription; FPersona; FDomain; FAvatar; FTone; FSoulCitations; FEnabled;
        FCitations; FTemperature; FReasoningSummary].
Proof.
  unfold sessionAllowListViolations. cbv zeta. rewrite sort_by_perm.
  rewrite (report_allowed "reasoning.show_reasoning"), (report_allowed "output.language"),
    (report_allowed "output.markdown"), (report_allowed "presentation.compact_mode"),
    (report_allowed "presentation.theme") by (unfold sessionAllowedFields; set_solver).
  unfold report. rewrite !bool_decide_false by (unfold sessionAllowedFields; set_solver).
  rewrite !andb_true_r, !map_app, !map_append_if. cbn [flat_map get_field field_path map].
  by rewrite !is_set_fmap, !is_set_str, !app_nil_r.
Qed.

Lemma elem_of_pieces p l x :
  x ∈ flat_map (λ f, append_if (is_set (get_field f p)) (field_path f)) l ↔
  ∃ f, f ∈ l ∧ is_set (get_field f p) = true ∧ x = field_path f.
Proof.
  rewrite list_elem_of_In, in_flat_map. split.
  - intros (f & Hf%list_elem_of_In & Hx%list_elem_of_In%elem_of_append_if). naive_solver.
  - intros (f & Hf & Hx). exists f. split; [by apply list_elem_of_In|].
    by apply list_elem_of_In, elem_of_append_if.
Qed.

(** The validator of a known scope reports exactly the fields set against the
    documented matrix. *)
Lemma ValidateScope_fields p x :
  Scope_Valid (ap_Scope p) = true →
  x ∈ map v_Field (ValidateScope p) ↔ ∃ f, offends (ap_Scope p) p f = true ∧ x = field_path f.
Proof.
  intros Hv. unfold ValidateScope. rewrite Hv. cbn [negb]. unfold offends.
  unfold Scope_Valid in Hv. rewrite !orb_true_iff, !String.eqb_eq in Hv.
  rewrite !map_app, !elem_of_app.
  destruct Hv as [[->| ->]| ->]; cbn [String.eqb]; simpl String.eqb; cbn [negb].
  - split; [|intros (f & Ho & _); destruct f; simpl in Ho; by rewrite ?andb_false_r in Ho].
    by intros [?%elem_of_nil|[?%elem_of_nil|?%elem_of_nil]].
  - rewrite constitution_fields, tenant_only_fields, !elem_of_pieces. split.
    + intros [(f & Hf & Hs & ->)|[(f & Hf & Hs & ->)|?%elem_of_nil]]; [| |done];
        exists f; (split; [|done]); rewrite Hs;
        repeat (apply elem_of_cons in Hf as [->|Hf]); try done; by apply elem_of_nil in Hf.
    + intros (f & Ho & ->). apply andb_true_iff in Ho as [Hs Hm].
      destruct f; try done; first [left; eexists; split; [|split; [exact Hs|reflexivity]]; set_solver
        | right; left; eexists; split; [|split; [exact Hs|reflexivity]]; set_solver].
  - rewrite constitution_fields, session_fields, !elem_of_pieces. split.
    + intros [(f & Hf & Hs & ->)|[?%elem_of_nil|(f & Hf & Hs & ->)]]; [|done|];
        exists f; (split; [|done]); rewrite Hs;
        repeat (apply elem_of_cons in Hf as [->|Hf]); try done; by apply elem_of_nil in Hf.
    + intros (f & Ho & ->). apply andb_true_iff in Ho as [Hs Hm].
      destruct f; try done; first [left; eexists; split; [|split; [exact Hs|reflexivity]]; set_solver
        | right; right; eexists; split; [|split; [exact Hs|reflexivity]]; set_solver].
Qed.

Lemma ValidateScope_nil p :
  Scope_Valid (ap_Scope p) = true →
  ValidateScope p = [] ↔ ∀ f, is_set (get_field f p) = true → may_set (ap_Scope p) f = true.
Proof.
  intros Hv. pose proof (λ x, ValidateScope_fields p x Hv) as Hf. split.
  - intros Hnil f Hs. rewrite Hnil in Hf. destruct (may_set (ap_Scope p) f) eqn:Hm; [done|].
    exfalso. apply (not_elem_of_nil (field_path f)), Hf. exists f. split; [|done].
    unfold offends. by rewrite Hs, Hm.
  - intros Hall. destruct (ValidateScope p) as [|v vs]; [done|]. exfalso.
    destruct (proj1 (Hf (v_Field v))) as (f & Ho & _); [by left|].
    unfold offends in Ho. apply andb_true_iff in Ho as [Hs Hm]. rewrite Hall in Hm by done. done.
Qed.

(** The read path records what the write path rejects. *)
Lemma Merge_violations g t s :
  (∀ t', t = Some t' → ap_Scope t' = ScopeTenant) →
  (Merge g t s).2
  ≡ₚ from_option ValidateScope [] t ++ from_option ValidateScope [] s.
Proof.
  intros Ht. unfold Merge. cbv zeta. set (e0 := mkAssistantProfile _ _ _ ScopeGlobal "" _ _ _ _ _ _).
  assert (H1 : ∃ e1 vs1, (match t with Some t => mergeTenant e0 t | None => (e0, []) end) = (e1, vs1) ∧
            vs1 ≡ₚ from_option ValidateScope [] t).
  { destruct t as [t|]; [|by exists e0, []]. do 2 eexists. split; [reflexivity|].
    simpl. unfold ValidateScope. rewrite (Ht t eq_refl). simpl. rewrite app_nil_r.
    by rewrite (Permutation_app_comm (tenantSessionOnlyViolations t)). }
  destruct H1 as (e1 & vs1 & -> & Hvs1).
  destruct s as [s|]; simpl; unfold SortedViolations; rewrite sort_by_perm, Hvs1; done.
Qed.

(* ------------------------------------------------------------------ *)
(** ** The vocabularies as a transition system *)
(* ------------------------------------------------------------------ *)

Inductive vocab_step : Vocab → Vocab → Prop :=
| step_register_persona t v : vocab_step v (RegisterPersona t v)
| step_register_domain t v : vocab_step v (RegisterDomain t v)
| step_delete_persona t v : vocab_step v (DeletePersona t v).1
| step_delete_domain t v : vocab_step v (DeleteDomain t v).1.

Definition reg_ok (reg : gmap string bool) : Prop :=
  reg !! "general" = Some true ∧ reg !! "" = None ∧ ∀ k b, reg !! k = Some b → b = true.
Definition vocab_ok (v : Vocab) : Prop := reg_ok (personaRegistry v) ∧ reg_ok (domainRegistry v).

Lemma reg_ok_insert reg t : t ≠ "" → reg_ok reg → reg_ok (<[t := true]> reg).
Proof.
  intros Ht (Hg & He & Hb). split_and!.
  - destruct (decide (t = "general")) as [->|]; [by rewrite lookup_insert_eq|].
    by rewrite lookup_insert_ne.
  - by rewrite lookup_insert_ne.
  - intros k b. destruct (decide (t = k)) as [->|]; [rewrite lookup_insert_eq; congruence|].
    rewrite lookup_insert_ne by done. apply Hb.
Qed.

Lemma reg_ok_delete reg t : t ≠ "general" → reg_ok reg → reg_ok (delete t reg).
Proof.
  intros Ht (Hg & He & Hb). split_and!.
  - by rewrite lookup_delete_ne.
  - apply lookup_delete_None. by right.
  - intros k b [_ Hk]%lookup_delete_Some. by eapply Hb.
Qed.

Lemma vocab_step_ok v v' : vocab_step v v' → vocab_ok v → vocab_ok v'.
Proof.
  intros Hs [Hp Hd]. destruct Hs as [t v|t v|t v|t v].
  - unfold RegisterPersona. destruct (String.eqb_spec t ""); [done|].
    split; [by apply reg_ok_insert|done].
  - unfold RegisterDomain. destruct (String.eqb_spec t ""); [done|].
    split; [done|by apply reg_ok_insert].
  - unfold DeletePersona. destruct (String.eqb_spec t PersonaGeneral); [done|].
    destruct (negb _); [done|]. split; [by apply reg_ok_delete|done].
  - unfold DeleteDomain. destruct (String.eqb_spec t DomainGeneral); [done|].
    destruct (negb _); [done|]. split; [done|by apply reg_ok_delete].
Qed.

Lemma initial_vocab_ok : vocab_ok initial_vocab.
Proof.
  assert (∀ l : list string, "general" ∈ l → "" ∉ l → reg_ok (all_true l)) as Hok.
  { intros l Hg He. unfold all_true. split_and!.
    - apply elem_of_list_to_map_1'.
      + intros y [k [[= _ <-] _]]%list_elem_of_fmap. done.
      + apply list_elem_of_fmap. eauto.
    - apply not_elem_of_list_to_map_1. intros (kv & Hk & [k [-> Hin]]%list_elem_of_fmap)%list_elem_of_fmap.
      simpl in Hk. subst. done.
    - intros k b Hk%elem_of_list_to_map_2. apply list_elem_of_fmap in Hk as [k' [[= _ <-] _]]. done. }
  split; apply Hok; set_solver.
Qed.

Lemma reachable_vocab_ok v : rtc vocab_step initial_vocab v → vocab_ok v.
Proof.
  intros Hr. assert (∀ v0, rtc vocab_step v0 v → vocab_ok v0 → vocab_ok v) as Hgen.
  { intros v0 H. induction H; [done|]. eauto using vocab_step_ok. }
  apply (Hgen _ Hr), initial_vocab_ok.
Qed.

Lemma vocabEntries_fixed reg :
  reg_ok reg →
  filter (λ e, ve_Deletable e = false) (vocabEntries reg) = [mkVocabEntry "general" false].
Proof.
  intros (Hg & _ & _). unfold vocabEntries.
  assert (Hnd : NoDup (sort_strings (map_to_list reg).*1))
    by (rewrite sort_strings_perm; apply NoDup_fst_map_to_list).
  assert (Hin : "general" ∈ sort_strings (map_to_list reg).*1).
  { rewrite sort_strings_perm. apply (@elem_of_range_keys range_fwd). eauto. }
  induction (sort_strings (map_to_list reg).*1) as [|k l IH]; [by apply elem_of_nil in Hin|].
  apply NoDup_cons in Hnd as [Hk Hnd]. cbn [map]. rewrite filter_cons. cbn [ve_Deletable].
  destruct (String.eqb_spec k PersonaGeneral) as [->|Hne].
  - rewrite decide_True by done. f_equal. clear -Hk.
    induction l as [|k' l IH]; [done|]. apply not_elem_of_cons in Hk as [Hne Hk].
    cbn [map]. rewrite filter_cons. cbn [ve_Deletable].
    destruct (String.eqb_spec k' PersonaGeneral) as [->|]; [done|].
    rewrite decide_False by done. by apply IH.
  - rewrite decide_False by done. apply IH; [done|].
    apply elem_of_cons in Hin as [<-|]; done.
Qed.

(* ------------------------------------------------------------------ *)
(** ** Properties *)
(* ------------------------------------------------------------------ *)

(** C4: the effective profile is the one the documented permission matrix
    describes: every field is the session's value if a session may and does set
    it, else the tenant's under the same condition, else the global one; in
    particular the constitution policies are always the global ones. *)
Theorem merge_follows_permission_matrix g t s :
  (∀ f, get_field f (Merge g t s).1 = layered f g t s) ∧
  ap_Safety (Merge g t s).1 = ap_Safety g ∧ ap_Evidence (Merge g t s).1 = ap_Evidence g.
Proof.
  split; [intros f; apply Merge_layered|].
  destruct t, s; split; reflexivity.
Qed.

(** C39: on a known scope [ValidateScope] accepts a profile exactly when every
    field it sets may be set at that scope, and otherwise names exactly the
    offending fields. *)
Theorem scope_validation_is_the_matrix p :
  Scope_Valid (ap_Scope p) = true →
  (ValidateScope p = [] ↔
     ∀ f, is_set (get_field f p) = true → may_set (ap_Scope p) f = true) ∧
  ∀ x, x ∈ map v_Field (ValidateScope p) ↔
       ∃ f, offends (ap_Scope p) p f = true ∧ x = field_path f.
Proof. intros Hv. split; [by apply ValidateScope_nil|]. intros x. by apply ValidateScope_fields. Qed.

(** A session that asks for another language and for medical mode. *)
Definition greedy_session : AssistantProfile :=
  mkAssistantProfile "" "" "" ScopeSession ""
    (mkSoul (mkIdentity "" "" "" "" "") (mkBehavior "" None))
    (mkReasoningPolicy None None) (mkSafetyPolicy None (Some true) None)
    (mkEvidencePolicy None [] None) (mkOutputPolicy "en" None None None)
    (mkPresentationPolicy None None "").

Lemma scope_validation_is_the_matrix_witness :
  "safety.medical_mode" ∈ map v_Field (ValidateScope greedy_session).
Proof.
  apply (scope_validation_is_the_matrix greedy_session); [vm_compute; reflexivity|].
  exists FMedicalMode. split; vm_compute; reflexivity.
Defined.

(** the merge records, for a tenant overlay and any session overlay, exactly
    the violations the write path would reject them for: what it ignores is what
    [ValidateScope] reports. *)
Theorem merge_reports_what_the_write_path_rejects g t s :
  (∀ t', t = Some t' → ap_Scope t' = ScopeTenant) →
  (Merge g t s).2 ≡ₚ from_option ValidateScope [] t ++ from_option ValidateScope [] s.
Proof. apply Merge_violations. Qed.

Lemma merge_reports_what_the_write_path_rejects_witness :
  (Merge DefaultGlobal None (Some greedy_session)).2 ≡ₚ ValidateScope greedy_session.
Proof.
  apply (merge_reports_what_the_write_path_rejects DefaultGlobal None (Some greedy_session)).
  discriminate.
Defined.

(** whatever tokens are registered and deleted, [general] stays a valid
    persona and domain, no empty token is ever registered, and [general] is the
    one entry of each list marked as not deletable. *)
Theorem vocabulary_always_has_general v :
  rtc vocab_step initial_vocab v →
  ValidPersona v "general" = true ∧ ValidDomain v "general" = true ∧
  personaRegistry v !! "" = None ∧ domainRegistry v !! "" = None ∧
  filter (λ e, ve_Deletable e = false) (ListPersonas v) = [mkVocabEntry "general" false] ∧
  filter (λ e, ve_Deletable e = false) (ListDomains v) = [mkVocabEntry "general" false].
Proof.
  intros [Hp Hd]%reachable_vocab_ok. unfold ListPersonas, ListDomains.
  rewrite !vocabEntries_fixed by done. destruct Hp as (Hp & Hp0 & _), Hd as (Hd & Hd0 & _).
  unfold ValidPersona, ValidDomain, registered. cbn [String.eqb]. by rewrite Hp, Hd.
Qed.

Lemma vocabulary_always_has_general_witness :
  ValidPersona (DeletePersona "icu" (DeletePersona "general" initial_vocab).1).1 "general" = true.
Proof.
  apply vocabulary_always_has_general.
  eapply rtc_l; [apply (step_delete_persona "general")|].
  eapply rtc_l; [apply (step_delete_persona "icu")|]. apply rtc_refl.
Defined.
