(* ===== verification/ProfileWire.v ===== *)
(** Assistant profiles as JSON: the struct tags of [src/control/profile/profile.go].
    Unset and explicitly false fields stay apart. *)
From S2P Require Export Profile Typed.

#[export] Instance Identity_wire : Wire Identity :=
  struct_wire [req "name"; opt "description"; opt "persona"; opt "domain"; opt "avatar"]
    (λ r, (id_Name r, (id_Description r, (id_Persona r, (id_Domain r, (id_Avatar r, tt))))))
    (λ '(a, (b, (c, (d, (e, _))))), mkIdentity a b c d e).
#[export] Instance Identity_laws : WireLaws Identity.
Proof. solve_struct. Qed.
#[export] Instance Identity_shallow : Shallow Identity := struct_shallow _ _ _.
#[export] Instance Identity_written : Written Identity.
Proof. apply struct_always_written. simpl. lia. Qed.

#[export] Instance Behavior_wire : Wire Behavior :=
  struct_wire [opt "tone"; opt "citations"]
    (λ r, (bh_Tone r, (bh_Citations r, tt)))
    (λ '(a, (b, _)), mkBehavior a b).
#[export] Instance Behavior_laws : WireLaws Behavior.
Proof. solve_struct. Qed.
#[export] Instance Behavior_shallow : Shallow Behavior := struct_shallow _ _ _.
#[export] Instance Behavior_written : Written Behavior.
Proof. apply struct_always_written. simpl. lia. Qed.

#[export] Instance Soul_wire : Wire Soul :=
  struct_wire [req "identity"; req "behavior"]
    (λ r, (soul_Identity r, (soul_Behavior r, tt)))
    (λ '(a, (b, _)), mkSoul a b).
#[export] Instance Soul_laws : WireLaws Soul.
Proof. solve_struct. Qed.
#[export] Instance Soul_shallow : Shallow Soul := struct_shallow _ _ _.
#[export] Instance Soul_written : Written Soul.
Proof. apply struct_always_written. simpl. lia. Qed.

#[export] Instance ReasoningPolicy_wire : Wire ReasoningPolicy :=
  struct_wire [opt "enabled"; opt "show_reasoning"]
    (λ r, (rp_Enabled r, (rp_ShowReasoning r, tt)))
    (λ '(a, (b, _)), mkReasoningPolicy a b).
#[export] Instance ReasoningPolicy_laws : WireLaws ReasoningPolicy.
Proof. solve_struct. Qed.
#[export] Instance ReasoningPolicy_shallow : Shallow ReasoningPolicy := struct_shallow _ _ _.
#[export] Instance ReasoningPolicy_written : Written ReasoningPolicy.
Proof. apply struct_always_written. simpl. lia. Qed.

#[export] Instance SafetyPolicy_wire : Wire SafetyPolicy :=
  struct_wire [opt "hallucination_guard"; opt "medical_mode"; opt "content_filter"]
    (λ r, (sp_HallucinationGuard r, (sp_MedicalMode r, (sp_ContentFilter r, tt))))
    (λ '(a, (b, (c, _))), mkSafetyPolicy a b c).
#[export] Instance SafetyPolicy_laws : WireLaws SafetyPolicy.
Proof. solve_struct. Qed.
#[export] Instance SafetyPolicy_shallow : Shallow SafetyPolicy := struct_shallow _ _ _.
#[export] Instance SafetyPolicy_written : Written SafetyPolicy.
Proof. apply struct_always_written. simpl. lia. Qed.

#[export] Instance EvidencePolicy_wire : Wire EvidencePolicy :=
  struct_wire [opt "required"; opt "required_fields"; opt "citation_required"]
    (λ r, (evp_Required r, (evp_RequiredFields r, (evp_CitationRequired r, tt))))
    (λ '(a, (b, (c, _))), mkEvidencePolicy a b c).
#[export] Instance EvidencePolicy_laws : WireLaws EvidencePolicy.
Proof. solve_struct. Qed.
#[export] Instance EvidencePolicy_shallow : Shallow EvidencePolicy := struct_shallow _ _ _.
#[export] Instance EvidencePolicy_written : Written EvidencePolicy.
Proof. apply struct_always_written. simpl. lia. Qed.

#[export] Instance OutputPolicy_wire : Wire OutputPolicy :=
  struct_wire [opt "language"; opt "markdown"; opt "citations"; opt "temperature"]
    (λ r, (op_Language r, (op_Markdown r, (op_Citations r, (op_Temperature r, tt)))))
    (λ '(a, (b, (c, (d, _)))), mkOutputPolicy a b c d).
#[export] Instance OutputPolicy_laws : WireLaws OutputPolicy.
Proof. solve_struct. Qed.
#[export] Instance OutputPolicy_shallow : Shallow OutputPolicy := struct_shallow _ _ _.

#[export] Instance PresentationPolicy_wire : Wire PresentationPolicy :=
  struct_wire [opt "reasoning_summary"; opt "compact_mode"; opt "theme"]
    (λ r, (pp_ReasoningSummary r, (pp_CompactMode r, (pp_Theme r, tt))))
    (λ '(a, (b, (c, _))), mkPresentationPolicy a b c).
#[export] Instance PresentationPolicy_laws : WireLaws PresentationPolicy.
Proof. solve_struct. Qed.
#[export] Instance PresentationPolicy_shallow : Shallow PresentationPolicy := struct_shallow _ _ _.
#[export] Instance PresentationPolicy_written : Written PresentationPolicy.
Proof. apply struct_always_written. simpl. lia. Qed.

#[export] Instance AssistantProfile_wire : Wire AssistantProfile :=
  struct_wire [req "id"; req "name"; opt "description"; req "scope"; opt "tenant_id"; req "soul"; req "reasoning";
               req "safety"; req "evidence"; req "output"; req "presentation"]
    (λ r, (ap_ID r, (ap_Name r, (ap_Description r, (ap_Scope r, (ap_TenantID r, (ap_Soul r, (ap_Reasoning r,
       (ap_Safety r, (ap_Evidence r, (ap_Output r, (ap_Presentation r, tt))))))))))))
    (λ '(a, (b, (c, (d, (e, (f, (g, (h, (i, (j, (k, _))))))))))), mkAssistantProfile a b c d e f g h i j k).
#[export] Instance AssistantProfile_laws : WireLaws AssistantProfile.
Proof. solve_struct. Qed.
#[export] Instance AssistantProfile_shallow : Shallow AssistantProfile := struct_shallow _ _ _.

(** A profile is written unless its temperature has no text. *)
Lemma output_written (r : OutputPolicy) :
  is_Some (encode r) ↔ match op_Temperature r with Some f => is_Some (json_float f) | None => True end.
Proof.
  unfold OutputPolicy_wire. rewrite struct_written. cbv beta. unfold req, opt. rewrite !enc_fields_cons, !written_iff.
  destruct (op_Temperature r) as [f|]; cbn [andb is_empty pointer_wire].
  - change (is_Some (encode (Some f))) with (is_Some (encode f)). rewrite float_written.
    pose proof (enc_fields_nil []). naive_solver.
  - pose proof (enc_fields_nil []). naive_solver.
Qed.
Lemma profile_written (p : AssistantProfile) :
  is_Some (marshal p) ↔ match op_Temperature (ap_Output p) with Some f => is_Some (json_float f) | None => True end.
Proof.
  unfold marshal. rewrite fmap_is_Some. unfold AssistantProfile_wire. rewrite struct_written. cbv beta.
  unfold req, opt. rewrite !enc_fields_cons, output_written, !written_iff. cbn [andb].
  pose proof (enc_fields_nil []). naive_solver.
Qed.

(* ------------------------------------------------------------------ *)
(** ** Properties *)
(* ------------------------------------------------------------------ *)

Definition merge_stored (global tenant session : string) : option (AssistantProfile * list Violation) :=
  g ← unmarshal global; t ← unmarshal tenant; s ← unmarshal session; Some (Profile.Merge g (Some t) (Some s)).

Lemma profile_read_back (p : AssistantProfile) s : good p → marshal p = Some s → unmarshal s = Some p.
Proof. apply read_back_shallow. vm_compute. discriminate. Qed.

(** three profiles that are stored as JSON merge, when they are read back, to
    what they would have merged to: a field that was not set is still inherited and
    one set to false still overrides. *)
Theorem stored_profiles_merge_as_before (g t s : AssistantProfile) gs ts ss :
  good g → good t → good s → marshal g = Some gs → marshal t = Some ts → marshal s = Some ss →
  merge_stored gs ts ss = Some (Profile.Merge g (Some t) (Some s)).
Proof.
  intros Hg Ht Hs Hgs Hts Hss. unfold merge_stored.
  rewrite (profile_read_back g gs Hg Hgs), (profile_read_back t ts Ht Hts), (profile_read_back s ss Hs Hss).
  reflexivity.
Qed.

Definition stored_profile (scope : ProfileScope) (markdown : option bool) : AssistantProfile :=
  mkAssistantProfile "p" "P" "" scope "" (mkSoul (mkIdentity "n" "" "" "" "") (mkBehavior "warm" None))
    (mkReasoningPolicy (Some true) None) (mkSafetyPolicy None None None) (mkEvidencePolicy None [] None)
    (mkOutputPolicy "" markdown None None) (mkPresentationPolicy None None "").
Lemma stored_profile_good scope markdown : utf8_valid scope → good (stored_profile scope markdown).
Proof.
  intros Hs. unfold stored_profile.
  repeat first [apply good_field|apply good_required]; try done; try by constructor.
  by destruct markdown.
Qed.

Lemma stored_profiles_merge_as_before_witness :
  ∃ gs ts ss, marshal (stored_profile ScopeGlobal (Some true)) = Some gs ∧
    merge_stored gs ts ss = Some (Profile.Merge (stored_profile ScopeGlobal (Some true))
                                    (Some (stored_profile ScopeTenant (Some false)))
                                    (Some (stored_profile ScopeSession None))).
Proof.
  eexists _, _, _. split; [vm_compute; reflexivity|].
  apply stored_profiles_merge_as_before; [by apply stored_profile_good..| | |]; vm_compute; reflexivity.
Defined.
