(* ===== verification/Router.v ===== *)
(** Model providers as their interface and the capability-based router
    ([src/ai/providers/provider.go], [src/ai/router/router.go]). *)
From S2P Require Export Types.
From Stdlib Require Import Ascii.

(* ------------------------------------------------------------------ *)
(** ** The provider interface *)
(* ------------------------------------------------------------------ *)

(** A value of [ModelProvider], seen through its methods.  A provider that also
    implements [StreamingModelProvider] has [mp_GenerateStream]; the list is what
    its channel carries until it is closed. *)
Record ModelProvider := mkModelProvider {
  mp_ID : string;
  mp_Capabilities : list CapabilityType;
  mp_Generate : GenerateRequest → result error GenerateResponse;
  mp_Embed : list string → result error (list (list float64));
  mp_GenerateStream : option (GenerateRequest → result error (list StreamChunk))
}.

(** The sentinels of [src/ai/errors.go]. *)
Definition ErrNoMatchingProvider : error := ESentinel "model: no matching provider for requirements".
Definition ErrProviderAlreadyExists : error := ESentinel "model: provider already exists".
Definition ErrCapabilityNotSupported : error := ESentinel "model: capability not supported".
Definition ErrGenerationFailed : error := ESentinel "model: generation failed".
Definition ErrRateLimited : error := ESentinel "model: rate limited".
Definition ErrContextCanceled : error := ESentinel "model: context canceled".
Definition ErrProviderUnavailable : error := ESentinel "model: provider unavailable".
Definition ErrBadRequest : error := ESentinel "model: bad request".
Definition ErrAuthenticationFailed : error := ESentinel "model: authentication failed".

(** [hasAllCapabilities]: the set of the provider's capabilities, then the loop
    over the requirements. *)
Definition hasAllCapabilities (provider : ModelProvider) (requirements : list CapabilityType) : bool :=
  let capSet : gmap string bool :=
    foldl (λ m c, <[c := true]> m) ∅ (mp_Capabilities provider) in
  forallb (λ req, default false (capSet !! req)) requirements.

(** What a client may rely on: the provider returned meets the requirements. *)
Class ModelRouter := {
  Route : list CapabilityType → ModelConstraints → result error ModelProvider;
  Route_capable reqs c p : Route reqs c = Ok p → hasAllCapabilities p reqs = true
}.

(* ------------------------------------------------------------------ *)
(** ** The default router *)
(* ------------------------------------------------------------------ *)

Module DefaultRouter.

Definition state : Type := gmap string ModelProvider.
Definition New : state := ∅.

Definition Register (provider : ModelProvider) (r : state) : state * option error :=
  match (r : gmap string ModelProvider) !! mp_ID provider with
  | Some _ => (r, Some ErrProviderAlreadyExists)
  | None => (<[mp_ID provider := provider]> (r : gmap string ModelProvider), None)
  end.

(** The loop over the providers returns the first that matches. *)
Definition first_capable (requirements : list CapabilityType) (l : list (string * ModelProvider)) :
    result error ModelProvider :=
  match list_find (λ kv, hasAllCapabilities kv.2 requirements = true) l with
  | Some (_, (_, provider)) => Ok provider
  | None => Err ErrNoMatchingProvider
  end.

Definition Route `{MapRange} (r : state) (requirements : list CapabilityType)
    (constraints : ModelConstraints) : result error ModelProvider :=
  let preferred :=
    if negb (String.eqb (PreferredProvider constraints) "") then
      match (r : gmap string ModelProvider) !! PreferredProvider constraints with
      | Some provider => if hasAllCapabilities provider requirements then Some provider else None
      | None => None
      end
    else None in
  match preferred with
  | Some provider => Ok provider
  | None => first_capable requirements (range (r : gmap string ModelProvider))
  end.

Definition Replace (provider : ModelProvider) (r : state) : state :=
  <[mp_ID provider := provider]> (r : gmap string ModelProvider).

(** [len(id) > len(p) && id[:len(p)] == p && id[len(p)] == '/'] *)
Definition driver_matches (driverPrefix id : string) : bool :=
  (slen driverPrefix <? slen id) && String.eqb (stake (slen driverPrefix) id) driverPrefix &&
  match sdrop (slen driverPrefix) id with String c _ => Ascii.eqb c "/" | sempty => false end.

(** The loop over the providers deletes the matching keys as it goes. *)
Definition Unregister `{MapRange} (driverPrefix : string) (r : state) : state :=
  foldl (λ r id, if driver_matches driverPrefix id then delete id r else r)
    (r : gmap string ModelProvider) (range_keys (r : gmap string ModelProvider)).

Definition List_ `{MapRange} (r : state) : list string := range_keys (r : gmap string ModelProvider).

End DefaultRouter.

(* ------------------------------------------------------------------ *)
(** ** Theorems *)
(* ------------------------------------------------------------------ *)

Lemma capSet_lookup l (m : gmap string bool) req :
  default false (foldl (λ m c, <[c := true]> m) m l !! req)
  = default false (m !! req) || bool_decide (req ∈ l).
Proof.
  revert m. induction l as [|c l IH]; intros m; simpl.
  - by rewrite orb_false_r.
  - rewrite IH. destruct (decide (req = c)) as [->|Hne].
    + rewrite lookup_insert_eq. simpl. rewrite bool_decide_true by set_solver.
      by rewrite orb_true_r.
    + rewrite lookup_insert_ne by done. f_equal. apply bool_decide_ext. set_solver.
Qed.

Lemma hasAllCapabilities_spec p reqs :
  hasAllCapabilities p reqs = true ↔ reqs ⊆ mp_Capabilities p.
Proof.
  unfold hasAllCapabilities. rewrite forallb_forall. split.
  - intros Hall x Hx%list_elem_of_In. apply Hall in Hx. rewrite capSet_lookup in Hx.
    rewrite lookup_empty in Hx. simpl in Hx. by apply bool_decide_eq_true in Hx.
  - intros Hsub x Hx%list_elem_of_In. rewrite capSet_lookup, lookup_empty. simpl.
    apply bool_decide_eq_true. by apply Hsub.
Qed.

Module RouterFacts.
Import DefaultRouter.

Lemma first_capable_spec `{MapRange} reqs (r : gmap string ModelProvider) :
  match first_capable reqs (range r) with
  | Ok p => hasAllCapabilities p reqs = true ∧ ∃ id, r !! id = Some p
  | Err e => e = ErrNoMatchingProvider ∧ ∀ id p, r !! id = Some p → hasAllCapabilities p reqs = false
  end.
Proof.
  unfold first_capable. destruct (list_find _ (range r)) as [[i [id p]]|] eqn:E.
  - apply list_find_Some in E as (Hi & Hc & _). split; [done|]. exists id.
    apply elem_of_range. by eapply list_elem_of_lookup_2.
  - split; [done|]. intros id p Hp. apply list_find_None in E. rewrite Forall_forall in E.
    specialize (E (id, p)). rewrite elem_of_range in E. specialize (E Hp). simpl in E.
    by destruct (hasAllCapabilities p reqs).
Qed.

Lemma Route_spec `{MapRange} (r : gmap string ModelProvider) reqs c :
  match Route r reqs c with
  | Ok p => hasAllCapabilities p reqs = true ∧ ∃ id, r !! id = Some p
  | Err e => e = ErrNoMatchingProvider ∧ ∀ id p, r !! id = Some p → hasAllCapabilities p reqs = false
  end.
Proof.
  unfold Route. pose proof (first_capable_spec reqs r) as Hf.
  destruct (negb (String.eqb (PreferredProvider c) "")); [|done].
  destruct (r !! PreferredProvider c) as [p|] eqn:Hp; [|done].
  destruct (hasAllCapabilities p reqs) eqn:Hc; [|done]. split; [done|]. eauto.
Qed.

(** The default router is a [ModelRouter]. *)
#[export] Instance default_router `{MapRange} (r : gmap string ModelProvider) : ModelRouter.
Proof.
  refine {| Router.Route := Route r |}. intros reqs c p Hp.
  pose proof (Route_spec r reqs c) as Hs. rewrite Hp in Hs. by destruct Hs.
Defined.

Lemma driver_matches_spec pre id : driver_matches pre id = true ↔ ∃ m, id = pre +:+ "/" +:+ m.
Proof.
  unfold driver_matches. split.
  - intros H. bool_simp. rewrite <-(stake_sdrop (slen pre) id), H1.
    destruct (sdrop (slen pre) id) as [|d m]; [done|]. apply Ascii.eqb_eq in H0 as ->. by exists m.
  - intros [m ->]. rewrite stake_app, sdrop_app, String.eqb_refl, slen_app. simpl.
    rewrite andb_true_r, andb_true_r. apply Nat.ltb_lt. lia.
Qed.

Lemma Unregister_loop pre l (r : gmap string ModelProvider) id :
  foldl (λ r id, if driver_matches pre id then delete id r else r) r l !! id
  = if driver_matches pre id && bool_decide (id ∈ l) then None else r !! id.
Proof.
  revert r. induction l as [|k l IH]; intros r; simpl.
  - by rewrite andb_false_r.
  - rewrite IH. destruct (decide (id = k)) as [->|Hne].
    + rewrite (bool_decide_true (k ∈ k :: l)) by set_solver.
      destruct (driver_matches pre k); simpl; [|done].
      rewrite lookup_delete_eq. by destruct (bool_decide _).
    + rewrite (bool_decide_ext (id ∈ k :: l) (id ∈ l)) by set_solver.
      destruct (driver_matches pre k); [|done]. by rewrite lookup_delete_ne.
Qed.

Lemma Unregister_lookup `{MapRange} pre (r : gmap string ModelProvider) id :
  (Unregister pre r : gmap string ModelProvider) !! id
  = if driver_matches pre id then None else r !! id.
Proof.
  unfold Unregister. rewrite Unregister_loop. destruct (driver_matches pre id); simpl; [|done].
  destruct (bool_decide_reflect (id ∈ range_keys r)) as [|Hn]; [done|].
  rewrite elem_of_range_keys in Hn. destruct (r !! id); [|done]. exfalso. eauto.
Qed.

(** The operations that change the router. *)
Inductive step `{MapRange} : gmap string ModelProvider → gmap string ModelProvider → Prop :=
| step_register p r : step r (Register p r).1
| step_replace p r : step r (Replace p r)
| step_unregister pre r : step r (Unregister pre r).

Definition keyed (r : gmap string ModelProvider) : Prop := ∀ id p, r !! id = Some p → mp_ID p = id.

Lemma keyed_insert r p : keyed r → keyed (<[mp_ID p := p]> r).
Proof.
  intros Hr id q. destruct (decide (mp_ID p = id)) as [<-|Hne].
  - rewrite lookup_insert_eq. congruence.
  - rewrite lookup_insert_ne by done. apply Hr.
Qed.

Lemma step_keyed `{MapRange} r r' : step r r' → keyed r → keyed r'.
Proof.
  intros Hs Hr. destruct Hs as [p r|p r|pre r].
  - unfold Register. destruct (r !! mp_ID p); [done|]. by apply keyed_insert.
  - by apply keyed_insert.
  - intros id p. rewrite Unregister_lookup. destruct (driver_matches pre id); [done|]. apply Hr.
Qed.

Lemma reachable_keyed `{MapRange} r : rtc step ∅ r → keyed r.
Proof.
  intros Hr. assert (∀ r0, rtc step r0 r → keyed r0 → keyed r) as Hgen.
  { intros r0 H0. induction H0; eauto using step_keyed. }
  apply (Hgen _ Hr). intros id p. by rewrite lookup_empty.
Qed.
End RouterFacts.

(* ------------------------------------------------------------------ *)
(** ** Properties *)
(* ------------------------------------------------------------------ *)

(** C24: routing returns a registered provider that has every required capability
    and fails, with [ErrNoMatchingProvider], only when there is none; a capable
    preferred provider is always the one returned. *)
Theorem routing_is_sound_and_complete `{MapRange} (r : gmap string ModelProvider) reqs c :
  match DefaultRouter.Route r reqs c with
  | Ok p => reqs ⊆ mp_Capabilities p ∧ ∃ id, r !! id = Some p
  | Err e => e = ErrNoMatchingProvider ∧ ∀ id p, r !! id = Some p → ¬ reqs ⊆ mp_Capabilities p
  end ∧
  ∀ p, PreferredProvider c ≠ "" → r !! PreferredProvider c = Some p →
       reqs ⊆ mp_Capabilities p → DefaultRouter.Route r reqs c = Ok p.
Proof.
  split.
  - pose proof (RouterFacts.Route_spec r reqs c) as Hs. destruct (DefaultRouter.Route r reqs c).
    + by rewrite hasAllCapabilities_spec in Hs.
    + destruct Hs as [? Hall]. split; [done|]. intros id p Hp Hsub.
      apply hasAllCapabilities_spec in Hsub. by rewrite (Hall id p Hp) in Hsub.
  - intros p Hne Hp Hsub. unfold DefaultRouter.Route. apply String.eqb_neq in Hne.
    apply hasAllCapabilities_spec in Hsub. by rewrite Hne, Hp, Hsub.
Qed.

(** in every reachable router a provider is stored under its own ID, and
    unregistering a driver removes exactly the providers of that driver. *)
Theorem router_keys_and_unregister `{MapRange} r pre id :
  rtc RouterFacts.step ∅ r →
  RouterFacts.keyed r ∧
  (DefaultRouter.Unregister pre r : gmap string ModelProvider) !! id
  = (if DefaultRouter.driver_matches pre id then None else r !! id) ∧
  (DefaultRouter.driver_matches pre id = true ↔ ∃ m, id = pre +:+ "/" +:+ m).
Proof.
  intros Hr. split_and!; [by apply RouterFacts.reachable_keyed|apply RouterFacts.Unregister_lookup|].
  apply RouterFacts.driver_matches_spec.
Qed.

Definition sample_provider (id : string) (caps : list string) : ModelProvider :=
  mkModelProvider id caps (λ _, Err ErrNoMatchingProvider) (λ _, Err ErrNoMatchingProvider) None.

Lemma router_keys_and_unregister_witness :
  (@DefaultRouter.Unregister range_fwd "openai"
     (DefaultRouter.Replace (sample_provider "openai/gpt-4o" []) ∅) : gmap string ModelProvider)
    !! "openai/gpt-4o" = None.
Proof.
  refine (eq_trans (proj1 (proj2 (@router_keys_and_unregister range_fwd
    (DefaultRouter.Replace (sample_provider "openai/gpt-4o" []) ∅) "openai" "openai/gpt-4o" _))) _).
  - eapply rtc_l; [apply RouterFacts.step_replace|apply rtc_refl].
  - vm_compute. reflexivity.
Defined.
