(* ===== verification/Registry.v ===== *)
(** The registries: the generic store, the skill registry with its change events
    and the skill interface with its optional parts ([src/registry/skills]), and
    the capability registry ([src/capability]). *)
From S2P Require Export Types.
From Stdlib Require Import Ascii.

(* ------------------------------------------------------------------ *)
(** ** The generic store (base.go) *)
(* ------------------------------------------------------------------ *)

Module MapStore.
Section store.
Context {T : Type}.
Implicit Types s : gmap string T.

Definition New : gmap string T := ∅.
Definition Put (key : string) (val : T) s : gmap string T := <[key := val]> s.
Definition PutIfAbsent (key : string) (val : T) s : gmap string T * bool :=
  match s !! key with
  | Some _ => (s, false)
  | None => (<[key := val]> s, true)
  end.
Definition Get s (key : string) : option T := s !! key.
Definition Delete (key : string) s : gmap string T := delete key s.
Definition DeleteIfExists (key : string) s : gmap string T * bool :=
  match s !! key with
  | None => (s, false)
  | Some _ => (delete key s, true)
  end.
Definition Len s : nat := size s.
(** [ForEach] folds a callback over the entries. *)
Definition ForEach `{MapRange} {A : Type} (fn : A → string → T → A) (a : A) s : A :=
  foldl (λ a kv, fn a kv.1 kv.2) a (range s).
Definition Snapshot `{MapRange} s : gmap string T := foldl (λ cp kv, <[kv.1 := kv.2]> cp) ∅ (range s).
End store.
End MapStore.

(* ------------------------------------------------------------------ *)
(** ** Skills (skill.go) *)
(* ------------------------------------------------------------------ *)

(** A value of the interface [Skill], seen through its methods; the optional
    interfaces it may implement are options. *)
Record Skill := mkSkill {
  sk_ID : string;
  sk_Name : string;
  sk_Description : string;
  sk_InputSchema : option JSONSchema;
  sk_OutputSchema : option JSONSchema;
  sk_RequiredPermissions : list string;
  sk_Timeout : Z;
  sk_Validate : option error;
  sk_ExecutionMode : option string;
  sk_Prompt : option string;
  sk_RiskLevel : option string;
  sk_Descriptor : option SkillDescriptor
}.

Definition GetExecutionMode (s : Skill) : string :=
  match sk_ExecutionMode s with
  | Some mode => if negb (String.eqb mode "") then mode else "declarative"
  | None => "declarative"
  end.
Definition GetPrompt (s : Skill) : string := default "" (sk_Prompt s).
Definition GetRiskLevel (s : Skill) : string :=
  match sk_RiskLevel s with
  | Some level => if negb (String.eqb level "") then level else "info"
  | None => "info"
  end.
Definition GetDescriptor (s : Skill) : SkillDescriptor :=
  match sk_Descriptor s with
  | Some d => d
  | None => mkSkillDescriptor (sk_ID s) (sk_Name s) (sk_Description s) (sk_InputSchema s)
              "skill" (sk_ID s)
  end.

(* ------------------------------------------------------------------ *)
(** ** The skill registry (in_memory_registry.go) *)
(* ------------------------------------------------------------------ *)

Module SkillRegistry.

Definition ErrSkillNotFound : error := ESentinel "skill: not found".
Definition ErrSkillAlreadyExists : error := ESentinel "skill: already exists".
Definition ErrSkillInvalid : error := ESentinel "skill: invalid".

Inductive ChangeEventType := ChangeEventRegister | ChangeEventUnregister.
Record ChangeEvent := mkChangeEvent {
  ce_Type : ChangeEventType;
  ce_SkillID : string
}.

Section registry.
(** A callback acts on the world around the registry; it may panic, which the
    registry recovers from, so only its effect remains. *)
Context {W : Type}.

Record state := mkState {
  store : gmap string Skill;
  callbacks : list (ChangeEvent → W → W * bool)
}.

Definition New : state := mkState ∅ [].

Fixpoint fireCallbacks (cbs : list (ChangeEvent → W → W * bool)) (event : ChangeEvent) (w : W) : W :=
  match cbs with
  | [] => w
  | cb :: cbs => fireCallbacks cbs event (cb event w).1
  end.

(** [None] is the nil skill. *)
Definition Register (skill : option Skill) (r : state) (w : W) : state * W * option error :=
  match skill with
  | None => (r, w, Some (EFmt "cannot register nil skill" []))
  | Some skill =>
      let id := sk_ID skill in
      if String.eqb id "" then (r, w, Some (EFmt "skill ID cannot be empty" []))
      else
        match sk_Validate skill with
        | Some err => (r, w, Some (EFmt "invalid skill %s: %w" [FS id; FW err]))
        | None =>
            let '(store', ok) := MapStore.PutIfAbsent id skill (store r) in
            if negb ok then (r, w, Some (EFmt "%w: %s" [FW ErrSkillAlreadyExists; FS id]))
            else (mkState store' (callbacks r),
                  fireCallbacks (callbacks r) (mkChangeEvent ChangeEventRegister id) w, None)
        end
  end.

Definition Get (r : state) (id : string) : result error Skill :=
  match MapStore.Get (store r) id with
  | None => Err (EFmt "%w: %s" [FW ErrSkillNotFound; FS id])
  | Some s => Ok s
  end.

Definition List_ `{MapRange} (r : state) : list string :=
  sort_strings (MapStore.ForEach (λ ids id _, ids ++ [id]) [] (store r)).

(** The permission check of one skill, then the loop over the store. *)
Definition can_use (permSet : gset string) (skill : Skill) : bool :=
  forallb (λ req, bool_decide (req ∈ permSet)) (sk_RequiredPermissions skill).
Definition ListByPermission `{MapRange} (permissions : list string) (r : state) : list Skill :=
  let permSet : gset string := foldl (λ s p, {[p]} ∪ s) ∅ permissions in
  MapStore.ForEach (λ allowed _ skill, if can_use permSet skill then allowed ++ [skill] else allowed)
    [] (store r).

Definition Validate `{MapRange} (r : state) : option error :=
  MapStore.ForEach
    (λ err id skill,
       match err with
       | Some _ => err
       | None =>
           match sk_Validate skill with
           | Some vErr => Some (EFmt "registry validation failed for skill %s: %w" [FS id; FW vErr])
           | None => None
           end
       end) None (store r).

Definition Unregister (id : string) (r : state) (w : W) : state * W * option error :=
  let '(store', ok) := MapStore.DeleteIfExists id (store r) in
  if negb ok then (r, w, Some (EFmt "%w: %s" [FW ErrSkillNotFound; FS id]))
  else (mkState store' (callbacks r),
        fireCallbacks (callbacks r) (mkChangeEvent ChangeEventUnregister id) w, None).

Definition Subscribe (cb : ChangeEvent → W → W * bool) (r : state) : state :=
  mkState (store r) (callbacks r ++ [cb]).
End registry.
Arguments state : clear implicits.
End SkillRegistry.

(* ------------------------------------------------------------------ *)
(** ** Capabilities ([src/capability]) *)
(* ------------------------------------------------------------------ *)

Definition CapabilityKindSkill : string := "skill".
Definition CapabilityKindMCP : string := "mcp".
Definition CapabilityKindNative : string := "native".

(** The two implementations of the interface [Capability]. *)
Inductive Capability :=
| capabilityAdapter (id name description kind : string) (inputSchema : option JSONSchema)
    (sourceID : string)
| skillCapability (s : Skill).

Definition cap_ID (c : Capability) : string :=
  match c with capabilityAdapter id _ _ _ _ _ => id | skillCapability s => sk_ID s end.
Definition cap_Kind (c : Capability) : string :=
  match c with capabilityAdapter _ _ _ k _ _ => k | skillCapability _ => CapabilityKindSkill end.

(** [mcp.ClientTool] *)
Record ClientTool := mkClientTool {
  ct_Name : string;
  ct_Description : string;
  ct_InputSchema : option JSONSchema
}.

Definition NewFromSkill (s : Skill) : Capability := skillCapability s.
Definition NewFromMCP (serverID : string) (tool : ClientTool) : Capability :=
  capabilityAdapter ("mcp." +:+ serverID +:+ "." +:+ ct_Name tool) (ct_Name tool)
    (ct_Description tool) CapabilityKindMCP (ct_InputSchema tool) serverID.
Definition NewFromNative (id name desc : string) (schema : option JSONSchema) : Capability :=
  capabilityAdapter id name desc CapabilityKindNative schema "builtin".

Definition CapabilityToDescriptor (c : Capability) : SkillDescriptor :=
  match c with
  | skillCapability s => GetDescriptor s
  | capabilityAdapter id name desc kind schema src => mkSkillDescriptor id name desc schema kind src
  end.

Module CapabilityRegistry.
Definition New : gmap string Capability := MapStore.New.
Definition Register (cap : option Capability) (r : gmap string Capability) :
    gmap string Capability * option error :=
  match cap with
  | None => (r, Some (EFmt "capability must not be nil" []))
  | Some cap => (MapStore.Put (cap_ID cap) cap r, None)
  end.
Definition Unregister (id : string) (r : gmap string Capability) : gmap string Capability :=
  MapStore.Delete id r.
Definition Get (r : gmap string Capability) (id : string) : result error Capability :=
  match MapStore.Get r id with
  | None => Err (EFmt "capability %q not found" [FS id])
  | Some c => Ok c
  end.
Definition List_ `{MapRange} (r : gmap string Capability) : list SkillDescriptor :=
  MapStore.ForEach (λ descs _ c, descs ++ [CapabilityToDescriptor c]) [] r.
Definition ListByKind `{MapRange} (kind : string) (r : gmap string Capability) : list SkillDescriptor :=
  MapStore.ForEach (λ descs _ c, if String.eqb (cap_Kind c) kind
                                 then descs ++ [CapabilityToDescriptor c] else descs) [] r.
End CapabilityRegistry.

(* ------------------------------------------------------------------ *)
(** ** Loops over the store *)
(* ------------------------------------------------------------------ *)

Lemma foldl_collect {A B} (p : A → bool) (f : A → B) l acc :
  foldl (λ a x, if p x then a ++ [f x] else a) acc l
  = acc ++ map f (filter (λ x, p x = true) l).
Proof.
  revert acc. induction l as [|x l IH]; intros acc; simpl; [by rewrite app_nil_r|].
  rewrite IH, filter_cons. destruct (p x) eqn:Hp.
  - rewrite decide_True by done. simpl. by rewrite <-app_assoc.
  - by rewrite decide_False by done.
Qed.

Lemma ForEach_collect `{MapRange} {T B} (p : string → T → bool) (f : string → T → B) (s : gmap string T) :
  MapStore.ForEach (λ a k v, if p k v then a ++ [f k v] else a) [] s
  = map (λ kv, f kv.1 kv.2) (filter (λ kv, p kv.1 kv.2 = true) (range s)).
Proof. apply (foldl_collect (λ kv, p kv.1 kv.2) (λ kv, f kv.1 kv.2)). Qed.

Lemma elem_of_ForEach `{MapRange} {T B} (p : string → T → bool) (f : string → T → B)
    (s : gmap string T) b :
  b ∈ MapStore.ForEach (λ a k v, if p k v then a ++ [f k v] else a) [] s ↔
  ∃ k v, s !! k = Some v ∧ p k v = true ∧ b = f k v.
Proof.
  rewrite ForEach_collect. rewrite list_elem_of_fmap. split.
  - intros ([k v] & -> & Hin). apply list_elem_of_filter in Hin as [Hp Hin].
    apply elem_of_range in Hin. eauto.
  - intros (k & v & Hk & Hp & ->). exists (k, v). split; [done|].
    apply list_elem_of_filter. split; [done|]. by apply elem_of_range.
Qed.

Module SkillRegistryFacts.
Import SkillRegistry.

Lemma permSet_elem permissions (acc : gset string) x :
  x ∈ foldl (λ s p, {[p]} ∪ s) acc permissions ↔ x ∈ permissions ∨ x ∈ acc.
Proof. revert acc. induction permissions; intros acc; simpl; [set_solver|]. rewrite IHpermissions. set_solver. Qed.

Lemma can_use_spec permissions skill :
  can_use (foldl (λ s p, {[p]} ∪ s) ∅ permissions) skill = true ↔
  sk_RequiredPermissions skill ⊆ permissions.
Proof.
  unfold can_use. rewrite forallb_forall. split.
  - intros Hall x Hx%list_elem_of_In. apply Hall in Hx.
    apply bool_decide_eq_true, permSet_elem in Hx. set_solver.
  - intros Hsub x Hx%list_elem_of_In. apply bool_decide_eq_true, permSet_elem. left. by apply Hsub.
Qed.

Lemma ListByPermission_spec `{MapRange} {W} permissions (r : state W) s :
  s ∈ ListByPermission permissions r ↔
  ∃ id, store r !! id = Some s ∧ sk_RequiredPermissions s ⊆ permissions.
Proof.
  unfold ListByPermission. rewrite (elem_of_ForEach (λ _ v, can_use _ v) (λ _ v, v)). split.
  - intros (k & v & Hk & Hc & ->). exists k. split; [done|]. by apply can_use_spec.
  - intros (id & Hid & Hsub). exists id, s. split_and!; [done| |done]. by apply can_use_spec.
Qed.

Lemma List_spec `{MapRange} {W} (r : state W) :
  List_ r = sort_strings (map_to_list (store r)).*1.
Proof.
  unfold List_. apply sort_strings_proper.
  pose proof (ForEach_collect (λ _ _, true) (λ k _, k) (store r)) as Hc. simpl in Hc. rewrite Hc.
  rewrite range_perm. induction (map_to_list (store r)) as [|x l IH]; [done|].
  rewrite filter_cons, decide_True by done. csimpl. by rewrite IH.
Qed.

(** A subscriber that writes events down, panicking or not. *)
Definition logger (panics : ChangeEvent → bool) (e : ChangeEvent) (w : list ChangeEvent) :
    list ChangeEvent * bool := (w ++ [e], panics e).

(** The registrations and removals a registry goes through. *)
Inductive step : state (list ChangeEvent) * list ChangeEvent →
                 state (list ChangeEvent) * list ChangeEvent → Prop :=
| step_register skill r w r' w' err :
    Register skill r w = (r', w', err) → step (r, w) (r', w')
| step_unregister id r w r' w' err :
    Unregister id r w = (r', w', err) → step (r, w) (r', w').

(** What a subscriber concludes from the events. *)
Definition replay (log : list ChangeEvent) : gset string :=
  foldl (λ ids e, match ce_Type e with
                  | ChangeEventRegister => {[ce_SkillID e]} ∪ ids
                  | ChangeEventUnregister => ids ∖ {[ce_SkillID e]}
                  end) ∅ log.

Lemma replay_snoc log e :
  replay (log ++ [e])
  = match ce_Type e with
    | ChangeEventRegister => {[ce_SkillID e]} ∪ replay log
    | ChangeEventUnregister => replay log ∖ {[ce_SkillID e]}
    end.
Proof. unfold replay. by rewrite foldl_app. Qed.

Definition invariant (panics : ChangeEvent → bool)
    (c : state (list ChangeEvent) * list ChangeEvent) : Prop :=
  callbacks c.1 = [logger panics] ∧ replay c.2 = dom (store c.1) ∧
  ∀ id s, store c.1 !! id = Some s → sk_ID s = id ∧ id ≠ "" ∧ sk_Validate s = None.

Lemma step_invariant panics c c' : step c c' → invariant panics c → invariant panics c'.
Proof.
  intros Hs (Hcb & Hrep & Hok). destruct Hs as [skill r w r' w' err He|id r w r' w' err He]; simpl in *.
  - unfold Register in He. destruct skill as [s|]; [|by simplify_eq].
    destruct (String.eqb_spec (sk_ID s) "") as [|Hne]; [by simplify_eq|].
    destruct (sk_Validate s) eqn:Hv; [by simplify_eq|]. unfold MapStore.PutIfAbsent in He.
    destruct (store r !! sk_ID s) eqn:Hl; simpl in He; [by simplify_eq|].
    rewrite Hcb in He. simpl in He. simplify_eq. unfold invariant. simpl.
    rewrite replay_snoc, Hrep, dom_insert_L. simpl. split_and!; [done..|].
    intros id s'. destruct (decide (id = sk_ID s)) as [->|Hn].
    + rewrite lookup_insert_eq. intros [= <-]. auto.
    + rewrite lookup_insert_ne by done. apply Hok.
  - unfold Unregister, MapStore.DeleteIfExists in He.
    destruct (store r !! id) eqn:Hl; simpl in He; [|by simplify_eq].
    rewrite Hcb in He. simpl in He. simplify_eq. unfold invariant. simpl.
    rewrite replay_snoc, Hrep, dom_delete_L. simpl. split_and!; [done..|].
    intros id' s' [_ Hs']%lookup_delete_Some. by apply Hok.
Qed.

Definition start (panics : ChangeEvent → bool) : state (list ChangeEvent) * list ChangeEvent :=
  (Subscribe (logger panics) New, []).

Lemma start_invariant panics : invariant panics (start panics).
Proof.
  split_and!; [done| |].
  - simpl. by rewrite dom_empty_L.
  - intros id s. simpl. by rewrite lookup_empty.
Qed.

Lemma reachable_invariant panics c : rtc step (start panics) c → invariant panics c.
Proof.
  intros Hr. assert (∀ c0, rtc step c0 c → invariant panics c0 → invariant panics c) as Hgen.
  { intros c0 H0. induction H0; eauto using step_invariant. }
  apply (Hgen _ Hr), start_invariant.
Qed.
End SkillRegistryFacts.

(* ------------------------------------------------------------------ *)
(** ** Properties *)
(* ------------------------------------------------------------------ *)

(** C32: the change events are a faithful account of the registry: in every state
    reached by registrations and removals, successful or not, a subscriber that
    replays the events it received, even one that panics on them, arrives at
    exactly the registered IDs; and every stored skill is valid and stored under
    its own non-empty ID. *)
Theorem change_events_account_for_the_registry panics r log :
  rtc SkillRegistryFacts.step (SkillRegistryFacts.start panics) (r, log) →
  SkillRegistryFacts.replay log = dom (SkillRegistry.store r) ∧
  ∀ id s, SkillRegistry.store r !! id = Some s → sk_ID s = id ∧ id ≠ "" ∧ sk_Validate s = None.
Proof. intros Hr. by destruct (SkillRegistryFacts.reachable_invariant panics (r, log) Hr) as (_ & ? & ?). Qed.

Definition sample_skill (id : string) (perms : list string) : Skill :=
  mkSkill id id "" None None perms 0 None None None None None.

Lemma change_events_account_for_the_registry_witness :
  SkillRegistryFacts.replay
    [SkillRegistry.mkChangeEvent SkillRegistry.ChangeEventRegister "core/a";
     SkillRegistry.mkChangeEvent SkillRegistry.ChangeEventUnregister "core/a"]
  = dom (∅ : gmap string Skill).
Proof.
  eapply (change_events_account_for_the_registry (λ _, true)
    (SkillRegistry.mkState ∅ [SkillRegistryFacts.logger (λ _, true)])).
  eapply rtc_l; [eapply (SkillRegistryFacts.step_register (Some (sample_skill "core/a" []))); reflexivity|].
  eapply rtc_l; [eapply (SkillRegistryFacts.step_unregister "core/a"); reflexivity|].
  apply rtc_refl.
Defined.

(** a caller is shown exactly the skills all of whose required permissions it
    holds, and the list of IDs is the sorted set of the registered ones. *)
Theorem listing_by_permission_is_exact `{MapRange} {W} (r : SkillRegistry.state W) permissions :
  (∀ s, s ∈ SkillRegistry.ListByPermission permissions r ↔
        ∃ id, SkillRegistry.store r !! id = Some s ∧ sk_RequiredPermissions s ⊆ permissions) ∧
  SkillRegistry.List_ r = sort_strings (map_to_list (SkillRegistry.store r)).*1.
Proof.
  split; [intros s; apply SkillRegistryFacts.ListByPermission_spec|apply SkillRegistryFacts.List_spec].
Qed.

(** the capability registry is a map from IDs: the last capability registered under
    an ID is the one found until it is removed, other IDs are not touched, and the
    listings hold one descriptor for every capability, of the kind asked for. *)
Theorem capability_registry_is_a_map `{MapRange} (r : gmap string Capability) :
  (∀ c, CapabilityRegistry.Get (CapabilityRegistry.Register (Some c) r).1 (cap_ID c) = Ok c) ∧
  (∀ c id, id ≠ cap_ID c →
     CapabilityRegistry.Get (CapabilityRegistry.Register (Some c) r).1 id = CapabilityRegistry.Get r id) ∧
  (∀ id id', is_ok (CapabilityRegistry.Get (CapabilityRegistry.Unregister id r) id') =
     is_ok (CapabilityRegistry.Get r id') && negb (String.eqb id id')) ∧
  CapabilityRegistry.List_ r ≡ₚ map (λ kv, CapabilityToDescriptor kv.2) (map_to_list r) ∧
  (∀ kind, CapabilityRegistry.ListByKind kind r
     ≡ₚ map (λ kv, CapabilityToDescriptor kv.2) (filter (λ kv, cap_Kind kv.2 = kind) (map_to_list r))).
Proof.
  unfold CapabilityRegistry.Get, CapabilityRegistry.Register, CapabilityRegistry.Unregister, MapStore.Get,
    MapStore.Put, MapStore.Delete.
  split_and!.
  - intros c. cbn [fst]. by rewrite lookup_insert_eq.
  - intros c id Hid. cbn [fst]. by rewrite lookup_insert_ne.
  - intros id id'. destruct (String.eqb_spec id id') as [->|Hne].
    + rewrite lookup_delete_eq. by rewrite andb_false_r.
    + rewrite lookup_delete_ne by done. by rewrite andb_true_r.
  - pose proof (ForEach_collect (λ _ _, true) (λ _, CapabilityToDescriptor) r) as Hf.
    unfold CapabilityRegistry.List_. simpl in Hf. rewrite Hf.
    assert (∀ l : list (string * Capability), filter (λ _, true = true) l = l) as ->
      by (induction l as [|kv l IH]; [done|]; by rewrite filter_cons_True, IH).
    by rewrite range_perm.
  - intros kind. pose proof (ForEach_collect (λ _ c, String.eqb (cap_Kind c) kind) (λ _, CapabilityToDescriptor) r) as Hf.
    unfold CapabilityRegistry.ListByKind. rewrite Hf. rewrite range_perm.
    rewrite (list_filter_iff _ (λ kv, cap_Kind kv.2 = kind)); [done|]. intros kv. apply String.eqb_eq.
Qed.

(** the ID made for an MCP tool does not determine the server and the tool: a
    dot may belong to either, and registering the second capability replaces the
    first without an error. *)
Theorem mcp_capability_ids_collide a b c (t1 t2 : ClientTool) (r : gmap string Capability) :
  ct_Name t1 = b +:+ "." +:+ c → ct_Name t2 = c →
  let r1 := (CapabilityRegistry.Register (Some (NewFromMCP a t1)) r).1 in
  CapabilityRegistry.Register (Some (NewFromMCP (a +:+ "." +:+ b) t2)) r1
  = (<[cap_ID (NewFromMCP a t1) := NewFromMCP (a +:+ "." +:+ b) t2]> r, None).
Proof.
  intros H1 H2. unfold CapabilityRegistry.Register, MapStore.Put. cbn [fst].
  unfold NewFromMCP. cbn [cap_ID]. rewrite H1, H2, !sapp_assoc. by rewrite insert_insert_eq.
Qed.

Lemma mcp_capability_ids_collide_witness :
  CapabilityRegistry.Get
    (CapabilityRegistry.Register (Some (NewFromMCP "his.lab" (mkClientTool "query" "" None)))
       (CapabilityRegistry.Register (Some (NewFromMCP "his" (mkClientTool "lab.query" "" None))) ∅).1).1
    "mcp.his.lab.query"
  = Ok (NewFromMCP "his.lab" (mkClientTool "query" "" None)).
Proof.
  refine (eq_trans (f_equal (λ x, CapabilityRegistry.Get x.1 "mcp.his.lab.query")
    (mcp_capability_ids_collide "his" "lab" "query" (mkClientTool "lab.query" "" None)
       (mkClientTool "query" "" None) ∅ eq_refl eq_refl)) _).
  vm_compute. reflexivity.
Defined.
