(* ===== verification/Planner.v ===== *)
(** The planner ([src/planner], [src/planning]): plan limits and their validator,
    tool specifications, the prompts, the round trip to the language model and
    the two entry points [Plan] and [Replan]. *)
From S2P Require Export Plan Profile Router.
From Stdlib Require Import Ascii.

(* ------------------------------------------------------------------ *)
(** ** Shared planning types ([src/planning]) *)
(* ------------------------------------------------------------------ *)

Record AssistantSoul := mkAssistantSoul {
  as_SystemPrompt : string;
  as_Personality : string;
  as_Instructions : string;
  as_AllowedSkills : list string;
  as_AllowedTools : list string
}.

Record SearchResult := mkSearchResult {
  sres_Content : string;
  sres_Score : float64
}.

Record TurnToolResult := mkTurnToolResult {
  tr_StepName : string;
  tr_StepType : string;
  tr_Success : bool;
  tr_Summary : string;
  tr_Output : string;
  tr_Error : string
}.

(** [pc_ProgressFn] tells whether a callback is set; the calls made are part of
    the result of a planning round. *)
Record PlannerContext := mkPlannerContext {
  pc_AssistantID : string;
  pc_Soul : AssistantSoul;
  pc_ProfileSoul : option Soul;
  pc_ProfileOutput : option OutputPolicy;
  pc_MemoryContext : list SearchResult;
  pc_Skills : list SkillDescriptor;
  pc_UserRequest : string;
  pc_ProgressFn : bool;
  pc_ConversationHistory : list Message;
  pc_TurnResults : list TurnToolResult
}.

Definition WithRequest (c : PlannerContext) (msg : string) : PlannerContext :=
  mkPlannerContext (pc_AssistantID c) (pc_Soul c) (pc_ProfileSoul c) (pc_ProfileOutput c)
    (pc_MemoryContext c) (pc_Skills c) msg (pc_ProgressFn c) (pc_ConversationHistory c)
    (pc_TurnResults c).

(* ------------------------------------------------------------------ *)
(** ** Limits and validation (plan_limits.go, plan_validator.go) *)
(* ------------------------------------------------------------------ *)

Record ExecutionLimits := mkExecutionLimits {
  MaxSteps : Z;
  MaxToolCalls : Z;
  MaxExecutionTime : Z
}.
Definition DefaultLimits : ExecutionLimits := mkExecutionLimits 10 15 (300 * Second).

Definition ErrNilPlan : error := ESentinel "planner: execution plan is nil".
Definition ErrEmptyAssistantID : error := ESentinel "planner: plan has empty assistant ID".
Definition ErrEmptySteps : error := ESentinel "planner: plan must have at least one step".
Definition ErrTooManySteps : error := ESentinel "planner: plan exceeds maximum allowed steps".
Definition ErrTooManyToolCalls : error := ESentinel "planner: plan exceeds maximum allowed tool calls".
Definition ErrInvalidStepType : error := ESentinel "planner: invalid step type".
Definition ErrEmptyStepName : error := ESentinel "planner: step missing name".

Definition NewValidator (limits : option ExecutionLimits) : ExecutionLimits :=
  default DefaultLimits limits.

(** The loop over the steps: the number of tool calls, or the first error. *)
Fixpoint count_tools (i : nat) (toolCount : Z) (steps : list ExecutionStep) : result error Z :=
  match steps with
  | [] => Ok toolCount
  | step :: rest =>
      if String.eqb (es_Name step) "" then
        Err (EFmt "%w at index %d" [FW ErrEmptyStepName; FN i])
      else if String.eqb (es_Type step) StepTypeSkill then count_tools (S i) (toolCount + 1) rest
      else if String.eqb (es_Type step) StepTypeTool then count_tools (S i) (toolCount + 1) rest
      else if String.eqb (es_Type step) StepTypeLLM then count_tools (S i) toolCount rest
      else Err (EFmt "%w at index %d: %q" [FW ErrInvalidStepType; FN i; FS (es_Type step)])
  end.

Definition Validator_Validate (limits : ExecutionLimits) (plan : option ExecutionPlan) : option error :=
  match plan with
  | None => Some ErrNilPlan
  | Some plan =>
      let n := length (ep_Steps plan) in
      if String.eqb (ep_AssistantID plan) "" then Some ErrEmptyAssistantID
      else if n =? 0 then Some ErrEmptySteps
      else if (MaxSteps limits <? Z.of_nat n)%Z then
        Some (EFmt "%w: got %d, max %d" [FW ErrTooManySteps; FN n; FI (MaxSteps limits)])
      else
        match count_tools 0 0 (ep_Steps plan) with
        | Err e => Some e
        | Ok toolCount =>
            if (MaxToolCalls limits <? toolCount)%Z then
              Some (EFmt "%w: got %d, max %d"
                      [FW ErrTooManyToolCalls; FI toolCount; FI (MaxToolCalls limits)])
            else None
        end
  end.

(* ------------------------------------------------------------------ *)
(** ** Tool specifications (toolspec.go) *)
(* ------------------------------------------------------------------ *)

Record ToolSpec := mkToolSpec {
  ts_ID : string;
  ts_Name : string;
  ts_Description : string;
  ts_Parameters : gmap string string;
  ts_Required : list string
}.

Definition param_type (schema : JSONSchema) : string :=
  let typeStr := if String.eqb (Type_ schema) "" then "value" else Type_ schema in
  if negb (String.eqb (Description schema) "") && negb (String.eqb (Description schema) typeStr)
  then typeStr +:+ " (" +:+ Description schema +:+ ")" else typeStr.

(** The loop over the properties; [None] is the nil dereference a property whose
    schema is null leads to. *)
Fixpoint spec_params (acc : gmap string string) (ps : list (string * option JSONSchema)) :
    option (gmap string string) :=
  match ps with
  | [] => Some acc
  | (name, Some schema) :: ps => spec_params (<[name := param_type schema]> acc) ps
  | (_, None) :: _ => None
  end.

Definition SchemaToToolSpec (desc : SkillDescriptor) : option ToolSpec :=
  match sd_InputSchema desc with
  | None => Some (mkToolSpec (sd_ID desc) (sd_Name desc) (sd_Description desc) ∅ [])
  | Some schema =>
      params ← spec_params ∅ (props schema);
      Some (mkToolSpec (sd_ID desc) (sd_Name desc) (sd_Description desc) params (Required schema))
  end.
Definition CapabilityToToolSpec (desc : SkillDescriptor) : option ToolSpec := SchemaToToolSpec desc.

(** One parameter of the list: separator, name, type and the marker. *)
Fixpoint format_params (spec : ToolSpec) (first : bool) (names : list string) : string :=
  match names with
  | [] => ""
  | n :: names =>
      (if first then "" else ", ") +:+
      n +:+ ": " +:+ default "" (ts_Parameters spec !! n) +:+
      (if bool_decide (n ∈ ts_Required spec) then " [required]" else "") +:+
      format_params spec false names
  end.

(** Sorting the names forgets the order of the range over the map. *)
Definition format_spec (spec : ToolSpec) : string :=
  "- " +:+ ts_ID spec +:+ " (" +:+ ts_Name spec +:+ "): " +:+ ts_Description spec +:+
  (if 0 <? size (ts_Parameters spec) then
     nl +:+ "  Params: " +:+
     format_params spec true (sort_strings (map_to_list (ts_Parameters spec)).*1)
   else "") +:+ nl.

Definition FormatToolSpecs (specs : list ToolSpec) : string :=
  foldr (λ spec rest, format_spec spec +:+ rest) "" specs.

(* ------------------------------------------------------------------ *)
(** ** Prompts ([src/planner/prompts]) *)
(* ------------------------------------------------------------------ *)

Definition escapeXML (s : string) : string :=
  let s := replace_all s "&" "&amp;" in
  let s := replace_all s "<" "&lt;" in
  replace_all s ">" "&gt;".

Definition CollectMemoryStrings (entries : list SearchResult) : list string :=
  map sres_Content entries.

Record TurnResultData := mkTurnResultData {
  trd_StepName : string;
  trd_StepType : string;
  trd_Success : bool;
  trd_Summary : string;
  trd_Error : string
}.
Definition NewTurnResultData (tr : TurnToolResult) : TurnResultData :=
  mkTurnResultData (tr_StepName tr) (tr_StepType tr) (tr_Success tr) (tr_Summary tr) (tr_Error tr).

Record PlanData := mkPlanData {
  pd_Personality : string;
  pd_Instructions : string;
  pd_MemoryContext : list string;
  pd_TurnResults : list TurnResultData;
  pd_Skills : string;
  pd_UserRequest : string
}.

Record ReplanStepData := mkReplanStepData {
  rsd_Type : string;
  rsd_Name : string;
  rsd_Args : string
}.

Record ReplanData := mkReplanData {
  rd_OriginalSteps : list ReplanStepData;
  rd_FailedStepType : string;
  rd_FailedStepName : string;
  rd_ErrorMessage : string;
  rd_Trigger : string;
  rd_PreviousResults : gmap string string;
  rd_Personality : string;
  rd_Instructions : string;
  rd_MemoryContext : list string;
  rd_TurnResults : list TurnResultData;
  rd_Skills : string;
  rd_UserRequest : string
}.

(** [{{- if .F}} ... {{- end}}] around a line that shows a string field. *)
Definition when_set (s text : string) : string := if String.eqb s "" then "" else text.

Definition concat_map {A : Type} (f : A → string) (l : list A) : string :=
  foldr (λ x rest, f x +:+ rest) "" l.

(** The sections both templates share. *)
Definition personality_section (p : string) : string :=
  when_set p (nl +:+ nl +:+ "Personality: " +:+ p).
Definition instructions_section (i : string) : string :=
  when_set i (nl +:+ nl +:+ "Specific Instructions:" +:+ nl +:+ i).
Definition memory_section (l : list string) : string :=
  match l with
  | [] => ""
  | _ => nl +:+ nl +:+ "Relevant Memory Context:" +:+ nl +:+ concat_map (λ m, nl +:+ "- " +:+ m) l
  end.
Definition request_section (skills request : string) : string :=
  nl +:+ nl +:+ "Available skills/tools:" +:+ nl +:+ skills +:+ nl +:+ nl +:+
  "<user_request>" +:+ nl +:+ request +:+ nl +:+ "</user_request>".
Definition turn_line (tr : TurnResultData) : string :=
  nl +:+ "- [" +:+ trd_StepType tr +:+ ": " +:+ trd_StepName tr +:+ "] " +:+
  (if trd_Success tr then "OK" else "FAILED") +:+
  when_set (trd_Summary tr) (": " +:+ trd_Summary tr) +:+
  when_set (trd_Error tr) (": " +:+ trd_Error tr).
Definition turns_section (l : list TurnResultData) : string :=
  match l with
  | [] => ""
  | _ => nl +:+ nl +:+ "Previous Turn Results:" +:+ nl +:+ concat_map turn_line l
  end.

Section templates.
(** The fixed text the two template files end with: the format of the answer and
    the rules for the model.  The replan rules quote the failed step and the
    error between three fixed texts. *)
Variable plan_rules replan_rules1 replan_rules2 replan_rules3 : string.

(** [PlanTemplate.Execute] on [plan_prompt.md]. *)
Definition render_plan (d : PlanData) : string :=
  "You are an execution planner. Create a deterministic execution plan to handle the user's request."
    +:+ nl +:+ "/no_think" +:+
  personality_section (pd_Personality d) +:+
  instructions_section (pd_Instructions d) +:+
  memory_section (pd_MemoryContext d) +:+
  request_section (pd_Skills d) (pd_UserRequest d) +:+ plan_rules.

Fixpoint step_lines (i : nat) (l : list ReplanStepData) : string :=
  match l with
  | [] => ""
  | s :: l =>
      pretty (Z.of_nat (i + 1)) +:+ ". [" +:+ rsd_Type s +:+ "] " +:+ rsd_Name s +:+
      when_set (rsd_Args s) (" args=" +:+ rsd_Args s) +:+ nl +:+ step_lines (S i) l
  end.

(** Templates range over a map in the order of its keys. *)
Definition previous_section (m : gmap string string) : string :=
  if size m =? 0 then ""
  else nl +:+ nl +:+ "Completed Step Results (Do NOT repeat these steps):" +:+ nl +:+
       concat_map (λ k, nl +:+ "- " +:+ k +:+ ": " +:+ default "" (m !! k))
         (sort_strings (map_to_list m).*1).

(** [ReplanTemplate.Execute] on [replan_prompt.md]. *)
Definition render_replan (d : ReplanData) : string :=
  "A previous execution plan failed. Generate a revised execution plan to complete the task."
    +:+ nl +:+ "/no_think" +:+ nl +:+ nl +:+ "Original Plan Steps:" +:+ nl +:+
  step_lines 0 (rd_OriginalSteps d) +:+ nl +:+
  "Failed Step: [" +:+ rd_FailedStepType d +:+ "] " +:+ rd_FailedStepName d +:+ nl +:+
  "Failure Reason: " +:+ rd_ErrorMessage d +:+ nl +:+ "Trigger: " +:+ rd_Trigger d +:+
  previous_section (rd_PreviousResults d) +:+
  personality_section (rd_Personality d) +:+
  instructions_section (rd_Instructions d) +:+
  turns_section (rd_TurnResults d) +:+
  memory_section (rd_MemoryContext d) +:+
  request_section (rd_Skills d) (rd_UserRequest d) +:+
  replan_rules1 +:+ rd_FailedStepName d +:+ replan_rules2 +:+ rd_ErrorMessage d +:+ replan_rules3.

(** [None] is the nil dereference of [SchemaToToolSpec]. *)
Definition buildPrompt (pCtx : PlannerContext) : option string :=
  specs ← mapM SchemaToToolSpec (pc_Skills pCtx);
  Some (render_plan
    (mkPlanData (as_Personality (pc_Soul pCtx)) (as_Instructions (pc_Soul pCtx))
       (CollectMemoryStrings (pc_MemoryContext pCtx))
       (map NewTurnResultData (pc_TurnResults pCtx))
       (FormatToolSpecs specs) (escapeXML (pc_UserRequest pCtx)))).

Record ReplanContext := mkReplanContext {
  rc_OriginalPlan : option ExecutionPlan;
  rc_FailedStep : ExecutionStep;
  rc_FailedStepResult : option StepResult;
  rc_Trigger : string;
  rc_PreviousResults : gmap string any;
  rc_PlannerContext : option PlannerContext;
  rc_ErrorMessage : string
}.

(** [json.Marshal]'s error is dropped, which leaves no bytes. *)
Definition replan_step_data (h : heap) (step : ExecutionStep) : ReplanStepData :=
  mkReplanStepData (es_Type step) (es_Name step)
    (match es_Arguments step with
     | Some l => json_bytes (AMap (map_to_list (args_at h l)))
     | None => ""
     end).

Definition previous_text (v : any) : string :=
  match v with AString s => s | _ => json_bytes v end.

Definition buildReplanPrompt (h : heap) (rCtx : ReplanContext) (original : ExecutionPlan)
    (pCtx : PlannerContext) : option string :=
  specs ← mapM SchemaToToolSpec (pc_Skills pCtx);
  Some (render_replan
    (mkReplanData (map (replan_step_data h) (ep_Steps original))
       (es_Type (rc_FailedStep rCtx)) (es_Name (rc_FailedStep rCtx))
       (rc_ErrorMessage rCtx) (rc_Trigger rCtx) (previous_text <$> rc_PreviousResults rCtx)
       (as_Personality (pc_Soul pCtx)) (as_Instructions (pc_Soul pCtx))
       (CollectMemoryStrings (pc_MemoryContext pCtx))
       (map NewTurnResultData (pc_TurnResults pCtx))
       (FormatToolSpecs specs) (escapeXML (pc_UserRequest pCtx)))).
End templates.

(* ------------------------------------------------------------------ *)
(** ** The round trip to the model (execution_planner.go, replan.go) *)
(* ------------------------------------------------------------------ *)

Definition ErrPlanningFailed : error := ESentinel "planner: planning failed".
Definition ErrNoSkillsAvailable : error := ESentinel "planner: no skills available".

Definition filterSystemMessages (msgs : list Message) : list Message :=
  filter (λ m, String.eqb (msg_Role m) "system" = false) msgs.

(** The system text before the output directives. *)
Definition base_system_text (pCtx : PlannerContext) : string :=
  match pc_ProfileSoul pCtx with
  | Some s => if nonempty (RenderPrompt s) then RenderPrompt s else as_SystemPrompt (pc_Soul pCtx)
  | None => as_SystemPrompt (pc_Soul pCtx)
  end.

Definition system_text (pCtx : PlannerContext) : string :=
  let systemText := base_system_text pCtx in
  match pc_ProfileOutput pCtx with
  | Some o =>
      let dir := RenderOutputDirective o in
      if nonempty dir then
        if nonempty systemText then systemText +:+ nl +:+ dir +:+ "." else dir +:+ "."
      else systemText
  | None => systemText
  end.

Definition plan_request (pCtx : PlannerContext) (prompt : string) : GenerateRequest :=
  mkGenerateRequest
    (NewTextMessage "system" (system_text pCtx) ::
     filterSystemMessages (pc_ConversationHistory pCtx) ++ [NewTextMessage "user" prompt])
    [] 8192
    (match pc_ProfileOutput pCtx with
     | Some o => default (f_of_Z 0) (op_Temperature o)
     | None => f_of_Z 0
     end) None TCNil None.

Definition zero_plan : ExecutionPlan := mkExecutionPlan "" "" "" [] "" false.

Definition fence : string := "```".

Definition trim_fences (response : string) : string :=
  trim_space (trim_suffix (trim_prefix (trim_prefix (trim_space response) "```json") fence) fence).

(** [response[start : end+1]] between the first opening and the last closing
    brace, if the second comes after the first. *)
Definition brace_span (response : string) : option string :=
  match index_of "{" response, last_index_of "}" response with
  | Some start, Some fin =>
      if start <? fin then Some (sdrop start (stake (fin + 1) response)) else None
  | _, _ => None
  end.

Record planProgressEvents := mkPlanProgressEvents {
  ev_generating : string;
  ev_token : string;
  ev_complete : string
}.

Record planRoundConfig := mkPlanRoundConfig {
  prc_events : planProgressEvents;
  wrapRoutingErr : error → error;
  wrapLLMErr : error → error;
  wrapParseErr : error → error
}.

Section round.
Context `{ModelRouter}.

(** [json.Unmarshal] into a plan: it may allocate argument maps and, when it
    fails, may have filled part of the plan. *)
Variable unmarshal_plan : string → heap → ExecutionPlan → heap * ExecutionPlan * option error.

Definition parseResponse (response : string) (h : heap) : heap * result error ExecutionPlan :=
  let response := trim_fences response in
  let '(h, plan, err) := unmarshal_plan response h zero_plan in
  match err with
  | None => (h, Ok plan)
  | Some _ =>
      let failed := EFmt "invalid json: could not extract plan from response (length=%d)"
                      [FN (slen response)] in
      match brace_span response with
      | Some extracted =>
          let '(h, plan, err) := unmarshal_plan extracted h plan in
          match err with
          | None => (h, Ok plan)
          | Some _ => (h, Err failed)
          end
      | None => (h, Err failed)
      end
  end.

(** Reading the channel: the progress calls made, and the text or the error. *)
Fixpoint read_stream (token : string) (chunks : list StreamChunk) (buf : string) :
    list (string * string) * result error string :=
  match chunks with
  | [] => ([], Ok buf)
  | chunk :: chunks =>
      match sc_Error chunk with
      | Some e => ([], Err e)
      | None =>
          if negb (String.eqb (sc_Content chunk) "") then
            let '(tr, r) := read_stream token chunks (buf +:+ sc_Content chunk) in
            ((token, sc_Content chunk) :: tr, r)
          else read_stream token chunks buf
      end
  end.

(** The text the provider answers with. *)
Definition ask_provider (provider : ModelProvider) (progress : bool) (events : planProgressEvents)
    (req : GenerateRequest) : list (string * string) * result error string :=
  match mp_GenerateStream provider, progress with
  | Some stream, true =>
      match stream req with
      | Err e => ([(ev_generating events, "")], Err e)
      | Ok chunks =>
          let '(tr, r) := read_stream (ev_token events) chunks "" in
          match r with
          | Err e => ((ev_generating events, "") :: tr, Err e)
          | Ok text => ((ev_generating events, "") :: tr ++ [(ev_complete events, "")], Ok text)
          end
      end
  | _, _ =>
      match mp_Generate provider req with
      | Err e => ([], Err e)
      | Ok resp => ([], Ok (gresp_Content resp))
      end
  end.

Definition set_AssistantID (id : string) (p : ExecutionPlan) : ExecutionPlan :=
  mkExecutionPlan (ep_ID p) (ep_ParentID p) id (ep_Steps p) (ep_Reasoning p) (ep_frozen p).
Definition set_ParentID (id : string) (p : ExecutionPlan) : ExecutionPlan :=
  mkExecutionPlan (ep_ID p) id (ep_AssistantID p) (ep_Steps p) (ep_Reasoning p) (ep_frozen p).

(** The progress calls, the store and the plan or the error. *)
Definition llmPlanRound (h : heap) (pCtx : PlannerContext) (prompt : string) (cfg : planRoundConfig) :
    list (string * string) * heap * result error ExecutionPlan :=
  match Route [CapTextGeneration] (mkModelConstraints 0 "" "") with
  | Err e => ([], h, Err (wrapRoutingErr cfg e))
  | Ok provider =>
      let '(tr, r) := ask_provider provider (pc_ProgressFn pCtx) (prc_events cfg)
                        (plan_request pCtx prompt) in
      match r with
      | Err e => (tr, h, Err (wrapLLMErr cfg e))
      | Ok text =>
          match parseResponse text h with
          | (h, Err e) => (tr, h, Err (wrapParseErr cfg e))
          | (h, Ok plan) =>
              (tr, h, Ok (if String.eqb (ep_AssistantID plan) ""
                          then set_AssistantID (pc_AssistantID pCtx) plan else plan))
          end
      end
  end.

Definition plan_config : planRoundConfig :=
  mkPlanRoundConfig
    (mkPlanProgressEvents "planning_generating" "planning_token" "planning_complete")
    (λ e, EFmt "%w: routing failed: %v" [FW ErrPlanningFailed; FV e])
    (λ e, EFmt "%w: %v" [FW ErrPlanningFailed; FV e])
    (λ e, EFmt "%w: failed to parse LLM response: %v" [FW ErrPlanningFailed; FV e]).

Definition replan_config : planRoundConfig :=
  mkPlanRoundConfig
    (mkPlanProgressEvents "replanning_generating" "replanning_token" "replanning_complete")
    (λ e, EFmt "replan: routing failed: %w" [FW e])
    (λ e, EFmt "replan: %w" [FW e])
    (λ e, EFmt "replan: failed to parse LLM response: %w" [FW e]).

Variable plan_rules replan_rules1 replan_rules2 replan_rules3 : string.
Variable limits : ExecutionLimits.

(** [None] is a nil dereference while the prompt is built. *)
Definition Plan (h : heap) (pCtx : PlannerContext) :
    option (list (string * string) * heap * result error ExecutionPlan) :=
  if length (pc_Skills pCtx) =? 0 then Some ([], h, Err ErrNoSkillsAvailable)
  else
    prompt ← buildPrompt plan_rules pCtx;
    Some match llmPlanRound h pCtx prompt plan_config with
    | (tr, h, Err e) => (tr, h, Err e)
    | (tr, h, Ok plan) =>
        if length (ep_Steps plan) =? 0 then (tr, h, Ok plan)
        else
          match Validator_Validate limits (Some plan) with
          | Some e => (tr, h, Err (EFmt "%w: validation failed: %v" [FW ErrPlanningFailed; FV e]))
          | None => (tr, h, Ok plan)
          end
    end.

Variable uuid : nat → string.

(** The counter is that of the identifier generator. *)
Definition Replan (h : heap) (n : nat) (rCtx : ReplanContext) :
    option (list (string * string) * heap * nat * result error ExecutionPlan) :=
  match rc_OriginalPlan rCtx, rc_PlannerContext rCtx with
  | None, _ => Some ([], h, n, Err (EFmt "replan: original plan is nil" []))
  | _, None => Some ([], h, n, Err (EFmt "replan: planner context is nil" []))
  | Some original, Some pCtx =>
      if length (pc_Skills pCtx) =? 0 then Some ([], h, n, Err ErrNoSkillsAvailable)
      else
        prompt ← buildReplanPrompt replan_rules1 replan_rules2 replan_rules3 h rCtx original pCtx;
        Some match llmPlanRound h pCtx prompt replan_config with
        | (tr, h, Err e) => (tr, h, n, Err e)
        | (tr, h, Ok plan) =>
            let plan := set_ParentID (ep_ID original) plan in
            if length (ep_Steps plan) =? 0 then (tr, h, n, Ok plan)
            else
              match Validator_Validate limits (Some plan) with
              | Some e => (tr, h, n, Err (EFmt "replan: validation failed: %w" [FW e]))
              | None =>
                  match Validate uuid n plan with
                  | (_, n, Some e) => (tr, h, n, Err (EFmt "replan: plan freeze failed: %w" [FW e]))
                  | (plan, n, None) => (tr, h, n, Ok plan)
                  end
              end
        end
  end.
End round.

(* ------------------------------------------------------------------ *)
(** ** The validator, verified *)
(* ------------------------------------------------------------------ *)

(** Skill and tool steps consume the tool budget. *)
Definition tool_calls (steps : list ExecutionStep) : Z :=
  Z.of_nat (length (filter (λ s, String.eqb (es_Type s) StepTypeLLM = false) steps)).

Definition plan_within (limits : ExecutionLimits) (p : ExecutionPlan) : Prop :=
  ep_AssistantID p ≠ "" ∧ ep_Steps p ≠ [] ∧ (Z.of_nat (length (ep_Steps p)) ≤ MaxSteps limits)%Z ∧
  Forall step_ok (ep_Steps p) ∧ (tool_calls (ep_Steps p) ≤ MaxToolCalls limits)%Z.

Lemma tool_calls_cons s l :
  tool_calls (s :: l)
  = ((if String.eqb (es_Type s) StepTypeLLM then 0 else 1) + tool_calls l)%Z.
Proof.
  unfold tool_calls. rewrite filter_cons. destruct (String.eqb (es_Type s) StepTypeLLM).
  - rewrite decide_False by done. done.
  - rewrite decide_True by done. simpl length. lia.
Qed.

Lemma count_tools_spec i n steps :
  match count_tools i n steps with
  | Ok c => Forall step_ok steps ∧ c = (n + tool_calls steps)%Z
  | Err _ => ¬ Forall step_ok steps
  end.
Proof.
  revert i n. induction steps as [|s rest IH]; intros i n; simpl.
  { split; [constructor|]. unfold tool_calls. simpl. lia. }
  assert (HF : Forall step_ok (s :: rest) ↔ step_ok s ∧ Forall step_ok rest) by apply Forall_cons.
  unfold step_ok at 2, valid_step_type in HF. rewrite tool_calls_cons.
  destruct (String.eqb_spec (es_Name s) "") as [|Hn]; [tauto|].
  assert (Hrec : ∀ d, valid_step_type (es_Type s) = true →
            match count_tools (S i) (n + d) rest with
            | Ok c => Forall step_ok (s :: rest) ∧ c = (n + (d + tool_calls rest))%Z
            | Err _ => ¬ Forall step_ok (s :: rest)
            end).
  { intros d Ht. unfold valid_step_type in Ht. rewrite Ht in HF. specialize (IH (S i) (n + d)%Z).
    destruct (count_tools _ _ rest); [|tauto]. destruct IH. split; [tauto|lia]. }
  unfold valid_step_type in Hrec.
  destruct (String.eqb_spec (es_Type s) StepTypeSkill) as [Et|]; [rewrite Et; by apply Hrec|].
  destruct (String.eqb_spec (es_Type s) StepTypeTool) as [Et|]; [rewrite Et; by apply Hrec|].
  destruct (String.eqb_spec (es_Type s) StepTypeLLM) as [Et|].
  - specialize (Hrec 0%Z eq_refl). by rewrite Z.add_0_r in Hrec.
  - simpl in HF. intros [[_ Hc] _]%HF. done.
Qed.

Lemma Validator_Validate_spec limits p :
  Validator_Validate limits (Some p) = None ↔ plan_within limits p.
Proof.
  unfold Validator_Validate, plan_within. cbv zeta.
  destruct (String.eqb_spec (ep_AssistantID p) "") as [|Ha]; [naive_solver|].
  destruct (length (ep_Steps p) =? 0) eqn:Hl.
  { bool_simp. apply length_zero_iff_nil in Hl. naive_solver. }
  assert (ep_Steps p ≠ []) by (intros E; by rewrite E in Hl).
  destruct (Z.ltb_spec (MaxSteps limits) (Z.of_nat (length (ep_Steps p)))) as [|Hs].
  { split; [done|]. intros (_ & _ & ? & _). lia. }
  pose proof (count_tools_spec 0 0 (ep_Steps p)) as Hc.
  destruct (count_tools 0 0 (ep_Steps p)) as [c|e]; [|split; [done|tauto]].
  destruct Hc as [Hok ->]. rewrite Z.add_0_l.
  destruct (Z.ltb_spec (MaxToolCalls limits) (tool_calls (ep_Steps p))); [|by split].
  split; [done|]. intros (_ & _ & _ & _ & ?). lia.
Qed.

(** Filling in identifiers keeps a plan within its limits. *)
Lemma id_filled_steps steps steps' :
  Forall2 id_filled steps steps' →
  length steps = length steps' ∧ map es_Name steps = map es_Name steps' ∧
  tool_calls steps = tool_calls steps' ∧ (Forall step_ok steps → Forall step_ok steps').
Proof.
  induction 1 as [|s s' l l' (id & -> & _) Hl IH]; [done|]. destruct IH as (H1 & H2 & H3 & H4).
  rewrite !tool_calls_cons. simpl. split_and!; [by rewrite H1|by rewrite H2|by rewrite H3|].
  rewrite !Forall_cons. intros [? ?]. auto.
Qed.

Lemma Validate_keeps uuid n p :
  let p' := (Validate uuid n p).1.1 in
  ep_ParentID p' = ep_ParentID p ∧ ep_AssistantID p' = ep_AssistantID p.
Proof.
  unfold Validate. destruct (ep_frozen p); [done|]. destruct (length _ =? 0); [done|].
  destruct (String.eqb (ep_ID p) "");
    destruct (validate_steps _ _ _ _ _) as [[steps n'] [e|]]; done.
Qed.

(** A plan that a [Replan] round hands out. *)
Lemma Validate_within uuid n p p' n' limits :
  Validate uuid n p = (p', n', None) → plan_within limits p →
  ep_frozen p' = true ∧ plan_ok p' ∧ plan_within limits p' ∧
  ep_ParentID p' = ep_ParentID p ∧ ep_AssistantID p' = ep_AssistantID p.
Proof.
  intros Hv (Ha & Hne & Hlen & Hok & Ht).
  pose proof (Validate_keeps uuid n p) as [Hp Has]. pose proof (Validate_spec uuid n p) as Hs.
  rewrite Hv in *. simpl in Hp, Has. destruct Hs as (_ & Hacc & Hf2 & Hfr & _).
  destruct (proj1 Hacc eq_refl) as [_ (_ & _ & Hnd)].
  destruct (id_filled_steps _ _ Hf2) as (Hl & Hn & Htc & Hok').
  assert (ep_Steps p' ≠ []) by (intros E; rewrite E in Hl; by destruct (ep_Steps p)).
  rewrite bool_decide_true, orb_true_r in Hfr by done.
  unfold plan_ok, plan_within. rewrite <-Hn, <-Hl, <-Htc, Has. split_and!; auto.
Qed.

(* ------------------------------------------------------------------ *)
(** ** Escaping, verified *)
(* ------------------------------------------------------------------ *)

Definition escape_char (c : ascii) : string :=
  if Ascii.eqb c "&" then "&amp;" else if Ascii.eqb c "<" then "&lt;"
  else if Ascii.eqb c ">" then "&gt;" else String c "".

Lemma sflat_map_ext f g s : (∀ c, f c = g c) → sflat_map f s = sflat_map g s.
Proof. intros Hfg. induction s; simpl; [done|]. by rewrite Hfg, IHs. Qed.

(** Three successive replacements are one substitution of characters. *)
Lemma escapeXML_chars s : escapeXML s = sflat_map escape_char s.
Proof.
  unfold escapeXML. rewrite !replace_all_byte, !sflat_map_comp. apply sflat_map_ext. intros c.
  unfold escape_char. rewrite !(Ascii.eqb_sym c).
  destruct (Ascii.eqb_spec "&" c) as [<-|Ha]; [done|].
  cbn [sflat_map]. destruct (Ascii.eqb_spec "<" c) as [<-|Hl]; [done|].
  cbn [sflat_map String.append]. by destruct (Ascii.eqb_spec ">" c) as [<-|Hg].
Qed.

(** The reader of the three entities. *)
Fixpoint unescape (skip : nat) (s : string) : string :=
  match s with
  | sempty => ""
  | String c s' =>
      match skip with
      | S k => unescape k s'
      | 0 => if has_prefix s "&amp;" then String "&" (unescape 4 s')
             else if has_prefix s "&lt;" then String "<" (unescape 3 s')
             else if has_prefix s "&gt;" then String ">" (unescape 3 s')
             else String c (unescape 0 s')
      end
  end.

Lemma has_prefix_cons_ne c d s p : c ≠ d → has_prefix (String c s) (String d p) = false.
Proof. intros Hne. unfold has_prefix. simpl. by destruct (ascii_dec d c). Qed.

Lemma unescape_entities t :
  unescape 0 ("&amp;" +:+ t) = String "&" (unescape 0 t) ∧
  unescape 0 ("&lt;" +:+ t) = String "<" (unescape 0 t) ∧
  unescape 0 ("&gt;" +:+ t) = String ">" (unescape 0 t).
Proof. by destruct t. Qed.

Lemma unescape_escape s : unescape 0 (sflat_map escape_char s) = s.
Proof.
  induction s as [|c s IH]; [done|]. cbn [sflat_map]. unfold escape_char at 1.
  set (t := sflat_map escape_char s) in *.
  destruct (Ascii.eqb_spec c "&") as [->|Ha].
  { by rewrite (proj1 (unescape_entities t)), IH. }
  destruct (Ascii.eqb_spec c "<") as [->|Hl].
  { by rewrite (proj1 (proj2 (unescape_entities t))), IH. }
  destruct (Ascii.eqb_spec c ">") as [->|Hg].
  { by rewrite (proj2 (proj2 (unescape_entities t))), IH. }
  cbn [String.append unescape]. rewrite !has_prefix_cons_ne by done. by rewrite IH.
Qed.

Definition not_angle (c : ascii) : bool := negb (Ascii.eqb c "<") && negb (Ascii.eqb c ">").

Lemma escape_no_angle s : sall not_angle (sflat_map escape_char s) = true.
Proof.
  apply sall_sflat_map. intros c. unfold escape_char.
  destruct (Ascii.eqb c "&") eqn:Ha; [done|]. destruct (Ascii.eqb c "<") eqn:Hl; [done|].
  destruct (Ascii.eqb c ">") eqn:Hg; [done|]. simpl. unfold not_angle. by rewrite Hl, Hg.
Qed.

(* ------------------------------------------------------------------ *)
(** ** Streams and responses, verified *)
(* ------------------------------------------------------------------ *)

Definition chunk_texts (chunks : list StreamChunk) : list string :=
  filter (λ t, t ≠ "") (map sc_Content chunks).

Lemma read_stream_ok token chunks buf :
  Forall (λ c, sc_Error c = None) chunks →
  read_stream token chunks buf
  = (map (λ t, (token, t)) (chunk_texts chunks), Ok (buf +:+ concat_str (chunk_texts chunks))).
Proof.
  intros Hall. revert buf. induction Hall as [|c l Hc Hl IH]; intros buf; simpl.
  { by rewrite sapp_nil_r. }
  rewrite Hc. unfold chunk_texts. cbn [map]. rewrite filter_cons.
  destruct (String.eqb_spec (sc_Content c) "") as [E|E]; simpl.
  - rewrite decide_False by (by intros ?). apply IH.
  - rewrite decide_True by done. rewrite IH. simpl. by rewrite sapp_assoc.
Qed.

(** The first error of a stream ends it. *)
Lemma read_stream_error token l1 c l2 buf e :
  Forall (λ c, sc_Error c = None) l1 → sc_Error c = Some e →
  read_stream token (l1 ++ c :: l2) buf = (map (λ t, (token, t)) (chunk_texts l1), Err e).
Proof.
  intros Hall Hc. revert buf. induction Hall as [|d l Hd Hl IH]; intros buf; simpl.
  { by rewrite Hc. }
  rewrite Hd. unfold chunk_texts. cbn [map]. rewrite filter_cons.
  destruct (String.eqb_spec (sc_Content d) "") as [E|E]; simpl.
  - rewrite decide_False by (by intros ?). apply IH.
  - rewrite decide_True by done. by rewrite IH.
Qed.

(** The brace span of text around one object is that object. *)
Lemma brace_span_around pre body post :
  has_byte "{" pre = false → has_byte "}" post = false →
  brace_span (pre +:+ "{" +:+ body +:+ "}" +:+ post) = Some ("{" +:+ body +:+ "}").
Proof.
  intros Hpre Hpost. unfold brace_span.
  change ("{" +:+ body +:+ "}" +:+ post) with (String "{" (body +:+ String "}" post)).
  rewrite index_of_byte by done.
  assert (Hs : pre +:+ String "{" (body +:+ String "}" post)
               = (pre +:+ "{" +:+ body) +:+ String "}" post) by (by rewrite !sapp_assoc).
  rewrite Hs, last_index_of_app by done. rewrite <-Hs.
  rewrite !slen_app. simpl. replace (slen pre <? slen pre + S (slen body)) with true
    by (symmetry; apply Nat.ltb_lt; lia).
  f_equal. replace (slen pre + S (slen body) + 1) with (slen (pre +:+ "{" +:+ body +:+ "}"))
    by (rewrite !slen_app; simpl; lia).
  replace (pre +:+ String "{" (body +:+ String "}" post))
    with ((pre +:+ "{" +:+ body +:+ "}") +:+ post) by (by rewrite !sapp_assoc).
  rewrite stake_app. apply sdrop_app.
Qed.

(* ------------------------------------------------------------------ *)
(** ** Properties *)
(* ------------------------------------------------------------------ *)

(** the validator accepts a plan exactly when it is within the limits: it
    names an assistant, has between one and [MaxSteps] steps, every step has a
    name and a known type, and its skill and tool steps are at most
    [MaxToolCalls]; and a nil plan is rejected. *)
Theorem plan_limits_are_decided limits :
  Validator_Validate limits None = Some ErrNilPlan ∧
  ∀ p, Validator_Validate limits (Some p) = None ↔ plan_within limits p.
Proof. split; [done|]. apply Validator_Validate_spec. Qed.

(** C7: whatever the model answers, a plan [Replan] returns names the replaced
    plan as its parent, and unless it has no steps, the signal to stop, it is
    frozen, well formed and within the limits. *)
Theorem replan_returns_a_frozen_successor `{ModelRouter} unmarshal r1 r2 r3 limits uuid
    h n rCtx tr h' n' plan :
  Replan unmarshal r1 r2 r3 limits uuid h n rCtx = Some (tr, h', n', Ok plan) →
  ∃ original, rc_OriginalPlan rCtx = Some original ∧ ep_ParentID plan = ep_ID original ∧
    (ep_Steps plan = [] ∨ (ep_frozen plan = true ∧ plan_ok plan ∧ plan_within limits plan)).
Proof.
  unfold Replan. destruct (rc_OriginalPlan rCtx) as [original|]; [|done].
  destruct (rc_PlannerContext rCtx) as [pCtx|]; [|done].
  destruct (length (pc_Skills pCtx) =? 0); [done|].
  destruct (buildReplanPrompt _ _ _ _ _ _ _) as [prompt|]; cbn [mbind option_bind]; [|done].
  destruct (llmPlanRound _ _ _ _ _) as [[tr0 h0] [plan0|e]]; [|done].
  set (p1 := set_ParentID (ep_ID original) plan0). cbv zeta.
  destruct (length (ep_Steps p1) =? 0) eqn:Hl.
  { intros Heq. simplify_eq. exists original. bool_simp. apply length_zero_iff_nil in Hl. auto. }
  destruct (Validator_Validate limits (Some p1)) eqn:Hv; [done|].
  apply Validator_Validate_spec in Hv.
  destruct (Validate uuid n p1) as [[p2 n2] [e|]] eqn:Hu; [done|].
  intros Heq. simplify_eq. destruct (Validate_within _ _ _ _ _ _ Hu Hv) as (? & ? & ? & Hp & _).
  exists original. split_and!; [done|by rewrite Hp|auto].
Qed.

(** A router whose one provider always gives the same answer. *)
Definition echo_provider : ModelProvider :=
  mkModelProvider "acme/echo" [CapTextGeneration]
    (λ _, Ok (mkGenerateResponse "{}" [] no_usage "stop" 0)) (λ _, Ok [])
    (Some (λ _, Ok [mkStreamChunk "{" [] "" no_usage None; mkStreamChunk "}" [] "stop" no_usage None])).
Definition echo_router : ModelRouter :=
  @RouterFacts.default_router range_fwd {[ "acme/echo" := echo_provider ]}.

(** What the answer decodes to. *)
Definition decode_to (steps : list ExecutionStep) (_ : string) (h : heap) (p : ExecutionPlan) :
    heap * ExecutionPlan * option error :=
  (h, set_Steps steps p, None).

Definition sample_context : PlannerContext :=
  mkPlannerContext "asst" (mkAssistantSoul "be kind" "" "" [] []) None None []
    [mkSkillDescriptor "s" "S" "a skill" None "skill" ""] "add 1 < 2" true [] [].
Definition sample_replan : ReplanContext :=
  mkReplanContext (Some (mkExecutionPlan "plan-0" "" "asst" two_steps "" true)) sample_step None
    "tool_failure" ∅ (Some sample_context) "boom".

Lemma replan_returns_a_frozen_successor_witness :
  ∃ tr h' n' plan,
    @Replan echo_router (decode_to two_steps) "" "" "" DefaultLimits sample_uuid ∅ 0 sample_replan
      = Some (tr, h', n', Ok plan) ∧
    ∃ original, rc_OriginalPlan sample_replan = Some original ∧ ep_ParentID plan = ep_ID original ∧
      (ep_Steps plan = [] ∨ (ep_frozen plan = true ∧ plan_ok plan ∧ plan_within DefaultLimits plan)).
Proof.
  eexists _, _, _, _. split; [vm_compute; reflexivity|].
  eapply (@replan_returns_a_frozen_successor echo_router (decode_to two_steps) "" "" ""
            DefaultLimits sample_uuid ∅ 0 sample_replan).
  vm_compute. reflexivity.
Defined.

(** [Plan] hands out only plans without steps or within the limits, and it
    does not look at the names: a plan with two steps of the same name passes,
    unfrozen, although [ExecutionPlan.Validate] rejects it. *)
Theorem plan_returns_within_limits_but_unchecked_names :
  (∀ (R : ModelRouter) unmarshal rules limits h pCtx tr h' plan,
     @Plan R unmarshal rules limits h pCtx = Some (tr, h', Ok plan) →
     ep_Steps plan = [] ∨ plan_within limits plan) ∧
  ∃ tr h' plan,
    @Plan echo_router (decode_to (ep_Steps dup_plan)) "" DefaultLimits ∅ sample_context
      = Some (tr, h', Ok plan) ∧
    ep_frozen plan = false ∧ map es_Name (ep_Steps plan) = ["b"; "b"] ∧
    (Validate sample_uuid 0 plan).2 ≠ None.
Proof.
  split.
  - intros R unmarshal rules limits h pCtx tr h' plan. unfold Plan.
    destruct (length (pc_Skills pCtx) =? 0); [done|].
    destruct (buildPrompt _ _) as [prompt|]; cbn [mbind option_bind]; [|done].
    destruct (llmPlanRound _ _ _ _ _) as [[tr0 h0] [plan0|e]]; [|done].
    destruct (length (ep_Steps plan0) =? 0) eqn:Hl.
    { intros Heq. simplify_eq. bool_simp. apply length_zero_iff_nil in Hl. by left. }
    destruct (Validator_Validate limits (Some plan0)) eqn:Hv; [done|].
    intros Heq. simplify_eq. right. by apply Validator_Validate_spec.
  - eexists _, _, _. split; [vm_compute; reflexivity|]. vm_compute. split_and!; done.
Qed.

(** the request sent to the model has one system message, the first; the
    history contributes its other messages in order; and the prompt comes last
    as the user's. *)
Theorem one_system_message pCtx prompt :
  ∃ system history,
    gr_Messages (plan_request pCtx prompt) = system :: history ++ [NewTextMessage "user" prompt] ∧
    msg_Role system = "system" ∧
    Forall (λ m, msg_Role m ≠ "system") history ∧
    history = filter (λ m, msg_Role m ≠ "system") (pc_ConversationHistory pCtx).
Proof.
  eexists _, _. split; [reflexivity|]. split; [done|]. unfold filterSystemMessages. split.
  - apply Forall_forall. intros m [Hm _]%list_elem_of_filter. by apply String.eqb_neq.
  - apply list_filter_iff. intros m. apply String.eqb_neq.
Qed.

(** C38: the user's request stands between its tags in every planning prompt in a
    form that holds no angle bracket, so it can neither close the section nor
    open another, and from which the request can be read back. *)
Theorem user_request_stays_in_its_section rules pCtx prompt :
  buildPrompt rules pCtx = Some prompt →
  ∃ pre body post,
    prompt = pre +:+ "<user_request>" +:+ nl +:+ body +:+ nl +:+ "</user_request>" +:+ post ∧
    post = rules ∧ sall not_angle body = true ∧ unescape 0 body = pc_UserRequest pCtx.
Proof.
  unfold buildPrompt. destruct (mapM _ _) as [specs|]; cbn [mbind option_bind]; [|done].
  intros Heq. apply (inj Some) in Heq. subst prompt.
  unfold render_plan, request_section. cbn [pd_UserRequest pd_Skills pd_Personality pd_Instructions
    pd_MemoryContext].
  match goal with |- context [?hd +:+ nl +:+ "/no_think" +:+ ?p +:+ ?i +:+ ?m +:+ _] =>
    exists (hd +:+ nl +:+ "/no_think" +:+ p +:+ i +:+ m +:+ nl +:+ nl +:+ "Available skills/tools:"
            +:+ nl +:+ FormatToolSpecs specs +:+ nl +:+ nl) end.
  exists (escapeXML (pc_UserRequest pCtx)), rules.
  split; [|split; [reflexivity|split]].
  - by rewrite !sapp_assoc.
  - rewrite escapeXML_chars. apply escape_no_angle.
  - rewrite escapeXML_chars. apply unescape_escape.
Qed.

Lemma user_request_stays_in_its_section_witness :
  ∃ pre body post,
    default "" (buildPrompt "" sample_context)
      = pre +:+ "<user_request>" +:+ nl +:+ body +:+ nl +:+ "</user_request>" +:+ post ∧
    post = "" ∧ sall not_angle body = true ∧ unescape 0 body = "add 1 < 2".
Proof.
  apply (user_request_stays_in_its_section "" sample_context). vm_compute. reflexivity.
Defined.

(** a streamed answer is the concatenation of the chunks, the callback sees
    the non-empty chunks in order between the two stage events, and the first
    error chunk makes the call an error with nothing reported after it. *)
Theorem streaming_collects_the_chunks provider stream events req chunks :
  mp_GenerateStream provider = Some stream → stream req = Ok chunks →
  (Forall (λ c, sc_Error c = None) chunks →
     ask_provider provider true events req
     = ((ev_generating events, "") :: map (λ t, (ev_token events, t)) (chunk_texts chunks)
          ++ [(ev_complete events, "")],
        Ok (concat_str (chunk_texts chunks)))) ∧
  (∀ l1 c l2 e, chunks = l1 ++ c :: l2 → Forall (λ c, sc_Error c = None) l1 →
     sc_Error c = Some e →
     ask_provider provider true events req
     = ((ev_generating events, "") :: map (λ t, (ev_token events, t)) (chunk_texts l1), Err e)).
Proof.
  intros Hs Hc. unfold ask_provider. rewrite Hs, Hc. split.
  - intros Hall. by rewrite read_stream_ok.
  - intros l1 c l2 e -> Hall He. by rewrite (read_stream_error _ _ _ _ _ e).
Qed.

Lemma streaming_collects_the_chunks_witness :
  ask_provider echo_provider true (prc_events plan_config) (plan_request sample_context "")
  = ([("planning_generating", ""); ("planning_token", "{"); ("planning_token", "}");
      ("planning_complete", "")], Ok "{}").
Proof.
  destruct (streaming_collects_the_chunks echo_provider _ (prc_events plan_config)
    (plan_request sample_context "") _ eq_refl eq_refl) as [H _].
  refine (eq_trans (H _) _); [repeat constructor|vm_compute; reflexivity].
Defined.

(** when the answer as a whole does not decode and leaves the plan as it was,
    the object is still found in surrounding text: what is decoded is the text
    from the first opening to the last closing brace. *)
Theorem embedded_object_is_recovered unmarshal response h pre body post plan e :
  trim_fences response = pre +:+ "{" +:+ body +:+ "}" +:+ post →
  has_byte "{" pre = false → has_byte "}" post = false →
  unmarshal (trim_fences response) h zero_plan = (h, zero_plan, Some e) →
  unmarshal ("{" +:+ body +:+ "}") h zero_plan = (h, plan, None) →
  parseResponse unmarshal response h = (h, Ok plan).
Proof.
  intros Ht Hpre Hpost H1 H2. unfold parseResponse. rewrite H1.
  rewrite Ht, brace_span_around by done. by rewrite H2.
Qed.

(** A decoder that only knows one text. *)
Definition decode_exactly (text : string) (steps : list ExecutionStep) (s : string) (h : heap)
    (p : ExecutionPlan) : heap * ExecutionPlan * option error :=
  if String.eqb s text then (h, set_Steps steps p, None) else (h, p, Some (EFmt "syntax error" [])).

Lemma embedded_object_is_recovered_witness :
  parseResponse (decode_exactly "{x}" two_steps) " <think>...</think> {x} done. " ∅
  = (∅, Ok (set_Steps two_steps zero_plan)).
Proof.
  apply (embedded_object_is_recovered (decode_exactly "{x}" two_steps)
    " <think>...</think> {x} done. " ∅ "<think>...</think> " "x" " done." _ (EFmt "syntax error" []));
    vm_compute; reflexivity.
Defined.

(** the planning prompt does not depend on the results of previous turns: the
    plan template has no section for them, unlike the one for replanning. *)
Theorem plan_prompt_ignores_turn_results rules c turns :
  buildPrompt rules
    (mkPlannerContext (pc_AssistantID c) (pc_Soul c) (pc_ProfileSoul c) (pc_ProfileOutput c)
       (pc_MemoryContext c) (pc_Skills c) (pc_UserRequest c) (pc_ProgressFn c)
       (pc_ConversationHistory c) turns)
  = buildPrompt rules c.
Proof. reflexivity. Qed.
