(* ===== verification/PlanWire.v ===== *)
(** Plans as JSON ([ExecutionPlan] and [ExecutionStep] of [src/execution/plan.go]):
    the struct tags, how a decoded plan gets its argument maps, and the planner's
    parser on the text of an answer. *)
From S2P Require Export Planner SchemaWire.
From Stdlib Require Import Ascii.

(* ------------------------------------------------------------------ *)
(** ** The documents *)
(* ------------------------------------------------------------------ *)

(** A step with its arguments as a value in the place of the reference. *)
Record StepDocument := mkStepDocument {
  sd_Name : string;
  sd_Type : StepType;
  sd_Arguments : any_map;
  sd_StepID : string;
  sd_Timeout : Z;
  sd_ExpectedOutput : string;
  sd_OutputSchema : option JSONSchema;
  sd_Parallelizable : bool;
  sd_ParallelGroup : string;
  sd_RiskLevel : string
}.

Record PlanDocument := mkPlanDocument {
  pld_ID : string;
  pld_ParentID : string;
  pld_AssistantID : string;
  pld_Steps : list StepDocument;
  pld_Reasoning : string
}.

Section documents.
(** How deep output schemas may nest. *)
Variable n : nat.
#[local] Instance output_schema_wire : Wire JSONSchema := schema_wire n.

#[export] Instance StepDocument_wire : Wire StepDocument :=
  struct_wire [req "name"; req "type"; req "arguments"; opt "step_id"; opt "timeout_ms"; opt "expected_output";
               opt "output_schema"; opt "parallelizable"; opt "parallel_group"; opt "risk_level"]
    (λ s, (sd_Name s, (sd_Type s, (sd_Arguments s, (sd_StepID s, (sd_Timeout s, (sd_ExpectedOutput s,
       (sd_OutputSchema s, (sd_Parallelizable s, (sd_ParallelGroup s, (sd_RiskLevel s, tt)))))))))))
    (λ '(a, (b, (c, (d, (e, (f, (g, (h, (i, (j, _)))))))))), mkStepDocument a b c d e f g h i j).
#[export] Instance StepDocument_laws : WireLaws StepDocument.
Proof. solve_struct. Qed.

#[export] Instance StepDocument_typed : Typed StepDocument.
Proof. solve_typed. Defined.

#[export] Instance PlanDocument_wire : Wire PlanDocument :=
  struct_wire [opt "id"; opt "parent_id"; req "assistant_id"; req "steps"; opt "reasoning"]
    (λ p, (pld_ID p, (pld_ParentID p, (pld_AssistantID p, (pld_Steps p, (pld_Reasoning p, tt))))))
    (λ '(a, (b, (c, (d, (e, _))))), mkPlanDocument a b c d e).
#[export] Instance PlanDocument_laws : WireLaws PlanDocument.
Proof. solve_struct. Qed.
#[export] Instance PlanDocument_typed : Typed PlanDocument.
Proof. solve_typed. Defined.
End documents.

(* ------------------------------------------------------------------ *)
(** ** From a document to a plan and back *)
(* ------------------------------------------------------------------ *)

Definition any_entries (v : any) : gmap string any :=
  match v with AMap m => list_to_map m | _ => ∅ end.

(** The decoder makes a map for each step that has one. *)
Definition load_step (h : heap) (s : StepDocument) : heap * ExecutionStep :=
  let '(h, l) := match map_value (sd_Arguments s) with
                 | None => (h, None)
                 | Some v => let l := fresh (dom h) in (<[l := any_entries v]> h, Some l)
                 end in
  (h, mkExecutionStep (sd_Name s) (sd_Type s) l (sd_StepID s) (sd_Timeout s) (sd_ExpectedOutput s)
        (sd_OutputSchema s) (sd_Parallelizable s) (sd_ParallelGroup s) (sd_RiskLevel s)).

Fixpoint load_steps (h : heap) (steps : list StepDocument) : heap * list ExecutionStep :=
  match steps with
  | [] => (h, [])
  | s :: steps =>
      let '(h, s) := load_step h s in
      let '(h, steps) := load_steps h steps in
      (h, s :: steps)
  end.

Definition step_document (h : heap) (s : ExecutionStep) : StepDocument :=
  mkStepDocument (es_Name s) (es_Type s)
    (mkAnyMap ((λ l, AMap (sorted_entries (args_at h l))) <$> es_Arguments s))
    (es_StepID s) (es_Timeout s) (es_ExpectedOutput s) (es_OutputSchema s) (es_Parallelizable s)
    (es_ParallelGroup s) (es_RiskLevel s).
Definition plan_document (h : heap) (p : ExecutionPlan) : PlanDocument :=
  mkPlanDocument (ep_ID p) (ep_ParentID p) (ep_AssistantID p) (map (step_document h) (ep_Steps p)) (ep_Reasoning p).

(** [json.Unmarshal] into the plan of [parseResponse], which is the zero plan.
    [frozen] is not exported, so no document sets it. Each [arguments] object is
    decoded into a map of its own; a member that is repeated counts as it stands
    last (the library decodes a repeated object into the map of the first). A failed
    attempt fills fields of the plan only when the text is an object, and then the
    second attempt is on the same text and fails too. *)
Definition unmarshal_plan (n : nat) (unreadable : error) (text : string) (h : heap) (p : ExecutionPlan) :
    heap * ExecutionPlan * option error :=
  match unmarshal (H:=PlanDocument_wire n) text with
  | None => (h, p, Some unreadable)
  | Some d =>
      let '(h, steps) := load_steps h (pld_Steps d) in
      (h, mkExecutionPlan (pld_ID d) (pld_ParentID d) (pld_AssistantID d) steps (pld_Reasoning d) false, None)
  end.

(* ------------------------------------------------------------------ *)
(** ** Loading *)
(* ------------------------------------------------------------------ *)

Lemma entries_of_sorted {V} (m : gmap string V) : list_to_map (sorted_entries m) = m.
Proof.
  unfold sorted_entries. rewrite (list_to_map_proper _ (map_to_list m)); [apply list_to_map_to_list| |].
  - rewrite (isort_perm entry_leb (map_to_list m)). apply NoDup_fst_map_to_list.
  - apply isort_perm.
Qed.

(** The arguments of a document as a map lists them. *)
Definition args_listed (s : StepDocument) : Prop :=
  ∀ v, map_value (sd_Arguments s) = Some v → v = AMap (sorted_entries (any_entries v)).

Lemma step_document_listed h s : args_listed (step_document h s).
Proof.
  intros v Hv. unfold step_document in Hv. cbn [sd_Arguments map_value] in Hv.
  destruct (es_Arguments s) as [l|]; [|done]. injection Hv as <-. cbn [any_entries]. by rewrite entries_of_sorted.
Qed.

(** What loading one step does: nothing to the maps there are, one new map if it has
    arguments, which is what the document says. *)
Lemma load_step_spec h d h' s :
  load_step h d = (h', s) →
  h ⊆ h' ∧ (∀ l, es_Arguments s = Some l → h !! l = None ∧ l ∈ dom h') ∧
  (args_listed d → ∀ h2, h' ⊆ h2 → step_document h2 s = d).
Proof.
  destruct d as [a b [[v|]] c d e f g i j]; unfold load_step; cbn [sd_Arguments map_value]; intros [= <- <-].
  - pose proof (is_fresh (dom h)) as Hl. set (l := fresh (dom h)) in *. apply not_elem_of_dom in Hl.
    split; [by apply insert_subseteq|]. split.
    + intros l' [= <-]. split; [done|]. rewrite dom_insert. set_solver.
    + intros Hd h2 Hh. unfold step_document. cbn. f_equal. f_equal.
      assert (Ha : args_at h2 l = any_entries v).
      { unfold args_at. by rewrite (lookup_weaken _ h2 l (any_entries v) (lookup_insert_eq _ _ _) Hh). }
      rewrite Ha. simpl. f_equal. symmetry. by apply Hd.
  - split; [done|]. by split.
Qed.

Definition step_locs (steps : list ExecutionStep) : list loc := omap es_Arguments steps.

Lemma load_steps_spec h ds h' steps :
  load_steps h ds = (h', steps) →
  h ⊆ h' ∧ NoDup (step_locs steps) ∧ (∀ l, l ∈ step_locs steps → h !! l = None ∧ l ∈ dom h') ∧
  (Forall args_listed ds → ∀ h2, h' ⊆ h2 → map (step_document h2) steps = ds).
Proof.
  revert h h' steps. induction ds as [|d ds IH]; intros h h' steps; simpl.
  { intros [= <- <-]. split_and!; [done|apply NoDup_nil_2| |done]. set_solver. }
  destruct (load_step h d) as [h1 s] eqn:E1. destruct (load_steps h1 ds) as [h2 ss] eqn:E2. intros [= <- <-].
  destruct (load_step_spec _ _ _ _ E1) as (Hs & Hl & Hd). destruct (IH _ _ _ E2) as (Hss & Hnd & Hls & Hds).
  assert (Hnew : ∀ l, l ∈ step_locs ss → h !! l = None ∧ l ∈ dom h2).
  { intros l Hin. destruct (Hls l Hin) as [Hn Hdom]. split; [|done]. by eapply lookup_weaken_None. }
  split; [by etransitivity|]. unfold step_locs. csimpl. fold (step_locs ss). split_and!.
  - destruct (es_Arguments s) as [l|] eqn:El; [|done]. apply NoDup_cons. split; [|done].
    intros Hin. destruct (Hls l Hin) as [Hn _]. destruct (Hl l eq_refl) as [_ Hdom].
    by apply elem_of_dom in Hdom as [? Hdom]; rewrite Hn in Hdom.
  - destruct (es_Arguments s) as [l|] eqn:El; [|done]. intros l' [->|Hin]%elem_of_cons; [|by apply Hnew].
    destruct (Hl l eq_refl) as [Hn Hdom]. split; [done|]. by apply (subseteq_dom h1 h2 Hss).
  - intros [Hd1 Hd2]%Forall_cons h3 Hh3. rewrite (Hd Hd1 h3), (Hds Hd2 h3 Hh3); [done|]. by etransitivity.
Qed.

(* ------------------------------------------------------------------ *)
(** ** The text of an answer *)
(* ------------------------------------------------------------------ *)

Lemma sall_no_byte c s : has_byte c s = false → sall (λ d, negb (Ascii.eqb c d)) s = true.
Proof. unfold has_byte. intros H. by apply negb_false_iff in H. Qed.

(** What stands before the first brace and behind the last is trimmed by itself. *)
Lemma trim_left_brace a t : trim_left_space (a +:+ String "{" t) = trim_left_space a +:+ String "{" t.
Proof.
  unfold trim_left_space. rewrite trim_left_go_app by (auto with go || lia).
  destruct (String.eqb_spec (trim_left_go wide_spaces 0 a) "") as [->|_]; [|done].
  by rewrite trim_left_go_id.
Qed.

Lemma trim_right_brace x t : trim_right_space (x +:+ String "}" t) = x +:+ String "}" (trim_right_space t).
Proof.
  rewrite trim_right_space_app by done. destruct (String.eqb_spec (trim_right_space t) "") as [->|_]; [|done].
  unfold trim_right_space. change (String "}" "") with "}". rewrite srev_app, trim_left_go_id by done.
  by rewrite srev_app, srev_involutive.
Qed.

Lemma trim_prefix_brace a t p :
  has_byte "{" p = false → has_byte "{" a = false →
  ∃ a', trim_prefix (a +:+ String "{" t) p = a' +:+ String "{" t ∧ has_byte "{" a' = false.
Proof.
  intros Hp Ha. unfold trim_prefix. destruct (has_prefix (a +:+ String "{" t) p) eqn:E; [|by exists a].
  apply has_prefix_spec in E as [r Hr]. rewrite Hr, sdrop_app.
  destruct (before_byte (λ d, negb (Ascii.eqb "{" d)) a "{" t p r Hr) as (j & -> & ->); [by apply sall_no_byte|done|].
  exists j. split; [done|]. rewrite has_byte_app in Ha. by apply orb_false_iff in Ha as [_ ?].
Qed.

Lemma trim_suffix_brace x t p :
  has_byte "}" p = false → has_byte "}" t = false →
  ∃ t', trim_suffix (x +:+ String "}" t) p = x +:+ String "}" t' ∧ has_byte "}" t' = false.
Proof.
  intros Hp Ht. unfold trim_suffix. destruct (has_suffix (x +:+ String "}" t) p) eqn:E; [|by exists t].
  apply has_suffix_spec in E as [r Hr].
  assert (Hrev : String.rev t +:+ String "}" (String.rev x) = String.rev p +:+ String.rev r).
  { rewrite <-!srev_app, <-Hr. change (String "}" t) with ("}" +:+ t). by rewrite !srev_app, sapp_assoc. }
  destruct (before_byte (λ d, negb (Ascii.eqb "}" d)) _ _ _ _ _ Hrev) as (j & Hj & _);
    [by apply sall_no_byte; rewrite has_byte_rev|done|].
  assert (Ht' : t = String.rev j +:+ p).
  { rewrite <-(srev_involutive t), Hj, srev_app. by rewrite srev_involutive. }
  exists (String.rev j). rewrite Ht' in Ht |- *. split.
  - change (x +:+ String "}" (String.rev j +:+ p)) with (x +:+ ("}" +:+ String.rev j) +:+ p).
    rewrite <-sapp_assoc. rewrite slen_app, Nat.add_sub, stake_app. done.
  - rewrite has_byte_app in Ht. by apply orb_false_iff in Ht as [? _].
Qed.

(** So an object that stands in an answer with no opening brace before it and no
    closing brace behind it still stands in what is left of the answer. *)
Lemma trim_fences_around pre body post :
  has_byte "{" pre = false → has_byte "}" post = false →
  ∃ pre' post', trim_fences (pre +:+ ("{" +:+ body +:+ "}") +:+ post) = pre' +:+ ("{" +:+ body +:+ "}") +:+ post' ∧
    has_byte "{" pre' = false ∧ has_byte "}" post' = false.
Proof.
  assert (Hs : ∀ a b, a +:+ ("{" +:+ body +:+ "}") +:+ b = a +:+ String "{" (body +:+ String "}" b))
    by (intros; by rewrite !sapp_assoc).
  assert (Hr : ∀ a b, a +:+ String "{" (body +:+ String "}" b) = (a +:+ String "{" body) +:+ String "}" b)
    by (intros; by rewrite sapp_assoc).
  assert (Htrim : ∀ a b, trim_space (a +:+ String "{" (body +:+ String "}" b))
                       = trim_left_space a +:+ String "{" (body +:+ String "}" (trim_right_space b))).
  { intros a b. unfold trim_space. by rewrite trim_left_brace, Hr, trim_right_brace, <-Hr. }
  intros Hpre Hpost. rewrite Hs. unfold trim_fences. rewrite Htrim.
  set (a0 := trim_left_space pre). set (b0 := trim_right_space post).
  assert (Ha0 : has_byte "{" a0 = false) by (by apply has_byte_trim_left_go).
  assert (Hb0 : has_byte "}" b0 = false)
    by (unfold b0, trim_right_space; rewrite has_byte_rev; apply has_byte_trim_left_go; by rewrite has_byte_rev).
  destruct (trim_prefix_brace a0 (body +:+ String "}" b0) "```json" eq_refl Ha0) as (a1 & -> & Ha1).
  destruct (trim_prefix_brace a1 (body +:+ String "}" b0) fence eq_refl Ha1) as (a2 & -> & Ha2).
  rewrite Hr. destruct (trim_suffix_brace (a2 +:+ String "{" body) b0 fence eq_refl Hb0) as (b1 & -> & Hb1).
  rewrite <-Hr, Htrim. exists (trim_left_space a2), (trim_right_space b1). rewrite Hs. split; [done|]. split.
  - by apply has_byte_trim_left_go.
  - unfold trim_right_space. rewrite has_byte_rev. apply has_byte_trim_left_go. by rewrite has_byte_rev.
Qed.

Lemma has_byte_trim_prefix c s p : has_byte c s = false → has_byte c (trim_prefix s p) = false.
Proof.
  intros Hs. unfold trim_prefix. destruct (has_prefix s p) eqn:E; [|done]. apply has_prefix_spec in E as [t ->].
  rewrite sdrop_app. rewrite has_byte_app in Hs. by apply orb_false_iff in Hs as [_ ?].
Qed.

Lemma has_byte_trim_suffix c s p : has_byte c s = false → has_byte c (trim_suffix s p) = false.
Proof.
  intros Hs. unfold trim_suffix. destruct (has_suffix s p) eqn:E; [|done]. apply has_suffix_spec in E as [t ->].
  rewrite slen_app, Nat.add_sub, stake_app. rewrite has_byte_app in Hs. by apply orb_false_iff in Hs as [? _].
Qed.

Lemma has_byte_trim_fences c s : has_byte c s = false → has_byte c (trim_fences s) = false.
Proof.
  intros Hs. unfold trim_fences.
  by apply has_byte_trim_space, has_byte_trim_suffix, has_byte_trim_prefix, has_byte_trim_prefix, has_byte_trim_space.
Qed.

Lemma index_of_no_byte c s : has_byte c s = false → index_of (String c "") s = None.
Proof.
  intros Hs. destruct (index_of (String c "") s) as [i|] eqn:E; [|done]. apply index_of_Some in E as (a & b & Hb & _).
  rewrite Hb, !has_byte_app, has_byte_cons, Ascii.eqb_refl, orb_true_r in Hs. done.
Qed.

Definition in_fence (s : string) : string := "```json" +:+ nl +:+ s +:+ nl +:+ fence.

(* ------------------------------------------------------------------ *)
(** ** What a loaded step holds *)
(* ------------------------------------------------------------------ *)

Definition loaded (h : heap) (d : StepDocument) (s : ExecutionStep) : Prop :=
  es_Timeout s = sd_Timeout d ∧
  ∀ l, es_Arguments s = Some l → ∃ v, map_value (sd_Arguments d) = Some v ∧ args_at h l = any_entries v.

Lemma load_step_loaded h d h' s h2 : load_step h d = (h', s) → h' ⊆ h2 → loaded h2 d s.
Proof.
  destruct d as [a b [[v|]] c d e f g i j]; unfold load_step; cbn [sd_Arguments map_value]; intros [= <- <-] Hh.
  - split; [done|]. cbn [es_Arguments]. intros l [= <-]. exists v. split; [done|]. unfold args_at.
    by rewrite (lookup_weaken _ h2 _ (any_entries v) (lookup_insert_eq _ _ _) Hh).
  - by split.
Qed.

Lemma load_steps_loaded h ds h' steps h2 :
  load_steps h ds = (h', steps) → h' ⊆ h2 → Forall2 (loaded h2) ds steps.
Proof.
  revert h steps. induction ds as [|d ds IH]; intros h steps; simpl; [by intros [= <- <-]|].
  destruct (load_step h d) as [h1 s] eqn:E1. destruct (load_steps h1 ds) as [h3 ss] eqn:E2. intros [= <- <-] Hh.
  destruct (load_steps_spec _ _ _ _ E2) as [Hsub _].
  constructor; [|by eapply IH]. eapply load_step_loaded; [exact E1|]. by etransitivity.
Qed.

(** What the decoder makes of a step's values, in the store. *)
Definition step_typed (h : heap) (s : ExecutionStep) : Prop :=
  in_int64 (es_Timeout s) ∧
  ∀ l k v, es_Arguments s = Some l → args_at h l !! k = Some v → json_kinds v.

Lemma entries_kinds v k x :
  match v with AMap es => json_kinds (AMap es) | _ => False end → any_entries v !! k = Some x → json_kinds x.
Proof.
  destruct v as [| | | | | |es]; try done. intros [_ Hes]%kinds_map Hk%elem_of_list_to_map_2.
  rewrite Forall_forall in Hes. by apply (Hes (k, x)).
Qed.

Lemma loaded_typed n h d s : typed (H:=StepDocument_wire n) d → loaded h d s → step_typed h s.
Proof.
  intros Hd [Ht Ha]. assert (Hkinds : in_int64 (sd_Timeout d) ∧ typed (sd_Arguments d)).
  { destruct Hd as (_ & _ & Hargs & _ & Htime & _). by split. }
  destruct Hkinds as [Htime Hargs]. split; [by rewrite Ht|].
  intros l k v Hl Hk. destruct (Ha l Hl) as (m & Hm & Hat). rewrite Hat in Hk.
  cbn [typed any_map_typed] in Hargs. rewrite Hm in Hargs. by eapply entries_kinds.
Qed.

Lemma unmarshal_plan_typed n unreadable text h p0 h' p :
  unmarshal_plan n unreadable text h p0 = (h', p, None) →
  h ⊆ h' ∧ NoDup (step_locs (ep_Steps p)) ∧
  (∀ l, l ∈ step_locs (ep_Steps p) → h !! l = None ∧ l ∈ dom h') ∧
  Forall (step_typed h') (ep_Steps p) ∧ IsFrozen p = false.
Proof.
  unfold unmarshal_plan. destruct (unmarshal text) as [d|] eqn:E; [|done].
  destruct (load_steps h (pld_Steps d)) as [h1 steps] eqn:El. intros [= <- <-]. cbn [ep_Steps].
  destruct (load_steps_spec _ _ _ _ El) as (H1 & H2 & H3 & _). split_and!; try done.
  pose proof (load_steps_loaded _ _ _ _ h1 El (reflexivity _)) as Hl.
  pose proof (unmarshal_typed (H0:=PlanDocument_typed n) _ _ E) as Ht.
  destruct Ht as (_ & _ & _ & Hs & _). change (Forall (typed (H:=StepDocument_wire n)) (pld_Steps d)) in Hs.
  induction Hl as [|d0 s ds ss Hd _ IH] in Hs |- *; [constructor|].
  apply Forall_cons in Hs as [Hs1 Hs2]. constructor; [by eapply loaded_typed|by apply IH].
Qed.

(** What is not a plan's document leaves the plan and the store as they are. *)
Lemma not_a_plan n unreadable text h p :
  (∀ d, parse text = Some d → d ≠ JNull ∧ ∀ m, d ≠ JObj m) →
  unmarshal_plan n unreadable text h p = (h, p, Some unreadable).
Proof.
  intros Hd. unfold unmarshal_plan, unmarshal. destruct (parse text) as [d|]; [|done].
  destruct (Hd d eq_refl) as [Hn Ho]. destruct d as [| | | | |m]; try done. by destruct (Ho m).
Qed.

(** An answer with a plan's JSON in it is parsed to that plan. *)
Lemma plan_is_found n unreadable h p d h0 pre post :
  good (Wire:=PlanDocument_wire n) (plan_document h p) →
  encode (Wire:=PlanDocument_wire n) (plan_document h p) = Some d → (nesting d ≤ maxNestingDepth)%Z →
  has_byte "{" pre = false → has_byte "}" post = false →
  ∃ h' p', parseResponse (unmarshal_plan n unreadable) (pre +:+ print d +:+ post) h0 = (h', Ok p') ∧
    h0 ⊆ h' ∧ plan_document h' p' = plan_document h p ∧ IsFrozen p' = false ∧
    NoDup (step_locs (ep_Steps p')) ∧ ∀ l, l ∈ step_locs (ep_Steps p') → h0 !! l = None.
Proof.
  intros Hg Hd Hn Hpre Hpost.
  pose proof (read_back (H0:=PlanDocument_laws n) _ d Hg Hd Hn) as Hr.
  pose proof (encode_lits (WireLaws:=PlanDocument_laws n) _ d Hg Hd) as Hlits.
  assert (Hobj : ∃ m, d = JObj m).
  { cbn [encode PlanDocument_wire struct_wire] in Hd. destruct (enc_fields _ _); [|done]. injection Hd as <-. eauto. }
  destruct Hobj as [m ->].
  destruct (load_steps h0 (pld_Steps (plan_document h p))) as [h' steps] eqn:El.
  destruct (load_steps_spec _ _ _ _ El) as (Hsub & Hnd & Hfresh & Hback).
  set (p' := mkExecutionPlan (pld_ID (plan_document h p)) (pld_ParentID (plan_document h p))
    (pld_AssistantID (plan_document h p)) steps (pld_Reasoning (plan_document h p)) false).
  assert (Hload : ∀ text, unmarshal (H:=PlanDocument_wire n) text = Some (plan_document h p) →
    ∀ p0, unmarshal_plan n unreadable text h0 p0 = (h', p', None)).
  { intros text Ht p0. unfold unmarshal_plan. by rewrite Ht, El. }
  exists h', p'. split.
  2:{ split; [done|]. split.
      - unfold plan_document at 1. cbn [ep_Steps ep_ID ep_ParentID ep_AssistantID ep_Reasoning p'].
        rewrite (Hback ltac:(apply Forall_map, Forall_true, step_document_listed) h' (reflexivity _)). done.
      - split_and!; [done|done|]. intros l Hl. by apply Hfresh. }
  set (body := join "," (map (λ e : string * json, json_string e.1 +:+ ":" +:+ print e.2) m)).
  destruct (trim_fences_around pre body post Hpre Hpost) as (pre' & post' & Ht & Hpre' & Hpost').
  change ("{" +:+ body +:+ "}") with (print (JObj m)) in Ht.
  unfold parseResponse. rewrite Ht.
  destruct (parse_around pre' m post' Hlits Hn Hpre') as [Hw|Hw].
  - rewrite Hload; [done|]. unfold unmarshal in *. rewrite Hw. by rewrite (parse_print _ Hlits Hn) in Hr.
  - rewrite (not_a_plan _ _ _ _ _ Hw).
    assert (Hspan : brace_span (pre' +:+ print (JObj m) +:+ post') = Some (print (JObj m))).
    { etransitivity; [|exact (brace_span_around pre' body post' Hpre' Hpost')]. f_equal.
      change (print (JObj m)) with ("{" +:+ body +:+ "}"). by rewrite !sapp_assoc. }
    rewrite Hspan. by rewrite Hload.
Qed.

(** An answer without an opening brace holds no plan. *)
Lemma no_plan_is_found n unreadable text h0 :
  has_byte "{" text = false → parse (trim_fences text) ≠ Some JNull →
  parseResponse (unmarshal_plan n unreadable) text h0
  = (h0, Err (EFmt "invalid json: could not extract plan from response (length=%d)" [FN (slen (trim_fences text))])).
Proof.
  intros Hb Hnull. assert (Ht : has_byte "{" (trim_fences text) = false) by by apply has_byte_trim_fences.
  unfold parseResponse. rewrite not_a_plan.
  - unfold brace_span. by rewrite index_of_no_byte.
  - intros d Hd. split; [congruence|]. intros m ->. apply parse_object_starts in Hd as [t Hs].
    pose proof (has_byte_skip_ws "{" (trim_fences text) eq_refl) as H. by rewrite Hs, has_byte_cons, Ht in H.
Qed.

Lemma told_text_is_parsed n unreadable h p d h0 text :
  good (Wire:=PlanDocument_wire n) (plan_document h p) →
  encode (Wire:=PlanDocument_wire n) (plan_document h p) = Some d → (nesting d ≤ maxNestingDepth)%Z →
  text = print d ∨ text = in_fence (print d) →
  ∃ h' p', parseResponse (unmarshal_plan n unreadable) text h0 = (h', Ok p') ∧
    h0 ⊆ h' ∧ plan_document h' p' = plan_document h p ∧ IsFrozen p' = false.
Proof.
  intros Hg Hd Hn Htext. assert (Hx : ∃ pre post, text = pre +:+ print d +:+ post ∧
    has_byte "{" pre = false ∧ has_byte "}" post = false).
  { destruct Htext as [->| ->].
    - exists "", "". by rewrite sapp_nil_r.
    - exists ("```json" +:+ nl), (nl +:+ fence). unfold in_fence. by rewrite !sapp_assoc. }
  destruct Hx as (pre & post & -> & Hpre & Hpost).
  destruct (plan_is_found n unreadable h p d h0 pre post Hg Hd Hn Hpre Hpost) as (h' & p' & H1 & H2 & H3 & H4 & _).
  by exists h', p'.
Qed.

(** The limits look at names and types only. *)
Lemma same_document_within limits h p h' p' :
  plan_document h' p' = plan_document h p → plan_within limits p → plan_within limits p'.
Proof.
  intros Hdoc. pose proof (f_equal pld_Steps Hdoc) as Hsteps. pose proof (f_equal pld_AssistantID Hdoc) as Hasst.
  cbn [plan_document pld_Steps pld_AssistantID] in Hsteps, Hasst. unfold plan_within. rewrite Hasst.
  generalize (MaxSteps limits), (MaxToolCalls limits). revert Hsteps. generalize (ep_Steps p) as l.
  clear. intros l Hsteps m n (Ha & Hne & Hmax & Hok & Htools).
  assert (Hmap : Forall2 (λ s' s, es_Name s' = es_Name s ∧ es_Type s' = es_Type s) (ep_Steps p') l).
  { clear - Hsteps. revert l Hsteps. induction (ep_Steps p') as [|s' l' IH]; intros [|s l]; try done.
    intros Heq. apply (f_equal (λ ds, match ds with d :: rest => (sd_Name d, sd_Type d, rest) | [] => ("", "", []) end)) in Heq.
    cbn in Heq. injection Heq as Hn Ht Hrest. constructor; [done|by apply IH]. }
  rewrite (Forall2_length _ _ _ Hmap). split; [done|]. split; [by intros Hnil; inversion Hmap; simplify_eq; congruence|].
  split; [done|]. clear Ha Hne Hmax Hsteps. revert n Hok Htools.
  induction Hmap as [|s' s l' l'' [Hn Ht] _ IH]; intros n; [done|].
  rewrite !Forall_cons, !tool_calls_cons, Ht. intros [Hs Hok] Hm.
  destruct (IH (n - (if String.eqb (es_Type s) StepTypeLLM then 0 else 1))%Z Hok ltac:(lia)) as [H1 H2].
  split; [|lia]. split; [|done]. unfold step_ok in *. by rewrite Hn, Ht.
Qed.

(** Whatever provider gives it the text of a plan within the limits, [Plan] returns
    that plan, with the calls of the progress function that reading it made. *)
Lemma told_plan_is_returned `{ModelRouter} n unreadable rules limits pCtx provider prompt text tr h0 h p d :
  pc_Skills pCtx ≠ [] → buildPrompt rules pCtx = Some prompt →
  Route [CapTextGeneration] (mkModelConstraints 0 "" "") = Ok provider →
  ask_provider provider (pc_ProgressFn pCtx) (prc_events plan_config) (plan_request pCtx prompt) = (tr, Ok text) →
  text = print d ∨ text = in_fence (print d) →
  good (Wire:=PlanDocument_wire n) (plan_document h p) →
  encode (Wire:=PlanDocument_wire n) (plan_document h p) = Some d → (nesting d ≤ maxNestingDepth)%Z →
  plan_within limits p →
  ∃ h' p', Planner.Plan (unmarshal_plan n unreadable) rules limits h0 pCtx = Some (tr, h', Ok p') ∧
    h0 ⊆ h' ∧ plan_document h' p' = plan_document h p.
Proof.
  intros Hskills Hprompt Hroute Hask Htext Hg Hd Hn Hwithin.
  destruct (told_text_is_parsed n unreadable h p d h0 text Hg Hd Hn Htext) as (h' & p' & Hparse & Hsub & Hdoc & _).
  pose proof (same_document_within limits h p h' p' Hdoc Hwithin) as Hwithin'.
  unfold Planner.Plan.
  destruct (length (pc_Skills pCtx) =? 0) eqn:Hl0; [by apply Nat.eqb_eq, length_zero_iff_nil in Hl0|].
  rewrite Hprompt. cbn [mbind option_bind]. unfold llmPlanRound. rewrite Hroute, Hask, Hparse.
  pose proof (proj2 (Validator_Validate_spec limits p') Hwithin') as Hv. destruct Hwithin' as (Hasst & Hsteps & _).
  rewrite (proj2 (String.eqb_neq _ "") Hasst).
  destruct (length (ep_Steps p') =? 0) eqn:Hl; [by apply Nat.eqb_eq, length_zero_iff_nil in Hl|].
  rewrite Hv. by exists h', p'.
Qed.

(* ------------------------------------------------------------------ *)
(** ** Properties *)
(* ------------------------------------------------------------------ *)

(** C11: parseResponse finds the plan a model tells wherever it stands in the answer:
    the JSON of a plan, with any text before it that has no opening brace and any
    behind it that has no closing brace (white space, a code fence with or without a
    language, reasoning, remarks), is parsed to that plan, not frozen, with the
    arguments of each step in a map of its own that was not there before. An answer
    without an opening brace, unless it says null, holds no plan and is refused with
    its length. (The plan is one that JSON can say: texts in UTF-8, numbers of their
    types, arguments as they are decoded, and no deeper than the reader goes.) *)
Theorem plans_are_found_in_answers n unreadable h0 :
  (∀ h p d pre post,
     good (Wire:=PlanDocument_wire n) (plan_document h p) →
     encode (Wire:=PlanDocument_wire n) (plan_document h p) = Some d → (nesting d ≤ maxNestingDepth)%Z →
     has_byte "{" pre = false → has_byte "}" post = false →
     ∃ h' p', parseResponse (unmarshal_plan n unreadable) (pre +:+ print d +:+ post) h0 = (h', Ok p') ∧
       h0 ⊆ h' ∧ plan_document h' p' = plan_document h p ∧ IsFrozen p' = false ∧
       NoDup (step_locs (ep_Steps p')) ∧ ∀ l, l ∈ step_locs (ep_Steps p') → h0 !! l = None) ∧
  (∀ text, has_byte "{" text = false → parse (trim_fences text) ≠ Some JNull →
     parseResponse (unmarshal_plan n unreadable) text h0
     = (h0, Err (EFmt "invalid json: could not extract plan from response (length=%d)"
                   [FN (slen (trim_fences text))]))).
Proof. split; [intros h p d pre post; apply plan_is_found|intros text; apply no_plan_is_found]. Qed.

Definition told_heap : heap := {[ 5%positive := {["q" := AString "x"; "all" := ABool true]} ]}.
Definition told_plan : ExecutionPlan :=
  mkExecutionPlan "" "" "asst"
    [mkExecutionStep "find" StepTypeTool (Some 5%positive) "" 30000 "" (Some (text_schema "string")) true "g" "info";
     mkExecutionStep "sum" StepTypeLLM None "" 0 "a line" None false "" ""] "because" false.

Lemma told_plan_good : good (Wire:=PlanDocument_wire 1) (plan_document told_heap told_plan).
Proof.
  assert (Hs : good (Wire:=@pointer_wire _ (schema_wire 1)) (Some (text_schema "string")))
    by by apply good_pointer, text_schema_good.
  assert (Ha : good (mkAnyMap (Some (AMap [("all", ABool true); ("q", AString "x")])))) by (split; [|reflexivity]; done).
  assert (Hargs : sorted_entries (args_at told_heap 5%positive) = [("all", ABool true); ("q", AString "x")])
    by (vm_compute; reflexivity).
  unfold plan_document, told_plan. cbn [ep_Steps map]. unfold step_document. cbn [es_Arguments fmap option_fmap option_map].
  rewrite Hargs. repeat first [apply good_field|apply good_required|apply Forall_cons; split|constructor]; try done.
Qed.

Definition told_json : json :=
  default JNull (encode (Wire:=PlanDocument_wire 1) (plan_document told_heap told_plan)).
Lemma told_json_encoded : encode (Wire:=PlanDocument_wire 1) (plan_document told_heap told_plan) = Some told_json.
Proof.
  assert (Hd : is_Some (encode (Wire:=PlanDocument_wire 1) (plan_document told_heap told_plan)))
    by (eexists; vm_compute; reflexivity).
  unfold told_json. by destruct Hd as [d ->].
Qed.
Lemma told_plan_within : plan_within DefaultLimits told_plan.
Proof.
  split_and!; [done|done|by apply Z.leb_le| |by apply Z.leb_le].
  repeat (apply Forall_cons; split; [split; [done|reflexivity]|]). apply Forall_nil_2.
Qed.

(** Reasoning, a fence and a remark around the plan. *)
Lemma plans_are_found_in_answers_witness :
  ∃ h' p', parseResponse (unmarshal_plan 1 (ESentinel ""))
      ("<think>A tool and a summary.</think> " +:+ print told_json +:+ " ``` That is all.") told_heap
      = (h', Ok p') ∧
    plan_document h' p' = plan_document told_heap told_plan.
Proof.
  destruct (proj1 (plans_are_found_in_answers 1 (ESentinel "") told_heap) told_heap told_plan told_json
    "<think>A tool and a summary.</think> " " ``` That is all." told_plan_good told_json_encoded)
    as (h' & p' & Hp & _ & Hd & _).
  - vm_compute. discriminate.
  - reflexivity.
  - reflexivity.
  - exists h', p'. split; [exact Hp|exact Hd].
Defined.
