(* ===== verification/Providers.v ===== *)
(** The HTTP clients for model services ([src/ai/providers]): the requests they
    build, the retry loop around one exchange, what they make of an answer and the
    embedding request.  The streams are in [Streaming.v], the provider types and
    the factory in [Factory.v].

    The network is the environment: for every attempt it gives an error or a
    response.  [json.Marshal] and [json.Unmarshal] of the wire types and the
    parsing of the endpoint are parameters.  Every caller passes nil for the
    [headers] parameter of the OpenAI functions and 0 for [maxRetries]; the
    former is left out, the latter is kept. *)
From S2P Require Export Router.
From Stdlib Require Import Ascii.

(* ------------------------------------------------------------------ *)
(** ** Tool choice (tool_choice.go) *)
(* ------------------------------------------------------------------ *)

(** The values the two functions return as [any]; [None] is nil. *)
Inductive wire_choice :=
| WireMode (s : string)
| openAIToolChoice (Type_ Name : string)
| anthropicToolChoice (Type_ Name : string).

Definition mapToolChoiceToOpenAI (tc : ToolChoice) : option wire_choice :=
  match tc with
  | TCNil => None
  | TCMode v =>
      if String.eqb v ToolChoiceAuto then Some (WireMode "auto")
      else if String.eqb v ToolChoiceRequired then Some (WireMode "required")
      else if String.eqb v ToolChoiceNone then Some (WireMode "none")
      else None
  | TCSpecific name => Some (openAIToolChoice "function" name)
  | TCOther _ => None
  end.

Definition mapToolChoiceToAnthropic (tc : ToolChoice) : option wire_choice :=
  match tc with
  | TCNil => None
  | TCMode v =>
      if String.eqb v ToolChoiceAuto then Some (WireMode "auto")
      else if String.eqb v ToolChoiceRequired then Some (anthropicToolChoice "any" "")
      else if String.eqb v ToolChoiceNone then Some (WireMode "none")
      else None
  | TCSpecific name => Some (anthropicToolChoice "tool" name)
  | TCOther _ => None
  end.

(* ------------------------------------------------------------------ *)
(** ** The OpenAI request (providers.go) *)
(* ------------------------------------------------------------------ *)

Record openAIContentBlock := mkOpenAIContentBlock {
  ob_Type : string;
  ob_Text : string;
  ob_ImageURL : option string
}.

(** [chatMessage.Content any]: nil, a string or a slice of parts. *)
Inductive chat_content :=
| ContentNil
| ContentText (s : string)
| ContentParts (l : list openAIContentBlock).

(** One round of the loop over the blocks. *)
Definition openai_block (c : ContentBlock) : option openAIContentBlock :=
  if String.eqb (cb_Type c) "text" then Some (mkOpenAIContentBlock "text" (cb_Text c) None)
  else if String.eqb (cb_Type c) "image" then
    Some (mkOpenAIContentBlock "image_url" "" (Some (ImageRef c)))
  else None.

Definition contentsToOpenAI (contents : list ContentBlock) : chat_content :=
  match contents with
  | [] => ContentNil
  | [c] => if String.eqb (cb_Type c) "text" then ContentText (cb_Text c)
           else ContentParts (omap openai_block contents)
  | _ => ContentParts (omap openai_block contents)
  end.

Record chatMessage := mkChatMessage {
  cm_Role : string;
  cm_Content : chat_content;
  cm_Name : string
}.

Definition buildOpenAIMessages (req : GenerateRequest) : list chatMessage :=
  map (λ m, mkChatMessage (msg_Role m) (contentsToOpenAI (msg_Contents m)) (msg_Name m))
    (gr_Messages req).

Record chatTool := mkChatTool {
  ct_Type : string;
  ct_Name : string;
  ct_Description : string;
  ct_Parameters : option JSONSchema
}.

(** [MaxTokens = 0] is left out of the payload. *)
Record chatRequest := mkChatRequest {
  cr_Model : string;
  cr_Messages : list chatMessage;
  cr_MaxTokens : Z;
  cr_Temperature : option float64;
  cr_Tools : list chatTool;
  cr_ToolChoice : option wire_choice;
  cr_ParallelToolCalls : option bool;
  cr_ChatTemplateKwargs : option (list (string * any))
}.

Definition positive (f : float64) : option float64 := if fltb (f_of_Z 0) f then Some f else None.

(** The body of a chat completion, as both the plain and the streaming function
    build it. *)
Definition chat_request (model : string) (req : GenerateRequest) : chatRequest :=
  mkChatRequest model (buildOpenAIMessages req)
    (if (0 <? gr_MaxTokens req)%Z then gr_MaxTokens req else 0)
    (positive (gr_Temperature req))
    (map (λ t, mkChatTool "function" (td_Name t) (td_Description t) (td_Parameters t)) (gr_Tools req))
    (mapToolChoiceToOpenAI (gr_ToolChoice req))
    (gr_ParallelToolCalls req)
    (if contains (lower model) "qwen" then Some [("enable_thinking", ABool false)] else None).

(* ------------------------------------------------------------------ *)
(** ** The Anthropic request (anthropic.go) *)
(* ------------------------------------------------------------------ *)

Record anthropicMessage := mkAnthropicMessage { am_Role : string; am_Content : string }.

Record anthropicToolDefinition := mkAnthropicToolDefinition {
  at_Name : string;
  at_Description : string;
  at_InputSchema : option JSONSchema
}.

Record anthropicMessagesRequest := mkAnthropicMessagesRequest {
  ar_Model : string;
  ar_MaxTokens : Z;
  ar_System : string;
  ar_Messages : list anthropicMessage;
  ar_Tools : list anthropicToolDefinition;
  ar_ToolChoice : option wire_choice;
  ar_DisableParallelUse : option bool;
  ar_Stream : bool;
  ar_Temperature : option float64
}.

(** The loop that separates the system messages from the conversation. *)
Fixpoint split_system (msgs : list Message) : list string * list anthropicMessage :=
  match msgs with
  | [] => ([], [])
  | m :: msgs =>
      let '(systemParts, convMessages) := split_system msgs in
      if String.eqb (msg_Role m) "system"
      then (FlattenToText (msg_Contents m) :: systemParts, convMessages)
      else (systemParts, mkAnthropicMessage (msg_Role m) (FlattenToText (msg_Contents m)) :: convMessages)
  end.

Definition anthropic_request (stream : bool) (model : string) (req : GenerateRequest) :
    anthropicMessagesRequest :=
  let '(systemParts, convMessages) := split_system (gr_Messages req) in
  mkAnthropicMessagesRequest model
    (if (0 <? gr_MaxTokens req)%Z then gr_MaxTokens req else 4096)
    (join nl systemParts) convMessages
    (map (λ t, mkAnthropicToolDefinition (td_Name t) (td_Description t) (td_Parameters t)) (gr_Tools req))
    (mapToolChoiceToAnthropic (gr_ToolChoice req))
    (match gr_ParallelToolCalls req with Some false => Some true | _ => None end)
    stream (positive (gr_Temperature req)).

(* ------------------------------------------------------------------ *)
(** ** HTTP exchanges and the retry loop *)
(* ------------------------------------------------------------------ *)

(** A response body: what can be read from it, and the error the read ends with. *)
Record http_body := mkHttpBody { hb_text : string; hb_err : option error }.

(** What [client.Do] comes to. *)
Inductive http_result :=
| HttpError (e : error)
| HttpResponse (status : Z) (body : http_body).

(** What an attempt can be seen to do: wait for some nanoseconds, or send. *)
Inductive action :=
| Wait (d : Z)
| Send (endpoint : string) (headers : list (string * string)) (payload : string).

Definition second : Z := 1000000000.

(** [time.Duration(1<<(attempt-1)) * time.Second], capped; both operations are on
    64-bit integers. *)
Definition backoff (attempt : Z) : Z :=
  let backoff := wrap64 (wrap64 (Z.shiftl 1 (attempt - 1)) * second) in
  if (30 * second <? backoff)%Z then 30 * second else backoff.

Definition attempts_of (maxRetries : Z) : nat :=
  let attempts := wrap64 (maxRetries + 1) in
  Z.to_nat (if (attempts <? 1)%Z then 1 else attempts).

(** How an exchange goes on: with a result, or with another attempt in a new
    state of the loop's variables. *)
Inductive verdict (S A : Type) :=
| Final (r : result error A)
| Again (s : S).
Arguments Final {S A} r.
Arguments Again {S A} s.

(** What the functions that send share: the endpoint, headers and payload, whether a
    request can be made for the endpoint ([http.NewRequestWithContext]), the
    answer of each attempt, and whether the context ends while the loop waits
    before an attempt. *)
Record exchange := mkExchange {
  ex_endpoint : string;
  ex_headers : list (string * string);
  ex_payload : string;
  ex_new_request : option error;
  ex_net : nat → http_result;
  ex_done : nat → option error
}.

Section retry.
Context {S A : Type}.
Variable ex : exchange.
(** How the error of [NewRequestWithContext] is wrapped, what an attempt makes of
    the answer, and what follows the last attempt. *)
Variable wrap_request : error → error.
Variable handle : nat → S → http_result → verdict S A.
Variable exhausted : S → result error A.

(** [todo] attempts are left. *)
Fixpoint retry_loop (todo attempt : nat) (s : S) : list action * result error A :=
  match todo with
  | O => ([], exhausted s)
  | Datatypes.S todo =>
      let send :=
        match ex_new_request ex with
        | Some e => ([], Err (wrap_request e))
        | None =>
            match handle attempt s (ex_net ex attempt) with
            | Final r => ([Send (ex_endpoint ex) (ex_headers ex) (ex_payload ex)], r)
            | Again s =>
                let '(tr, r) := retry_loop todo (Datatypes.S attempt) s in
                (Send (ex_endpoint ex) (ex_headers ex) (ex_payload ex) :: tr, r)
            end
        end in
      if 0 <? attempt then
        match ex_done ex attempt with
        | Some e => ([Wait (backoff (Z.of_nat attempt))], Err e)
        | None => let '(tr, r) := send in (Wait (backoff (Z.of_nat attempt)) :: tr, r)
        end
      else send
  end.
End retry.

(** [strings.TrimRight(baseURL, "/") + path] *)
Definition endpoint_of (baseURL path : string) : string := trim_right_byte "/" baseURL +:+ path.

(** The network as one call meets it. *)
Record network := mkNetwork {
  net_new_request : string → option error;
  net_do : nat → http_result;
  net_done : nat → option error;
  net_latency : nat → Z
}.

Definition exchange_over (net : network) (endpoint : string) (headers : list (string * string))
    (payload : string) : exchange :=
  mkExchange endpoint headers payload (net_new_request net endpoint) (net_do net) (net_done net).

(* ------------------------------------------------------------------ *)
(** ** Generating: the OpenAI-compatible function (providers.go) *)
(* ------------------------------------------------------------------ *)

Record chatResponse := mkChatResponse {
  cresp_Choices : list (string * string * list ToolCall * string);
  cresp_Usage : TokenUsage;
  cresp_Error : option (string * string)
}.
(** A choice is its message's content, reasoning content and tool calls, and its
    finish reason; an error its message and type. *)

(** The answer once decoded. *)
Definition openai_answer (latency : Z) (r : chatResponse) : GenerateResponse :=
  match cresp_Choices r with
  | [] => mkGenerateResponse "" [] (cresp_Usage r) "" latency
  | (content, reasoning, calls, finish) :: _ =>
      mkGenerateResponse
        (if String.eqb content "" && negb (String.eqb reasoning "") then reasoning else content)
        calls (cresp_Usage r) finish latency
  end.

Definition openai_headers (apiKey : string) : list (string * string) :=
  [("Content-Type", "application/json"); ("Authorization", "Bearer " +:+ apiKey)].

Section openai.
Variable marshal : chatRequest → result error string.
Variable unmarshal : string → result error chatResponse.

(** One round of the loop after the request is made; the state is [lastErr]. *)
Definition openai_handle (latency : nat → Z) (attempt : nat) (_ : option error) (r : http_result) :
    verdict (option error) GenerateResponse :=
  match r with
  | HttpError err => Again (Some (EFmt "http request: %w" [FW err]))
  | HttpResponse status body =>
      match hb_err body with
      | Some err => Again (Some (EFmt "read response: %w" [FW err]))
      | None =>
          if (status =? 200)%Z then
            match unmarshal (hb_text body) with
            | Err err => Final (Err (EFmt "unmarshal response: %w" [FW err]))
            | Ok chatResp =>
                match cresp_Error chatResp with
                | Some (msg, ty) => Final (Err (EFmt "api error: %s (%s)" [FS msg; FS ty]))
                | None => Final (Ok (openai_answer (latency attempt) chatResp))
                end
            end
          else if (status =? 401)%Z || (status =? 403)%Z then
            Final (Err (EFmt "%w: status %d" [FW ErrAuthenticationFailed; FI status]))
          else if (status =? 429)%Z then Again (Some (EFmt "rate limited: status 429" []))
          else if (500 <=? status)%Z then
            Again (Some (EFmt "%w: status %d" [FW ErrProviderUnavailable; FI status]))
          else
            Final (Err (EFmt "%w: status %d: %s" [FW ErrBadRequest; FI status; FS (hb_text body)]))
      end
  end.

Definition wrapped (lastErr : option error) : farg :=
  match lastErr with Some e => FW e | None => FA ANil end.

Definition openAICompatibleGenerate (net : network) (baseURL apiKey model : string) (req : GenerateRequest)
    (maxRetries : Z) : list action * result error GenerateResponse :=
  match marshal (chat_request model req) with
  | Err err => ([], Err (EFmt "marshal request: %w" [FW err]))
  | Ok payload =>
      let attempts := attempts_of maxRetries in
      retry_loop (exchange_over net (endpoint_of baseURL "/chat/completions")
                    (openai_headers apiKey) payload)
        (λ err, EFmt "create request: %w" [FW err])
        (openai_handle (net_latency net))
        (λ lastErr, Err (EFmt "request failed after %d attempts: %w" [FN attempts; wrapped lastErr]))
        attempts 0 None
  end.
End openai.

(* ------------------------------------------------------------------ *)
(** ** Generating: the Anthropic function (anthropic.go) *)
(* ------------------------------------------------------------------ *)

Record anthropicContentBlock := mkAnthropicContentBlock {
  ab_Type : string;
  ab_Text : string;
  ab_ID : string;
  ab_Name : string;
  ab_Input : string
}.

Record anthropicUsage := mkAnthropicUsage { au_InputTokens : Z; au_OutputTokens : Z }.

Record anthropicMessagesResponse := mkAnthropicMessagesResponse {
  aresp_Content : list anthropicContentBlock;
  aresp_StopReason : string;
  aresp_Usage : anthropicUsage;
  aresp_Error : option (string * string)
}.

(** The loop over the content blocks. *)
Fixpoint anthropic_blocks (blocks : list anthropicContentBlock) (content : string)
    (calls : list ToolCall) : string * list ToolCall :=
  match blocks with
  | [] => (content, calls)
  | b :: blocks =>
      if String.eqb (ab_Type b) "text" then anthropic_blocks blocks (content +:+ ab_Text b) calls
      else if String.eqb (ab_Type b) "tool_use" then
        anthropic_blocks blocks content (calls ++ [mkToolCall (ab_ID b) (ab_Name b) (ab_Input b)])
      else anthropic_blocks blocks content calls
  end.

Definition anthropic_answer (latency : Z) (r : anthropicMessagesResponse) : GenerateResponse :=
  let u := aresp_Usage r in
  let '(content, calls) := anthropic_blocks (aresp_Content r) "" [] in
  mkGenerateResponse content calls
    (mkTokenUsage (au_InputTokens u) (au_OutputTokens u) (wrap64 (au_InputTokens u + au_OutputTokens u)))
    (aresp_StopReason r) latency.

Definition claudeAPIVersion : string := "2023-06-01".
Definition anthropic_headers (apiKey : string) : list (string * string) :=
  [("Content-Type", "application/json"); ("x-api-key", apiKey);
   ("anthropic-version", claudeAPIVersion)].

Section anthropic.
Variable marshal : anthropicMessagesRequest → result error string.
Variable unmarshal : string → result error anthropicMessagesResponse.

Definition anthropic_handle (latency : nat → Z) (attempt : nat) (_ : option error) (r : http_result) :
    verdict (option error) GenerateResponse :=
  match r with
  | HttpError err => Again (Some (EFmt "anthropic: http request: %w" [FW err]))
  | HttpResponse status body =>
      match hb_err body with
      | Some err => Again (Some (EFmt "anthropic: read response: %w" [FW err]))
      | None =>
          if (status =? 200)%Z then
            match unmarshal (hb_text body) with
            | Err err => Final (Err (EFmt "anthropic: unmarshal response: %w" [FW err]))
            | Ok apiResp =>
                match aresp_Error apiResp with
                | Some (msg, ty) => Final (Err (EFmt "anthropic: api error: %s (%s)" [FS msg; FS ty]))
                | None => Final (Ok (anthropic_answer (latency attempt) apiResp))
                end
            end
          else if (status =? 401)%Z || (status =? 403)%Z then
            Final (Err (EFmt "%w: anthropic status %d" [FW ErrAuthenticationFailed; FI status]))
          else if (status =? 429)%Z then Again (Some (EFmt "anthropic: rate limited: status 429" []))
          else if (500 <=? status)%Z then
            Again (Some (EFmt "%w: anthropic status %d" [FW ErrProviderUnavailable; FI status]))
          else
            Final (Err (EFmt "%w: anthropic status %d: %s"
                          [FW ErrBadRequest; FI status; FS (hb_text body)]))
      end
  end.

Definition anthropicMessagesGenerate (net : network) (baseURL apiKey model : string) (req : GenerateRequest)
    (maxRetries : Z) : list action * result error GenerateResponse :=
  match marshal (anthropic_request false model req) with
  | Err err => ([], Err (EFmt "anthropic: marshal request: %w" [FW err]))
  | Ok payload =>
      let attempts := attempts_of maxRetries in
      retry_loop (exchange_over net (endpoint_of baseURL "/messages")
                    (anthropic_headers apiKey) payload)
        (λ err, EFmt "anthropic: create request: %w" [FW err])
        (anthropic_handle (net_latency net))
        (λ lastErr, Err (EFmt "anthropic: request failed after %d attempts: %w"
                           [FN attempts; wrapped lastErr]))
        attempts 0 None
  end.
End anthropic.

(* ------------------------------------------------------------------ *)
(** ** Embedding (providers.go) *)
(* ------------------------------------------------------------------ *)

Record embedRequest := mkEmbedRequest {
  er_Model : string;
  er_Input : list string;
  er_Dimensions : Z
}.

(** The vector's 32-bit floats are kept as the doubles of the same value. *)
Record embedData := mkEmbedData { ed_Embedding : list float64; ed_Index : Z }.

Record embedResponse := mkEmbedResponse {
  eresp_Data : list embedData;
  eresp_Error : option (string * string)
}.

(** [results[d.Index] = d.Embedding] for the indices in range; an element never
    written is nil. *)
Definition place_embedding (results : list (list float64)) (d : embedData) : list (list float64) :=
  if (ed_Index d <? 0)%Z || (Z.of_nat (length results) <=? ed_Index d)%Z then results
  else <[Z.to_nat (ed_Index d) := ed_Embedding d]> results.

Definition embed_results (data : list embedData) : list (list float64) :=
  foldl place_embedding (replicate (length data) []) data.

Section embed.
Variable marshal : embedRequest → result error string.
Variable unmarshal : string → result error embedResponse.

(** A single request, without retries. *)
Definition openAICompatibleEmbed (net : network) (baseURL apiKey model : string) (texts : list string)
    (dimensions : Z) : list action * result error (list (list float64)) :=
  if length texts =? 0 then ([], Err (EFmt "embed: no input texts provided" []))
  else
    match marshal (mkEmbedRequest model texts (if (0 <? dimensions)%Z then dimensions else 0)) with
    | Err err => ([], Err (EFmt "marshal embed request: %w" [FW err]))
    | Ok payload =>
        let endpoint := endpoint_of baseURL "/embeddings" in
        match net_new_request net endpoint with
        | Some err => ([], Err (EFmt "create embed request: %w" [FW err]))
        | None =>
            ([Send endpoint (openai_headers apiKey) payload],
             match net_do net 0 with
             | HttpError err => Err (EFmt "embed http request: %w" [FW err])
             | HttpResponse status body =>
                 match hb_err body with
                 | Some err => Err (EFmt "read embed response: %w" [FW err])
                 | None =>
                     if negb (status =? 200)%Z then
                       Err (EFmt "embed API error: status %d: %s" [FI status; FS (hb_text body)])
                     else
                       match unmarshal (hb_text body) with
                       | Err err => Err (EFmt "unmarshal embed response: %w" [FW err])
                       | Ok embedResp =>
                           match eresp_Error embedResp with
                           | Some (msg, ty) => Err (EFmt "embed API error: %s (%s)" [FS msg; FS ty])
                           | None => Ok (embed_results (eresp_Data embedResp))
                           end
                       end
                 end
             end)
        end
    end.
End embed.

(* ------------------------------------------------------------------ *)
(** ** The retry loop, verified *)
(* ------------------------------------------------------------------ *)

(** What [n] attempts from the [a]-th on look like from outside. *)
Fixpoint attempts_trace (send : action) (a n : nat) : list action :=
  match n with
  | O => []
  | S n => (if 0 <? a then [Wait (backoff (Z.of_nat a)); send] else [send])
             ++ attempts_trace send (S a) n
  end.

(** The context does not end during a wait before the attempts in [a, b). *)
Definition undisturbed (done : nat → option error) (a b : nat) : Prop :=
  ∀ j, 0 < j → a ≤ j < b → done j = None.

Section retry_spec.
Context {S A : Type}.
Variable ex : exchange.
Variable wrap_request : error → error.
Variable handle : nat → S → http_result → verdict S A.
Variable exhausted : S → result error A.
Variable transient : http_result → bool.
Variable final : nat → http_result → result error A.
Hypothesis Hreq : ex_new_request ex = None.
Hypothesis Hfinal : ∀ j s, transient (ex_net ex j) = false →
  handle j s (ex_net ex j) = Final (final j (ex_net ex j)).
Hypothesis Hagain : ∀ j s, transient (ex_net ex j) = true →
  ∃ s', handle j s (ex_net ex j) = Again s'.

Let send := Send (ex_endpoint ex) (ex_headers ex) (ex_payload ex).

(** How a run of the loop with [n] attempts left, from the [a]-th on, ends. *)
Inductive run_ends (a n : nat) (s : S) : list action * result error A → Prop :=
| ends_final k :
    a ≤ k < a + n → (∀ j, a ≤ j < k → transient (ex_net ex j) = true) →
    undisturbed (ex_done ex) a (Datatypes.S k) → transient (ex_net ex k) = false →
    run_ends a n s (attempts_trace send a (Datatypes.S k - a), final k (ex_net ex k))
| ends_cancelled k e :
    a ≤ k < a + n → 0 < k → (∀ j, a ≤ j < k → transient (ex_net ex j) = true) →
    undisturbed (ex_done ex) a k → ex_done ex k = Some e →
    run_ends a n s (attempts_trace send a (k - a) ++ [Wait (backoff (Z.of_nat k))], Err e)
| ends_exhausted s' :
    (∀ j, a ≤ j < a + n → transient (ex_net ex j) = true) →
    undisturbed (ex_done ex) a (a + n) →
    (n = 0 → s' = s) →
    (0 < n → ∃ s0, handle (a + n - 1) s0 (ex_net ex (a + n - 1)) = Again s') →
    run_ends a n s (attempts_trace send a n, exhausted s').

Lemma undisturbed_cons a b :
  (0 < a → ex_done ex a = None) → undisturbed (ex_done ex) (Datatypes.S a) b →
  undisturbed (ex_done ex) a b.
Proof.
  intros Ha Hu j Hj Hab. destruct (decide (j = a)) as [->|]; [auto|]. apply Hu; lia.
Qed.

(** A round that goes on, and then what the rest of the run does. *)
Lemma run_ends_step a n s s' tr r :
  transient (ex_net ex a) = true → (0 < a → ex_done ex a = None) →
  handle a s (ex_net ex a) = Again s' →
  run_ends (Datatypes.S a) n s' (tr, r) →
  run_ends a (Datatypes.S n) s
    ((if 0 <? a then [Wait (backoff (Z.of_nat a)); send] else [send]) ++ tr, r).
Proof.
  intros Ht Hd Hh Hr.
  assert (Hall : ∀ b, (∀ j, Datatypes.S a ≤ j < b → transient (ex_net ex j) = true) →
            ∀ j, a ≤ j < b → transient (ex_net ex j) = true).
  { intros b Hb j Hj. destruct (decide (j = a)) as [->|]; [done|]. apply Hb. lia. }
  inversion Hr as [k Hk Hj Hu Hf|k e Hk H0 Hj Hu He|sx Hj Hu Hs0 Hs1]; subst.
  - replace (_ ++ _) with (attempts_trace send a (Datatypes.S k - a)).
    + apply ends_final; [lia|by apply Hall|by apply undisturbed_cons|done].
    + replace (Datatypes.S k - a) with (Datatypes.S (Datatypes.S k - Datatypes.S a)) by lia. done.
  - rewrite app_assoc. replace (_ ++ attempts_trace _ _ _) with (attempts_trace send a (k - a)).
    + apply ends_cancelled; [lia|done|by apply Hall|by apply undisturbed_cons|done].
    + replace (k - a) with (Datatypes.S (k - Datatypes.S a)) by lia. done.
  - change (_ ++ _) with (attempts_trace send a (Datatypes.S n)).
    apply ends_exhausted.
    + replace (a + Datatypes.S n) with (Datatypes.S a + n) by lia. by apply Hall.
    + replace (a + Datatypes.S n) with (Datatypes.S a + n) by lia. by apply undisturbed_cons.
    + done.
    + intros _. destruct n as [|n].
      * replace (a + 1 - 1) with a by lia. exists s. by rewrite (Hs0 eq_refl).
      * replace (a + Datatypes.S (Datatypes.S n) - 1) with (Datatypes.S a + Datatypes.S n - 1) by lia.
        apply Hs1. lia.
Qed.

Lemma retry_loop_spec n a s :
  run_ends a n s (retry_loop ex wrap_request handle exhausted n a s).
Proof.
  revert a s. induction n as [|n IH]; intros a s; cbn [retry_loop].
  { by apply (ends_exhausted a 0 s s); [lia|intros j ? ?; lia| |lia]. }
  rewrite Hreq. fold send.
  assert (Hgo : (0 < a → ex_done ex a = None) →
    run_ends a (Datatypes.S n) s
      (match handle a s (ex_net ex a) with
       | Final r => ((if 0 <? a then [Wait (backoff (Z.of_nat a)); send] else [send]), r)
       | Again s0 => let '(tr, r) := retry_loop ex wrap_request handle exhausted n (Datatypes.S a) s0 in
           ((if 0 <? a then [Wait (backoff (Z.of_nat a)); send] else [send]) ++ tr, r)
       end)).
  { intros Hd. destruct (transient (ex_net ex a)) eqn:Ht.
    - destruct (Hagain a s Ht) as [s' Hs']. rewrite Hs'.
      pose proof (IH (Datatypes.S a) s') as H. destruct (retry_loop _ _ _ _ n _ _) as [tr r].
      by eapply run_ends_step.
    - rewrite Hfinal by done.
      pose proof (ends_final a (Datatypes.S n) s a) as H.
      replace (Datatypes.S a - a) with 1 in H by lia. simpl in H. rewrite app_nil_r in H.
      apply H; [lia|lia| |done]. intros j Hj Hl. assert (j = a) as -> by lia. auto. }
  destruct (Nat.ltb_spec 0 a) as [Ha|Ha].
  - destruct (ex_done ex a) as [e|] eqn:Hd.
    + pose proof (ends_cancelled a (Datatypes.S n) s a e) as H. rewrite Nat.sub_diag in H.
      apply H; [lia|done|lia|intros j ? ?; lia|done].
    + specialize (Hgo ltac:(done)). destruct (handle a s (ex_net ex a)) as [r|s']; [done|].
      by destruct (retry_loop _ _ _ _ n _ _).
  - specialize (Hgo ltac:(lia)). destruct (handle a s (ex_net ex a)) as [r|s']; [done|].
    by destruct (retry_loop _ _ _ _ n _ _).
Qed.
End retry_spec.

(** The outcomes that another attempt may mend: no answer, an answer that cannot
    be read, status 429 and the server's errors. *)
Definition transient (r : http_result) : bool :=
  match r with
  | HttpError _ => true
  | HttpResponse status body =>
      match hb_err body with
      | Some _ => true
      | None => (status =? 429)%Z || (500 <=? status)%Z
      end
  end.

(** What an attempt concludes from an answer that is not transient. *)
Definition conclusion {S A} (handle : nat → option S → http_result → verdict (option S) A)
    (attempt : nat) (r : http_result) : result error A :=
  match handle attempt None r with
  | Final a => a
  | Again _ => Err (EFmt "" [])
  end.

(** Both handlers go on exactly at transient outcomes, with an error to report. *)
Definition goes_on_when_transient {A}
    (handle : nat → option error → http_result → verdict (option error) A) : Prop :=
  (∀ j s r, transient r = false → handle j s r = Final (conclusion handle j r)) ∧
  (∀ j s r, transient r = true → ∃ e, handle j s r = Again (Some e)).

Ltac solve_handler :=
  split; intros j s [err|status [text [err|]]];
  unfold transient, conclusion, openai_handle, anthropic_handle; cbn [hb_err hb_text]; intros Ht;
  try done; try (by eexists);
  try apply orb_false_iff in Ht as [Ht1 Ht2]; try apply orb_true_iff in Ht;
  repeat case_match; try done; try (by eexists); try congruence; bool_simp; try lia.

Lemma openai_handle_goes_on unmarshal latency :
  goes_on_when_transient (openai_handle unmarshal latency).
Proof. solve_handler. Qed.

Lemma anthropic_handle_goes_on unmarshal latency :
  goes_on_when_transient (anthropic_handle unmarshal latency).
Proof. solve_handler. Qed.

(* ------------------------------------------------------------------ *)
(** ** Waiting times, embeddings and requests, verified *)
(* ------------------------------------------------------------------ *)

Lemma backoff_cap a : (backoff a ≤ 30 * second)%Z.
Proof. unfold backoff. case_match; bool_simp; lia. Qed.

Lemma backoff_exact a : (1 ≤ a ≤ 34)%Z → backoff a = Z.min (2 ^ (a - 1) * second) (30 * second).
Proof.
  intros Ha. unfold backoff. rewrite Z.shiftl_1_l.
  assert (0 < 2 ^ (a - 1) ≤ 2 ^ 33)%Z.
  { split; [apply Z.pow_pos_nonneg; lia|]. apply Z.pow_le_mono_r; lia. }
  assert (2 ^ 33 = 8589934592)%Z as E by reflexivity. rewrite E in *.
  unfold second in *.
  rewrite (wrap64_id (2 ^ (a - 1))) by (unfold in_int64, min_int64, max_int64; lia).
  rewrite wrap64_id by (unfold in_int64, min_int64, max_int64; lia).
  case_match; bool_simp; lia.
Qed.

(** From the 65th attempt on the shift has lost its only bit. *)
Lemma backoff_far a : (65 ≤ a)%Z → backoff a = 0%Z.
Proof.
  intros Ha. unfold backoff. rewrite Z.shiftl_1_l.
  replace (2 ^ (a - 1))%Z with (2 ^ 64 * 2 ^ (a - 65))%Z
    by (rewrite <-Z.pow_add_r by lia; f_equal; lia).
  assert (Hw : wrap64 (2 ^ 64 * 2 ^ (a - 65)) = 0%Z).
  { unfold wrap64. rewrite (Z.add_comm (_ * _)), (Z.mul_comm (2 ^ 64)), Z.mod_add by done. done. }
  by rewrite Hw.
Qed.

Lemma attempts_pos maxRetries : 0 < attempts_of maxRetries.
Proof. unfold attempts_of. case_match; bool_simp; lia. Qed.

Lemma place_embedding_length results d : length (place_embedding results d) = length results.
Proof. unfold place_embedding. case_match; [done|]. apply length_insert. Qed.

Lemma place_embeddings_length data results :
  length (foldl place_embedding results data) = length results.
Proof.
  revert results. induction data as [|d data IH]; intros results; simpl; [done|].
  by rewrite IH, place_embedding_length.
Qed.

(** The vector the data gives for the [i]-th input: that of the last element with
    that index. *)
Definition embedding_at (data : list embedData) (i : nat) : option (list float64) :=
  ed_Embedding <$> last (filter (λ d, ed_Index d = Z.of_nat i) data).

Lemma place_embeddings_lookup data results i :
  i < length results →
  foldl place_embedding results data !! i
  = match embedding_at data i with Some v => Some v | None => results !! i end.
Proof.
  revert results. induction data as [|d data IH] using rev_ind; intros results Hi; [done|].
  rewrite foldl_app. simpl. unfold embedding_at. rewrite filter_app, filter_cons, filter_nil.
  unfold place_embedding at 1. rewrite place_embeddings_length.
  destruct (decide (ed_Index d = Z.of_nat i)) as [He|He].
  - rewrite last_snoc. simpl. rewrite He, Nat2Z.id.
    replace (Z.of_nat i <? 0)%Z with false by (symmetry; apply Z.ltb_ge; lia).
    replace (Z.of_nat (length results) <=? Z.of_nat i)%Z with false
      by (symmetry; apply Z.leb_gt; lia).
    simpl. apply list_lookup_insert_eq. by rewrite place_embeddings_length.
  - rewrite app_nil_r. fold (embedding_at data i). rewrite <-IH by done.
    destruct (_ || _) eqn:Hr; [done|]. apply list_lookup_insert_ne. bool_simp. lia.
Qed.

Lemma embed_results_lookup data i :
  embed_results data !! i
  = if i <? length data then Some (default [] (embedding_at data i)) else None.
Proof.
  unfold embed_results. destruct (Nat.ltb_spec i (length data)) as [Hi|Hi].
  - rewrite place_embeddings_lookup by (by rewrite length_replicate).
    destruct (embedding_at data i); [done|]. by apply lookup_replicate_2.
  - apply lookup_ge_None_2. by rewrite place_embeddings_length, length_replicate.
Qed.

Lemma split_system_spec msgs :
  split_system msgs
  = (map (λ m, FlattenToText (msg_Contents m)) (filter (λ m, msg_Role m = "system") msgs),
     map (λ m, mkAnthropicMessage (msg_Role m) (FlattenToText (msg_Contents m)))
       (filter (λ m, msg_Role m ≠ "system") msgs)).
Proof.
  induction msgs as [|m msgs IH]; [done|]. cbn [split_system]. rewrite IH, !filter_cons.
  destruct (String.eqb_spec (msg_Role m) "system"); repeat case_decide; done.
Qed.

(** A block with its image data blanked out, and a request of such blocks. *)
Fixpoint zeros_like (s : string) : string :=
  match s with String _ s => String "0" (zeros_like s) | sempty => sempty end.
Definition redact (c : ContentBlock) : ContentBlock :=
  mkContentBlock (cb_Type c) (cb_Text c) (cb_ImageURL c) (zeros_like (cb_Base64 c)) (cb_Media c).
Definition redact_message (m : Message) : Message :=
  mkMessage (msg_Role m) (map redact (msg_Contents m)) (msg_Name m) (msg_ExecutionID m).
Definition redact_request (r : GenerateRequest) : GenerateRequest :=
  mkGenerateRequest (map redact_message (gr_Messages r)) (gr_Tools r) (gr_MaxTokens r)
    (gr_Temperature r) (gr_JSONSchema r) (gr_ToolChoice r) (gr_ParallelToolCalls r).

Lemma zeros_like_len s : slen (zeros_like s) = slen s.
Proof. induction s as [|c s IH]; simpl; [done|]. by rewrite IH. Qed.

Lemma flatten_redact contents : FlattenToText (map redact contents) = FlattenToText contents.
Proof.
  unfold FlattenToText. rewrite length_map. case_match; [done|].
  generalize 0 as i. generalize ""%string as sb. clear.
  induction contents as [|c contents IH]; intros sb i; simpl; [done|]. rewrite IH. f_equal. f_equal.
  unfold block_text, redact. simpl. by rewrite zeros_like_len.
Qed.

Lemma split_system_redact msgs : split_system (map redact_message msgs) = split_system msgs.
Proof.
  induction msgs as [|m msgs IH]; [done|]. cbn [map split_system]. rewrite IH.
  unfold redact_message at 1 2 3 4. simpl. by rewrite flatten_redact.
Qed.

(* ------------------------------------------------------------------ *)
(** ** Kinds of errors, verified *)
(* ------------------------------------------------------------------ *)

Definition sentinel_name (e : error) : string := match e with ESentinel s => s | _ => "" end.
Definition is_error (e target : error) : bool := errors_is (sentinel_name target) e.

(** An error that comes from outside and wraps no sentinel of the package. *)
Definition foreign (e : error) : Prop :=
  is_error e ErrAuthenticationFailed = false ∧ is_error e ErrProviderUnavailable = false ∧
  is_error e ErrBadRequest = false ∧ is_error e ErrRateLimited = false.

(** The transport, the reader and the decoder report foreign errors. *)
Definition foreign_environment {R} (net : network) (unmarshal : string → result error R) : Prop :=
  (∀ e, net_do net 0 = HttpError e → foreign e) ∧
  (∀ st text e, net_do net 0 = HttpResponse st (mkHttpBody text (Some e)) → foreign e) ∧
  (∀ text e, unmarshal text = Err e → foreign e).

(** The service answered, readably, with such a status. *)
Definition answered (net : network) (P : Z → Prop) : Prop :=
  ∃ st text, net_do net 0 = HttpResponse st (mkHttpBody text None) ∧ P st.

(** What the kind of an error says about the answer. *)
Definition kinds_reported (net : network) (e : error) : Prop :=
  (is_error e ErrAuthenticationFailed = true ↔ answered net (λ st, st = 401 ∨ st = 403)%Z) ∧
  (is_error e ErrProviderUnavailable = true ↔ answered net (λ st, 500 ≤ st)%Z) ∧
  (is_error e ErrBadRequest = true ↔
     answered net (λ st, st < 500 ∧ st ≠ 200 ∧ st ≠ 401 ∧ st ≠ 403 ∧ st ≠ 429)%Z) ∧
  is_error e ErrRateLimited = false.

Lemma answered_response net st text P :
  net_do net 0 = HttpResponse st (mkHttpBody text None) → answered net P ↔ P st.
Proof.
  intros Hn. unfold answered. rewrite Hn. split.
  - intros (st' & text' & Heq & Hp). by simplify_eq.
  - intros Hp. eauto.
Qed.

(** No readable answer, so no kind is reported. *)
Lemma kinds_silent net e :
  (∀ st text, net_do net 0 ≠ HttpResponse st (mkHttpBody text None)) → foreign e →
  kinds_reported net e.
Proof.
  intros Hn (H1 & H2 & H3 & H4). unfold kinds_reported, answered.
  rewrite H1, H2, H3.
  split_and!; try done; (split; [done|intros (st & text & Heq & _); by destruct (Hn st text)]).
Qed.

(** An answer of status 200 whose content is refused. *)
Lemma kinds_ok_status net text e :
  net_do net 0 = HttpResponse 200 (mkHttpBody text None) → foreign e → kinds_reported net e.
Proof.
  intros Hn (H1 & H2 & H3 & H4). unfold kinds_reported.
  rewrite !(answered_response _ _ _ _ Hn). rewrite H1, H2, H3.
  split_and!; try done; (split; [done|lia]).
Qed.

Lemma is_error_wrap1 format e target : is_error (EFmt format [FW e]) target = is_error e target.
Proof. unfold is_error. simpl. apply orb_false_r. Qed.

Lemma foreign_wrap format e : foreign e → foreign (EFmt format [FW e]).
Proof. unfold foreign. by rewrite !is_error_wrap1. Qed.

Lemma kinds_wrapped net format n e :
  kinds_reported net e → kinds_reported net (EFmt format [FN n; FW e]).
Proof.
  assert (Hw : ∀ t, is_error (EFmt format [FN n; FW e]) t = is_error e t)
    by (intros t; unfold is_error; simpl; apply orb_false_r).
  unfold kinds_reported. by rewrite !Hw.
Qed.

(** The error of one readable answer with status [st]. *)
Definition status_error (st : Z) (e : error) : Prop :=
  (is_error e ErrAuthenticationFailed = true ↔ (st = 401 ∨ st = 403)%Z) ∧
  (is_error e ErrProviderUnavailable = true ↔ (500 ≤ st)%Z) ∧
  (is_error e ErrBadRequest = true ↔ (st < 500 ∧ st ≠ 200 ∧ st ≠ 401 ∧ st ≠ 403 ∧ st ≠ 429)%Z) ∧
  is_error e ErrRateLimited = false.

Lemma kinds_status net st text e :
  net_do net 0 = HttpResponse st (mkHttpBody text None) → status_error st e → kinds_reported net e.
Proof. intros Hn. unfold kinds_reported, status_error. by rewrite !(answered_response _ _ _ _ Hn). Qed.

(** What a handler makes of the first answer, error or last error. *)
Definition reports_kinds {A} (net : network)
    (v : verdict (option error) A) : Prop :=
  match v with
  | Final (Err e) => kinds_reported net e
  | Again (Some e) => kinds_reported net e
  | Again None => False
  | Final (Ok _) => True
  end.

Ltac solve_status := unfold status_error, is_error; simpl; split_and!; try done; split; try done; lia.
Ltac solve_kinds Hd Ht Hb Hu :=
  destruct (net_do _ 0) as [err|status [text [err|]]] eqn:Hd; cbn [hb_err hb_text];
  [ apply kinds_silent; [by rewrite Hd|by apply foreign_wrap, Ht]
  | apply kinds_silent; [by rewrite Hd|by eapply foreign_wrap, Hb]
  | ].

Lemma openai_handle_kinds net unmarshal :
  foreign_environment net unmarshal →
  reports_kinds net (openai_handle unmarshal (net_latency net) 0 None (net_do net 0)).
Proof.
  intros (Ht & Hb & Hu). unfold openai_handle. solve_kinds Hd Ht Hb Hu.
  destruct (Z.eqb_spec status 200) as [->|H200].
  - destruct (unmarshal text) as [r|err] eqn:Hr; [|by eapply kinds_ok_status, foreign_wrap, Hu].
    by destruct (cresp_Error r) as [[msg ty]|]; [apply (kinds_ok_status _ text)|].
  - repeat case_match; bool_simp; apply (kinds_status _ status text); try done; solve_status.
Qed.

Lemma anthropic_handle_kinds net unmarshal :
  foreign_environment net unmarshal →
  reports_kinds net (anthropic_handle unmarshal (net_latency net) 0 None (net_do net 0)).
Proof.
  intros (Ht & Hb & Hu). unfold anthropic_handle. solve_kinds Hd Ht Hb Hu.
  destruct (Z.eqb_spec status 200) as [->|H200].
  - destruct (unmarshal text) as [r|err] eqn:Hr; [|by eapply kinds_ok_status, foreign_wrap, Hu].
    by destruct (aresp_Error r) as [[msg ty]|]; [apply (kinds_ok_status _ text)|].
  - repeat case_match; bool_simp; apply (kinds_status _ status text); try done; solve_status.
Qed.

(** A single attempt, as the providers make it. *)
Lemma single_attempt_kinds {A} net endpoint headers payload wrap handle format
    (out := @retry_loop (option error) A (exchange_over net endpoint headers payload) wrap handle
       (λ lastErr, Err (EFmt format [FN (attempts_of 0); wrapped lastErr])) (attempts_of 0) 0 None) e :
  net_new_request net endpoint = None →
  reports_kinds net (handle 0 None (net_do net 0)) →
  out.2 = Err e → kinds_reported net e.
Proof.
  intros Hreq Hk. subst out. change (attempts_of 0) with 1.
  cbn [retry_loop exchange_over ex_new_request ex_net Nat.ltb Nat.leb]. rewrite Hreq.
  destruct (handle 0 None (net_do net 0)) as [[a|e']|[e'|]]; simpl in *; intros Heq; simplify_eq; try done.
  by apply kinds_wrapped.
Qed.

(* ------------------------------------------------------------------ *)
(** ** Properties *)
(* ------------------------------------------------------------------ *)

(** C14: generating sends a request again exactly after a transient outcome (no
    answer, an unreadable one, status 429 or 500 and above) while attempts are
    left, waiting the backoff in between; it ends with the first other answer,
    with the context's error when that ends during a wait, or after the last
    attempt with an error that wraps the last failure. *)
Theorem generation_retries_only_transient_failures net baseURL apiKey model req maxRetries :
  (∀ marshal unmarshal payload,
     marshal (chat_request model req) = Ok payload →
     let endpoint := endpoint_of baseURL "/chat/completions" in
     net_new_request net endpoint = None →
     let handle := openai_handle unmarshal (net_latency net) in
     run_ends (exchange_over net endpoint (openai_headers apiKey) payload) handle
       (λ lastErr, Err (EFmt "request failed after %d attempts: %w"
                          [FN (attempts_of maxRetries); wrapped lastErr]))
       transient (conclusion handle) 0 (attempts_of maxRetries) None
       (openAICompatibleGenerate marshal unmarshal net baseURL apiKey model req maxRetries)) ∧
  (∀ marshal unmarshal payload,
     marshal (anthropic_request false model req) = Ok payload →
     let endpoint := endpoint_of baseURL "/messages" in
     net_new_request net endpoint = None →
     let handle := anthropic_handle unmarshal (net_latency net) in
     run_ends (exchange_over net endpoint (anthropic_headers apiKey) payload) handle
       (λ lastErr, Err (EFmt "anthropic: request failed after %d attempts: %w"
                          [FN (attempts_of maxRetries); wrapped lastErr]))
       transient (conclusion handle) 0 (attempts_of maxRetries) None
       (anthropicMessagesGenerate marshal unmarshal net baseURL apiKey model req maxRetries)).
Proof.
  split; intros marshal unmarshal payload Hm endpoint Hreq handle.
  - unfold openAICompatibleGenerate. rewrite Hm.
    destruct (openai_handle_goes_on unmarshal (net_latency net)) as [Hf Ha].
    apply retry_loop_spec; [done|intros j s; apply Hf|intros j s Ht].
    destruct (Ha j s _ Ht) as [e He]. eauto.
  - unfold anthropicMessagesGenerate. rewrite Hm.
    destruct (anthropic_handle_goes_on unmarshal (net_latency net)) as [Hf Ha].
    apply retry_loop_spec; [done|intros j s; apply Hf|intros j s Ht].
    destruct (Ha j s _ Ht) as [e He]. eauto.
Qed.

(** A service that is overloaded once and then answers; encoders and decoders
    that look at nothing. *)
Definition busy_then (second_answer : http_result) : network :=
  mkNetwork (λ _, None)
    (λ j, if j =? 0 then HttpResponse 503 (mkHttpBody "busy" None) else second_answer)
    (λ _, None) (λ _, 7%Z).
Definition said (text : string) (_ : string) : result error chatResponse :=
  Ok (mkChatResponse [(text, "", [], "stop")] no_usage None).
Definition encode_as {A} (payload : string) (_ : A) : result error string := Ok payload.
Definition hello_request : GenerateRequest :=
  mkGenerateRequest [NewTextMessage "system" "be brief"; NewTextMessage "user" "hello"] [] 0 (f_of_Z 0)
    None TCNil None.
Definition ok_response : http_result := HttpResponse 200 (mkHttpBody "..." None).

Lemma generation_retries_only_transient_failures_witness :
  let net := busy_then ok_response in
  let out := openAICompatibleGenerate (encode_as "{}") (said "hi") net "http://s/v1/" "key" "m"
               hello_request 2 in
  let send := Send "http://s/v1/chat/completions" (openai_headers "key") "{}" in
  out = ([send; Wait second; send], Ok (mkGenerateResponse "hi" [] no_usage "stop" 7)) ∧
  run_ends (exchange_over net "http://s/v1/chat/completions" (openai_headers "key") "{}")
    (openai_handle (said "hi") (net_latency net))
    (λ lastErr, Err (EFmt "request failed after %d attempts: %w" [FN 3; wrapped lastErr]))
    transient (conclusion (openai_handle (said "hi") (net_latency net))) 0 3 None out.
Proof.
  split; [vm_compute; reflexivity|].
  destruct (generation_retries_only_transient_failures (busy_then ok_response) "http://s/v1/" "key" "m"
    hello_request 2) as [H _].
  exact (H (encode_as "{}") (said "hi") "{}" eq_refl eq_refl).
Defined.

(** the kind of a generation error says what the service answered: an
    authentication error stands for status 401 or 403, an unavailable provider
    for 500 and above, a bad request for any other unsuccessful status but 429;
    and a rate limit is never reported as [ErrRateLimited]. *)
Theorem generation_error_kinds net baseURL apiKey model req e :
  (∀ marshal unmarshal payload,
     marshal (chat_request model req) = Ok payload →
     net_new_request net (endpoint_of baseURL "/chat/completions") = None →
     foreign_environment net unmarshal →
     (openAICompatibleGenerate marshal unmarshal net baseURL apiKey model req 0).2 = Err e →
     kinds_reported net e) ∧
  (∀ marshal unmarshal payload,
     marshal (anthropic_request false model req) = Ok payload →
     net_new_request net (endpoint_of baseURL "/messages") = None →
     foreign_environment net unmarshal →
     (anthropicMessagesGenerate marshal unmarshal net baseURL apiKey model req 0).2 = Err e →
     kinds_reported net e).
Proof.
  split; intros marshal unmarshal payload Hm Hreq Henv;
    unfold openAICompatibleGenerate, anthropicMessagesGenerate; rewrite Hm;
    apply single_attempt_kinds; auto using openai_handle_kinds, anthropic_handle_kinds.
Qed.

Lemma generation_error_kinds_witness :
  let net := mkNetwork (λ _, None) (λ _, HttpResponse 429 (mkHttpBody "slow down" None)) (λ _, None)
               (λ _, 0%Z) in
  ∃ e,
    (openAICompatibleGenerate (encode_as "{}") (said "hi") net "http://s" "key" "m" hello_request 0).2
      = Err e ∧ kinds_reported net e.
Proof.
  eexists. split; [vm_compute; reflexivity|].
  edestruct (generation_error_kinds
    (mkNetwork (λ _, None) (λ _, HttpResponse 429 (mkHttpBody "slow down" None)) (λ _, None) (λ _, 0%Z))
    "http://s" "key" "m" hello_request) as [H _].
  apply (H (encode_as "{}") (said "hi") "{}"); [reflexivity|reflexivity|split_and!; discriminate|].
  vm_compute. reflexivity.
Defined.

(** C15: the wait before the [a]-th repeated attempt doubles from one second up to
    thirty for the first 34; the 64-bit product then overflows, so that there is
    no wait before the 35th and from the 65th on. *)
Theorem backoff_doubles_then_overflows :
  (∀ a, (backoff a ≤ 30 * second)%Z) ∧
  (∀ a, (1 ≤ a ≤ 34)%Z → backoff a = Z.min (2 ^ (a - 1) * second) (30 * second)) ∧
  (backoff 35 < 0)%Z ∧
  (∀ a, (65 ≤ a)%Z → backoff a = 0%Z).
Proof.
  split_and!; [apply backoff_cap|apply backoff_exact|reflexivity|apply backoff_far].
Qed.

(** the vectors come back in the order of the indices the service gives: the
    [i]-th is that of the last element with index [i] and empty if there is none,
    indices out of range are dropped, and there are as many as elements came
    back, which need not be as many as texts were sent. *)
Theorem embeddings_follow_their_indices data i :
  length (embed_results data) = length data ∧
  embed_results data !! i
  = if i <? length data then Some (default [] (embedding_at data i)) else None.
Proof.
  split; [|apply embed_results_lookup].
  unfold embed_results. by rewrite place_embeddings_length, length_replicate.
Qed.

(** an Anthropic request has the texts of the system messages, in order, as its
    system text and the other messages, in order, as its conversation, all as
    plain text; image data never reaches the service, since a request with the
    data blanked out is the same. *)
Theorem anthropic_request_is_text_only stream model req :
  ar_System (anthropic_request stream model req)
  = join nl (map (λ m, FlattenToText (msg_Contents m))
               (filter (λ m, msg_Role m = "system") (gr_Messages req))) ∧
  ar_Messages (anthropic_request stream model req)
  = map (λ m, mkAnthropicMessage (msg_Role m) (FlattenToText (msg_Contents m)))
      (filter (λ m, msg_Role m ≠ "system") (gr_Messages req)) ∧
  anthropic_request stream model (redact_request req) = anthropic_request stream model req.
Proof.
  unfold anthropic_request. cbn [redact_request gr_Messages gr_Tools gr_MaxTokens gr_Temperature
    gr_ToolChoice gr_ParallelToolCalls].
  rewrite split_system_redact. by rewrite !split_system_spec.
Qed.

(** Neither request asks for structured output: the schema is not looked at. *)
Example json_schema_is_ignored stream model req schema :
  let req' := mkGenerateRequest (gr_Messages req) (gr_Tools req) (gr_MaxTokens req)
                (gr_Temperature req) schema (gr_ToolChoice req) (gr_ParallelToolCalls req) in
  chat_request model req' = chat_request model req ∧
  anthropic_request stream model req' = anthropic_request stream model req.
Proof. done. Qed.
