(* ===== verification/Streaming.v ===== *)
(** Streaming answers ([src/ai/providers/streaming.go],
    [anthropic_streaming.go]): the line scanner, the connection with its retries,
    and the readers that turn server-sent events into the chunks of the channel.

    A reader runs in a goroutine of its own and only meets its consumer through
    the channel, so it is modelled by the list of chunks it delivers, given what
    the consumer and the context do: at every send the context may end first, in
    which case the error chunk is delivered or dropped, and at the end there may
    be room for a last error chunk or not. *)
From S2P Require Export Providers.
From Stdlib Require Import Ascii.

(* ------------------------------------------------------------------ *)
(** ** The line scanner *)
(* ------------------------------------------------------------------ *)

(** [bufio.MaxScanTokenSize]: the scanner's buffer never grows beyond. *)
Definition MaxScanTokenSize : nat := Nat.pow 2 16.
Definition ErrTooLong : error := ESentinel "bufio.Scanner: token too long".

Definition drop_cr (line : string) : string := trim_suffix line (String "013" sempty).

(** The pieces between newlines as the scanner returns them: the last is a line
    unless it is empty, and a piece that fills the buffer ends the scan. *)
Fixpoint scan_pieces (pieces : list string) (err : option error) : list string * option error :=
  match pieces with
  | [] => ([], err)
  | p :: rest =>
      if MaxScanTokenSize <=? slen p then ([], Some ErrTooLong)
      else
        match rest with
        | [] => (if String.eqb p "" then [] else [drop_cr p], err)
        | _ => let '(lines, e) := scan_pieces rest err in (drop_cr p :: lines, e)
        end
  end.

Definition newline : ascii := "010".

Definition scan_lines (b : http_body) : list string * option error :=
  scan_pieces (split_on newline (hb_text b)) (hb_err b).

(* ------------------------------------------------------------------ *)
(** ** A reader and its consumer *)
(* ------------------------------------------------------------------ *)

(** What one line makes the reader do. *)
Inductive line_effect (S : Type) :=
| Skip (s : S)
| Emit (s : S) (c : StreamChunk)
| Stop.
Arguments Skip {S} s.
Arguments Emit {S} s c.
Arguments Stop {S}.

(** [cn_done i] is the context's error when it ends before the [i]-th send goes
    through, and whether the channel takes the error chunk. *)
Record consumer := mkConsumer {
  cn_done : nat → option (error * bool);
  cn_room : bool
}.
Definition patient : consumer := mkConsumer (λ _, None) true.

Definition error_chunk (e : error) : StreamChunk := mkStreamChunk "" [] "" no_usage (Some e).

(** [sendErrorChunk] *)
Definition send_error (room : bool) (e : error) : list StreamChunk :=
  if room then [error_chunk e] else [].

Section reader.
Context {S : Type}.
Variable step : S → string → line_effect S.
Variable wrap_read : error → error.
Variable cn : consumer.

(** [i] chunks have been sent; [err] is [scanner.Err()]. *)
Fixpoint read_lines (lines : list string) (err : option error) (s : S) (i : nat) : list StreamChunk :=
  match lines with
  | [] => match err with Some e => send_error (cn_room cn) (wrap_read e) | None => [] end
  | line :: lines =>
      match step s line with
      | Skip s => read_lines lines err s i
      | Stop => []
      | Emit s c =>
          match cn_done cn i with
          | Some (e, room) => send_error room e
          | None => c :: read_lines lines err s (Datatypes.S i)
          end
      end
  end.

Definition read_body (b : http_body) (s : S) : list StreamChunk :=
  let '(lines, err) := scan_lines b in read_lines lines err s 0.
End reader.

(** The state of the connection loop: the last response and the last error. *)
Definition connection : Type := option http_body * option error.

(* ------------------------------------------------------------------ *)
(** ** The OpenAI-compatible stream (streaming.go) *)
(* ------------------------------------------------------------------ *)

Record streamChatRequest := mkStreamChatRequest {
  scr_chatRequest : chatRequest;
  scr_Stream : bool;
  scr_IncludeUsage : option bool
}.

Record streamToolCallDelta := mkStreamToolCallDelta {
  std_Index : Z;
  std_ID : string;
  std_Name : string;
  std_Arguments : string
}.

Record streamChoice := mkStreamChoice {
  sch_Content : string;
  sch_ToolCalls : list streamToolCallDelta;
  sch_FinishReason : option string
}.

Record streamChunk := mkStreamChunkWire {
  swc_Choices : list streamChoice;
  swc_Usage : option TokenUsage
}.

(** [toolCallAccum] and [toolCallCount] *)
Definition tool_state : Type := gmap Z ToolCall * Z.

Definition or_keep (new old : string) : string := if String.eqb new "" then old else new.

(** One round of the loop over the tool call deltas. *)
Definition add_delta (st : tool_state) (tc : streamToolCallDelta) : tool_state :=
  let '(accum, count) := st in
  let idx := std_Index tc in
  match accum !! idx with
  | Some existing =>
      (<[idx := mkToolCall (or_keep (std_ID tc) (tc_ID existing)) (or_keep (std_Name tc) (tc_Name existing))
                  (tc_Arguments existing +:+ std_Arguments tc)]> accum, count)
  | None =>
      (<[idx := mkToolCall (std_ID tc) (std_Name tc) (std_Arguments tc)]> accum,
       if (count <=? idx)%Z then wrap64 (idx + 1) else count)
  end.

(** The calls so far, in a slice made for [count] of them. (Past the size the run
    time can allocate [make] panics; a panic of the goroutine is not modelled.) *)
Definition snapshot (st : tool_state) : list ToolCall :=
  let '(accum, count) := st in
  if (0 <? count)%Z then omap (λ i, accum !! i) (seqZ 0 count) else [].

(** The chunk made of a decoded payload. *)
Definition openai_chunk (st : tool_state) (chunk : streamChunk) : tool_state * StreamChunk :=
  let usage := default no_usage (swc_Usage chunk) in
  match swc_Choices chunk with
  | [] => (st, mkStreamChunk "" [] "" usage None)
  | choice :: _ =>
      let st := foldl add_delta st (sch_ToolCalls choice) in
      (st, mkStreamChunk (sch_Content choice) (snapshot st) (default "" (sch_FinishReason choice))
             usage None)
  end.

Section openai.
Variable marshal : streamChatRequest → result error string.
Variable unmarshal : string → result error streamChunk.
(** The error of reading from a body that is closed. *)
Variable closed : error.

Definition openai_line (st : tool_state) (line : string) : line_effect tool_state :=
  if String.eqb line "" then Skip st
  else if negb (has_prefix line "data: ") then Skip st
  else
    let data := trim_prefix line "data: " in
    if String.eqb data "[DONE]" then Stop
    else
      match unmarshal data with
      | Err _ => Skip st
      | Ok chunk => let '(st, sc) := openai_chunk st chunk in Emit st sc
      end.

(** One round of the connection loop; the status-200 [break] is final. *)
Definition openai_connect (_ : nat) (_ : connection) (r : http_result) : verdict connection http_body :=
  match r with
  | HttpError err => Again (None, Some err)
  | HttpResponse status body =>
      if (status =? 200)%Z then Final (Ok body)
      else if (status =? 401)%Z || (status =? 403)%Z then
        Final (Err (EFmt "%w: status %d" [FW ErrAuthenticationFailed; FI status]))
      else if (status <? 500)%Z && negb (status =? 429)%Z then
        Final (Err (EFmt "%w: status %d" [FW ErrBadRequest; FI status]))
      else
        Again (Some (mkHttpBody "" (Some closed)),
               Some (EFmt "stream request failed with status %d" [FI status]))
  end.

Definition shown (lastErr : option error) : farg :=
  match lastErr with Some e => FV e | None => FA ANil end.

(** After the loop: only a nil response is an error. *)
Definition openai_connected (c : connection) : result error http_body :=
  match c.1 with
  | None => Err (EFmt "%w: %v" [FW ErrProviderUnavailable; shown c.2])
  | Some body => Ok body
  end.

Definition openai_stream_headers (apiKey : string) : list (string * string) :=
  ("Content-Type", "application/json")
  :: (if String.eqb apiKey "" then [] else [("Authorization", "Bearer " +:+ apiKey)]).

(** The trace of the connection, and the error or the chunks of the channel. *)
Definition openAICompatibleStream (net : network) (cn : consumer) (baseURL apiKey model : string)
    (req : GenerateRequest) (maxRetries : Z) : list action * result error (list StreamChunk) :=
  match marshal (mkStreamChatRequest (chat_request model req) true (Some true)) with
  | Err err => ([], Err (EFmt "marshal stream request: %w" [FW err]))
  | Ok payload =>
      let '(tr, resp) :=
        retry_loop (exchange_over net (endpoint_of baseURL "/chat/completions")
                      (openai_stream_headers apiKey) payload)
          (λ err, EFmt "create stream request: %w" [FW err])
          openai_connect openai_connected (attempts_of maxRetries) 0 (None, None) in
      (tr, match resp with
           | Err e => Err e
           | Ok body =>
               Ok (read_body openai_line (λ e, EFmt "stream read error: %w" [FW e]) cn body (∅, 0%Z))
           end)
  end.
End openai.

(* ------------------------------------------------------------------ *)
(** ** The Anthropic stream (anthropic_streaming.go) *)
(* ------------------------------------------------------------------ *)

Record anthropicStreamToolAccum := mkToolAccum {
  ta_ID : string;
  ta_Name : string;
  ta_JSON : string
}.

Record anthropicDelta := mkAnthropicDelta {
  dl_Type : string;
  dl_Text : string;
  dl_PartialJSON : string
}.

Record anthropic_state := mkAnthropicState {
  currentEvent : string;
  toolAccum : gmap Z anthropicStreamToolAccum;
  toolOrder : list Z
}.

Definition buildToolCalls (accum : gmap Z anthropicStreamToolAccum) (order : list Z) : list ToolCall :=
  if size accum =? 0 then []
  else omap (λ idx, (λ tc, mkToolCall (ta_ID tc) (ta_Name tc) (ta_JSON tc)) <$> accum !! idx) order.

Definition current_calls (st : anthropic_state) : list ToolCall :=
  buildToolCalls (toolAccum st) (toolOrder st).

Definition set_event (ev : string) (st : anthropic_state) : anthropic_state :=
  mkAnthropicState ev (toolAccum st) (toolOrder st).

(** A tool's block opens, and a piece of its input arrives. *)
Definition start_tool (idx : Z) (id name : string) (st : anthropic_state) : anthropic_state :=
  mkAnthropicState (currentEvent st) (<[idx := mkToolAccum id name ""]> (toolAccum st))
    (toolOrder st ++ [idx]).
Definition grow_tool (idx : Z) (piece : string) (st : anthropic_state) : anthropic_state :=
  mkAnthropicState (currentEvent st)
    (alter (λ a, mkToolAccum (ta_ID a) (ta_Name a) (ta_JSON a +:+ piece)) idx (toolAccum st))
    (toolOrder st).

Section anthropic.
Variable marshal : anthropicMessagesRequest → result error string.
(** [json.Unmarshal] of the payloads of the three events that are decoded: index
    and block, index and delta, stop reason and usage. *)
Variable decode_start : string → result error (Z * option anthropicContentBlock).
Variable decode_delta : string → result error (Z * anthropicDelta).
Variable decode_message_delta : string → result error (string * option anthropicUsage).

(** The switch over the current event, for a line of data. *)
Definition anthropic_data (st : anthropic_state) (data : string) : line_effect anthropic_state :=
  let ev := currentEvent st in
  if String.eqb ev "message_start" then Skip st
  else if String.eqb ev "ping" then Skip st
  else if String.eqb ev "message_stop" then Stop
  else if String.eqb ev "content_block_start" then
    match decode_start data with
    | Ok (idx, Some block) =>
        if String.eqb (ab_Type block) "tool_use" then Skip (start_tool idx (ab_ID block) (ab_Name block) st)
        else Skip st
    | _ => Skip st
    end
  else if String.eqb ev "content_block_stop" then
    match current_calls st with
    | [] => Skip st
    | calls => Emit st (mkStreamChunk "" calls "" no_usage None)
    end
  else if String.eqb ev "content_block_delta" then
    match decode_delta data with
    | Err _ => Skip st
    | Ok (idx, delta) =>
        if String.eqb (dl_Type delta) "text_delta" then
          Emit st (mkStreamChunk (dl_Text delta) (current_calls st) "" no_usage None)
        else if String.eqb (dl_Type delta) "input_json_delta" then
          Skip (grow_tool idx (dl_PartialJSON delta) st)
        else Emit st (mkStreamChunk "" (current_calls st) "" no_usage None)
    end
  else if String.eqb ev "message_delta" then
    match decode_message_delta data with
    | Err _ => Skip st
    | Ok (reason, usage) =>
        let usage := match usage with
                     | Some u => mkTokenUsage 0 (au_OutputTokens u) 0
                     | None => no_usage
                     end in
        Emit st (mkStreamChunk "" (current_calls st) reason usage None)
    end
  else Skip st.

Definition anthropic_line (st : anthropic_state) (line : string) : line_effect anthropic_state :=
  if String.eqb line "" then Skip (set_event "" st)
  else if has_prefix line "event: " then Skip (set_event (trim_prefix line "event: ") st)
  else if negb (has_prefix line "data: ") then Skip st
  else anthropic_data st (trim_prefix line "data: ").

(** The status-200 [break] sets [gotOK], so it is the only way to a body. *)
Definition anthropic_connect (_ : nat) (_ : option error) (r : http_result) :
    verdict (option error) http_body :=
  match r with
  | HttpError err => Again (Some err)
  | HttpResponse status body =>
      if (status =? 200)%Z then Final (Ok body)
      else if (status =? 401)%Z || (status =? 403)%Z then
        Final (Err (EFmt "%w: anthropic stream status %d" [FW ErrAuthenticationFailed; FI status]))
      else if (status <? 500)%Z && negb (status =? 429)%Z then
        Final (Err (EFmt "%w: anthropic stream status %d" [FW ErrBadRequest; FI status]))
      else Again (Some (EFmt "anthropic stream: request failed with status %d" [FI status]))
  end.

Definition anthropicMessagesStream (net : network) (cn : consumer) (baseURL apiKey model : string)
    (req : GenerateRequest) (maxRetries : Z) : list action * result error (list StreamChunk) :=
  match marshal (anthropic_request true model req) with
  | Err err => ([], Err (EFmt "anthropic stream: marshal request: %w" [FW err]))
  | Ok payload =>
      let '(tr, resp) :=
        retry_loop (exchange_over net (endpoint_of baseURL "/messages") (anthropic_headers apiKey) payload)
          (λ err, EFmt "anthropic stream: create request: %w" [FW err])
          anthropic_connect
          (λ lastErr, Err (EFmt "%w: %v" [FW ErrProviderUnavailable; shown lastErr]))
          (attempts_of maxRetries) 0 None in
      (tr, match resp with
           | Err e => Err e
           | Ok body =>
               Ok (read_body anthropic_line (λ e, EFmt "anthropic stream read error: %w" [FW e]) cn body
                     (mkAnthropicState "" ∅ []))
           end)
  end.
End anthropic.

(* ------------------------------------------------------------------ *)
(** ** The scanner, verified *)
(* ------------------------------------------------------------------ *)

(** A text of terminated lines. *)
Definition unlines (lines : list string) : string :=
  concat_str (map (λ l, l +:+ String newline sempty) lines).

Definition fits (line : string) : Prop := slen line < MaxScanTokenSize.
Definition one_line (line : string) : Prop := has_byte newline line = false.

Lemma split_unlines lines rest :
  Forall one_line lines → split_on newline (unlines lines +:+ rest) = lines ++ split_on newline rest.
Proof.
  induction 1 as [|l lines Hl Hall IH]; [done|]. unfold unlines in *. simpl.
  rewrite !sapp_assoc. simpl. rewrite split_on_app by done. by rewrite IH.
Qed.

Lemma scan_pieces_app lines rest err :
  Forall fits lines → rest ≠ [] →
  scan_pieces (lines ++ rest) err
  = (map drop_cr lines ++ (scan_pieces rest err).1, (scan_pieces rest err).2).
Proof.
  intros Hall Hr. induction Hall as [|l lines Hl Hall IH]; [cbn [app map]; by destruct (scan_pieces rest err)|].
  cbn [app scan_pieces map]. unfold fits in Hl.
  destruct (Nat.leb_spec MaxScanTokenSize (slen l)); [lia|].
  rewrite IH. destruct (lines ++ rest) as [|x xs] eqn:E; [|done].
  apply app_eq_nil in E as [-> ->]. done.
Qed.

(* ------------------------------------------------------------------ *)
(** ** Assembling OpenAI tool calls, verified *)
(* ------------------------------------------------------------------ *)

(** The last value that is not empty. *)
Definition last_set (l : list string) : string := default "" (last (filter (λ s, s ≠ "") l)).

Lemma last_set_snoc l s : last_set (l ++ [s]) = or_keep s (last_set l).
Proof.
  unfold last_set, or_keep. rewrite filter_app, filter_cons, filter_nil.
  destruct (String.eqb_spec s "") as [->|Hne]; case_decide; try done.
  - by rewrite app_nil_r.
  - by rewrite last_snoc.
Qed.

(** The call the deltas of index [i] amount to. *)
Definition assembled (ds : list streamToolCallDelta) (i : Z) : option ToolCall :=
  match filter (λ d, std_Index d = i) ds with
  | [] => None
  | mine => Some (mkToolCall (last_set (map std_ID mine)) (last_set (map std_Name mine))
                    (concat_str (map std_Arguments mine)))
  end.

Definition bound (ds : list streamToolCallDelta) : Z :=
  foldr Z.max 0%Z (map (λ d, std_Index d + 1)%Z ds).

(** The calls of all the deltas, in the order of their indices. *)
Definition assembled_calls (ds : list streamToolCallDelta) : list ToolCall :=
  omap (assembled ds) (seqZ 0 (bound ds)).

Lemma assembled_snoc ds d i :
  assembled (ds ++ [d]) i
  = if decide (std_Index d = i) then
      Some (match assembled ds i with
            | Some c => mkToolCall (or_keep (std_ID d) (tc_ID c)) (or_keep (std_Name d) (tc_Name c))
                          (tc_Arguments c +:+ std_Arguments d)
            | None => mkToolCall (std_ID d) (std_Name d) (std_Arguments d)
            end)
    else assembled ds i.
Proof.
  unfold assembled. rewrite filter_app, filter_cons, filter_nil.
  case_decide as Hd; [|by rewrite app_nil_r].
  destruct (filter (λ d0, std_Index d0 = i) ds) as [|x mine] eqn:E.
  - unfold last_set. simpl. rewrite !filter_cons, filter_nil.
    repeat case_decide; simpl; rewrite ?sapp_nil_r; f_equal; f_equal;
      repeat match goal with H : ¬ (_ ≠ ""%string) |- _ => apply dec_stable in H end; congruence.
  - rewrite <-app_comm_cons. rewrite <-E. change (x :: mine ++ [d]) with ((x :: mine) ++ [d]).
    rewrite <-E, !map_app. cbn [map tc_ID tc_Name tc_Arguments]. rewrite !last_set_snoc, concat_str_app.
    simpl. by rewrite sapp_nil_r.
Qed.

Lemma bound_snoc ds d : bound (ds ++ [d]) = Z.max (bound ds) (std_Index d + 1).
Proof.
  unfold bound. rewrite map_app, foldr_app. simpl.
  induction (map _ ds) as [|z l IH]; simpl; lia.
Qed.

Lemma bound_nonneg ds : (0 ≤ bound ds)%Z.
Proof. unfold bound. induction (map _ ds); simpl; lia. Qed.

Definition sane_index (d : streamToolCallDelta) : Prop := (min_int64 ≤ std_Index d < max_int64)%Z.

(** The accumulator holds the assembled calls and the count their bound. *)
Lemma add_deltas_spec ds :
  Forall sane_index ds →
  (∀ i, (foldl add_delta (∅, 0%Z) ds).1 !! i = assembled ds i) ∧
  (foldl add_delta (∅, 0%Z) ds).2 = bound ds ∧
  (∀ i, is_Some (assembled ds i) → (i < bound ds)%Z).
Proof.
  induction ds as [|d ds IH] using rev_ind; intros Hall.
  { split_and!; [done|done|]. intros i [c Hc]. done. }
  apply Forall_app in Hall as [Hall Hd]. rewrite Forall_singleton in Hd.
  destruct (IH Hall) as (IH1 & IH2 & IH3). rewrite foldl_app. cbn [foldl].
  destruct (foldl add_delta (∅, 0%Z) ds) as [accum count]. cbn [fst snd] in IH1, IH2. subst count.
  pose proof (bound_nonneg ds) as Hb. unfold add_delta.
  assert (Hlt : ∀ i, is_Some (assembled (ds ++ [d]) i) → (i < bound (ds ++ [d]))%Z).
  { intros i Hi. rewrite bound_snoc. rewrite assembled_snoc in Hi.
    case_decide; [lia|]. specialize (IH3 i Hi). lia. }
  rewrite IH1. split_and!; [| |done].
  - intros i. rewrite assembled_snoc. case_decide as Hi.
    + subst i. destruct (assembled ds (std_Index d)); apply lookup_insert_eq.
    + destruct (assembled ds (std_Index d)); cbn [fst]; rewrite lookup_insert_ne by done; apply IH1.
  - rewrite bound_snoc. destruct (assembled ds (std_Index d)) eqn:Ha; cbn [snd].
    + pose proof (IH3 _ (mk_is_Some _ _ Ha)). lia.
    + unfold sane_index, min_int64, max_int64 in Hd. destruct (Z.leb_spec (bound ds) (std_Index d)); [|lia].
      rewrite wrap64_id; [lia|]. unfold in_int64, min_int64, max_int64. lia.
Qed.

Lemma snapshot_assembled ds :
  Forall sane_index ds → snapshot (foldl add_delta (∅, 0%Z) ds) = assembled_calls ds.
Proof.
  intros Hall. destruct (add_deltas_spec ds Hall) as (Hl & Hc & _).
  destruct (foldl add_delta (∅, 0%Z) ds) as [accum count]. simpl in *. subst count.
  unfold assembled_calls. destruct (Z.ltb_spec 0 (bound ds)) as [Hb|Hb].
  - apply list_omap_ext, Forall_Forall2_diag, Forall_true. intros i. apply Hl.
  - pose proof (bound_nonneg ds). by replace (bound ds) with 0%Z by lia.
Qed.

(* ------------------------------------------------------------------ *)
(** ** The OpenAI reader, verified *)
(* ------------------------------------------------------------------ *)

Section openai_spec.
Variable unmarshal : string → result error streamChunk.

(** The payload of a line, the end marker, or nothing. *)
Inductive sse_line := Payload (p : streamChunk) | Done | Noise.
Definition classify (line : string) : sse_line :=
  if has_prefix line "data: " then
    let data := trim_prefix line "data: " in
    if String.eqb data "[DONE]" then Done
    else match unmarshal data with Ok p => Payload p | Err _ => Noise end
  else Noise.

(** The payloads before the end marker, and whether there is one. *)
Fixpoint payloads (lines : list string) : list streamChunk * bool :=
  match lines with
  | [] => ([], false)
  | line :: lines =>
      match classify line with
      | Done => ([], true)
      | Noise => payloads lines
      | Payload p => let '(ps, done) := payloads lines in (p :: ps, done)
      end
  end.

Definition payload_deltas (p : streamChunk) : list streamToolCallDelta :=
  match swc_Choices p with c :: _ => sch_ToolCalls c | [] => [] end.
Definition deltas_of (ps : list streamChunk) : list streamToolCallDelta := concat (map payload_deltas ps).

(** The chunk of a payload, given those before it: the text and finish reason of
    its first choice, all calls assembled so far, and its usage. *)
Definition chunk_after (before : list streamChunk) (p : streamChunk) : StreamChunk :=
  let usage := default no_usage (swc_Usage p) in
  match swc_Choices p with
  | [] => mkStreamChunk "" [] "" usage None
  | c :: _ => mkStreamChunk (sch_Content c) (assembled_calls (deltas_of (before ++ [p])))
                (default "" (sch_FinishReason c)) usage None
  end.

Fixpoint chunks_after (before ps : list streamChunk) : list StreamChunk :=
  match ps with
  | [] => []
  | p :: ps => chunk_after before p :: chunks_after (before ++ [p]) ps
  end.

Lemma openai_line_classify st line :
  openai_line unmarshal st line
  = match classify line with
    | Done => Stop
    | Noise => Skip st
    | Payload p => let '(st, sc) := openai_chunk st p in Emit st sc
    end.
Proof.
  unfold openai_line, classify. destruct (String.eqb_spec line "") as [->|]; [done|].
  destruct (has_prefix line "data: "); [|done]. cbn [negb].
  destruct (String.eqb _ _); [done|]. by destruct (unmarshal _).
Qed.

Lemma deltas_of_snoc ps p : deltas_of (ps ++ [p]) = deltas_of ps ++ payload_deltas p.
Proof. unfold deltas_of. rewrite map_app, concat_app. simpl. by rewrite app_nil_r. Qed.

Lemma openai_chunk_after before p :
  Forall sane_index (deltas_of (before ++ [p])) →
  openai_chunk (foldl add_delta (∅, 0%Z) (deltas_of before)) p
  = (foldl add_delta (∅, 0%Z) (deltas_of (before ++ [p])), chunk_after before p).
Proof.
  intros Hs. unfold openai_chunk, chunk_after. rewrite deltas_of_snoc in *. unfold payload_deltas in *.
  destruct (swc_Choices p) as [|c cs]; [by rewrite app_nil_r|].
  rewrite <-foldl_app. by rewrite snapshot_assembled.
Qed.

Lemma openai_read_spec wrap cn lines err before i :
  (∀ j, cn_done cn j = None) →
  Forall sane_index (deltas_of (before ++ (payloads lines).1)) →
  read_lines (openai_line unmarshal) wrap cn lines err
    (foldl add_delta (∅, 0%Z) (deltas_of before)) i
  = chunks_after before (payloads lines).1
      ++ (if (payloads lines).2 then []
          else match err with Some e => send_error (cn_room cn) (wrap e) | None => [] end).
Proof.
  intros Hcn. revert before i. induction lines as [|line lines IH]; intros before i Hs; [done|].
  cbn [read_lines payloads] in *. rewrite openai_line_classify.
  destruct (classify line) as [p| |]; [|done|by apply IH].
  destruct (payloads lines) as [ps fin] eqn:Hp. cbn [fst snd chunks_after] in *.
  rewrite openai_chunk_after.
  - rewrite Hcn. cbn [app]. f_equal. apply IH.
    by rewrite <-app_assoc.
  - rewrite (cons_middle p before ps), app_assoc in Hs. unfold deltas_of in *.
    rewrite map_app, concat_app in Hs. by apply Forall_app in Hs as [? _].
Qed.

(** A connection that succeeds at once. *)
Lemma openai_stream_connected marshal closed net cn baseURL apiKey model req maxRetries payload body :
  marshal (mkStreamChatRequest (chat_request model req) true (Some true)) = Ok payload →
  net_new_request net (endpoint_of baseURL "/chat/completions") = None →
  net_do net 0 = HttpResponse 200 body →
  (openAICompatibleStream marshal unmarshal closed net cn baseURL apiKey model req maxRetries).2
  = Ok (read_body (openai_line unmarshal) (λ e, EFmt "stream read error: %w" [FW e]) cn body (∅, 0%Z)).
Proof.
  intros Hm Hn Hd. unfold openAICompatibleStream. rewrite Hm.
  destruct (attempts_of maxRetries) as [|n] eqn:Ha; [pose proof (attempts_pos maxRetries); lia|].
  cbn [retry_loop exchange_over ex_new_request ex_net Nat.ltb Nat.leb]. rewrite Hn, Hd. done.
Qed.
End openai_spec.

(* ------------------------------------------------------------------ *)
(** ** The Anthropic reader, verified *)
(* ------------------------------------------------------------------ *)

(** What happens to tools: one is announced, or a piece of its input arrives. *)
Inductive tool_event :=
| Started (idx : Z) (id name : string)
| Grew (idx : Z) (piece : string).

(** The events of the stream as the reader distinguishes them. *)
Inductive sse_event :=
| Tool (t : tool_event)
| Text (text : string)
| OtherDelta
| BlockStop
| Finish (reason : string) (usage : option anthropicUsage).

Definition apply_tool (st : anthropic_state) (t : tool_event) : anthropic_state :=
  match t with
  | Started idx id name => start_tool idx id name st
  | Grew idx piece => grow_tool idx piece st
  end.

Definition initial_state : anthropic_state := mkAnthropicState "" ∅ [].

(** The calls as they stand after some tool events. *)
Definition calls_after (ts : list tool_event) : list ToolCall :=
  current_calls (foldl apply_tool initial_state ts).

Definition finish_usage (usage : option anthropicUsage) : TokenUsage :=
  match usage with Some u => mkTokenUsage 0 (au_OutputTokens u) 0 | None => no_usage end.

(** The chunks of the events: every delta, stop and end carries the calls as they
    stand; the end of a block says nothing when there is no call. *)
Fixpoint event_chunks (ts : list tool_event) (evs : list sse_event) : list StreamChunk :=
  match evs with
  | [] => []
  | Tool t :: evs => event_chunks (ts ++ [t]) evs
  | Text text :: evs => mkStreamChunk text (calls_after ts) "" no_usage None :: event_chunks ts evs
  | OtherDelta :: evs => mkStreamChunk "" (calls_after ts) "" no_usage None :: event_chunks ts evs
  | BlockStop :: evs =>
      match calls_after ts with
      | [] => event_chunks ts evs
      | calls => mkStreamChunk "" calls "" no_usage None :: event_chunks ts evs
      end
  | Finish reason usage :: evs =>
      mkStreamChunk "" (calls_after ts) reason (finish_usage usage) None :: event_chunks ts evs
  end.

Section anthropic_spec.
Variable decode_start : string → result error (Z * option anthropicContentBlock).
Variable decode_delta : string → result error (Z * anthropicDelta).
Variable decode_message_delta : string → result error (string * option anthropicUsage).

(** The event a line of data is under the event name [ev]: [None] for the end. *)
Definition event_of (ev data : string) : option (list sse_event) :=
  if String.eqb ev "message_start" then Some []
  else if String.eqb ev "ping" then Some []
  else if String.eqb ev "message_stop" then None
  else if String.eqb ev "content_block_start" then
    Some match decode_start data with
         | Ok (idx, Some b) => if String.eqb (ab_Type b) "tool_use"
                               then [Tool (Started idx (ab_ID b) (ab_Name b))] else []
         | _ => []
         end
  else if String.eqb ev "content_block_stop" then Some [BlockStop]
  else if String.eqb ev "content_block_delta" then
    Some match decode_delta data with
         | Err _ => []
         | Ok (idx, d) =>
             if String.eqb (dl_Type d) "text_delta" then [Text (dl_Text d)]
             else if String.eqb (dl_Type d) "input_json_delta" then [Tool (Grew idx (dl_PartialJSON d))]
             else [OtherDelta]
         end
  else if String.eqb ev "message_delta" then
    Some match decode_message_delta data with
         | Err _ => []
         | Ok (reason, usage) => [Finish reason usage]
         end
  else Some [].

(** The events of the lines up to the end of the message, and whether it came. *)
Fixpoint events (ev : string) (lines : list string) : list sse_event * bool :=
  match lines with
  | [] => ([], false)
  | line :: lines =>
      if String.eqb line "" then events "" lines
      else if has_prefix line "event: " then events (trim_prefix line "event: ") lines
      else if has_prefix line "data: " then
        match event_of ev (trim_prefix line "data: ") with
        | None => ([], true)
        | Some evs => let '(evs', fin) := events ev lines in (evs ++ evs', fin)
        end
      else events ev lines
  end.

Let step := anthropic_line decode_start decode_delta decode_message_delta.

Lemma current_calls_set_event ev st : current_calls (set_event ev st) = current_calls st.
Proof. done. Qed.

Lemma apply_tool_set_event ev st t : apply_tool (set_event ev st) t = set_event ev (apply_tool st t).
Proof. by destruct t. Qed.

Lemma anthropic_read_spec wrap cn lines err ev ts i :
  (∀ j, cn_done cn j = None) →
  read_lines step wrap cn lines err (set_event ev (foldl apply_tool initial_state ts)) i
  = event_chunks ts (events ev lines).1
      ++ (if (events ev lines).2 then []
          else match err with Some e => send_error (cn_room cn) (wrap e) | None => [] end).
Proof.
  intros Hcn. revert ev ts i. induction lines as [|line lines IH]; intros ev ts i; [done|].
  cbn [read_lines events]. unfold step at 1, anthropic_line.
  destruct (String.eqb line ""); [apply IH|].
  destruct (has_prefix line "event: "); [apply IH|].
  destruct (has_prefix line "data: "); [|apply IH]. cbn [negb].
  assert (Htool : ∀ t, set_event ev (apply_tool (foldl apply_tool initial_state ts) t)
                       = set_event ev (foldl apply_tool initial_state (ts ++ [t])))
    by (intros t; by rewrite foldl_app).
  unfold anthropic_data, event_of. cbn [currentEvent set_event].
  generalize (trim_prefix line "data: "). intros data.
  specialize (IH ev).
  repeat match goal with
  | |- context [if String.eqb ?x ?y then _ else _] => destruct (String.eqb x y)
  | |- context [match decode_start ?d with _ => _ end] => destruct (decode_start d) as [[? [?|]]|]
  | |- context [match decode_delta ?d with _ => _ end] => destruct (decode_delta d) as [[? ?]|]
  | |- context [match decode_message_delta ?d with _ => _ end] =>
      destruct (decode_message_delta d) as [[? ?]|]
  end; try done; rewrite ?Hcn;
  try (destruct (events ev lines) as [evs' fin] eqn:He; cbn [fst snd app event_chunks] in * ).
  all: unfold calls_after; rewrite ?current_calls_set_event.
  all: try (destruct (current_calls _) eqn:Hc; rewrite ?Hcn, <-?Hc).
  all: cbn [app]; first [apply IH | f_equal; apply IH | etransitivity; [|apply IH]; by rewrite foldl_app].
Qed.
End anthropic_spec.

(** *** Tool calls from interleaved events *)

Definition tool_index (t : tool_event) : Z := match t with Started i _ _ | Grew i _ => i end.
Definition starts (ts : list tool_event) : list Z :=
  omap (λ t, match t with Started i _ _ => Some i | Grew _ _ => None end) ts.

Lemma buildToolCalls_omap accum order :
  buildToolCalls accum order
  = omap (λ idx, (λ tc, mkToolCall (ta_ID tc) (ta_Name tc) (ta_JSON tc)) <$> accum !! idx) order.
Proof.
  unfold buildToolCalls. destruct (Nat.eqb_spec (size accum) 0) as [He|]; [|done].
  apply map_size_empty_inv in He as ->. induction order as [|i order IH]; [done|].
  cbn [omap list_omap]. rewrite lookup_empty. apply IH.
Qed.

Lemma toolOrder_starts ts : toolOrder (foldl apply_tool initial_state ts) = starts ts.
Proof.
  induction ts as [|t ts IH] using rev_ind; [done|]. rewrite foldl_app. cbn [foldl].
  unfold starts in *. rewrite omap_app, <-IH. destruct t; simpl; [done|]. by rewrite app_nil_r.
Qed.

(** The accumulator of a tool depends on the events of that tool alone. *)
Lemma toolAccum_filter ts i :
  toolAccum (foldl apply_tool initial_state ts) !! i
  = toolAccum (foldl apply_tool initial_state (filter (λ t, tool_index t = i) ts)) !! i.
Proof.
  induction ts as [|t ts IH] using rev_ind; [done|].
  rewrite filter_app, filter_cons, filter_nil, !foldl_app. cbn [foldl].
  case_decide as Ht; cbn [foldl].
  - destruct t as [j id name|j piece]; simpl in *; subst j.
    + by rewrite !lookup_insert_eq.
    + by rewrite !lookup_alter_eq, IH.
  - rewrite <-IH. destruct t as [j id name|j piece]; simpl in *.
    + by rewrite lookup_insert_ne.
    + by rewrite lookup_alter_ne.
Qed.

Lemma toolAccum_protocol i id name pieces :
  toolAccum (foldl apply_tool initial_state (Started i id name :: map (Grew i) pieces)) !! i
  = Some (mkToolAccum id name (concat_str pieces)).
Proof.
  induction pieces as [|p pieces IH] using rev_ind; [apply lookup_insert_eq|].
  rewrite map_app. change (Started i id name :: map (Grew i) pieces ++ map (Grew i) [p])
    with ((Started i id name :: map (Grew i) pieces) ++ [Grew i p]).
  rewrite foldl_app. set (st := foldl _ _ (Started i id name :: _)) in *. simpl.
  rewrite lookup_alter_eq, IH. simpl. rewrite concat_str_app. simpl. by rewrite sapp_nil_r.
Qed.

Lemma calls_after_protocol ts (tool : Z → string * string * list string) :
  (∀ i, i ∈ starts ts →
     filter (λ t, tool_index t = i) ts
     = Started i (tool i).1.1 (tool i).1.2 :: map (Grew i) (tool i).2) →
  calls_after ts
  = map (λ i, mkToolCall (tool i).1.1 (tool i).1.2 (concat_str (tool i).2)) (starts ts).
Proof.
  intros Hp. unfold calls_after, current_calls. rewrite buildToolCalls_omap, toolOrder_starts.
  assert (Hl : ∀ i, i ∈ starts ts → toolAccum (foldl apply_tool initial_state ts) !! i
                 = Some (mkToolAccum (tool i).1.1 (tool i).1.2 (concat_str (tool i).2))).
  { intros i Hi. by rewrite toolAccum_filter, Hp, toolAccum_protocol. }
  clear Hp. induction (starts ts) as [|i l IH]; [done|]. cbn [omap list_omap map].
  rewrite Hl by set_solver. simpl. f_equal. apply IH. intros j Hj. apply Hl. set_solver.
Qed.

(** *** Usage *)

Lemma anthropic_usage ds dd dm wrap cn lines err st i :
  Forall (λ c, tu_PromptTokens (sc_Usage c) = 0%Z ∧ tu_TotalTokens (sc_Usage c) = 0%Z)
    (read_lines (anthropic_line ds dd dm) wrap cn lines err st i).
Proof.
  assert (Herr : ∀ b e, Forall (λ c, tu_PromptTokens (sc_Usage c) = 0%Z ∧ tu_TotalTokens (sc_Usage c) = 0%Z)
                  (send_error b e)) by (intros [] e; repeat constructor).
  revert st i. induction lines as [|line lines IH]; intros st i; cbn [read_lines].
  { destruct err; [apply Herr|constructor]. }
  destruct (anthropic_line ds dd dm st line) as [st'|st' c|] eqn:Hl; [apply IH| |constructor].
  destruct (cn_done cn i) as [[e b]|]; [apply Herr|]. constructor; [|apply IH].
  unfold anthropic_line, anthropic_data in Hl. clear -Hl.
  repeat case_match; simplify_eq; done.
Qed.

(* ------------------------------------------------------------------ *)
(** ** Connections that never succeed *)
(* ------------------------------------------------------------------ *)

Definition overloaded (r : http_result) : Prop :=
  ∃ status body, r = HttpResponse status body ∧ (status = 429 ∨ 500 ≤ status)%Z.

Lemma openai_connect_overloaded closed j c r :
  overloaded r →
  ∃ e, openai_connect closed j c r = Again (Some (mkHttpBody "" (Some closed)), Some e).
Proof.
  intros (status & body & -> & Hs). simpl.
  repeat case_match; bool_simp; try lia; eauto.
Qed.

Lemma anthropic_connect_overloaded j c r :
  overloaded r → ∃ e, anthropic_connect j c r = Again (Some e).
Proof.
  intros (status & body & -> & Hs). simpl.
  repeat case_match; bool_simp; try lia; eauto.
Qed.

(** When every answer is overloaded, the loop ends by exhaustion in a state the
    last answer left. *)
Lemma retry_loop_overloaded {S A} ex wrap (handle : nat → S → http_result → verdict S A) exhausted
    (P : S → Prop) n a s :
  ex_new_request ex = None → (∀ j, ex_done ex j = None) →
  (∀ j c, ∃ s', handle j c (ex_net ex j) = Again s' ∧ P s') → 0 < n →
  ∃ s', (retry_loop ex wrap handle exhausted n a s).2 = exhausted s' ∧ P s'.
Proof.
  intros Hreq Hdone Hh Hn. revert a s. induction n as [|n IH]; intros a s; [lia|].
  cbn [retry_loop]. rewrite Hreq, Hdone.
  destruct (Hh a s) as (s' & -> & Hp). destruct n as [|n].
  - exists s'. by destruct (0 <? a).
  - destruct (IH ltac:(lia) (Datatypes.S a) s') as (s'' & Heq & Hp''). exists s''. split; [|done].
    destruct (retry_loop _ _ _ _ (Datatypes.S n) _ _) as [tr r]. by destruct (0 <? a).
Qed.

(* ------------------------------------------------------------------ *)
(** ** Properties *)
(* ------------------------------------------------------------------ *)

Lemma chunks_after_lookup before ps k p :
  ps !! k = Some p → chunks_after before ps !! k = Some (chunk_after (before ++ take k ps) p).
Proof.
  revert before k. induction ps as [|q ps IH]; intros before [|k] Hk; simplify_eq/=; [by rewrite app_nil_r|].
  rewrite (IH _ _ Hk). by rewrite <-app_assoc.
Qed.

Lemma chunks_after_length before ps : length (chunks_after before ps) = length ps.
Proof. revert before. induction ps as [|p ps IH]; intros before; simpl; [done|]. by rewrite IH. Qed.

(** The largest number of calls for which a slice can be made: 48 bytes each, of at
    most 2^48. *)
Definition max_calls : Z := 2 ^ 48 / 48.

(** C20: over a connection that succeeds and to a consumer that keeps reading, an
    OpenAI stream delivers one chunk for each payload before the end marker, lines
    that are no payload being skipped. The chunk of a payload with choices has the
    text and finish reason of the first one, the usage, and every tool call so far,
    in the order of the indices, each with the last identifier and name its deltas
    gave and all of their argument pieces in order. The chunk of a payload without
    choices, as the last one with the usage is, has the usage only and no tool call
    at all, although the comment of StreamChunk (types.go:135) has each chunk carry
    the full state and the final one complete calls. A read error comes last, unless
    the marker came first. (Tool indices past the number of calls a slice can hold,
    where the code panics, are excluded.) *)
Theorem openai_stream_assembles_the_payloads marshal unmarshal closed net cn baseURL apiKey model req
    maxRetries payload body lines err ps fin :
  marshal (mkStreamChatRequest (chat_request model req) true (Some true)) = Ok payload →
  net_new_request net (endpoint_of baseURL "/chat/completions") = None →
  net_do net 0 = HttpResponse 200 body →
  (∀ j, cn_done cn j = None) →
  scan_lines body = (lines, err) → payloads unmarshal lines = (ps, fin) →
  Forall (λ d, min_int64 ≤ std_Index d < max_calls)%Z (deltas_of ps) →
  ∃ chunks,
    (openAICompatibleStream marshal unmarshal closed net cn baseURL apiKey model req maxRetries).2
    = Ok (chunks
            ++ (if fin then []
                else match err with
                     | Some e => send_error (cn_room cn) (EFmt "stream read error: %w" [FW e])
                     | None => []
                     end)) ∧
    length chunks = length ps ∧
    (∀ k p c cs, ps !! k = Some p → swc_Choices p = c :: cs →
       chunks !! k = Some (mkStreamChunk (sch_Content c) (assembled_calls (deltas_of (take (S k) ps)))
                             (default "" (sch_FinishReason c)) (default no_usage (swc_Usage p)) None)) ∧
    (∀ k p, ps !! k = Some p → swc_Choices p = [] →
       chunks !! k = Some (mkStreamChunk "" [] "" (default no_usage (swc_Usage p)) None)).
Proof.
  intros Hm Hn Hd Hcn Hs Hp Hsane. exists (chunks_after [] ps). split_and!.
  - rewrite (openai_stream_connected _ _ _ _ _ _ _ _ _ _ _ _ Hm Hn Hd). unfold read_body. rewrite Hs.
    f_equal. pose proof (openai_read_spec unmarshal (λ e, EFmt "stream read error: %w" [FW e]) cn lines err
      [] 0 Hcn) as H. rewrite Hp in H. apply H. eapply Forall_impl; [exact Hsane|].
    intros d Hb. change max_calls with 5864062014805%Z in Hb. unfold sane_index, max_int64 in *. lia.
  - apply chunks_after_length.
  - intros k p c cs Hk Hc. rewrite (chunks_after_lookup _ _ _ _ Hk). unfold chunk_after. rewrite Hc.
    by rewrite (take_S_r _ _ _ Hk).
  - intros k p Hk Hc. rewrite (chunks_after_lookup _ _ _ _ Hk). unfold chunk_after. by rewrite Hc.
Qed.

(** Two tool calls whose pieces alternate, behind a line that does not decode. *)
Definition sample_payload (data : string) : result error streamChunk :=
  let delta i id name piece := mkStreamChunkWire
    [mkStreamChoice "" [mkStreamToolCallDelta i id name piece] None] None in
  if String.eqb data "a" then Ok (delta 1%Z "call_1" "search" "{")
  else if String.eqb data "b" then Ok (delta 0%Z "call_0" "read" "[")
  else if String.eqb data "c" then Ok (delta 1%Z "" "" "}")
  else if String.eqb data "d" then
    Ok (mkStreamChunkWire
          [mkStreamChoice "done" [mkStreamToolCallDelta 0 "" "" "]"] (Some "tool_calls")] None)
  else if String.eqb data "e" then Ok (mkStreamChunkWire [] (Some (mkTokenUsage 7 5 12)))
  else Err (EFmt "syntax error" []).
Definition sample_stream : http_body :=
  mkHttpBody (unlines ["data: a"; ""; ": note"; "data: b"; "data: ?"; "data: c"; "data: d"; "data: e";
                       "data: [DONE]"; "data: a"]) None.
Definition answers (body : http_body) : network :=
  mkNetwork (λ _, None) (λ _, HttpResponse 200 body) (λ _, None) (λ _, 0%Z).

Lemma openai_stream_assembles_the_payloads_witness :
  ∃ chunks,
    (openAICompatibleStream (encode_as "{}") sample_payload ErrTooLong (answers sample_stream) patient
       "http://s" "key" "m" hello_request 0).2 = Ok (chunks ++ []) ∧
    chunks !! 3
    = Some (mkStreamChunk "done"
              [mkToolCall "call_0" "read" "[]"; mkToolCall "call_1" "search" "{}"] "tool_calls" no_usage
              None) ∧
    chunks !! 4 = Some (mkStreamChunk "" [] "" (mkTokenUsage 7 5 12) None).
Proof.
  destruct (openai_stream_assembles_the_payloads (encode_as "{}") sample_payload ErrTooLong
      (answers sample_stream) patient "http://s" "key" "m" hello_request 0 "{}" sample_stream
      (scan_lines sample_stream).1 None (payloads sample_payload (scan_lines sample_stream).1).1 true
      eq_refl eq_refl eq_refl (λ _, eq_refl)) as (chunks & Hs & _ & Hc & Hu).
  - vm_compute. reflexivity.
  - vm_compute. reflexivity.
  - apply (Forall_impl (λ d, bool_decide (std_Index d = 0%Z ∨ std_Index d = 1%Z) = true)).
    + vm_compute. repeat (apply Forall_cons_2; [reflexivity|]). apply Forall_nil_2.
    + intros d Hd%bool_decide_eq_true. change max_calls with 5864062014805%Z. unfold min_int64.
      destruct Hd; lia.
  - exists chunks. split; [exact Hs|]. split.
    + rewrite (Hc 3 (mkStreamChunkWire [mkStreamChoice "done" [mkStreamToolCallDelta 0 "" "" "]"]
        (Some "tool_calls")] None) (mkStreamChoice "done" [mkStreamToolCallDelta 0 "" "" "]"] (Some "tool_calls")) []);
        vm_compute; reflexivity.
    + rewrite (Hu 4 (mkStreamChunkWire [] (Some (mkTokenUsage 7 5 12)))); vm_compute; reflexivity.
Defined.

(** C21: to a consumer that keeps reading, an Anthropic stream delivers a chunk for
    every text or other delta, for every end of a block once there is a tool
    call, and for the end of the message, each with the calls as they stand;
    and whatever way the events of several tools interleave, as long as each
    tool is announced once and before the pieces of its input, those calls are
    the announced ones in order, each with its pieces put together. *)
Theorem anthropic_stream_assembles_interleaved_tools ds dd dm wrap cn body :
  (∀ j, cn_done cn j = None) →
  (∀ lines err evs fin,
   scan_lines body = (lines, err) → events ds dd dm "" lines = (evs, fin) →
   read_body (anthropic_line ds dd dm) wrap cn body (mkAnthropicState "" ∅ [])
   = event_chunks [] evs
       ++ (if fin then []
           else match err with Some e => send_error (cn_room cn) (wrap e) | None => [] end)) ∧
  (∀ ts (tool : Z → string * string * list string),
     (∀ i, i ∈ starts ts →
        filter (λ t, tool_index t = i) ts
        = Started i (tool i).1.1 (tool i).1.2 :: map (Grew i) (tool i).2) →
     calls_after ts
     = map (λ i, mkToolCall (tool i).1.1 (tool i).1.2 (concat_str (tool i).2)) (starts ts)).
Proof.
  intros Hcn. split; [|intros ts tool; apply calls_after_protocol].
  intros lines err evs fin Hs He. unfold read_body. rewrite Hs.
  pose proof (anthropic_read_spec ds dd dm wrap cn lines err "" [] 0 Hcn) as H. by rewrite He in H.
Qed.

Definition sample_start (data : string) : result error (Z * option anthropicContentBlock) :=
  Ok (if String.eqb data "0" then 0 else 1,
      Some (mkAnthropicContentBlock "tool_use" "" data ("tool-" +:+ data) ""))%Z.
Definition sample_delta (data : string) : result error (Z * anthropicDelta) :=
  Ok (if has_prefix data "0" then 0 else 1, mkAnthropicDelta "input_json_delta" "" (trim_prefix data "0"))%Z.
Definition sample_end (_ : string) : result error (string * option anthropicUsage) :=
  Ok ("tool_use", Some (mkAnthropicUsage 0 5)).
Definition sample_events : http_body :=
  mkHttpBody (unlines ["event: content_block_start"; "data: 0"; "data: 1";
    "event: content_block_delta"; "data: 0["; "data: {"; "data: 0]"; "data: }";
    "event: message_delta"; "data: x"; "event: message_stop"; "data: {}"]) None.

Lemma anthropic_stream_assembles_interleaved_tools_witness :
  read_body (anthropic_line sample_start sample_delta sample_end) id patient sample_events
    (mkAnthropicState "" ∅ [])
  = [mkStreamChunk "" [mkToolCall "0" "tool-0" "[]"; mkToolCall "1" "tool-1" "{}"] "tool_use"
       (mkTokenUsage 0 5 0) None].
Proof.
  destruct (anthropic_stream_assembles_interleaved_tools sample_start sample_delta sample_end id patient
    sample_events (λ _, eq_refl)) as [H _].
  refine (eq_trans (H _ _ _ _ _ _) _).
  - vm_compute. reflexivity.
  - vm_compute. reflexivity.
  - vm_compute. reflexivity.
Defined.

(** when every attempt to open a stream meets an overloaded service, the
    Anthropic function reports an unavailable provider, but the OpenAI one
    reports success: its stream is the closed body of the last refusal, and all
    the consumer gets is one read error. *)
Theorem refused_streams_end_differently marshal unmarshal closed amarshal ds dd dm net cn baseURL apiKey
    model req maxRetries payload apayload :
  marshal (mkStreamChatRequest (chat_request model req) true (Some true)) = Ok payload →
  amarshal (anthropic_request true model req) = Ok apayload →
  (∀ endpoint, net_new_request net endpoint = None) →
  (∀ j, overloaded (net_do net j)) → (∀ j, net_done net j = None) →
  (openAICompatibleStream marshal unmarshal closed net cn baseURL apiKey model req maxRetries).2
    = Ok (send_error (cn_room cn) (EFmt "stream read error: %w" [FW closed])) ∧
  ∃ e, (anthropicMessagesStream amarshal ds dd dm net cn baseURL apiKey model req maxRetries).2 = Err e ∧
    is_error e ErrProviderUnavailable = true.
Proof.
  intros Hm Ham Hn Hover Hdone. split.
  - unfold openAICompatibleStream. rewrite Hm.
    edestruct (retry_loop_overloaded (A := http_body)
      (exchange_over net (endpoint_of baseURL "/chat/completions") (openai_stream_headers apiKey) payload)
      (λ err, EFmt "create stream request: %w" [FW err]) (openai_connect closed) openai_connected
      (λ c, c.1 = Some (mkHttpBody "" (Some closed))) (attempts_of maxRetries) 0 (None, None))
      as ([resp last] & Heq & Hc); [apply Hn|apply Hdone| |apply attempts_pos|].
    { intros j c. destruct (openai_connect_overloaded closed j c _ (Hover j)) as [e He]. eauto. }
    destruct (retry_loop _ _ _ _ _ _ _) as [tr r]. cbn [fst snd] in *. subst r resp. done.
  - unfold anthropicMessagesStream. rewrite Ham.
    edestruct (retry_loop_overloaded (A := http_body)
      (exchange_over net (endpoint_of baseURL "/messages") (anthropic_headers apiKey) apayload)
      (λ err, EFmt "anthropic stream: create request: %w" [FW err]) anthropic_connect
      (λ lastErr, Err (EFmt "%w: %v" [FW ErrProviderUnavailable; shown lastErr]))
      (λ _, True) (attempts_of maxRetries) 0 None)
      as (last & Heq & _); [apply Hn|apply Hdone| |apply attempts_pos|].
    { intros j c. destruct (anthropic_connect_overloaded j c _ (Hover j)) as [e He]. eauto. }
    destruct (retry_loop _ _ _ _ _ _ _) as [tr r]. cbn [snd] in *. subst r.
    eexists. split; [reflexivity|]. done.
Qed.

Lemma refused_streams_end_differently_witness :
  let net := mkNetwork (λ _, None) (λ _, HttpResponse 503 (mkHttpBody "" None)) (λ _, None) (λ _, 0%Z) in
  (openAICompatibleStream (encode_as "{}") sample_payload (ESentinel "closed") net patient "http://s" "key"
     "m" hello_request 1).2
    = Ok [error_chunk (EFmt "stream read error: %w" [FW (ESentinel "closed")])] ∧
  ∃ e, (anthropicMessagesStream (encode_as "{}") sample_start sample_delta sample_end net patient "http://s"
          "key" "m" hello_request 1).2 = Err e ∧ is_error e ErrProviderUnavailable = true.
Proof.
  apply (refused_streams_end_differently (encode_as "{}") sample_payload (ESentinel "closed")
    (encode_as "{}") sample_start sample_delta sample_end
    (mkNetwork (λ _, None) (λ _, HttpResponse 503 (mkHttpBody "" None)) (λ _, None) (λ _, 0%Z))
    patient "http://s" "key" "m" hello_request 1 "{}" "{}"); try reflexivity.
  intros j. exists 503%Z, (mkHttpBody "" None). split; [reflexivity|]. right. discriminate.
Defined.

(** a stream is cut at its first line of 64 KiB or more: the lines before it
    are read and the scan ends with [ErrTooLong]; without such a line every line
    is read, and only the error of the connection ends the scan. *)
Theorem long_lines_cut_the_stream before line rest err :
  Forall one_line before → Forall fits before → one_line line → ¬ fits line →
  scan_lines (mkHttpBody (unlines before +:+ line +:+ String newline rest) err)
    = (map drop_cr before, Some ErrTooLong) ∧
  scan_lines (mkHttpBody (unlines before) err) = (map drop_cr before, err).
Proof.
  intros H1 H2 H3 H4. unfold scan_lines. cbn [hb_text hb_err]. split.
  - rewrite split_unlines, split_on_app by done. rewrite scan_pieces_app by done.
    cbn [scan_pieces fst snd]. unfold fits in H4.
    destruct (Nat.leb_spec MaxScanTokenSize (slen line)); [|lia]. cbn [fst snd]. by rewrite app_nil_r.
  - rewrite <-(sapp_nil_r (unlines before)), split_unlines by done. rewrite scan_pieces_app by done.
    cbn [split_on scan_pieces fst snd]. rewrite app_nil_r. done.
Qed.

Lemma slen_zeros n : slen (zeros n) = n.
Proof.
  unfold zeros. rewrite <-(length_seq n 0) at 2.
  induction (seq 0 n) as [|x l IH]; simpl; [done|]. by rewrite IH.
Qed.
Lemma one_line_zeros n : one_line (zeros n).
Proof.
  unfold zeros, one_line. induction (seq 0 n) as [|x l IH]; [done|].
  cbn [foldr]. by rewrite has_byte_cons, IH.
Qed.

Lemma long_lines_cut_the_stream_witness :
  scan_lines (mkHttpBody (unlines ["data: a"] +:+ zeros MaxScanTokenSize +:+ String newline "data: b") None)
    = (["data: a"], Some ErrTooLong).
Proof.
  refine (proj1 (long_lines_cut_the_stream ["data: a"] (zeros MaxScanTokenSize) "data: b" None _ _ _ _)).
  - apply Forall_cons_2; [reflexivity|apply Forall_nil_2].
  - apply Forall_cons_2; [|apply Forall_nil_2]. unfold fits. simpl slen. unfold MaxScanTokenSize.
    apply (Nat.lt_le_trans _ (Nat.pow 2 4)); [simpl; lia|]. apply Nat.pow_le_mono_r; lia.
  - apply one_line_zeros.
  - unfold fits. rewrite slen_zeros. apply Nat.lt_irrefl.
Defined.

(** no chunk of an Anthropic stream reports prompt tokens or a total, although
    the service sends them at the start of the message and the plain call
    reports both. *)
Theorem anthropic_streams_lose_prompt_tokens ds dd dm wrap cn body st :
  Forall (λ c, tu_PromptTokens (sc_Usage c) = 0%Z ∧ tu_TotalTokens (sc_Usage c) = 0%Z)
    (read_body (anthropic_line ds dd dm) wrap cn body st) ∧
  (∀ latency r, tu_PromptTokens (gresp_Usage (anthropic_answer latency r)) = au_InputTokens (aresp_Usage r)).
Proof.
  split.
  - unfold read_body. destruct (scan_lines body). apply anthropic_usage.
  - intros latency r. unfold anthropic_answer. by destruct (anthropic_blocks _ _ _).
Qed.
