(* ===== verification/Channel.v ===== *)
(** The channel of a stream ([src/ai/providers/streaming.go],
    [anthropic_streaming.go]): the goroutine that reads the body, the buffered
    channel it sends on and closes, the consumer that receives from it and the
    context that may end, all taking turns in any order. What reaches the consumer
    is what [Streaming.read_body] says for some behaviour of consumer and context,
    so its theorems hold of every schedule; and the goroutine always gets to its
    end once the context has ended or the consumer keeps receiving. The body is
    what the connection delivers in the end, an error included, so that waiting for
    the network is not a step. *)
From S2P Require Export Streaming.
From Stdlib Require Import Wellfounded.

Module StreamChannel.

(** [make(chan types.StreamChunk, 64)] *)
Definition capacity : nat := 64.
#[local] Arguments capacity : simpl never.

(** The channel, the context's error once it has ended, and what the consumer has
    received so far. *)
Record channel := mkChannel {
  ch_buffer : list StreamChunk;
  ch_closed : bool;
  ch_context : option error;
  ch_received : list StreamChunk
}.

Definition opened : channel := mkChannel [] false None [].
Definition full (ch : channel) : bool := capacity <=? length (ch_buffer ch).
Definition push (c : StreamChunk) (ch : channel) : channel :=
  mkChannel (ch_buffer ch ++ [c]) (ch_closed ch) (ch_context ch) (ch_received ch).
Definition close (ch : channel) : channel :=
  mkChannel (ch_buffer ch) true (ch_context ch) (ch_received ch).

(** A send that gives up when there is no room: a select with a default. *)
Definition try_push (c : StreamChunk) (ch : channel) : channel := if full ch then ch else push c ch.

Section reader.
Context {S : Type}.
Variable step : S → string → line_effect S.
Variable wrap_read : error → error.

(** The goroutine: before the next line, at the select that sends a chunk or sees
    the end of the context, at the send of an error chunk of the context or of the
    body, about to close the channel, and done. *)
Inductive reader :=
| Reading (lines : list string) (err : option error) (s : S)
| Sending (lines : list string) (err : option error) (s : S) (c : StreamChunk)
| Cancelled (e : error)
| Broken (e : error)
| Returning
| Returned.

(** One step of the goroutine; [first] is the choice of a select both of whose
    cases are ready. [None] means that it waits, or is done. *)
Definition reader_step (first : bool) (ch : channel) (r : reader) : option (channel * reader) :=
  match r with
  | Reading [] err s => Some (ch, match err with Some e => Broken (wrap_read e) | None => Returning end)
  | Reading (line :: lines) err s =>
      Some (ch, match step s line with
                | Skip s => Reading lines err s
                | Emit s c => Sending lines err s c
                | Stop => Returning
                end)
  | Sending lines err s c =>
      match ch_context ch, full ch with
      | Some e, true => Some (ch, Cancelled e)
      | Some e, false => Some (if first then (push c ch, Reading lines err s) else (ch, Cancelled e))
      | None, false => Some (push c ch, Reading lines err s)
      | None, true => None
      end
  | Cancelled e | Broken e => Some (try_push (error_chunk e) ch, Returning)
  | Returning => Some (close ch, Returned)
  | Returned => None
  end.

(** The system: the goroutine takes a step, the consumer receives the chunk at the
    head of the buffer, or the context ends. *)
Inductive run_step : channel * reader → channel * reader → Prop :=
| reader_runs first ch r ch' r' :
    reader_step first ch r = Some (ch', r') → run_step (ch, r) (ch', r')
| consumer_receives c rest closed ctx received r :
    run_step (mkChannel (c :: rest) closed ctx received, r)
             (mkChannel rest closed ctx (received ++ [c]), r)
| context_ends e buffer closed received r :
    run_step (mkChannel buffer closed None received, r)
             (mkChannel buffer closed (Some e) received, r).

(** The goroutine of a stream whose body has been connected. *)
Definition started (body : http_body) (s : S) : channel * reader :=
  let '(lines, err) := scan_lines body in (opened, Reading lines err s).

(* ------------------------------------------------------------------ *)
(** ** What has been sent *)
(* ------------------------------------------------------------------ *)

(** Everything sent so far, received or not. *)
Definition sent (ch : channel) : list StreamChunk := ch_received ch ++ ch_buffer ch.

(** What [cn] says about the first [n] sends, [None] or the whole story. *)
Definition lets (cn : consumer) (n : nat) : Prop := ∀ j, j < n → cn_done cn j = None.

(** What the list model sends from a state of the goroutine on, [n] sends after
    the start. *)
Definition to_send (cn : consumer) (n : nat) (r : reader) : list StreamChunk :=
  match r with
  | Reading lines err s => read_lines step wrap_read cn lines err s n
  | Sending lines err s c =>
      match cn_done cn n with
      | Some (e, room) => send_error room e
      | None => c :: read_lines step wrap_read cn lines err s (Datatypes.S n)
      end
  | Broken e => send_error (cn_room cn) e
  | Cancelled _ | Returning | Returned => []
  end.

(** A state of the system agrees with the list model [whole]; a goroutine that has
    sent all it will has followed it for some consumer, one that keeps reading if
    the context has not ended. *)
Definition agrees (whole : consumer → list StreamChunk) (c : channel * reader) : Prop :=
  let '(ch, r) := c in
  match r with
  | Reading _ _ _ | Sending _ _ _ _ | Broken _ =>
      ∀ cn, lets cn (length (sent ch)) → whole cn = sent ch ++ to_send cn (length (sent ch)) r
  | Cancelled e =>
      ch_context ch ≠ None ∧
      ∀ cn room, lets cn (length (sent ch)) → cn_done cn (length (sent ch)) = Some (e, room) →
        whole cn = sent ch ++ send_error room e
  | Returning | Returned =>
      ∃ cn, whole cn = sent ch ∧ (ch_context ch = None → ∀ j, cn_done cn j = None) ∧
            (cn_room cn = true ∨ capacity ≤ length (sent ch))
  end.

Lemma sent_push c ch : sent (push c ch) = sent ch ++ [c].
Proof. apply app_assoc. Qed.

Lemma sent_try_push e ch : sent (try_push (error_chunk e) ch) = sent ch ++ send_error (negb (full ch)) e.
Proof. unfold try_push. destruct (full ch); simpl; [by rewrite app_nil_r|apply sent_push]. Qed.

Lemma context_try_push c ch : ch_context (try_push c ch) = ch_context ch.
Proof. unfold try_push. by destruct (full ch). Qed.

Definition cancelled_at (n : nat) (e : error) (room : bool) : consumer :=
  mkConsumer (λ j, if j =? n then Some (e, room) else None) true.

Lemma cancelled_at_lets n e room : lets (cancelled_at n e room) n.
Proof. intros j Hj. simpl. by rewrite (proj2 (Nat.eqb_neq j n)) by lia. Qed.

Lemma step_agrees whole first ch r ch' r' :
  reader_step first ch r = Some (ch', r') → agrees whole (ch, r) → agrees whole (ch', r').
Proof.
  destruct r as [[|line lines] err s|lines err s c|e|e| |]; simpl.
  - intros Hs; simplify_eq. intros Ha. destruct err as [e|]; simpl; [done|].
    exists patient. rewrite Ha by done. rewrite app_nil_r. split_and!; [done..|by left].
  - intros Hs; simplify_eq. intros Ha. destruct (step s line) as [s'|s' c|]; simpl; [done..|].
    exists patient. rewrite Ha by done. rewrite app_nil_r. split_and!; [done..|by left].
  - assert (Hpush : (∀ cn, lets cn (length (sent ch)) → whole cn = sent ch ++ to_send cn (length (sent ch)) (Sending lines err s c)) →
      agrees whole (push c ch, Reading lines err s)).
    { intros Ha cn. rewrite sent_push, length_app, Nat.add_1_r. intros Hl.
      rewrite Ha by (intros j Hj; apply Hl; lia). simpl. by rewrite Hl, <-app_assoc by lia. }
    assert (Hcancel : ∀ e, ch_context ch = Some e →
      (∀ cn, lets cn (length (sent ch)) → whole cn = sent ch ++ to_send cn (length (sent ch)) (Sending lines err s c)) →
      agrees whole (ch, Cancelled e)).
    { intros e He Ha. split; [by rewrite He|]. intros cn room Hl Hd. rewrite Ha by done. simpl. by rewrite Hd. }
    destruct (ch_context ch) as [e|] eqn:He, (full ch), first; intros Hs Ha; simplify_eq;
      first [exact (Hcancel _ eq_refl Ha)|exact (Hpush Ha)].
  - intros Hs; simplify_eq. intros [Hc Ha]. exists (cancelled_at (length (sent ch)) e (negb (full ch))).
    rewrite sent_try_push, context_try_push. split_and!; [|done|by left].
    apply Ha; [apply cancelled_at_lets|]. simpl. by rewrite Nat.eqb_refl.
  - intros Hs; simplify_eq. intros Ha. exists (mkConsumer (λ _, None) (negb (full ch))).
    rewrite sent_try_push. split_and!; [by apply Ha|done|].
    destruct (full ch) eqn:Hf; [right|by left]. unfold full in Hf. apply Nat.leb_le in Hf.
    unfold sent. rewrite !length_app. lia.
  - by intros Hs; simplify_eq.
  - done.
Qed.

Lemma run_agrees whole c c' : rtc run_step c c' → agrees whole c → agrees whole c'.
Proof.
  induction 1 as [|c c1 c2 Hs _ IH]; [done|]. intros Ha. apply IH. clear IH.
  destruct Hs as [first ch r ch' r' Hs|c rest closed ctx received r|e buffer closed received r];
    [by eapply step_agrees| |].
  - assert (sent (mkChannel rest closed ctx (received ++ [c])) = sent (mkChannel (c :: rest) closed ctx received))
      as He by apply (eq_sym (app_assoc _ [c] _)).
    destruct r; simpl in Ha |- *; by rewrite He.
  - destruct r; simpl in Ha |- *; try done; [naive_solver|destruct Ha as (cn & ? & _ & ?); by exists cn..].
Qed.

Lemma started_agrees body s :
  agrees (λ cn, read_body step wrap_read cn body s) (started body s).
Proof. unfold started, read_body. by destruct (scan_lines body) as [lines err]. Qed.

(** What has been sent is the beginning of what the list model sends for some
    consumer, and all of it once the goroutine has returned. *)
Lemma agrees_prefix whole ch r :
  agrees whole (ch, r) →
  ∃ cn, sent ch `prefix_of` whole cn ∧ (r = Returned → sent ch = whole cn) ∧
        (ch_context ch = None → ∀ j, cn_done cn j = None) ∧
        (r = Returned → cn_room cn = true ∨ capacity ≤ length (sent ch)).
Proof.
  intros Ha. destruct r as [lines err s'|lines err s' c|e|e| |]; simpl in Ha.
  1,2,4: exists patient; rewrite Ha by done; split_and!; [by eexists|done..].
  - destruct Ha as [Hctx Ha]. exists (cancelled_at (length (sent ch)) e true).
    rewrite (Ha _ true); [|apply cancelled_at_lets|by simpl; rewrite Nat.eqb_refl].
    split_and!; [by eexists|done..].
  - destruct Ha as (cn & Hw & Hcn & Hroom). exists cn. rewrite Hw. done.
  - destruct Ha as (cn & Hw & Hcn & Hroom). exists cn. rewrite Hw. done.
Qed.

(* ------------------------------------------------------------------ *)
(** ** Bounds, closing and termination *)
(* ------------------------------------------------------------------ *)

(** The buffer never exceeds its capacity, and the channel is closed by the last
    step of the goroutine, so nothing is sent on a closed channel. *)
Definition in_bounds (c : channel * reader) : Prop :=
  length (ch_buffer c.1) ≤ capacity ∧ (ch_closed c.1 = true ↔ c.2 = Returned).

Lemma push_bounds c ch : full ch = false → length (ch_buffer ch) ≤ capacity → length (ch_buffer (push c ch)) ≤ capacity.
Proof. unfold full. rewrite Nat.leb_gt. simpl. rewrite length_app. simpl. lia. Qed.

Lemma step_in_bounds first ch r ch' r' :
  reader_step first ch r = Some (ch', r') → in_bounds (ch, r) → in_bounds (ch', r').
Proof.
  intros Hs [Hl Hc]. unfold in_bounds in *. simpl in *. destruct (full ch) eqn:Hf.
  all: destruct r as [[|line lines] err s|lines err s c|e|e| |]; simpl in Hs;
    try unfold try_push in Hs; try rewrite Hf in Hs; repeat case_match; simplify_eq/=.
  all: split; [first [done|exact (push_bounds _ ch Hf Hl)]|naive_solver].
Qed.

Lemma run_in_bounds c c' : rtc run_step c c' → in_bounds c → in_bounds c'.
Proof.
  induction 1 as [|c c1 c2 Hs _ IH]; [done|]. intros Hb. apply IH. clear IH.
  destruct Hs; [by eapply step_in_bounds| |done].
  destruct Hb as [Hl Hc]. split; [simpl in *; lia|done].
Qed.

Lemma started_in_bounds body s : in_bounds (started body s).
Proof. unfold started, in_bounds. destruct (scan_lines body). simpl. split; [lia|done]. Qed.

(** The same of a run, closing included. *)
Lemma run_prefix body s ch r :
  rtc run_step (started body s) (ch, r) →
  ∃ cn, sent ch `prefix_of` read_body step wrap_read cn body s ∧
        (ch_closed ch = true → sent ch = read_body step wrap_read cn body s) ∧
        (ch_context ch = None → ∀ j, cn_done cn j = None) ∧
        (ch_closed ch = true → cn_room cn = true ∨ capacity ≤ length (sent ch)).
Proof.
  intros Hr. pose proof (run_agrees _ _ _ Hr (started_agrees body s)) as Ha.
  destruct (run_in_bounds _ _ Hr (started_in_bounds body s)) as [_ Hc].
  destruct (agrees_prefix _ _ _ Ha) as (cn & Hp & Hret & Hcn & Hroom). exists cn.
  split_and!; [done| |done|]; intros Hcl; [by apply Hret, Hc|by apply Hroom, Hc].
Qed.

(** The steps left to the goroutine, the consumer and the context. *)
Definition weight (r : reader) : nat :=
  match r with
  | Reading lines _ _ => 4 * length lines + 4
  | Sending lines _ _ _ => 4 * length lines + 6
  | Cancelled _ | Broken _ => 3
  | Returning => 1
  | Returned => 0
  end.
Definition measure (c : channel * reader) : nat :=
  weight c.2 + length (ch_buffer c.1) + (if ch_context c.1 then 0 else 1).

Lemma run_step_measure c c' : run_step c c' → measure c' < measure c.
Proof.
  destruct 1 as [first ch r ch' r' Hs| |]; unfold measure; simpl; [|lia..].
  destruct r as [[|line lines] err s|lines err s c|e|e| |]; simpl in Hs;
    unfold try_push in Hs; repeat case_match; simplify_eq/=; rewrite ?length_app; simpl; lia.
Qed.

Lemma run_terminates : well_founded (flip run_step).
Proof. apply (well_founded_lt_compat _ measure). intros c' c. apply run_step_measure. Qed.

(** A schedule as a list of moves. *)
Inductive move := Run (first : bool) | Receive | EndContext (e : error).
Definition make_move (m : move) (c : channel * reader) : option (channel * reader) :=
  match m, c with
  | Run first, (ch, r) => reader_step first ch r
  | Receive, (mkChannel (c :: rest) closed ctx received, r) =>
      Some (mkChannel rest closed ctx (received ++ [c]), r)
  | EndContext e, (mkChannel buffer closed None received, r) =>
      Some (mkChannel buffer closed (Some e) received, r)
  | _, _ => None
  end.
Fixpoint play (ms : list move) (c : channel * reader) : option (channel * reader) :=
  match ms with
  | [] => Some c
  | m :: ms => c ← make_move m c; play ms c
  end.

Lemma play_run ms c c' : play ms c = Some c' → rtc run_step c c'.
Proof.
  revert c. induction ms as [|m ms IH]; intros c Hp; simpl in Hp; [by simplify_eq; apply rtc_refl|].
  destruct (make_move m c) as [c1|] eqn:Hm; simpl in Hp; [|done]. apply rtc_l with c1; [|by apply IH].
  destruct m as [first| |e], c as [[[|x buffer] closed [ctx|] received] r]; simpl in Hm; simplify_eq;
    try (destruct c1; by eapply reader_runs); constructor.
Qed.

(** The buffer can always be emptied. *)
Lemma drain_run buffer closed ctx received r :
  rtc run_step (mkChannel buffer closed ctx received, r) (mkChannel [] closed ctx (received ++ buffer), r).
Proof.
  revert received. induction buffer as [|c buffer IH]; intros received; [rewrite app_nil_r; apply rtc_refl|].
  eapply rtc_l; [apply consumer_receives|]. specialize (IH (received ++ [c])). by rewrite <-app_assoc in IH.
Qed.

(** Whether a line ends the stream. *)
Fixpoint stops (lines : list string) (s : S) : bool :=
  match lines with
  | [] => false
  | line :: lines => match step s line with Skip s => stops lines s | Emit s _ => stops lines s | Stop => true end
  end.

Lemma capacity_pos : 1 ≤ capacity.
Proof. unfold capacity. lia. Qed.

(** A consumer that receives only when the buffer is full. *)
Lemma lazy_run lines err s ch :
  stops lines s = false → ch_context ch = None → length (ch_buffer ch) ≤ capacity →
  ∃ ch' s', rtc run_step (ch, Reading lines err s) (ch', Reading [] err s') ∧
    ch_context ch' = None ∧ ch_closed ch' = ch_closed ch ∧
    (length (sent ch') = length (ch_received ch) + length (ch_buffer ch)
       + length (read_lines step wrap_read patient lines None s 0)) ∧
    length (ch_buffer ch')
    = capacity `min` (length (ch_buffer ch) + length (read_lines step wrap_read patient lines None s 0)).
Proof.
  pose proof capacity_pos as Hcap. revert s ch. generalize 0 as i. induction lines as [|line lines IH]; intros i s ch Hst Hctx Hb; cbn [stops read_lines length cn_done patient] in *.
  - exists ch, s. unfold sent. rewrite length_app, Nat.min_r by lia. split_and!; first [apply rtc_refl|done|lia].
  - destruct (step s line) as [s'|s' c|] eqn:Hs; [| |done].
    + destruct (IH i s' ch Hst Hctx Hb) as (ch' & s2 & Hr & ?). exists ch', s2. split; [|done].
      eapply rtc_l; [eapply (reader_runs true)|exact Hr]. simpl. by rewrite Hs.
    + assert (Hroom : ∃ ch1, rtc run_step (ch, Sending lines err s' c) (ch1, Sending lines err s' c) ∧
        full ch1 = false ∧ ch_context ch1 = None ∧ ch_closed ch1 = ch_closed ch ∧
        length (ch_received ch1) + length (ch_buffer ch1) = length (ch_received ch) + length (ch_buffer ch) ∧
        length (ch_buffer ch1) = (capacity - 1) `min` length (ch_buffer ch)).
      { destruct (full ch) eqn:Hf; unfold full in Hf; [apply Nat.leb_le in Hf|apply Nat.leb_gt in Hf].
        - destruct ch as [[|x buffer] closed ctx received]; cbn [ch_buffer ch_context ch_closed ch_received length] in *; [lia|].
          eexists. split; [eapply rtc_l; [apply consumer_receives|apply rtc_refl]|]. unfold full.
          rewrite Nat.leb_gt. cbn. rewrite length_app. cbn. split_and!; try done; lia.
        - exists ch. split; [apply rtc_refl|]. unfold full. rewrite Nat.leb_gt.
          split_and!; try done; lia. }
      destruct Hroom as (ch1 & Hr1 & Hf1 & Hc1 & Hcl1 & Hl1 & Hb1).
      destruct (IH (Datatypes.S i) s' (push c ch1) Hst) as (ch' & s2 & Hr & Hc2 & Hcl2 & Hsent & Hlen);
        [done|simpl; rewrite length_app; simpl; lia|].
      exists ch', s2. split_and!; [|done|by rewrite Hcl2| |].
      * eapply rtc_l; [eapply (reader_runs true); simpl; by rewrite Hs|]. etransitivity; [exact Hr1|].
        eapply rtc_l; [eapply (reader_runs true); simpl; by rewrite Hc1, Hf1|]. exact Hr.
      * rewrite Hsent. cbn [push ch_received ch_buffer length]. rewrite length_app. cbn [length]. lia.
      * rewrite Hlen. cbn [push ch_buffer length]. rewrite length_app. cbn [length]. lia.
Qed.

(** When the goroutine waits. *)
Lemma waiting ch r :
  reader_step true ch r = None ↔
  r = Returned ∨ (∃ lines err s c, r = Sending lines err s c) ∧ full ch = true ∧ ch_context ch = None.
Proof.
  destruct r as [[|line lines] err s|lines err s c|e|e| |]; simpl; try (naive_solver congruence).
  destruct (ch_context ch) eqn:E1, (full ch) eqn:E2; naive_solver.
Qed.

End reader.
End StreamChannel.

Import StreamChannel.

(** What a consumer of an OpenAI stream has when the channel is closed and empty:
    an error of the body is missing only if the buffer was full. *)
Lemma drained_payloads unmarshal wrap body lines err ps fin ch r :
  scan_lines body = (lines, err) → payloads unmarshal lines = (ps, fin) →
  Forall sane_index (deltas_of ps) →
  rtc (run_step (openai_line unmarshal) wrap) (started body (∅, 0%Z)) (ch, r) →
  ch_closed ch = true → ch_buffer ch = [] → ch_context ch = None →
  ∃ room, ch_received ch = chunks_after [] ps
    ++ (if fin then [] else match err with Some e => send_error room (wrap e) | None => [] end) ∧
    (room = true ∨ capacity ≤ length (ch_received ch)).
Proof.
  intros Hs Hp Hsane Hr Hc Hb Hctx.
  destruct (run_prefix _ wrap body (∅, 0%Z) ch r Hr) as (cn & _ & Hw & Hcn & Hroom).
  specialize (Hw Hc). specialize (Hroom Hc). unfold sent, read_body in Hw, Hroom.
  rewrite Hb, app_nil_r in Hw, Hroom. rewrite Hs in Hw. exists (cn_room cn). split; [|done].
  pose proof (openai_read_spec unmarshal wrap cn lines err [] 0 (Hcn Hctx)) as H.
  rewrite Hp in H. etransitivity; [exact Hw|by apply H].
Qed.

(* ------------------------------------------------------------------ *)
(** ** Properties *)
(* ------------------------------------------------------------------ *)

(** C22: In every schedule of goroutine, consumer and context, what has been sent on
    the channel, received or still in its buffer, is a prefix of what the list
    model of the reader sends for some behaviour of the consumer, one that keeps
    reading if the context has not ended; once the goroutine has returned it is all
    of that. The buffer never holds more than its 64 chunks, the channel is closed
    exactly when the goroutine has returned, and nothing is sent after that. *)
Theorem channel_refines_the_reader {S} (step : S → string → line_effect S) wrap body s ch r :
  rtc (run_step step wrap) (started body s) (ch, r) →
  (∃ cn, sent ch `prefix_of` read_body step wrap cn body s ∧
         (r = Returned → sent ch = read_body step wrap cn body s) ∧
         (ch_context ch = None → ∀ j, cn_done cn j = None)) ∧
  length (ch_buffer ch) ≤ capacity ∧
  (ch_closed ch = true ↔ r = Returned) ∧
  (ch_closed ch = true → ∀ c', run_step step wrap (ch, r) c' → sent c'.1 = sent ch ∧ ch_closed c'.1 = true).
Proof.
  intros Hr. pose proof (run_agrees step wrap _ _ _ Hr (started_agrees step wrap body s)) as Ha.
  destruct (run_in_bounds step wrap _ _ Hr (started_in_bounds body s)) as [Hl Hc]. simpl in Hl, Hc.
  split_and!; [|done|done|].
  - destruct (agrees_prefix step wrap _ _ _ Ha) as (cn & ? & ? & ? & _). by exists cn.
  - intros Hclosed c' Hs. apply Hc in Hclosed as ->. inversion Hs; subst; simpl in *; [done| |].
    + split; [by symmetry; apply (app_assoc _ [_] _)|by apply Hc].
    + split; [done|by apply Hc].
Qed.

(** C23: Given a body that comes to an end, the goroutine of a stream is not left
    behind: every schedule of goroutine, consumer and context is finite; the
    goroutine only ever waits to send on a full buffer while the context has not
    ended, so that it goes on as soon as the context ends or the consumer receives;
    and when neither it nor the consumer can go on, it has returned, closed the
    channel and left nothing in it. *)
Theorem stream_goroutine_always_ends {S} (step : S → string → line_effect S) wrap :
  well_founded (flip (run_step step wrap)) ∧
  (∀ ch r, reader_step step wrap true ch r = None → r ≠ Returned →
     length (ch_buffer ch) ≥ capacity ∧ ch_context ch = None ∧
     (∀ e first, is_Some (reader_step step wrap first
        (mkChannel (ch_buffer ch) (ch_closed ch) (Some e) (ch_received ch)) r)) ∧
     (length (ch_buffer ch) = capacity → ∃ c rest, ch_buffer ch = c :: rest ∧
        ∀ first, is_Some (reader_step step wrap first
          (mkChannel rest (ch_closed ch) None (ch_received ch ++ [c])) r))) ∧
  (∀ body s ch r, rtc (run_step step wrap) (started body s) (ch, r) →
     reader_step step wrap true ch r = None → ch_buffer ch = [] →
     r = Returned ∧ ch_closed ch = true ∧ sent ch = ch_received ch).
Proof.
  split_and!; [apply run_terminates| |].
  - intros ch r Hw Hr. apply waiting in Hw as [?|((lines & err & s & c & ->) & Hf & Hn)]; [done|].
    pose proof Hf as Hle. unfold full in Hle. apply Nat.leb_le in Hle. split_and!; [done|done| |].
    + intros e first. simpl. change (full (mkChannel _ _ _ _)) with (full ch). rewrite Hf. by eexists.
    + intros Hlen. destruct (ch_buffer ch) as [|c' rest] eqn:Hb; [done|]. exists c', rest. split; [done|].
      intros first. simpl in Hlen |- *. unfold full. simpl ch_buffer.
      rewrite (proj2 (Nat.leb_gt _ _)) by lia. by eexists.
  - intros body s ch r Hrun Hw Hb.
    destruct (run_in_bounds step wrap _ _ Hrun (started_in_bounds body s)) as [_ Hc]. simpl in Hc.
    apply waiting in Hw as [->|(_ & Hf & _)].
    + split_and!; [done|by apply Hc|]. unfold sent. by rewrite Hb, app_nil_r.
    + unfold full in Hf. by rewrite Hb in Hf.
Qed.

(** A consumer that receives until the channel is closed and empty, under a
    context that does not end, is given the chunks of all payloads of an OpenAI
    stream in order, whatever the schedule; an error of the body comes last, if
    there was room for it. *)
Theorem consumer_receives_every_payload unmarshal wrap body lines err ps fin ch r :
  scan_lines body = (lines, err) → payloads unmarshal lines = (ps, fin) →
  Forall sane_index (deltas_of ps) →
  rtc (run_step (openai_line unmarshal) wrap) (started body (∅, 0%Z)) (ch, r) →
  ch_closed ch = true → ch_buffer ch = [] → ch_context ch = None →
  ∃ room, ch_received ch = chunks_after [] ps
    ++ (if fin then [] else match err with Some e => send_error room (wrap e) | None => [] end).
Proof.
  intros Hs Hp Hsane Hr Hc Hb Hctx.
  destruct (drained_payloads unmarshal wrap body lines err ps fin ch r) as (room & ? & _); [done..|by exists room].
Qed.

(** A body of one payload, read to its end marker: the goroutine reads and sends,
    the consumer receives, the goroutine reads the marker and closes. *)
Definition one_payload : http_body := mkHttpBody (unlines ["data: d"; "data: [DONE]"]) None.
Definition one_chunk : StreamChunk :=
  mkStreamChunk "done" [mkToolCall "" "" "]"] "tool_calls" no_usage None.

Lemma one_payload_run :
  rtc (run_step (openai_line sample_payload) (λ e, e)) (started one_payload (∅, 0%Z))
    (mkChannel [] true None [one_chunk], Returned).
Proof.
  apply (play_run _ _ [Run true; Run true; Receive; Run true; Run true]). vm_compute. reflexivity.
Qed.

Lemma channel_refines_the_reader_witness :
  ∃ cn, read_body (openai_line sample_payload) (λ e, e) cn one_payload (∅, 0%Z) = [one_chunk].
Proof.
  destruct (channel_refines_the_reader (openai_line sample_payload) (λ e, e) one_payload (∅, 0%Z) _ _
    one_payload_run) as ((cn & _ & Hs & _) & _). exists cn. symmetry. by apply Hs.
Defined.

Lemma consumer_receives_every_payload_witness :
  ∃ ps, payloads sample_payload (scan_lines one_payload).1 = (ps, true) ∧ [one_chunk] = chunks_after [] ps ++ [].
Proof.
  destruct (consumer_receives_every_payload sample_payload (λ e, e) one_payload _ _ _ _
    (mkChannel [] true None [one_chunk]) Returned eq_refl eq_refl) as [room Hr].
  - cbn. repeat (apply Forall_cons_2; [by split; vm_compute|]). apply Forall_nil_2.
  - apply one_payload_run.
  - reflexivity.
  - reflexivity.
  - reflexivity.
  - eexists. split; [|exact Hr]. reflexivity.
Defined.
