(* ===== verification/Factory.v ===== *)
(** The provider types and the factory ([src/ai/providers/providers.go],
    [factory.go]), and how they meet the router and the planner. *)
From S2P Require Export Planner Streaming.
From Stdlib Require Import Ascii.

(* ------------------------------------------------------------------ *)
(** ** Providers *)
(* ------------------------------------------------------------------ *)

Definition defaultOpenAIBaseURL : string := "https://api.openai.com/v1".
Definition defaultClaudeBaseURL : string := "https://api.anthropic.com/v1".
Definition defaultModelScopeBaseURL : string := "https://api-inference.modelscope.cn/v1".
Definition defaultSiliconFlowBaseURL : string := "https://api.siliconflow.cn/v1".

Record OpenAICompatibleProvider := mkOpenAICompatibleProvider {
  oc_baseURL : string;
  oc_apiKey : string;
  oc_modelName : string;
  oc_idPrefix : string;
  oc_capabilities : list CapabilityType;
  oc_embedModel : string;
  oc_errName : string
}.

Record ClaudeProvider := mkClaudeProvider {
  cl_baseURL : string;
  cl_apiKey : string;
  cl_modelName : string
}.

Definition or_default (s d : string) : string := if String.eqb s "" then d else s.

Definition newOpenAICompatible (baseURL defaultURL apiKey modelName idPrefix : string)
    (caps : list CapabilityType) (embedModel : string) : OpenAICompatibleProvider :=
  mkOpenAICompatibleProvider (or_default baseURL defaultURL) apiKey modelName idPrefix caps embedModel
    idPrefix.

Definition NewOpenAIProvider (baseURL apiKey modelName : string) : OpenAICompatibleProvider :=
  newOpenAICompatible baseURL defaultOpenAIBaseURL apiKey modelName "openai"
    [CapTextGeneration; CapToolCalling; CapJSONMode; CapVision; CapEmbedding] "text-embedding-3-small".
Definition NewModelScopeProvider (baseURL apiKey modelName : string) : OpenAICompatibleProvider :=
  newOpenAICompatible baseURL defaultModelScopeBaseURL apiKey modelName "modelscope"
    [CapTextGeneration; CapToolCalling] "".
Definition NewSiliconFlowProvider (baseURL apiKey modelName : string) : OpenAICompatibleProvider :=
  newOpenAICompatible baseURL defaultSiliconFlowBaseURL apiKey modelName "siliconflow"
    [CapTextGeneration; CapToolCalling] "".
Definition NewClaudeProvider (baseURL apiKey modelName : string) : ClaudeProvider :=
  mkClaudeProvider (or_default baseURL defaultClaudeBaseURL) apiKey modelName.

(** What the factory makes. *)
Inductive provider :=
| OpenAI (p : OpenAICompatibleProvider)
| Claude (p : ClaudeProvider).

Definition Create (name baseURL apiKey model : string) : provider :=
  if String.eqb name "modelscope" then OpenAI (NewModelScopeProvider baseURL apiKey model)
  else if String.eqb name "siliconflow" then OpenAI (NewSiliconFlowProvider baseURL apiKey model)
  else if String.eqb name "claude" then Claude (NewClaudeProvider baseURL apiKey model)
  else OpenAI (NewOpenAIProvider baseURL apiKey model).

Definition ID (p : provider) : string :=
  match p with
  | OpenAI p => oc_idPrefix p +:+ "/" +:+ oc_modelName p
  | Claude p => "anthropic/" +:+ cl_modelName p
  end.

Definition Capabilities (p : provider) : list CapabilityType :=
  match p with
  | OpenAI p => oc_capabilities p
  | Claude _ => [CapTextGeneration; CapToolCalling; CapVision; CapStreaming]
  end.

(** The encoders and decoders of the wire types, and the error of a closed body. *)
Record codecs := mkCodecs {
  enc_chat : chatRequest → result error string;
  dec_chat : string → result error chatResponse;
  enc_stream : streamChatRequest → result error string;
  dec_stream : string → result error streamChunk;
  enc_embed : embedRequest → result error string;
  dec_embed : string → result error embedResponse;
  enc_messages : anthropicMessagesRequest → result error string;
  dec_messages : string → result error anthropicMessagesResponse;
  dec_start : string → result error (Z * option anthropicContentBlock);
  dec_delta : string → result error (Z * anthropicDelta);
  dec_message_delta : string → result error (string * option anthropicUsage);
  err_closed : error
}.

Definition no_key (name : string) : error := EFmt "%s: API key not configured" [FS name].

Section calls.
Variable cd : codecs.
Variable net : network.
Variable cn : consumer.

Definition Generate (p : provider) (req : GenerateRequest) :
    list action * result error GenerateResponse :=
  match p with
  | OpenAI p =>
      if String.eqb (oc_apiKey p) "" then ([], Err (no_key (oc_errName p)))
      else openAICompatibleGenerate (enc_chat cd) (dec_chat cd) net (oc_baseURL p) (oc_apiKey p)
             (oc_modelName p) req 0
  | Claude p =>
      if String.eqb (cl_apiKey p) "" then ([], Err (EFmt "claude: API key not configured" []))
      else anthropicMessagesGenerate (enc_messages cd) (dec_messages cd) net (cl_baseURL p) (cl_apiKey p)
             (cl_modelName p) req 0
  end.

Definition GenerateStream (p : provider) (req : GenerateRequest) :
    list action * result error (list StreamChunk) :=
  match p with
  | OpenAI p =>
      if String.eqb (oc_apiKey p) "" then ([], Err (no_key (oc_errName p)))
      else openAICompatibleStream (enc_stream cd) (dec_stream cd) (err_closed cd) net cn (oc_baseURL p)
             (oc_apiKey p) (oc_modelName p) req 0
  | Claude p =>
      if String.eqb (cl_apiKey p) "" then ([], Err (EFmt "claude: API key not configured" []))
      else anthropicMessagesStream (enc_messages cd) (dec_start cd) (dec_delta cd) (dec_message_delta cd)
             net cn (cl_baseURL p) (cl_apiKey p) (cl_modelName p) req 0
  end.

Definition Embed (p : provider) (texts : list string) :
    list action * result error (list (list float64)) :=
  match p with
  | OpenAI p =>
      if String.eqb (oc_embedModel p) "" then ([], Err ErrCapabilityNotSupported)
      else if String.eqb (oc_apiKey p) "" then ([], Err (no_key (oc_errName p)))
      else openAICompatibleEmbed (enc_embed cd) (dec_embed cd) net (oc_baseURL p) (oc_apiKey p)
             (oc_embedModel p) texts 0
  | Claude _ => ([], Err ErrCapabilityNotSupported)
  end.

(** The provider as its clients see it. *)
Definition as_model_provider (p : provider) : ModelProvider :=
  mkModelProvider (ID p) (Capabilities p) (λ req, (Generate p req).2) (λ texts, (Embed p texts).2)
    (Some (λ req, (GenerateStream p req).2)).
End calls.

(* ------------------------------------------------------------------ *)
(** ** Traffic, verified *)
(* ------------------------------------------------------------------ *)

Definition at_most_one_request (tr : list action) : Prop :=
  tr = [] ∨ ∃ endpoint headers payload, tr = [Send endpoint headers payload].

Lemma single_attempt_trace {S A} ex wrap (handle : nat → S → http_result → verdict S A) exhausted s :
  at_most_one_request (retry_loop ex wrap handle exhausted (attempts_of 0) 0 s).1.
Proof.
  change (attempts_of 0) with 1. cbn [retry_loop Nat.ltb Nat.leb].
  destruct (ex_new_request ex); [by left|].
  destruct (handle 0 s (ex_net ex 0)); right; eauto.
Qed.

Lemma openai_generate_trace enc dec net baseURL key model req :
  at_most_one_request (openAICompatibleGenerate enc dec net baseURL key model req 0).1.
Proof. unfold openAICompatibleGenerate. destruct (enc _); [apply single_attempt_trace|by left]. Qed.

Lemma anthropic_generate_trace enc dec net baseURL key model req :
  at_most_one_request (anthropicMessagesGenerate enc dec net baseURL key model req 0).1.
Proof. unfold anthropicMessagesGenerate. destruct (enc _); [apply single_attempt_trace|by left]. Qed.

Lemma openai_stream_trace enc dec closed net cn baseURL key model req :
  at_most_one_request (openAICompatibleStream enc dec closed net cn baseURL key model req 0).1.
Proof.
  unfold openAICompatibleStream. destruct (enc _); [|by left].
  match goal with |- context [retry_loop ?a ?b ?c ?d ?e ?f ?g] =>
    pose proof (single_attempt_trace a b c d g) as H; destruct (retry_loop a b c d e f g) end.
  exact H.
Qed.

Lemma anthropic_stream_trace enc ds dd dm net cn baseURL key model req :
  at_most_one_request (anthropicMessagesStream enc ds dd dm net cn baseURL key model req 0).1.
Proof.
  unfold anthropicMessagesStream. destruct (enc _); [|by left].
  match goal with |- context [retry_loop ?a ?b ?c ?d ?e ?f ?g] =>
    pose proof (single_attempt_trace a b c d g) as H; destruct (retry_loop a b c d e f g) end.
  exact H.
Qed.

Lemma embed_trace enc dec net baseURL key model texts dims :
  at_most_one_request (openAICompatibleEmbed enc dec net baseURL key model texts dims).1.
Proof.
  unfold openAICompatibleEmbed. repeat case_match; try (by left). all: right; eauto.
Qed.

#[export] Hint Resolve openai_generate_trace anthropic_generate_trace openai_stream_trace
  anthropic_stream_trace embed_trace : go.

Definition api_key (p : provider) : string :=
  match p with OpenAI p => oc_apiKey p | Claude p => cl_apiKey p end.

(** *** Streamed text *)

(** The text a payload carries. *)
Definition payload_text (p : streamChunk) : string :=
  match swc_Choices p with c :: _ => sch_Content c | [] => "" end.

Lemma chunks_after_content before ps :
  map sc_Content (chunks_after before ps) = map payload_text ps ∧
  Forall (λ c, sc_Error c = None) (chunks_after before ps).
Proof.
  revert before. induction ps as [|p ps IH]; intros before; [done|]. cbn [chunks_after map].
  destruct (IH (before ++ [p])) as [-> ?]. unfold chunk_after, payload_text.
  destruct (swc_Choices p); split; [done|by constructor|done|by constructor].
Qed.

Lemma concat_nonempty l : concat_str (filter (λ t, t ≠ "") l) = concat_str l.
Proof.
  induction l as [|t l IH]; [done|]. rewrite filter_cons. case_decide as Ht; simpl; rewrite IH; [done|].
  by subst t.
Qed.

(** *** Identifiers *)

Lemma slash_split a b m n :
  has_byte "/" a = false → has_byte "/" b = false →
  a +:+ String "/" m = b +:+ String "/" n → a = b.
Proof.
  revert b. induction a as [|c a IH]; intros [|d b]; simpl; intros Ha Hb Heq; simplify_eq; try done.
  rewrite has_byte_cons in Ha, Hb. bool_simp. f_equal. by apply IH.
Qed.

(* ------------------------------------------------------------------ *)
(** ** Properties *)
(* ------------------------------------------------------------------ *)

(** one call of a provider sends at most one request and never waits, since
    every caller asks for no retries; and without an API key nothing is sent and
    every call fails. *)
Theorem providers_send_at_most_once cd net cn p req texts :
  at_most_one_request (Generate cd net p req).1 ∧
  at_most_one_request (GenerateStream cd net cn p req).1 ∧
  at_most_one_request (Embed cd net p texts).1 ∧
  (api_key p = "" → ∃ e1 e2 e3,
     Generate cd net p req = ([], Err e1) ∧ GenerateStream cd net cn p req = ([], Err e2) ∧
     Embed cd net p texts = ([], Err e3)).
Proof.
  destruct p as [p|p]; unfold Generate, GenerateStream, Embed, api_key; split_and!.
  - case_match; [by left|auto with go].
  - case_match; [by left|auto with go].
  - repeat case_match; try (by left). auto with go.
  - intros ->. simpl. destruct (String.eqb (oc_embedModel p) ""); by eexists _, _, _.
  - case_match; [by left|auto with go].
  - case_match; [by left|auto with go].
  - by left.
  - intros ->. simpl. by eexists _, _, _.
Qed.

(** unregistering by the name a provider was created under removes it exactly
    for the three names that are also identifier prefixes: a provider created as
    [claude] is registered under [anthropic/] and stays, as does one created
    under an unknown name. *)
Theorem unregister_by_name_misses_claude name baseURL key model :
  has_byte "/" name = false →
  DefaultRouter.driver_matches name (ID (Create name baseURL key model)) = true ↔
  name ∈ ["openai"; "modelscope"; "siliconflow"].
Proof.
  intros Hs. rewrite RouterFacts.driver_matches_spec. unfold Create.
  assert (Hpre : ∀ pre m, has_byte "/" pre = false →
            (∃ m', pre +:+ "/" +:+ m = name +:+ "/" +:+ m') ↔ pre = name).
  { intros pre m Hp. split; [|intros ->; eauto]. intros [m' Heq]. by eapply slash_split. }
  destruct (String.eqb_spec name "modelscope") as [->|H1].
  { change (ID _) with ("modelscope" +:+ "/" +:+ model). rewrite Hpre by done. split; [set_solver|done]. }
  destruct (String.eqb_spec name "siliconflow") as [->|H2].
  { change (ID _) with ("siliconflow" +:+ "/" +:+ model). rewrite Hpre by done. split; [set_solver|done]. }
  destruct (String.eqb_spec name "claude") as [->|H3].
  { change (ID _) with ("anthropic" +:+ "/" +:+ model). rewrite Hpre by done. split; [done|set_solver]. }
  change (ID _) with ("openai" +:+ "/" +:+ model). rewrite Hpre by done. split; [intros <-; set_solver|].
  intros Hn. set_solver.
Qed.

Lemma unregister_by_name_misses_claude_witness :
  DefaultRouter.driver_matches "claude" (ID (Create "claude" "" "key" "opus")) = false ∧
  DefaultRouter.driver_matches "openai" (ID (Create "openai" "" "key" "gpt")) = true.
Proof.
  split.
  - apply not_true_iff_false. rewrite (unregister_by_name_misses_claude "claude" "" "key" "opus" eq_refl).
    intros H%(bool_decide_pack _). vm_compute in H. exact H.
  - apply (unregister_by_name_misses_claude "openai" "" "key" "gpt" eq_refl). apply list_elem_of_here.
Defined.

(** planning over an OpenAI stream reads exactly what the service said: the
    text the planner goes on with is that of the payloads put together, and the
    progress callback has seen its pieces in order. *)
Theorem planner_reads_the_streamed_text cd net cn p events req payload body lines ps fin :
  oc_apiKey p ≠ "" →
  enc_stream cd (mkStreamChatRequest (chat_request (oc_modelName p) req) true (Some true)) = Ok payload →
  (∀ endpoint, net_new_request net endpoint = None) →
  net_do net 0 = HttpResponse 200 body → (∀ j, cn_done cn j = None) →
  scan_lines body = (lines, None) → payloads (dec_stream cd) lines = (ps, fin) →
  Forall sane_index (deltas_of ps) →
  let texts := map payload_text ps in
  ask_provider (as_model_provider cd net cn (OpenAI p)) true events req
  = ((ev_generating events, "")
       :: map (λ t, (ev_token events, t)) (filter (λ t, t ≠ "") texts) ++ [(ev_complete events, "")],
     Ok (concat_str texts)).
Proof.
  intros Hkey Henc Hreq Hdo Hcn Hscan Hps Hsane texts.
  assert (Hs : (GenerateStream cd net cn (OpenAI p) req).2 = Ok (chunks_after [] ps)).
  { unfold GenerateStream. rewrite (proj2 (String.eqb_neq _ _) Hkey).
    rewrite (openai_stream_connected _ _ _ _ _ _ _ _ _ _ _ _ Henc (Hreq _) Hdo).
    unfold read_body. rewrite Hscan. f_equal.
    pose proof (openai_read_spec (dec_stream cd) (λ e, EFmt "stream read error: %w" [FW e]) cn lines None
      [] 0 Hcn) as Hr.
    rewrite Hps in Hr. cbn [fst snd] in Hr. etransitivity; [by apply Hr|].
    destruct fin; apply app_nil_r. }
  unfold ask_provider, as_model_provider. cbn [mp_GenerateStream]. rewrite Hs.
  destruct (chunks_after_content [] ps) as [Hc Herr].
  rewrite read_stream_ok by done. unfold chunk_texts. rewrite Hc. fold texts.
  by rewrite concat_nonempty.
Qed.

Definition sample_codecs : codecs :=
  mkCodecs (encode_as "{}") (said "hi") (encode_as "{}") sample_payload (encode_as "{}")
    (λ _, Ok (mkEmbedResponse [] None)) (encode_as "{}")
    (λ _, Ok (mkAnthropicMessagesResponse [] "" (mkAnthropicUsage 0 0) None))
    sample_start sample_delta sample_end (ESentinel "closed").

Lemma planner_reads_the_streamed_text_witness :
  ask_provider (as_model_provider sample_codecs (answers sample_stream) patient
                  (OpenAI (NewOpenAIProvider "" "key" "gpt"))) true (prc_events plan_config) hello_request
  = ([("planning_generating", ""); ("planning_token", "done"); ("planning_complete", "")], Ok "done").
Proof.
  refine (eq_trans (planner_reads_the_streamed_text sample_codecs (answers sample_stream) patient
    (NewOpenAIProvider "" "key" "gpt") (prc_events plan_config) hello_request "{}" sample_stream
    _ _ true _ eq_refl (λ _, eq_refl) eq_refl (λ _, eq_refl) _ _ _) _).
  - discriminate.
  - vm_compute. reflexivity.
  - vm_compute. reflexivity.
  - cbn. repeat (apply Forall_cons_2; [by split; vm_compute|]). apply Forall_nil_2.
  - vm_compute. reflexivity.
Defined.
