(* ===== verification/Policy.v ===== *)
(** The policy enforcer ([src/control/policy/policy.go]): tenant-scoped rules, their
    matching and the decision by priority. *)
From S2P Require Export GoValue.
From Stdlib Require Import Ascii.

(* ------------------------------------------------------------------ *)
(** ** Rules *)
(* ------------------------------------------------------------------ *)

Record PolicyRule := mkPolicyRule {
  pr_ID : string;
  pr_TenantID : string;
  pr_Effect : string;
  pr_Action : string;
  pr_Resource : string;
  pr_Conditions : gmap string string;
  pr_Priority : Z
}.

(** tenantID to ruleID to rule. *)
Abbreviation Enforcer := (gmap string (gmap string PolicyRule)).
Definition NewEnforcer : Enforcer := ∅.

Definition matchAction (pattern action : string) : bool :=
  if String.eqb pattern "*" then true else String.eqb pattern action.

Definition matchResource (pattern resource : string) : bool :=
  if String.eqb pattern "*" then true
  else if has_suffix pattern "/*" then
    let prefix := trim_suffix pattern "/*" in
    has_prefix resource (prefix +:+ "/") || String.eqb resource prefix
  else String.eqb pattern resource.

(** Go compares strings byte by byte. *)
Definition matchTimeWindow (after before currentTime : string) : bool :=
  if str_ltb before after then str_leb after currentTime || str_ltb currentTime before
  else str_leb after currentTime && str_ltb currentTime before.

(** The loop over the conditions, which skips the two time keys. *)
Definition exact_match (attributes : gmap string string) (kv : string * string) : bool :=
  String.eqb kv.1 "time_after" || String.eqb kv.1 "time_before" ||
  match attributes !! kv.1 with Some attrVal => String.eqb attrVal kv.2 | None => false end.

Section enforcer.
Context `{MapRange}.

Definition matchConditions (conditions attributes : gmap string string) : bool :=
  if size conditions =? 0 then true
  else
    match conditions !! "time_after", conditions !! "time_before" with
    | Some after, Some before =>
        match attributes !! "current_time" with
        | None => false
        | Some currentTime => matchTimeWindow after before currentTime
        end
    | _, _ => forallb (exact_match attributes) (range conditions)
    end.

Definition rule_matches (action resource : string) (attributes : gmap string string)
    (rule : PolicyRule) : bool :=
  matchAction (pr_Action rule) action && matchResource (pr_Resource rule) resource &&
  matchConditions (pr_Conditions rule) attributes.

(** The loop over the sorted rules: a rule of another effect is passed over. *)
Fixpoint decide_rules (action resource : string) (attributes : gmap string string)
    (rules : list PolicyRule) : option error :=
  match rules with
  | [] => None
  | rule :: rules =>
      if negb (rule_matches action resource attributes rule) then
        decide_rules action resource attributes rules
      else if String.eqb (pr_Effect rule) "deny" then
        Some (EFmt "policy: denied by rule %s" [FS (pr_ID rule)])
      else if String.eqb (pr_Effect rule) "allow" then None
      else decide_rules action resource attributes rules
  end.

(** Highest priority first; [sort.Slice] leaves rules of equal priority in an
    order that depends on the range over the map. *)
Definition priority_geb (a b : PolicyRule) : bool := (pr_Priority b <=? pr_Priority a)%Z.

(** [ctx] tells whether the context is non-nil. *)
Definition Evaluate (e : Enforcer) (ctx : bool) (tenantID action resource : string)
    (attributes : gmap string string) : option error :=
  if negb ctx then Some (EFmt "policy: context is required" [])
  else if String.eqb tenantID "" then Some (EFmt "policy: tenantID is required" [])
  else if String.eqb action "" then Some (EFmt "policy: action is required" [])
  else
    let tenantRules := default ∅ (e !! tenantID) in
    if size tenantRules =? 0 then None
    else decide_rules action resource attributes (isort priority_geb (range_values tenantRules)).

Definition AddRule (rule : PolicyRule) (e : Enforcer) : Enforcer * option error :=
  if String.eqb (pr_ID rule) "" then (e, Some (EFmt "policy: rule ID is required" []))
  else
    let e := match e !! pr_TenantID rule with
             | Some _ => e
             | None => <[pr_TenantID rule := ∅]> e
             end in
    let rules := default ∅ (e !! pr_TenantID rule) in
    match rules !! pr_ID rule with
    | Some _ => (e, Some (EFmt "policy: rule %s already exists" [FS (pr_ID rule)]))
    | None => (<[pr_TenantID rule := <[pr_ID rule := rule]> rules]> e, None)
    end.

(** The loop over the tenants deletes the rule at the first that has it. *)
Definition RemoveRule (ruleID : string) (e : Enforcer) : Enforcer * option error :=
  match list_find (λ tr, is_Some (tr.2 !! ruleID)) (range e) with
  | Some (_, (tid, rules)) => (<[tid := delete ruleID rules]> e, None)
  | None => (e, Some (EFmt "policy: rule %s not found" [FS ruleID]))
  end.

Definition ListRules (e : Enforcer) (tenantID : string) : list PolicyRule :=
  let tenantRules := default ∅ (e !! tenantID) in
  if size tenantRules =? 0 then [] else range_values tenantRules.
End enforcer.

(* ------------------------------------------------------------------ *)
(** ** Matching, verified *)
(* ------------------------------------------------------------------ *)

Lemma matchResource_spec pattern resource :
  matchResource pattern resource = true ↔
  pattern = "*" ∨
  (∃ p, pattern = p +:+ "/*" ∧ (resource = p ∨ ∃ t, resource = p +:+ "/" +:+ t)) ∨
  (pattern = resource ∧ has_suffix pattern "/*" = false).
Proof.
  unfold matchResource. destruct (String.eqb_spec pattern "*") as [|Hs]; [by split; [left|]|].
  destruct (has_suffix pattern "/*") eqn:Hsuf.
  - apply has_suffix_spec in Hsuf as [p Hp]. rewrite Hp, trim_suffix_app. cbv zeta.
    rewrite orb_true_iff, String.eqb_eq, has_prefix_spec. split.
    + intros [[t ->]|Hr]; right; left; exists p; (split; [done|]); [right|by left].
      exists t. by rewrite sapp_assoc.
    + intros [Heq|[(q & Hq & Hr)|[_ ?]]]; [congruence| |done].
      assert (p = q) as ->.
      { apply (f_equal (λ s, trim_suffix s "/*")) in Hq. by rewrite !trim_suffix_app in Hq. }
      destruct Hr as [->|[t ->]]; [by right|left]. exists t. by rewrite sapp_assoc.
  - rewrite String.eqb_eq. split; [naive_solver|].
    intros [?|[(q & -> & _)|[? _]]]; [done| |done]. exfalso.
    assert (has_suffix (q +:+ "/*") "/*" = true) by (apply has_suffix_spec; by eexists). congruence.
Qed.

Section matching.
Context `{MapRange}.

(** Without a complete time window every other condition must be met. *)
Lemma matchConditions_spec conditions attributes :
  matchConditions conditions attributes = true ↔
  match conditions !! "time_after", conditions !! "time_before" with
  | Some after, Some before =>
      ∃ now, attributes !! "current_time" = Some now ∧ matchTimeWindow after before now = true
  | _, _ => ∀ k v, conditions !! k = Some v → k ≠ "time_after" → k ≠ "time_before" →
                   attributes !! k = Some v
  end.
Proof.
  assert (Hexact : forallb (exact_match attributes) (range conditions) = true ↔
    ∀ k v, conditions !! k = Some v → k ≠ "time_after" → k ≠ "time_before" → attributes !! k = Some v).
  { rewrite forallb_forall. unfold exact_match. split.
    - intros Hall k v Hk Ha Hb. apply String.eqb_neq in Ha, Hb.
      apply elem_of_range, list_elem_of_In, Hall in Hk. simpl in Hk. rewrite Ha, Hb in Hk. simpl in Hk.
      destruct (attributes !! k); [|done]. apply String.eqb_eq in Hk. congruence.
    - intros Hall [k v] Hin%list_elem_of_In%elem_of_range. simpl.
      destruct (String.eqb_spec k "time_after"), (String.eqb_spec k "time_before"); try done.
      rewrite (Hall k v) by done. simpl. apply String.eqb_refl. }
  unfold matchConditions. destruct (size conditions =? 0) eqn:Hz.
  { bool_simp. apply map_size_empty_inv in Hz. subst. rewrite !lookup_empty.
    split; [|done]. intros _ k v Hk. by rewrite lookup_empty in Hk. }
  destruct (conditions !! "time_after"), (conditions !! "time_before"); try done.
  destruct (attributes !! "current_time"); naive_solver.
Qed.
End matching.

(** Matching does not depend on the order of the range. *)
Lemma matchConditions_any_order (R1 R2 : MapRange) conditions attributes :
  @matchConditions R1 conditions attributes = @matchConditions R2 conditions attributes.
Proof.
  apply eq_true_iff_eq. rewrite !matchConditions_spec. done.
Qed.

(* ------------------------------------------------------------------ *)
(** ** The decision, verified *)
(* ------------------------------------------------------------------ *)

Section decision.
Context `{MapRange}.
Variables (action resource : string) (attributes : gmap string string).

Definition decisive (r : PolicyRule) : bool :=
  rule_matches action resource attributes r &&
  (String.eqb (pr_Effect r) "deny" || String.eqb (pr_Effect r) "allow").

Definition outcome (r : PolicyRule) : option error :=
  if String.eqb (pr_Effect r) "deny" then Some (EFmt "policy: denied by rule %s" [FS (pr_ID r)])
  else None.

(** The first decisive rule decides. *)
Lemma decide_rules_first rules :
  decide_rules action resource attributes rules
  = match list_find (λ r, decisive r = true) rules with
    | Some (_, r) => outcome r
    | None => None
    end.
Proof.
  induction rules as [|r rules IH]; [done|]. cbn [decide_rules list_find].
  destruct (rule_matches action resource attributes r) eqn:Hm; simpl.
  2:{ rewrite decide_False by (unfold decisive; by rewrite Hm). rewrite IH.
      by destruct (list_find _ rules) as [[i x]|]. }
  destruct (String.eqb (pr_Effect r) "deny") eqn:Hd; simpl.
  { rewrite decide_True by (unfold decisive; by rewrite Hm, Hd). unfold outcome. by rewrite Hd. }
  destruct (String.eqb (pr_Effect r) "allow") eqn:Ha; simpl.
  { rewrite decide_True by (unfold decisive; by rewrite Hm, Hd, Ha). unfold outcome. by rewrite Hd. }
  rewrite decide_False by (unfold decisive; by rewrite Hm, Hd, Ha). rewrite IH.
  by destruct (list_find _ rules) as [[i x]|].
Qed.

Lemma priority_total x y : priority_geb x y = true ∨ priority_geb y x = true.
Proof. unfold priority_geb. rewrite !Z.leb_le. lia. Qed.
Lemma priority_trans x y z :
  priority_geb x y = true → priority_geb y z = true → priority_geb x z = true.
Proof. unfold priority_geb. rewrite !Z.leb_le. lia. Qed.

(** A decisive rule of the highest priority among the decisive ones decides. *)
Lemma decide_sorted rules :
  match decide_rules action resource attributes (isort priority_geb rules) with
  | Some e => ∃ r, r ∈ rules ∧ decisive r = true ∧ pr_Effect r = "deny" ∧
                   e = EFmt "policy: denied by rule %s" [FS (pr_ID r)] ∧
                   ∀ r', r' ∈ rules → decisive r' = true → (pr_Priority r' ≤ pr_Priority r)%Z
  | None => (∀ r, r ∈ rules → decisive r = false) ∨
            ∃ r, r ∈ rules ∧ decisive r = true ∧ pr_Effect r = "allow" ∧
                 ∀ r', r' ∈ rules → decisive r' = true → (pr_Priority r' ≤ pr_Priority r)%Z
  end.
Proof.
  rewrite decide_rules_first.
  pose proof (isort_sorted priority_geb priority_total priority_trans rules) as Hs.
  destruct (list_find _ (isort priority_geb rules)) as [[i r]|] eqn:Hf.
  2:{ left. intros r Hr. apply list_find_None in Hf. rewrite Forall_forall in Hf.
      specialize (Hf r). rewrite elem_of_isort in Hf. specialize (Hf Hr).
      by destruct (decisive r). }
  apply list_find_Some in Hf as (Hi & Hd & Hbefore).
  assert (Hr : r ∈ rules) by (apply (elem_of_isort priority_geb); by eapply list_elem_of_lookup_2).
  assert (Hmax : ∀ r', r' ∈ rules → decisive r' = true → (pr_Priority r' ≤ pr_Priority r)%Z).
  { intros r' Hr' Hd'. apply (elem_of_isort priority_geb) in Hr' as [j Hj]%list_elem_of_lookup.
    destruct (decide (j < i)) as [Hlt|Hge].
    - exfalso. by apply (Hbefore j r' Hj Hlt).
    - destruct (decide (j = i)) as [->|Hne]; [by simplify_eq|].
      assert (Hp : priority_geb r r' = true).
      { eapply (sorted_lookup (λ x y, priority_geb x y = true)); [exact Hs|exact Hi|exact Hj|lia]. }
      unfold priority_geb in Hp. by apply Z.leb_le in Hp. }
  unfold outcome. destruct (String.eqb_spec (pr_Effect r) "deny") as [E|E].
  - exists r. auto.
  - right. exists r. split_and!; try done. unfold decisive in Hd.
    apply andb_true_iff in Hd as [_ He]. apply orb_true_iff in He as [He|He]; apply String.eqb_eq in He; done.
Qed.
End decision.

Lemma rule_matches_any_order (R1 R2 : MapRange) action resource attributes r :
  @rule_matches R1 action resource attributes r = @rule_matches R2 action resource attributes r.
Proof. unfold rule_matches. by rewrite (matchConditions_any_order R1 R2). Qed.

Lemma decisive_any_order (R1 R2 : MapRange) action resource attributes r :
  @decisive R1 action resource attributes r = @decisive R2 action resource attributes r.
Proof. unfold decisive. by rewrite (rule_matches_any_order R1 R2). Qed.

(** An element that comes first among those of its kind. *)
Lemma filter_head_before {A} (P : A → Prop) `{∀ x, Decision (P x)} l x rest i y :
  filter P l = x :: rest → l !! i = Some y → P y → ∃ j, j ≤ i ∧ l !! j = Some x.
Proof.
  revert i. induction l as [|z l IH]; intros i Hf Hi Hy; [done|]. rewrite filter_cons in Hf.
  destruct (decide (P z)) as [Hz|Hz].
  - simplify_eq. exists 0. split; [lia|done].
  - destruct i as [|i]; simpl in Hi; [by simplify_eq|]. destruct (IH i Hf Hi Hy) as (j & Hj & Hl).
    exists (S j). split; [lia|done].
Qed.

(** Any decisive rule of the highest priority decides in some order. *)
Lemma decide_can_be_any (R : MapRange) action resource attributes r rest :
  @decisive R action resource attributes r = true →
  (∀ r', r' ∈ r :: rest → @decisive R action resource attributes r' = true →
         (pr_Priority r' ≤ pr_Priority r)%Z) →
  @decide_rules R action resource attributes (isort priority_geb (r :: rest)) = outcome r.
Proof.
  intros Hd Hmax. rewrite decide_rules_first.
  pose proof (isort_stable priority_geb priority_total priority_trans (r :: rest) r) as Hst.
  rewrite filter_cons, decide_True in Hst
    by (unfold same_key, priority_geb; by rewrite Z.leb_refl).
  set (l := isort priority_geb (r :: rest)) in *.
  assert (Hr : r ∈ l) by (apply elem_of_isort; set_solver).
  destruct (list_find _ l) as [[i r0]|] eqn:Hf.
  2:{ exfalso. apply list_find_None in Hf. rewrite Forall_forall in Hf. by apply (Hf r). }
  apply list_find_Some in Hf as (Hi & Hd0 & Hbefore).
  assert (Hle : (pr_Priority r0 ≤ pr_Priority r)%Z).
  { apply Hmax; [|done]. apply (elem_of_isort priority_geb). by eapply list_elem_of_lookup_2. }
  assert (Hge : (pr_Priority r ≤ pr_Priority r0)%Z).
  { apply list_elem_of_lookup in Hr as [j Hj]. destruct (decide (j < i)) as [Hlt|Hn].
    - exfalso. by apply (Hbefore j r Hj Hlt).
    - destruct (decide (j = i)) as [->|Hne]; [simplify_eq; lia|].
      pose proof (isort_sorted priority_geb priority_total priority_trans (r :: rest)) as Hs.
      assert (Hp : priority_geb r0 r = true).
      { eapply (sorted_lookup (λ x y, priority_geb x y = true)); [exact Hs|exact Hi|exact Hj|lia]. }
      unfold priority_geb in Hp. by apply Z.leb_le in Hp. }
  destruct (filter_head_before _ _ _ _ i r0 Hst Hi) as (j & Hj & Hl).
  { unfold same_key, priority_geb. apply andb_true_iff. rewrite !Z.leb_le. lia. }
  destruct (decide (j < i)) as [Hlt|Hn]; [exfalso; by apply (Hbefore j r Hl Hlt)|].
  assert (j = i) as -> by lia. by simplify_eq.
Qed.

(* ------------------------------------------------------------------ *)
(** ** Adding and removing, verified *)
(* ------------------------------------------------------------------ *)

(** The rule a tenant has under an ID. *)
Definition rule_at (e : Enforcer) (tid rid : string) : option PolicyRule := e !! tid ≫= lookup rid.

Lemma AddRule_spec rule e :
  match AddRule rule e with
  | (e', None) =>
      pr_ID rule ≠ "" ∧ rule_at e (pr_TenantID rule) (pr_ID rule) = None ∧
      ∀ tid rid, rule_at e' tid rid
        = if decide (tid = pr_TenantID rule ∧ rid = pr_ID rule) then Some rule else rule_at e tid rid
  | (e', Some _) =>
      (pr_ID rule = "" ∨ is_Some (rule_at e (pr_TenantID rule) (pr_ID rule))) ∧
      ∀ tid rid, rule_at e' tid rid = rule_at e tid rid
  end.
Proof.
  unfold AddRule. destruct (String.eqb_spec (pr_ID rule) "") as [|Hne]; [auto|].
  set (t := pr_TenantID rule). set (e1 := match e !! t with Some _ => e | None => <[t := ∅]> e end).
  assert (Hat : ∀ tid rid, rule_at e1 tid rid = rule_at e tid rid).
  { intros tid rid. unfold e1, rule_at. destruct (e !! t) eqn:Et; [done|].
    destruct (decide (tid = t)) as [->|].
    - rewrite lookup_insert_eq, Et. simpl. apply lookup_empty.
    - by rewrite lookup_insert_ne. }
  assert (Hr : default ∅ (e1 !! t) !! pr_ID rule = rule_at e t (pr_ID rule)).
  { rewrite <-Hat. unfold rule_at. by destruct (e1 !! t). }
  cbv zeta. fold t e1. rewrite Hr. destruct (rule_at e t (pr_ID rule)) as [r|] eqn:Hrule.
  { split; [right; eauto|exact Hat]. }
  split_and!; [done..|]. intros tid rid. rewrite <-Hat. unfold rule_at.
  destruct (decide (tid = t)) as [->|Ht].
  - rewrite lookup_insert_eq. simpl. destruct (decide (rid = pr_ID rule)) as [->|Hi].
    + rewrite lookup_insert_eq. by rewrite decide_True.
    + rewrite lookup_insert_ne, decide_False by naive_solver. by destruct (e1 !! t).
  - rewrite lookup_insert_ne by done. rewrite decide_False by naive_solver. done.
Qed.

Lemma RemoveRule_spec `{MapRange} rid e :
  match RemoveRule rid e with
  | (e', None) => ∃ t, is_Some (rule_at e t rid) ∧
      ∀ tid rid', rule_at e' tid rid'
        = if decide (tid = t ∧ rid' = rid) then None else rule_at e tid rid'
  | (e', Some _) => e' = e ∧ ∀ tid, rule_at e tid rid = None
  end.
Proof.
  unfold RemoveRule. destruct (list_find _ (range e)) as [[i [t rules]]|] eqn:Hf.
  - apply list_find_Some in Hf as (Hi & [r Hr] & _). simpl in Hr.
    apply list_elem_of_lookup_2, elem_of_range in Hi. exists t. unfold rule_at. rewrite Hi. simpl.
    split; [eauto|]. intros tid rid'. destruct (decide (tid = t)) as [->|Ht].
    + rewrite lookup_insert_eq, Hi. simpl. destruct (decide (rid' = rid)) as [->|Hn].
      * rewrite lookup_delete_eq. by rewrite decide_True.
      * rewrite lookup_delete_ne, decide_False by naive_solver. done.
    + rewrite lookup_insert_ne by done. rewrite decide_False by naive_solver. done.
  - split; [done|]. intros tid. unfold rule_at. destruct (e !! tid) as [rules|] eqn:He; [|done].
    simpl. apply list_find_None in Hf. rewrite Forall_forall in Hf. specialize (Hf (tid, rules)).
    rewrite elem_of_range in Hf. specialize (Hf He). simpl in Hf. by apply eq_None_not_Some.
Qed.

(* ------------------------------------------------------------------ *)
(** ** Properties *)
(* ------------------------------------------------------------------ *)

(** The rules [Evaluate] reads: those of the tenant. *)
Definition tenant_rule (e : Enforcer) (tenantID : string) (r : PolicyRule) : Prop :=
  ∃ rid, rule_at e tenantID rid = Some r.

Lemma elem_of_tenant_rules `{MapRange} e tenantID r :
  r ∈ range_values (default ∅ (e !! tenantID)) ↔ tenant_rule e tenantID r.
Proof.
  rewrite elem_of_range_values. unfold tenant_rule, rule_at.
  destruct (e !! tenantID); simpl; [done|].
  split; intros [k Hk]; [by rewrite lookup_empty in Hk|done].
Qed.

Lemma Evaluate_decides `{MapRange} e tenantID action resource attributes :
  tenantID ≠ "" → action ≠ "" →
  Evaluate e true tenantID action resource attributes
  = decide_rules action resource attributes
      (isort priority_geb (range_values (default ∅ (e !! tenantID)))).
Proof.
  intros Ht Ha. apply String.eqb_neq in Ht, Ha. unfold Evaluate. rewrite Ht, Ha. cbv zeta. simpl.
  destruct (size (default ∅ (e !! tenantID)) =? 0) eqn:Hz; [|done].
  bool_simp. apply map_size_empty_inv in Hz. rewrite Hz. unfold range_values. by rewrite range_empty.
Qed.

(** C5: for every iteration order a request is denied by a deny rule of the
    requesting tenant that matches and that no matching allow or deny rule of
    the tenant outranks; it is allowed when an allow rule is in that position
    or no allow or deny rule matches. *)
Theorem decision_follows_priority `{MapRange} e tenantID action resource attributes :
  tenantID ≠ "" → action ≠ "" →
  let dec := decisive action resource attributes in
  match Evaluate e true tenantID action resource attributes with
  | Some err => ∃ r, tenant_rule e tenantID r ∧ dec r = true ∧ pr_Effect r = "deny" ∧
      err = EFmt "policy: denied by rule %s" [FS (pr_ID r)] ∧
      ∀ r', tenant_rule e tenantID r' → dec r' = true → (pr_Priority r' ≤ pr_Priority r)%Z
  | None => (∀ r, tenant_rule e tenantID r → dec r = false) ∨
      ∃ r, tenant_rule e tenantID r ∧ dec r = true ∧ pr_Effect r = "allow" ∧
        ∀ r', tenant_rule e tenantID r' → dec r' = true → (pr_Priority r' ≤ pr_Priority r)%Z
  end.
Proof.
  intros Ht Ha. cbv zeta. rewrite Evaluate_decides by done.
  pose proof (decide_sorted action resource attributes (range_values (default ∅ (e !! tenantID)))) as Hd.
  pose proof (elem_of_tenant_rules e tenantID) as Hin.
  destruct (decide_rules _ _ _ _) as [err|].
  - destruct Hd as (r & Hr & ? & ? & ? & Hmax). exists r. split_and!; try done; [by apply Hin|].
    intros r' Hr'. apply Hmax. by apply Hin.
  - destruct Hd as [Hno|(r & Hr & ? & ? & Hmax)]; [left; intros r Hr; by apply Hno, Hin|].
    right. exists r. split_and!; try done; [by apply Hin|]. intros r' Hr'. apply Hmax. by apply Hin.
Qed.

(** One tenant with an allow and a deny rule of the same priority. *)
Definition rule_of (tid rid effect : string) : PolicyRule := mkPolicyRule rid tid effect "*" "*" ∅ 5.
Definition split_tenant : Enforcer :=
  {[ "t" := {[ "a" := rule_of "t" "a" "allow"; "d" := rule_of "t" "d" "deny" ]} ]}.

Lemma decision_follows_priority_witness :
  ∃ r, tenant_rule split_tenant "t" r ∧ @decisive (range_first "d") "x" "y" ∅ r = true ∧
    pr_Effect r = "deny" ∧
    EFmt "policy: denied by rule %s" [FS "d"] = EFmt "policy: denied by rule %s" [FS (pr_ID r)] ∧
    ∀ r', tenant_rule split_tenant "t" r' → @decisive (range_first "d") "x" "y" ∅ r' = true →
          (pr_Priority r' ≤ pr_Priority r)%Z.
Proof.
  assert (Hev : @Evaluate (range_first "d") split_tenant true "t" "x" "y" ∅
                = Some (EFmt "policy: denied by rule %s" [FS "d"])) by (vm_compute; reflexivity).
  pose proof (@decision_follows_priority (range_first "d") split_tenant "t" "x" "y" ∅) as H.
  cbv zeta in H. rewrite Hev in H. apply H; discriminate.
Defined.

(** rules of equal priority race: each allow or deny rule of the tenant that
    matches and is not outranked by another is the one that decides, for some
    order of iteration over the tenant's rules. *)
Theorem equal_priority_rules_race e tenantID rid r action resource attributes :
  tenantID ≠ "" → action ≠ "" → rule_at e tenantID rid = Some r →
  @decisive (range_first rid) action resource attributes r = true →
  (∀ r', tenant_rule e tenantID r' →
     @decisive (range_first rid) action resource attributes r' = true →
     (pr_Priority r' ≤ pr_Priority r)%Z) →
  @Evaluate (range_first rid) e true tenantID action resource attributes = outcome r.
Proof.
  intros Ht Ha Hr Hd Hmax. rewrite Evaluate_decides by done.
  assert (Hl : default ∅ (e !! tenantID) !! rid = Some r).
  { unfold rule_at in Hr. destruct (e !! tenantID); [done|]. done. }
  destruct (range_first_head rid _ r Hl) as [rest Hrest].
  assert (Hin : ∀ r', r' ∈ @range_values (range_first rid) _ (default ∅ (e !! tenantID)) →
            tenant_rule e tenantID r') by (intros r'; apply elem_of_tenant_rules).
  unfold range_values in *. rewrite Hrest in *. csimpl in *.
  apply decide_can_be_any; [done|]. intros r' Hr'. apply Hmax. by apply Hin.
Qed.

Lemma equal_priority_rules_race_witness :
  @Evaluate (range_first "a") split_tenant true "t" "x" "y" ∅ = None ∧
  @Evaluate (range_first "d") split_tenant true "t" "x" "y" ∅
    = Some (EFmt "policy: denied by rule %s" [FS "d"]).
Proof.
  assert (Hmax : ∀ r, tenant_rule split_tenant "t" r → (pr_Priority r ≤ 5)%Z).
  { intros r [rid Hr]. revert Hr. unfold rule_at, split_tenant. rewrite lookup_singleton_eq. simpl.
    intros [[_ <-]|[_ Hr]]%lookup_insert_Some; [done|].
    apply lookup_singleton_Some in Hr as [_ <-]. done. }
  split.
  - apply (equal_priority_rules_race split_tenant "t" "a" (rule_of "t" "a" "allow"));
      [discriminate|discriminate|vm_compute; reflexivity|vm_compute; reflexivity|].
    intros r' Hr' _. by apply Hmax.
  - apply (equal_priority_rules_race split_tenant "t" "d" (rule_of "t" "d" "deny"));
      [discriminate|discriminate|vm_compute; reflexivity|vm_compute; reflexivity|].
    intros r' Hr' _. by apply Hmax.
Defined.

(** [AddRule] adds exactly the given rule under its tenant and ID and refuses
    an empty ID or one the tenant already uses; [RemoveRule] removes exactly one
    rule of that ID, from some tenant that has one, and fails only if none has. *)
Theorem rules_are_added_and_removed_one_at_a_time `{MapRange} e :
  (∀ rule, match AddRule rule e with
   | (e', None) =>
      pr_ID rule ≠ "" ∧ rule_at e (pr_TenantID rule) (pr_ID rule) = None ∧
      ∀ tid rid, rule_at e' tid rid
        = if decide (tid = pr_TenantID rule ∧ rid = pr_ID rule) then Some rule else rule_at e tid rid
   | (e', Some _) =>
      (pr_ID rule = "" ∨ is_Some (rule_at e (pr_TenantID rule) (pr_ID rule))) ∧
      ∀ tid rid, rule_at e' tid rid = rule_at e tid rid
   end) ∧
  (∀ rid, match RemoveRule rid e with
   | (e', None) => ∃ t, is_Some (rule_at e t rid) ∧
      ∀ tid rid', rule_at e' tid rid'
        = if decide (tid = t ∧ rid' = rid) then None else rule_at e tid rid'
   | (e', Some _) => e' = e ∧ ∀ tid, rule_at e tid rid = None
   end).
Proof. split; intros x; [apply AddRule_spec|apply RemoveRule_spec]. Qed.

(** removal is not confined to a tenant: whichever tenant has a rule of the
    given ID, it is the one that loses it for some order of iteration. *)
Theorem remove_rule_crosses_tenants e tid rules rid r :
  e !! tid = Some rules → rules !! rid = Some r →
  @RemoveRule (range_first tid) rid e = (<[tid := delete rid rules]> e, None).
Proof.
  intros He Hr. unfold RemoveRule. destruct (range_first_head tid e rules He) as [rest ->].
  simpl. rewrite decide_True; [done|]. eauto.
Qed.

Definition two_tenants : Enforcer :=
  {[ "t" := {[ "a" := rule_of "t" "a" "deny" ]}; "u" := {[ "a" := rule_of "u" "a" "deny" ]} ]}.

Lemma remove_rule_crosses_tenants_witness :
  rule_at (@RemoveRule (range_first "t") "a" two_tenants).1 "t" "a" = None ∧
  rule_at (@RemoveRule (range_first "u") "a" two_tenants).1 "u" "a" = None.
Proof.
  split.
  - refine (eq_trans (f_equal (λ x, rule_at x.1 "t" "a")
      (remove_rule_crosses_tenants two_tenants "t" {[ "a" := rule_of "t" "a" "deny" ]} "a"
         (rule_of "t" "a" "deny") _ _)) _); vm_compute; reflexivity.
  - refine (eq_trans (f_equal (λ x, rule_at x.1 "u" "a")
      (remove_rule_crosses_tenants two_tenants "u" {[ "a" := rule_of "u" "a" "deny" ]} "a"
         (rule_of "u" "a" "deny") _ _)) _); vm_compute; reflexivity.
Defined.

(** a rule's conditions are met exactly when every attribute they name has
    the required value, except that a complete time window replaces all of them:
    the other conditions of such a rule are not looked at. *)
Theorem time_window_replaces_other_conditions `{MapRange} conditions attributes :
  matchConditions conditions attributes = true ↔
  match conditions !! "time_after", conditions !! "time_before" with
  | Some after, Some before =>
      ∃ now, attributes !! "current_time" = Some now ∧ matchTimeWindow after before now = true
  | _, _ => ∀ k v, conditions !! k = Some v → k ≠ "time_after" → k ≠ "time_before" →
                   attributes !! k = Some v
  end.
Proof. apply matchConditions_spec. Qed.
