(* ===== verification/SkillFiles.v ===== *)
(** Skill files ([src/registry/skills]): manifests (manifest.go), the host API of
    Wasm skills (hostapi.go) and SKILL.md files with the identifiers derived from
    their directories (skillmd.go), over the path functions of [path/filepath]. *)
From S2P Require Export Types.
From Stdlib Require Import Ascii.

(* ------------------------------------------------------------------ *)
(** ** Manifests and the host API (manifest.go, hostapi.go) *)
(* ------------------------------------------------------------------ *)

Definition ValidRiskLevels : list string := ["info"; "sensitive"; "clinical"; "critical"].

Record SkillManifest := mkSkillManifest {
  mf_ID : string;
  mf_Version : string;
  mf_Name : string;
  mf_Description : string;
  mf_Mode : string;
  mf_InputSchema : option JSONSchema;
  mf_OutputSchema : option JSONSchema;
  mf_Requires : list string;
  mf_Permissions : list string;
  mf_Timeout : Z;
  mf_MaxMemoryMB : Z;
  mf_MaxCPUMs : Z;
  mf_RiskLevel : string
}.

Section manifest.
(** [yaml.Unmarshal] into a manifest. *)
Variable yaml_manifest : string → result error SkillManifest.

Definition ParseManifest (data : string) : result error SkillManifest :=
  match yaml_manifest data with
  | Err err => Err err
  | Ok manifest => Ok manifest
  end.
End manifest.

Definition Manifest_Validate (m : SkillManifest) : option error :=
  if String.eqb (mf_Mode m) "" then Some (EFmt "skill: execution.mode is required" [])
  else if negb (String.eqb (mf_Mode m) "declarative" || String.eqb (mf_Mode m) "wasm") then
    Some (EFmt "skill: unsupported execution.mode %q (must be declarative or wasm; native is not yet implemented)"
            [FS (mf_Mode m)])
  else if negb (String.eqb (mf_RiskLevel m) "")
          && negb (bool_decide (mf_RiskLevel m ∈ ValidRiskLevels)) then
    Some (EFmt "skill: invalid risk_level %q (must be info, sensitive, clinical, or critical)"
            [FS (mf_RiskLevel m)])
  else None.

Definition ErrKeyNotFound : error := ESentinel "skill: key not found".
Definition ErrInvalidURL : error := ESentinel "skill: invalid URL".

(** The store of values by key; the lock is taken around each operation. *)
Definition NewHostAPI : gmap string string := ∅.
Definition KVGet (kv : gmap string string) (key : string) : result error string :=
  match kv !! key with Some val => Ok val | None => Err ErrKeyNotFound end.
Definition KVSet (kv : gmap string string) (key value : string) : gmap string string :=
  <[key := value]> kv.
Definition KVDelete (kv : gmap string string) (key : string) : gmap string string := delete key kv.

Record HTTPResponse := mkHTTPResponse { hr_StatusCode : Z; hr_Headers : gmap string string; hr_Body : string }.
Definition HTTPFetch (url : string) : result error HTTPResponse :=
  if String.eqb url "" then Err ErrInvalidURL else Ok (mkHTTPResponse 200 ∅ "stub response").

(* ------------------------------------------------------------------ *)
(** ** Paths ([path/filepath] on Unix) *)
(* ------------------------------------------------------------------ *)

(** What is left after [filepath.Clean] has read the next element; the elements
    read are kept last first. *)
Definition clean_elem (rooted : bool) (out : list string) (e : string) : list string :=
  if String.eqb e "" || String.eqb e "." then out
  else if String.eqb e ".." then
    match out with
    | top :: below => if String.eqb top ".." then ".." :: out else below
    | [] => if rooted then [] else [".."]
    end
  else e :: out.

Definition Clean (path : string) : string :=
  let rooted := has_prefix path "/" in
  let elems := reverse (foldl (clean_elem rooted) [] (split_on "/" path)) in
  let path := (if rooted then "/" else "") +:+ join "/" elems in
  if String.eqb path "" then "." else path.

Definition Base (path : string) : string :=
  if String.eqb path "" then "."
  else
    let path := trim_right_byte "/" path in
    let path := match last_index_of "/" path with Some i => sdrop (i + 1) path | None => path end in
    if String.eqb path "" then "/" else path.

Definition Dir (path : string) : string :=
  Clean (match last_index_of "/" path with Some i => stake (i + 1) path | None => "" end).

Fixpoint Join (elem : list string) : string :=
  match elem with
  | [] => ""
  | e :: rest => if String.eqb e "" then Join rest else Clean (join "/" elem)
  end.

(* ------------------------------------------------------------------ *)
(** ** SKILL.md (skillmd.go) *)
(* ------------------------------------------------------------------ *)

Definition SkillMDFileName : string := "SKILL.md".

Record SkillMD := mkSkillMD { md_Name : string; md_Description : string; md_Body : string }.

(** The loop over the lines; [offset] is where line [i] begins. *)
Fixpoint frontmatter_end (i offset : nat) (lines : list string) : option nat :=
  match lines with
  | [] => None
  | line :: lines =>
      let trimmed := trim_space line in
      if String.eqb trimmed "---" && (0 <? i) then Some offset
      else if (i =? 0) && String.eqb trimmed "" then frontmatter_end (S i) (offset + slen line + 1) lines
      else if (i =? 0) && String.eqb trimmed "---" then Some 0
      else frontmatter_end (S i) (offset + slen line + 1) lines
  end.
Definition findFrontmatterEnd (content : string) : option nat :=
  frontmatter_end 0 0 (split_on "010" content).

Definition crlf : string := String "013" (String "010" "").

Section skillmd.
(** [yaml.Unmarshal] into the two frontmatter fields, name and description. *)
Variable yaml_frontmatter : string → result error (string * string).

Definition ParseSkillMDContent (data : string) : result error SkillMD :=
  let content := replace_all (trim_space data) crlf nl in
  if String.eqb content "" then Err (EFmt "SKILL.md is empty" [])
  else if negb (has_prefix content "---") || has_prefix (sdrop 3 content) "-" then
    Ok (mkSkillMD "" "" content)
  else
    let rest := sdrop 3 content in
    match findFrontmatterEnd rest with
    | None => Err (EFmt "SKILL.md: unclosed frontmatter delimiter" [])
    | Some closingIdx =>
        let fmBytes := trim_space (stake closingIdx rest) in
        let body := trim_space (sdrop (closingIdx + 3) rest) in
        let fm := if 0 <? slen fmBytes then yaml_frontmatter fmBytes else Ok ("", "") in
        match fm with
        | Err err => Err (EFmt "SKILL.md: invalid frontmatter YAML: %w" [FW err])
        | Ok (name, description) => Ok (mkSkillMD (trim_space name) (trim_space description) body)
        end
    end.
(** [os.ReadFile] and [os.Stat], with [os.IsNotExist]. *)
Variable read_file : string → result error string.
Variable stat : string → option error.
Variable is_not_exist : error → bool.

Definition ParseSkillMD (dir : string) : result error (option SkillMD) :=
  match read_file (Join [dir; SkillMDFileName]) with
  | Err err => if is_not_exist err then Ok None else Err err
  | Ok data =>
      match ParseSkillMDContent data with
      | Err err => Err err
      | Ok md => Ok (Some md)
      end
  end.

Definition HasSkillMD (dir : string) : bool :=
  match stat (Join [dir; SkillMDFileName]) with None => true | Some _ => false end.
End skillmd.

(** The identifier of a skill from the path of its directory. *)
Definition DeriveSkillID (skillDir : string) : string :=
  let skillDir := trim_right_byte "/" skillDir in
  if String.eqb skillDir "" then ""
  else
    let name := Base skillDir in
    let parent := Base (Dir skillDir) in
    if String.eqb parent "skills" || String.eqb parent "." || String.eqb parent "" then name
    else parent +:+ "/" +:+ name.

(** a manifest is accepted exactly when its mode is one of the two that are
    implemented and its risk level is unset or one of the four. *)
Theorem manifest_validation_decides m :
  Manifest_Validate m = None ↔
  mf_Mode m ∈ ["declarative"; "wasm"] ∧ mf_RiskLevel m ∈ "" :: ValidRiskLevels.
Proof.
  unfold Manifest_Validate. generalize (mf_Mode m) as mode, (mf_RiskLevel m) as level. intros mode level.
  rewrite !elem_of_cons. destruct (String.eqb_spec mode "") as [->|]; [by split; [|intros [[|[|?%elem_of_nil]] _]]|].
  assert (mode = "declarative" ∨ mode = "wasm" ∨ mode ∈ [] ↔
    String.eqb mode "declarative" || String.eqb mode "wasm" = true) as ->.
  { rewrite orb_true_iff, !String.eqb_eq, elem_of_nil. tauto. }
  destruct (_ || _); simpl; [|by split; [|intros [? _]]].
  destruct (String.eqb_spec level "") as [->|Hl]; simpl; [by split; auto|].
  case_bool_decide; simpl; split; try done; [by auto|by intros [_ [?|?]]].
Qed.

(** the key-value store gives back the last value set under a key that has not been
    deleted since, and the error of a missing key otherwise. *)
Theorem key_value_store_laws kv key value key' :
  KVGet (KVSet kv key value) key = Ok value ∧
  KVGet (KVDelete kv key) key = Err ErrKeyNotFound ∧
  (key' ≠ key → KVGet (KVSet kv key value) key' = KVGet kv key' ∧ KVGet (KVDelete kv key) key' = KVGet kv key') ∧
  KVGet NewHostAPI key = Err ErrKeyNotFound.
Proof.
  unfold KVGet, KVSet, KVDelete, NewHostAPI.
  rewrite lookup_insert_eq, lookup_delete_eq, lookup_empty. split_and!; try done.
  intros Hne. by rewrite lookup_insert_ne, lookup_delete_ne.
Qed.

(** The body keeps what is left of a closing delimiter that is indented: the code
    skips three bytes from the start of the line. *)
Example indented_delimiter_leaks :
  ParseSkillMDContent (λ _, Ok ("n", "d"))
    ("---" +:+ nl +:+ "name: n" +:+ nl +:+ "  ---" +:+ nl +:+ "body")
  = Ok (mkSkillMD "n" "d" ("--" +:+ nl +:+ "body")).
Proof. vm_compute. reflexivity. Qed.

(* ------------------------------------------------------------------ *)
(** ** A written skill file is read back *)
(* ------------------------------------------------------------------ *)

Definition delimiter : string := "---".

(** A file with the frontmatter [f] and the body [b]. *)
Definition skill_file (f b : string) : string :=
  delimiter +:+ nl +:+ f +:+ nl +:+ delimiter +:+ nl +:+ b.

(** No line of the frontmatter looks like a delimiter. *)
Definition no_delimiter (f : string) : Prop := Forall (λ line, trim_space line ≠ delimiter) (split_on "010" f).

(** The offset at which the loop over the lines stops. *)
Definition lines_length (ls : list string) : nat := sum_list_with (λ l, slen l + 1) ls.

Lemma lines_length_split s : lines_length (split_on "010" s) = slen s + 1.
Proof.
  unfold lines_length. induction s as [|c s IH]; [done|]. cbn [split_on].
  destruct (Ascii.eqb "010" c); cbn [sum_list_with slen String.length] in *; [lia|].
  destruct (split_on "010" s) eqn:E; [by eapply split_on_nonempty in E|]. simpl in *. lia.
Qed.

Lemma frontmatter_end_at i offset ls line rest :
  0 < i → Forall (λ l, trim_space l ≠ delimiter) ls → trim_space line = delimiter →
  frontmatter_end i offset (ls ++ line :: rest) = Some (offset + lines_length ls).
Proof.
  intros Hi Hls Hline. revert i offset Hi. induction Hls as [|l ls Hl _ IH]; intros i offset Hi; simpl.
  - rewrite Hline. simpl. destruct (Nat.ltb_spec 0 i); [f_equal; lia|lia].
  - destruct (String.eqb_spec (trim_space l) "---") as [|_]; [done|]. simpl.
    destruct i as [|i]; [lia|]. simpl. rewrite IH by lia. f_equal. lia.
Qed.

(** Text between line breaks is trimmed like the text alone. *)
Lemma trim_space_lines f : trim_space (nl +:+ f +:+ nl) = trim_space f.
Proof.
  assert (Hl : trim_left_space (nl +:+ f +:+ nl) = trim_left_space (f +:+ nl)) by done.
  unfold trim_space. rewrite Hl. unfold trim_left_space at 1, nl.
  rewrite trim_left_go_app by (auto with go || lia).
  fold (trim_left_space f). destruct (String.eqb_spec (trim_left_space f) "") as [->|_]; [done|].
  unfold trim_right_space. by rewrite srev_app.
Qed.

(** What is left of the file once the ends are trimmed. *)
Definition after_delimiter (b : string) : string := if String.eqb b "" then "" else nl +:+ b.

Lemma skill_file_trimmed f b :
  trimmed b → trim_space (skill_file f b) = delimiter +:+ nl +:+ f +:+ nl +:+ delimiter +:+ after_delimiter b.
Proof.
  intros [_ Hb]%trimmed_ends. unfold trim_space, skill_file, after_delimiter.
  set (x := delimiter +:+ nl +:+ f +:+ nl +:+ delimiter).
  assert (Hf : delimiter +:+ nl +:+ f +:+ nl +:+ delimiter +:+ nl +:+ b = x +:+ String "010" b)
    by (unfold x; by rewrite !sapp_assoc).
  rewrite Hf. assert (trim_left_space (x +:+ String "010" b) = x +:+ String "010" b) as ->
    by (apply trim_left_go_id; reflexivity).
  rewrite trim_right_space_app, Hb by done. destruct (String.eqb_spec b "") as [->|_].
  - rewrite sapp_nil_r. unfold trim_right_space.
    assert (Hx : x = (delimiter +:+ nl +:+ f +:+ nl) +:+ "---") by (unfold x; by rewrite !sapp_assoc).
    clear Hf. clearbody x. subst x. rewrite !srev_app.
    set (r := (_ +:+ String.rev nl) +:+ _).
    change (trim_left_go _ 0 _) with (String.rev "---" +:+ r).
    unfold r. by rewrite <-!srev_app, srev_involutive, !sapp_assoc.
  - unfold x. by rewrite !sapp_assoc.
Qed.

Lemma after_delimiter_line b : ∃ ls, split_on "010" (delimiter +:+ after_delimiter b) = delimiter :: ls.
Proof.
  unfold after_delimiter. destruct (String.eqb b ""); [by eexists|].
  change (delimiter +:+ nl +:+ b) with (delimiter +:+ String "010" b).
  rewrite split_on_app by done. by eexists.
Qed.

Lemma findFrontmatterEnd_file f b :
  no_delimiter f →
  findFrontmatterEnd (nl +:+ f +:+ nl +:+ delimiter +:+ after_delimiter b) = Some (slen f + 2).
Proof.
  intros Hf. unfold findFrontmatterEnd.
  change (nl +:+ f +:+ nl +:+ delimiter +:+ after_delimiter b)
    with ("" +:+ String "010" (f +:+ String "010" (delimiter +:+ after_delimiter b))).
  rewrite !split_on_join. destruct (after_delimiter_line b) as [ls ->].
  change (frontmatter_end 1 1 (split_on "010" f ++ delimiter :: ls) = Some (slen f + 2)).
  rewrite frontmatter_end_at by (done || lia). rewrite lines_length_split. f_equal. lia.
Qed.

Lemma trim_space_after b : trimmed b → trim_space (after_delimiter b) = b.
Proof.
  intros Hb. unfold after_delimiter. destruct (String.eqb_spec b "") as [->|_]; [done|].
  change (trim_space (nl +:+ b)) with (trim_space b). done.
Qed.

(** *** Line endings *)

(** Every line feed written as [e]. *)
Definition line_feeds (e s : string) : string :=
  sflat_map (λ c, if Ascii.eqb "010" c then e else String c "") s.

Lemma has_prefix_line_feeds d e s w :
  ascii_byte d = true → sall (λ c, negb (ascii_byte c)) w = true →
  has_prefix (line_feeds (String d e) s) w = has_prefix s w.
Proof.
  intros Hd. revert w. induction s as [|c s IH]; intros [|b w] Hw; try done;
    [exact (eq_trans (has_prefix_app "" _) (eq_sym (has_prefix_app "" _)))|].
  simpl in Hw. bool_simp. unfold line_feeds. cbn beta iota delta [sflat_map].
  destruct (Ascii.eqb_spec "010" c) as [<-|Hc]; cbn [String.append]; rewrite !has_prefix_cons.
  - destruct (Ascii.eqb_spec b d) as [->|]; [congruence|]. by destruct (Ascii.eqb_spec b "010") as [->|].
  - by rewrite IH.
Qed.

Lemma space_len_line_feeds wide d e c s :
  high_spaces wide → ascii_byte d = true →
  space_len wide (String c (line_feeds (String d e) s)) = space_len wide (String c s).
Proof.
  intros Hw Hd. unfold space_len. destruct (ascii_space c) eqn:Hc; [done|].
  assert (∀ w, (sall (λ c, negb (ascii_byte c)) w = true) ∧ w ≠ "" →
    has_prefix (String c (line_feeds (String d e) s)) w = has_prefix (String c s) w) as Hp.
  { intros [|b w] [Hb ?]; [done|]. simpl in Hb. bool_simp. by rewrite !has_prefix_cons, has_prefix_line_feeds. }
  induction Hw as [|w wide Hh _ IH]; [done|]. simpl. rewrite Hp by done. case_decide; [done|].
  destruct (list_find _ wide) as [[]|], (list_find _ wide) as [[]|]; simpl in *; done.
Qed.

(** White space above ASCII has no line feed in it. *)
Lemma space_len_no_line_feed wide c s k :
  high_spaces wide → space_len wide (String c s) = S k → c ≠ "010"%char → has_byte "010" (stake k s) = false.
Proof.
  intros Hw Hk Hc. unfold space_len in Hk. destruct (ascii_space c); [by injection Hk as <-|].
  destruct (list_find _ wide) as [[i w]|] eqn:E; [|done]. apply list_find_Some in E as (Hi & Hp & _).
  pose proof (proj1 (Forall_forall _ _) Hw w (list_elem_of_lookup_2 _ _ _ Hi)) as [Hh _].
  apply has_prefix_spec in Hp as [t Ht]. destruct w as [|b w]; [done|]. injection Hk as <-.
  simpl in Ht. injection Ht as _ ->. rewrite stake_app. simpl in Hh. bool_simp. unfold has_byte.
  apply negb_false_iff. eapply sall_impl; [|eassumption]. intros x Hx.
  destruct (Ascii.eqb_spec "010" x) as [<-|]; [done|done].
Qed.

Lemma trim_left_line_feeds wide d d' k s :
  high_spaces wide → ascii_space d = true → ascii_space d' = true → ascii_byte d = true →
  has_byte "010" (stake k s) = false →
  trim_left_go wide k (line_feeds (String d (String d' "")) s)
    = line_feeds (String d (String d' "")) (trim_left_go wide k s).
Proof.
  intros Hw Hd Hd' Ha. revert k. induction s as [|c s IH]; intros k Hk; [by destruct k|].
  unfold line_feeds. cbn beta iota delta [sflat_map]. fold (line_feeds (String d (String d' "")) s).
  destruct k as [|k].
  - destruct (Ascii.eqb_spec "010" c) as [<-|Hc].
    + cbn [String.append trim_left_go]. unfold space_len. rewrite Hd. cbn [trim_left_go]. unfold space_len.
      rewrite Hd'. simpl. by apply IH.
    + cbn [String.append trim_left_go]. rewrite space_len_line_feeds by done.
      destruct (space_len wide (String c s)) as [|k] eqn:E.
      * unfold line_feeds. cbn beta iota delta [sflat_map]. by rewrite (proj2 (Ascii.eqb_neq _ _) Hc).
      * apply IH. by eapply space_len_no_line_feed.
  - cbn [stake] in Hk. rewrite has_byte_cons in Hk. apply orb_false_iff in Hk as [Hc Hk].
    change (Ascii.eqb "010" c) with (Ascii.eqb "010" c). rewrite Hc. cbn [String.append trim_left_go]. by apply IH.
Qed.

Lemma rev_line_feeds d d' s :
  String.rev (line_feeds (String d (String d' "")) s) = line_feeds (String d' (String d "")) (String.rev s).
Proof.
  induction s as [|c s IH]; [done|]. unfold line_feeds in *. cbn beta iota delta [sflat_map].
  change (String c s) with (String c "" +:+ s). rewrite !srev_app, sflat_map_app, IH.
  assert (sflat_map (λ c, if Ascii.eqb "010" c then String d' (String d "") else String c "") (String.rev (String c ""))
    = String.rev (if Ascii.eqb "010" c then String d (String d' "") else String c "")) as ->; [|done].
  change (String.rev (String c "")) with (String c ""). cbn beta iota delta [sflat_map].
  by destruct (Ascii.eqb "010" c).
Qed.

Definition with_crlf (s : string) : string := line_feeds crlf s.

Lemma trim_space_crlf s : trim_space (with_crlf s) = with_crlf (trim_space s).
Proof.
  unfold trim_space, with_crlf, trim_left_space, trim_right_space, crlf.
  rewrite trim_left_line_feeds by auto with go. rewrite rev_line_feeds, trim_left_line_feeds by auto with go.
  by rewrite rev_line_feeds.
Qed.

Lemma replace_crlf s : has_byte "013" s = false → replace_all (with_crlf s) crlf nl = s.
Proof.
  unfold replace_all, with_crlf, line_feeds. induction s as [|c s IH]; [done|]. rewrite has_byte_cons. intros Hc.
  apply orb_false_iff in Hc as [Hc Hs]. cbn beta iota delta [sflat_map].
  destruct (Ascii.eqb_spec "010" c) as [<-|Hn]; cbn [String.append].
  - set (t := sflat_map _ s) in *. clearbody t. specialize (IH Hs). unfold crlf in *. simpl.
    rewrite (has_prefix_app (String "013" (String "010" "")) t
      : has_prefix (String "013" (String "010" t)) _ = true). by rewrite IH.
  - cbn [replace_go]. set (t := sflat_map _ s) in *. clearbody t.
    change (has_prefix (String c t) crlf) with (has_prefix (String c t) (String "013" (String "010" ""))).
    rewrite has_prefix_cons, Hc. cbn [andb]. by rewrite IH.
Qed.

Section read_back.
Context (yaml_frontmatter : string → result error (string * string)).
Notation parse := (ParseSkillMDContent yaml_frontmatter).

Lemma parse_crlf data : has_byte "013" data = false → parse (with_crlf data) = parse data.
Proof.
  intros Hd%has_byte_trim_space. unfold ParseSkillMDContent. rewrite trim_space_crlf, replace_crlf by done.
  assert (replace_all (trim_space data) crlf nl = trim_space data) as ->; [|done].
  apply replace_go_absent, not_true_is_false. intros (a & c & Hs)%contains_spec.
  rewrite Hs, !has_byte_app in Hd. by rewrite orb_true_r in Hd.
Qed.

(** C31: A SKILL.md file written as a delimiter line, frontmatter of which no line
    is a delimiter, a delimiter line and a body without white space at its ends is
    read back: the body is the one written and the name and the description are
    those of the frontmatter, without white space at their ends, or the file is
    rejected because the frontmatter is. Writing its lines, or those of any text
    without carriage returns, with carriage returns makes no difference. *)
Theorem skill_file_is_read_back f b :
  no_delimiter f → trimmed b → contains (skill_file f b) crlf = false →
  parse (skill_file f b) =
    match (if String.eqb (trim_space f) "" then Ok ("", "") else yaml_frontmatter (trim_space f)) with
    | Ok (name, description) => Ok (mkSkillMD (trim_space name) (trim_space description) b)
    | Err err => Err (EFmt "SKILL.md: invalid frontmatter YAML: %w" [FW err])
    end ∧
  ∀ data, has_byte "013" data = false → parse (with_crlf data) = parse data.
Proof.
  intros Hf Hb Hc. split; [|by apply parse_crlf]. unfold ParseSkillMDContent. rewrite skill_file_trimmed by done.
  unfold replace_all. rewrite replace_go_absent.
  2:{ unfold skill_file, after_delimiter in *. destruct (String.eqb_spec b "") as [->|]; [|done].
      rewrite sapp_nil_r. apply (contains_prefix _ nl). by rewrite !sapp_assoc in *. }
  set (rest := nl +:+ f +:+ nl +:+ delimiter +:+ after_delimiter b).
  change (delimiter +:+ rest) with ("---" +:+ rest). rewrite has_prefix_app.
  change (sdrop 3 ("---" +:+ rest)) with rest. change (has_prefix rest "-") with false.
  change (String.eqb ("---" +:+ rest) "") with false. cbn match. cbn [negb orb].
  unfold rest. rewrite findFrontmatterEnd_file by done. cbv zeta.
  set (front := nl +:+ f +:+ nl).
  assert (Hr : nl +:+ f +:+ nl +:+ delimiter +:+ after_delimiter b
               = (front +:+ delimiter) +:+ after_delimiter b) by (unfold front; by rewrite !sapp_assoc).
  assert (Hl : slen front = slen f + 2) by (unfold front; rewrite !slen_app; simpl; lia).
  assert (Hs : stake (slen f + 2) (nl +:+ f +:+ nl +:+ delimiter +:+ after_delimiter b) = front)
    by (rewrite Hr, sapp_assoc, <-Hl; apply stake_app).
  assert (Hd : sdrop (slen f + 2 + 3) (nl +:+ f +:+ nl +:+ delimiter +:+ after_delimiter b) = after_delimiter b)
    by (rewrite Hr; replace (slen f + 2 + 3) with (slen (front +:+ delimiter)) by (rewrite slen_app, Hl; done);
        apply sdrop_app).
  rewrite Hs, Hd, trim_space_after by done. unfold front. rewrite trim_space_lines.
  destruct (trim_space f); [done|]. done.
Qed.
End read_back.

Definition summarize_front : string := "name: summarize" +:+ nl +:+ "description: |" +:+ nl +:+ "  Short --- and true".

Lemma skill_file_is_read_back_witness :
  let parse := ParseSkillMDContent (λ _, Ok ("summarize", "Short --- and true" +:+ nl)) in
  parse (skill_file summarize_front "# Steps") = Ok (mkSkillMD "summarize" "Short --- and true" "# Steps") ∧
  parse (with_crlf (skill_file summarize_front "# Steps")) = parse (skill_file summarize_front "# Steps").
Proof.
  destruct (skill_file_is_read_back (λ _, Ok ("summarize", "Short --- and true" +:+ nl)) summarize_front
    "# Steps") as [Hl Hc].
  - unfold no_delimiter. apply (bool_decide_unpack _). vm_compute. exact I.
  - by vm_compute.
  - by vm_compute.
  - split; [exact Hl|]. by apply Hc.
Defined.

(* ------------------------------------------------------------------ *)
(** ** The identifier of a skill *)
(* ------------------------------------------------------------------ *)

(** A file name that stands for itself. *)
Definition plain (p : string) : Prop := has_byte "/" p = false ∧ p ≠ "" ∧ p ≠ "." ∧ p ≠ "..".

(** A name, alone or in a directory. *)
Definition in_dir (dir : option string) (p : string) : string :=
  match dir with Some d => d +:+ String "/" p | None => p end.

Lemma trim_right_slashes d p s :
  plain p → sall (Ascii.eqb "/") s = true → trim_right_byte "/" (in_dir d p +:+ s) = in_dir d p.
Proof.
  intros (Hp & Hne & _) Hs.
  pose proof (trim_right_byte_only _ _ Hs) as Ht.
  assert (Hid : trim_right_byte "/" p = p) by by apply trim_right_byte_id.
  rewrite trim_right_byte_app, Ht. destruct d as [d|]; [|done]. simpl.
  change (d +:+ String "/" p) with (d +:+ "/" +:+ p).
  assert (Ha : d +:+ "/" +:+ p = (d +:+ "/") +:+ p) by by rewrite sapp_assoc.
  rewrite Ha, trim_right_byte_app, Hid. by destruct (String.eqb_spec p "").
Qed.

Lemma last_index_in_dir d p :
  has_byte "/" p = false →
  last_index_of "/" (in_dir d p) = match d with Some d => Some (slen d) | None => None end.
Proof. intros Hp. destruct d as [d|]; [by apply last_index_of_app|by apply last_index_no_byte]. Qed.

Lemma Base_in_dir d p : plain p → Base (in_dir d p) = p.
Proof.
  intros Hp. pose proof Hp as (Hb & Hne & _). unfold Base.
  destruct (String.eqb_spec (in_dir d p) "") as [E|_].
  { by destruct d as [[|]|], p. }
  pose proof (trim_right_slashes d p "" Hp eq_refl) as Ht. rewrite sapp_nil_r in Ht.
  rewrite Ht, last_index_in_dir by done. cbv zeta. destruct d as [d|]; cbn [in_dir].
  - change (d +:+ String "/" p) with (d +:+ "/" +:+ p). rewrite <-sapp_assoc.
    replace (slen d + 1) with (slen (d +:+ "/")) by (rewrite slen_app; done). rewrite sdrop_app.
    by destruct (String.eqb_spec p "").
  - by destruct (String.eqb_spec p "").
Qed.

(** Cleaning leaves the last name where it is. *)
Lemma Clean_in_dir d p : plain p → ∃ d', Clean (in_dir d p +:+ "/") = in_dir d' p.
Proof.
  intros (Hb & Hne & Hdot & Hdots). unfold Clean. set (rooted := has_prefix _ "/").
  assert (∃ ls, split_on "/" (in_dir d p +:+ "/") = ls ++ [p; ""]) as [ls ->].
  { destruct d as [d|]; cbn [in_dir].
    - exists (split_on "/" d). rewrite sapp_assoc. cbn [String.append].
      change (String "/" (p +:+ "/")) with (String "/" (p +:+ String "/" "")).
      by rewrite split_on_join, split_on_app.
    - exists []. by rewrite split_on_app. }
  rewrite foldl_app. set (out := foldl _ [] ls). simpl.
  assert (clean_elem rooted out p = p :: out) as ->.
  { unfold clean_elem. apply String.eqb_neq in Hne as ->. apply String.eqb_neq in Hdot as ->.
    by apply String.eqb_neq in Hdots as ->. }
  unfold clean_elem. simpl. rewrite reverse_cons, join_snoc. set (front := if rooted then "/" else "").
  destruct (reverse out) as [|x l].
  - exists (if rooted then Some "" else None). unfold front. destruct rooted; simpl; [done|].
    by destruct (String.eqb_spec p "").
  - exists (Some (front +:+ join "/" (x :: l))). cbn [in_dir]. rewrite <-sapp_assoc.
    change (String "/" p) with ("/" +:+ p).
    destruct (String.eqb_spec ((front +:+ join "/" (x :: l)) +:+ "/" +:+ p) "") as [E|]; [|done].
    apply (f_equal slen) in E. rewrite !slen_app in E. simpl in E. lia.
Qed.

Lemma Dir_in_dir d p :
  has_byte "/" p = false →
  Dir (in_dir d p) = Clean match d with Some d => d +:+ "/" | None => "" end.
Proof.
  intros Hp. unfold Dir. rewrite last_index_in_dir by done. destruct d as [d|]; [|done]. cbn [in_dir].
  change (d +:+ String "/" p) with (d +:+ "/" +:+ p). rewrite <-sapp_assoc.
  replace (slen d + 1) with (slen (d +:+ "/")) by (rewrite slen_app; done). by rewrite stake_app.
Qed.

Lemma DeriveSkillID_in_dir d p s :
  plain p → sall (Ascii.eqb "/") s = true →
  DeriveSkillID (in_dir d p +:+ s) =
    let parent := Base (Clean match d with Some d => d +:+ "/" | None => "" end) in
    if String.eqb parent "skills" || String.eqb parent "." || String.eqb parent "" then p
    else parent +:+ "/" +:+ p.
Proof.
  intros Hp Hs. unfold DeriveSkillID. rewrite trim_right_slashes by done.
  rewrite Dir_in_dir by apply Hp. rewrite Base_in_dir by done. cbv zeta.
  destruct (String.eqb_spec (in_dir d p) "") as [E|]; [|done].
  destruct Hp as (_ & Hne & _). by destruct d as [[|]|], p.
Qed.

(** For a directory whose last two elements are names, wherever it lies and
    however many slashes end it, the identifier is the two names, or the last one
    alone under a directory named skills; a path that is a single name gives that
    name, and a directory of the root gets two slashes before its name. *)
Theorem skill_id_is_the_last_two_names dir parent name slashes :
  plain parent → plain name → sall (Ascii.eqb "/") slashes = true →
  DeriveSkillID (in_dir dir parent +:+ "/" +:+ name +:+ slashes)
    = (if String.eqb parent "skills" then name else parent +:+ "/" +:+ name) ∧
  DeriveSkillID (name +:+ slashes) = name ∧
  DeriveSkillID ("/" +:+ name +:+ slashes) = "//" +:+ name ∧
  DeriveSkillID slashes = "".
Proof.
  intros Hparent Hname Hs. repeat split.
  - pose proof (DeriveSkillID_in_dir (Some (in_dir dir parent)) name slashes Hname Hs) as Hd.
    cbn [in_dir] in Hd. rewrite sapp_assoc in Hd. cbn [String.append] in *. rewrite Hd.
    destruct (Clean_in_dir dir parent Hparent) as [d' Hc]. cbn [in_dir] in Hc. rewrite Hc.
    rewrite Base_in_dir by done. cbv zeta. destruct Hparent as (_ & Hne & Hdot & _).
    apply String.eqb_neq in Hne as ->. apply String.eqb_neq in Hdot as ->. by rewrite !orb_false_r.
  - exact (DeriveSkillID_in_dir None name slashes Hname Hs).
  - exact (DeriveSkillID_in_dir (Some "") name slashes Hname Hs).
  - unfold DeriveSkillID. by rewrite trim_right_byte_only.
Qed.

Lemma skill_id_is_the_last_two_names_witness :
  DeriveSkillID "/opt/skills/core/summarize/" = "core/summarize" ∧ DeriveSkillID "/summarize" = "//summarize".
Proof.
  destruct (skill_id_is_the_last_two_names (Some "/opt/skills") "core" "summarize" "/") as (H1 & _ & _ & _);
    [by repeat split..|].
  destruct (skill_id_is_the_last_two_names None "skills" "summarize" "") as (_ & _ & H2 & _); [by repeat split..|].
  split; [exact H1|exact H2].
Defined.
