(* ===== verification/AuditTrail.v ===== *)
(** Audit events ([src/audit]): the event, its delivery to subscribers and its
    normalised envelope. *)
From S2P Require Export GoValue.

(* ------------------------------------------------------------------ *)
(** ** Events and envelopes (event.go, envelope.go) *)
(* ------------------------------------------------------------------ *)

Record AuditEvent := mkAuditEvent {
  ae_ID : string;
  ae_TenantID : string;
  ae_UserID : string;
  ae_RequestID : string;
  ae_Action : string;
  ae_Resource : string;
  ae_Outcome : string;
  ae_Duration : Z;
  ae_Metadata : gmap string string;
  ae_Timestamp : Z;
  ae_ActorID : string;
  ae_Source : string;
  ae_StepID : string;
  ae_StepName : string;
  ae_StepType : string;
  ae_Status : string;
  ae_ToolInput : gmap string any;
  ae_ToolOutput : any;
  ae_Error : string;
  ae_TraceID : string
}.

Definition EventStepStarted : string := "execution.step.started".
Definition EventStepCompleted : string := "execution.step.completed".
Definition EventStepFailed : string := "execution.step.failed".
Definition EventReasoningTurn : string := "execution.reasoning.turn".
Definition EventPolicyAllowed : string := "policy.allowed".
Definition EventPolicyDenied : string := "policy.denied".
Definition EventAdminProviderCreated : string := "admin.provider.created".
Definition EventAdminProviderUpdated : string := "admin.provider.updated".
Definition EventAdminKeyCreated : string := "admin.key.created".
Definition EventAdminKeyDeleted : string := "admin.key.deleted".
Definition EventAdminSkillDisabled : string := "admin.skill.disabled".
Definition EventAdminSkillEnabled : string := "admin.skill.enabled".
Definition EventAdminSkillReloaded : string := "admin.skill.reloaded".
Definition EventSystemStarted : string := "system.started".
Definition EventSystemStopped : string := "system.stopped".
Definition EventSystemDegraded : string := "system.degraded".
Definition EventPlanReplanned : string := "execution.plan.replanned".

Definition SeverityInfo : string := "info".
Definition SeverityWarn : string := "warn".
Definition SeverityError : string := "error".

Definition SourceExecutor : string := "executor".
Definition SourcePolicy : string := "policy".
Definition SourceAdmin : string := "admin_api".
Definition SourceReasoning : string := "reasoning_loop".

Definition str_is (s t : string) : bool := String.eqb s t.
Definition str_isnt (s t : string) : bool := negb (String.eqb s t).

(** The function after its [switch] has fallen through. *)
Definition inferEventType_rest (e : AuditEvent) : string :=
  if str_is (ae_Status e) "failed" || str_isnt (ae_Error e) "" then EventStepFailed
  else if str_isnt (ae_StepID e) "" then EventStepCompleted
  else EventStepCompleted.

Definition inferEventType (e : AuditEvent) : string :=
  if str_isnt (ae_Action e) "" then
    if str_is (ae_Action e) "harness.replan" then EventPlanReplanned
    else if str_is (ae_Action e) "policy.enforce" || str_is (ae_Action e) "policy.check" then
      if str_is (ae_Outcome e) "denied" then EventPolicyDenied else EventPolicyAllowed
    else if str_isnt (ae_StepID e) "" && str_is (ae_Status e) "started" then EventStepStarted
    else if str_isnt (ae_StepID e) "" && str_is (ae_Status e) "completed" then EventStepCompleted
    else if str_isnt (ae_StepID e) "" && str_is (ae_Status e) "failed" then EventStepFailed
    else inferEventType_rest e
  else inferEventType_rest e.

Definition inferSeverity (e : AuditEvent) : string :=
  if str_is (ae_Status e) "failed" || str_isnt (ae_Error e) "" || str_is (ae_Outcome e) "failure"
     || str_is (ae_Outcome e) "timeout" then SeverityError
  else if str_is (ae_Outcome e) "denied" then SeverityWarn
  else SeverityInfo.

Definition inferSource (e : AuditEvent) : string :=
  if str_is (ae_ActorID e) "admin" || str_is (ae_Action e) "admin" then SourceAdmin
  else if str_is (ae_Action e) "policy.enforce" || str_is (ae_Action e) "policy.check" then SourcePolicy
  else if str_is (ae_StepType e) "llm" then SourceReasoning
  else if str_isnt (ae_StepID e) "" || str_isnt (ae_StepName e) "" then SourceExecutor
  else SourceExecutor.

Definition resolveSource (e : AuditEvent) : string :=
  if str_isnt (ae_Source e) "" then ae_Source e else inferSource e.

Record AuditEnvelope := mkAuditEnvelope {
  env_EventID : string;
  env_TraceID : string;
  env_Timestamp : Z;
  env_TenantID : string;
  env_UserID : string;
  env_ExecutionID : string;
  env_SessionID : string;
  env_StepID : string;
  env_StepName : string;
  env_EventType : string;
  env_Severity : string;
  env_Source : string;
  env_Action : string;
  env_Resource : string;
  env_Outcome : string;
  env_DurationMs : Z;
  env_Error : string;
  env_Metadata : gmap string string;
  env_Payload : option string
}.

Definition is_nil (v : any) : bool := match v with ANil => true | _ => false end.

(** The payload map: [None] when there is nothing to put in it. *)
Definition payload_of (e : AuditEvent) : option any :=
  if (0 <? size (ae_ToolInput e)) || negb (is_nil (ae_ToolOutput e)) then
    Some (AMap
      ((if 0 <? size (ae_ToolInput e)
        then [("tool_input", AMap (map_to_list (ae_ToolInput e)))] else []) ++
       (if negb (is_nil (ae_ToolOutput e)) then [("tool_output", ae_ToolOutput e)] else [])))
  else None.

(** [Duration.Milliseconds] truncates toward zero. *)
Definition ToEnvelope (e : AuditEvent) : AuditEnvelope :=
  mkAuditEnvelope (ae_ID e) (ae_TraceID e) (ae_Timestamp e) (ae_TenantID e) (ae_UserID e)
    (ae_RequestID e) (default "" (ae_Metadata e !! "session_id")) (ae_StepID e) (ae_StepName e)
    (inferEventType e) (inferSeverity e) (resolveSource e) (ae_Action e) (ae_Resource e)
    (ae_Outcome e) (Z.quot (ae_Duration e) 1000000) (ae_Error e) (ae_Metadata e)
    (payload_of e ≫= json_marshal).

(* ------------------------------------------------------------------ *)
(** ** Delivery (emitter.go) *)
(* ------------------------------------------------------------------ *)

Definition set_ID (id : string) (e : AuditEvent) : AuditEvent :=
  mkAuditEvent id (ae_TenantID e) (ae_UserID e) (ae_RequestID e) (ae_Action e) (ae_Resource e)
    (ae_Outcome e) (ae_Duration e) (ae_Metadata e) (ae_Timestamp e) (ae_ActorID e) (ae_Source e)
    (ae_StepID e) (ae_StepName e) (ae_StepType e) (ae_Status e) (ae_ToolInput e) (ae_ToolOutput e)
    (ae_Error e) (ae_TraceID e).

(** How a call to a subscriber ends; the emitter ignores it. *)
Inductive delivery := Delivered | SubscriberError (e : error) | SubscriberPanic.

Section emitter.
(** A subscriber acts on the world around the emitter. *)
Context {W : Type}.

Record AuditSubscriber := mkSubscriber {
  sub_ID : string;
  OnEvent : AuditEvent → W → W * delivery
}.

Variable uuid : nat → string.

Definition NewEmitter : gmap string AuditSubscriber := ∅.

(** [ctx] tells whether the context is non-nil; [n] counts the identifiers handed
    out. *)
Definition Emit `{MapRange} (subscribers : gmap string AuditSubscriber) (ctx : bool)
    (event : AuditEvent) (n : nat) (w : W) : W * nat * option error :=
  if negb ctx then (w, n, Some (EFmt "audit: context is required" []))
  else
    let '(event, n) := if String.eqb (ae_ID event) "" then (set_ID (uuid n) event, S n)
                       else (event, n) in
    (foldl (λ w s, (OnEvent s event w).1) w (range_values subscribers), n, None).

(** [None] is the nil subscriber. *)
Definition Subscribe (s : option AuditSubscriber) (subscribers : gmap string AuditSubscriber) :
    gmap string AuditSubscriber * option error :=
  match s with
  | None => (subscribers, Some (EFmt "audit: subscriber is required" []))
  | Some s =>
      match subscribers !! sub_ID s with
      | Some _ => (subscribers, Some (EFmt "audit: subscriber %s already registered" [FS (sub_ID s)]))
      | None => (<[sub_ID s := s]> subscribers, None)
      end
  end.

Definition Unsubscribe (id : string) (subscribers : gmap string AuditSubscriber) :
    gmap string AuditSubscriber * option error :=
  if String.eqb id "" then (subscribers, Some (EFmt "audit: subscriber ID is required" []))
  else
    match subscribers !! id with
    | None => (subscribers, Some (EFmt "audit: subscriber %s not found" [FS id]))
    | Some _ => (delete id subscribers, None)
    end.

Definition Subscribers (subscribers : gmap string AuditSubscriber) : nat := size subscribers.
End emitter.
Arguments AuditSubscriber : clear implicits.

(* ------------------------------------------------------------------ *)
(** ** Theorems *)
(* ------------------------------------------------------------------ *)

Definition inferable : list string :=
  [EventPlanReplanned; EventPolicyDenied; EventPolicyAllowed; EventStepStarted;
   EventStepCompleted; EventStepFailed].

Lemma inferEventType_inferable e : inferEventType e ∈ inferable.
Proof.
  unfold inferEventType, inferEventType_rest, inferable.
  repeat match goal with |- context [if ?b then _ else _] => destruct b end; set_solver.
Qed.

Lemma inferSeverity_error e :
  inferSeverity e = SeverityError ↔
  ae_Status e = "failed" ∨ ae_Error e ≠ "" ∨ ae_Outcome e = "failure" ∨ ae_Outcome e = "timeout".
Proof.
  unfold inferSeverity, str_is, str_isnt.
  destruct (String.eqb_spec (ae_Status e) "failed"), (String.eqb_spec (ae_Error e) ""),
    (String.eqb_spec (ae_Outcome e) "failure"), (String.eqb_spec (ae_Outcome e) "timeout"),
    (String.eqb (ae_Outcome e) "denied"); cbn; split; intros; try tauto; done.
Qed.

Lemma elem_of_map_fst_perm {V} `{MapRange} (m : gmap string V) : range_values m ≡ₚ (map_to_list m).*2.
Proof. unfold range_values. by rewrite range_perm. Qed.

(** A subscriber that writes down its ID and the event, however the call ends. *)
Definition recorder (id : string) (how : AuditEvent → delivery) :
    AuditSubscriber (list (string * AuditEvent)) :=
  mkSubscriber id (λ e w, (w ++ [(id, e)], how e)).

Lemma deliver_all {V} (f : V → list (string * AuditEvent) → list (string * AuditEvent))
    (g : V → string * AuditEvent) l w :
  (∀ s w, s ∈ l → f s w = w ++ [g s]) → foldl (λ w s, f s w) w l = w ++ map g l.
Proof.
  revert w. induction l as [|s l IH]; intros w Hf; simpl; [by rewrite app_nil_r|].
  rewrite Hf by set_solver. rewrite IH by (intros; apply Hf; set_solver). by rewrite <-app_assoc.
Qed.

(* ------------------------------------------------------------------ *)
(** ** Properties *)
(* ------------------------------------------------------------------ *)

(** an emitted event reaches every subscriber exactly once, with the same
    identifier, whatever errors or panics the deliveries end in and in whatever
    order the run time visits them; the emitter reports no error. *)
Theorem every_subscriber_gets_the_event `{MapRange} uuid how
    (subs : gmap string (AuditSubscriber (list (string * AuditEvent)))) event n w :
  (∀ id s, subs !! id = Some s → s = recorder id (how id)) →
  let '(w', n', err) := Emit uuid subs true event n w in
  let id := if String.eqb (ae_ID event) "" then uuid n else ae_ID event in
  err = None ∧ w' ≡ₚ w ++ map (λ k, (k, set_ID id event)) (map_to_list subs).*1.
Proof.
  intros Hsubs. unfold Emit. cbn [negb].
  assert (Hid : ∃ n', (if String.eqb (ae_ID event) "" then (set_ID (uuid n) event, S n) else (event, n))
            = (set_ID (if String.eqb (ae_ID event) "" then uuid n else ae_ID event) event, n')).
  { destruct (String.eqb (ae_ID event) ""); [by eexists|]. exists n. by destruct event. }
  destruct Hid as [n' ->]. set (ev := set_ID _ event).
  split; [done|].
  rewrite (deliver_all (λ s w, (OnEvent s ev w).1) (λ s, (sub_ID s, ev))).
  - apply Permutation_app_head. unfold range_values. rewrite range_perm.
    assert (Hall : ∀ kv, kv ∈ map_to_list subs → sub_ID kv.2 = kv.1).
    { intros [k s] Hks%elem_of_map_to_list. by rewrite (Hsubs k s Hks). }
    revert Hall. induction (map_to_list subs) as [|[k s] l IH]; [done|].
    intros Hall. csimpl. f_equiv.
    + pose proof (Hall (k, s)) as Hk. simpl in Hk. by rewrite Hk by set_solver.
    + apply IH. intros kv Hkv. apply Hall. set_solver.
  - intros s w0 Hs. apply elem_of_range_values in Hs as [k Hk]. by rewrite (Hsubs k s Hk).
Qed.

Definition blank_event : AuditEvent :=
  mkAuditEvent "" "" "" "" "" "" "" 0 ∅ 0 "" "" "" "" "" "" ∅ ANil "" "".

Lemma every_subscriber_gets_the_event_witness :
  ∃ w', (@Emit _ (λ _, "u0") range_rev
           {[ "a" := recorder "a" (λ _, SubscriberPanic); "b" := recorder "b" (λ _, SubscriberPanic) ]}
           true blank_event 0 []).1.1 = w' ∧
        w' ≡ₚ map (λ k, (k, set_ID "u0" blank_event)) ["a"; "b"].
Proof.
  eexists. split; [reflexivity|].
  set (subs := {[ "a" := recorder "a" (λ _, SubscriberPanic); "b" := recorder "b" (λ _, SubscriberPanic) ]}
       : gmap string (AuditSubscriber (list (string * AuditEvent)))).
  assert (Hsubs : ∀ id s, subs !! id = Some s → s = recorder id (λ _, SubscriberPanic)).
  { intros id s [[<- <-]|[_ Hs]]%lookup_insert_Some; [reflexivity|].
    apply lookup_singleton_Some in Hs as [<- <-]. reflexivity. }
  pose proof (@every_subscriber_gets_the_event range_rev (λ _, "u0") (λ _ _, SubscriberPanic)
    subs blank_event 0 [] Hsubs) as H.
  destruct (@Emit _ (λ _, "u0") range_rev subs true blank_event 0 []) as [[w' n'] err].
  destruct H as [_ H]. etransitivity; [exact H|].
  assert (Hk : (map_to_list subs).*1 ≡ₚ ["a"; "b"]).
  { unfold subs. rewrite map_to_list_insert by (vm_compute; reflexivity).
    rewrite map_to_list_singleton. reflexivity. }
  simpl. by rewrite Hk.
Defined.

(** the envelope classifies every event as one of six execution and policy
    types, so no administrative, system or reasoning type is ever inferred; the
    severity is error exactly for a failed status, an error message, a failure
    or a timeout; an explicit source is kept; and a policy check is denied
    exactly when its outcome says so. *)
Theorem envelope_classification e :
  env_EventType (ToEnvelope e) ∈ inferable ∧
  (env_Severity (ToEnvelope e) = SeverityError ↔
   ae_Status e = "failed" ∨ ae_Error e ≠ "" ∨ ae_Outcome e = "failure" ∨ ae_Outcome e = "timeout") ∧
  (ae_Source e ≠ "" → env_Source (ToEnvelope e) = ae_Source e) ∧
  (ae_Action e = "policy.enforce" ∨ ae_Action e = "policy.check" →
   env_EventType (ToEnvelope e)
   = if String.eqb (ae_Outcome e) "denied" then EventPolicyDenied else EventPolicyAllowed).
Proof.
  split_and!; simpl.
  - apply inferEventType_inferable.
  - apply inferSeverity_error.
  - intros Hs. unfold resolveSource, str_isnt. by rewrite (proj2 (String.eqb_neq _ _) Hs).
  - intros [Ha|Ha]; unfold inferEventType; rewrite Ha; done.
Qed.

(** A step event without an action is reported as completed when it starts. *)
Example started_without_action_is_completed id :
  id ≠ "" →
  inferEventType (mkAuditEvent "" "" "" "" "" "" "" 0 ∅ 0 "" "" id "" "" "started" ∅ ANil "" "")
  = EventStepCompleted.
Proof. intros Hid. unfold inferEventType, inferEventType_rest, str_isnt. simpl. by destruct (String.eqb id ""). Qed.
