(* ===== verification/Mcp.v ===== *)
(** The MCP server ([src/mcp]): the dispatch of JSON-RPC requests over a tool
    provider, and the authentication settings of a client connection. *)
From S2P Require Export Wire.

(* ------------------------------------------------------------------ *)
(** ** Messages (types.go) *)
(* ------------------------------------------------------------------ *)

Record JSONRPCRequest := mkJSONRPCRequest {
  rq_JSONRPC : string;
  rq_ID : any;
  rq_Method : string;
  rq_Params : any
}.

Record JSONRPCNotification := mkJSONRPCNotification {
  nt_JSONRPC : string;
  nt_Method : string;
  nt_Params : any
}.

Record JSONRPCError := mkJSONRPCError { je_Code : Z; je_Message : string; je_Data : any }.

Definition ErrCodeParseError : Z := -32700.
Definition ErrCodeInvalidRequest : Z := -32600.
Definition ErrCodeMethodNotFound : Z := -32601.
Definition ErrCodeInvalidParams : Z := -32602.
Definition ErrCodeInternalError : Z := -32603.

(** [InputSchema] tells a nil map from an empty one. *)
Record Tool := mkTool {
  tool_Name : string;
  tool_Description : string;
  tool_InputSchema : option any
}.

Record ToolListResult := mkToolListResult { tlr_Tools : slice Tool; tlr_NextCursor : string }.

Record Annotation := mkAnnotation { an_Audience : list string; an_Priority : float64 }.
Record ContentItem := mkContentItem {
  ci_Type : string;
  ci_Text : string;
  ci_Data : string;
  ci_MimeType : string;
  ci_URI : string;
  ci_Annotations : option Annotation
}.
(** [ErrText] is a text item that holds [err.Error()]. *)
Inductive item := Item (c : ContentItem) | ErrText (e : error).

Record ToolCallResult := mkToolCallResult { tcr_Content : slice item; tcr_IsError : bool }.

Record ToolCallParams := mkToolCallParams {
  tcp_Name : string;
  tcp_Arguments : option any
}.

(** The [Result any] of a response, by what the handlers put there: nothing, a
    generic map, a tool list, or the pointer a tool call returned. *)
Inductive rpc_result :=
| NoResult
| ResultMap (v : any)
| ResultTools (r : ToolListResult)
| ResultCall (r : option ToolCallResult).

Record JSONRPCResponse := mkJSONRPCResponse {
  rs_JSONRPC : string;
  rs_ID : any;
  rs_Result : rpc_result;
  rs_Error : option JSONRPCError
}.

(* ------------------------------------------------------------------ *)
(** ** The server (server.go) *)
(* ------------------------------------------------------------------ *)

(** A tool provider: the slice behind [ListTools], nil or not, whether it hands
    out that slice itself or a copy, and [CallTool]. *)
Record ToolProvider := mkToolProvider {
  tp_Tools : option (list Tool);
  tp_Shares : bool;
  tp_CallTool : string → any → result error (option ToolCallResult)
}.

Definition handleInitialize (req : JSONRPCRequest) : JSONRPCResponse :=
  mkJSONRPCResponse "2.0" (rq_ID req)
    (ResultMap (AMap
       [("protocolVersion", AString "2024-11-05");
        ("capabilities", AMap [("tools", AMap [])]);
        ("serverInfo", AMap [("name", AString "openbotstack"); ("version", AString "1.0.0")])]))
    None.

Definition default_schema : any := AMap [("type", AString "object")].

(** One round of the loop that fills in missing schemas. *)
Definition fill_schema (t : Tool) : Tool :=
  match tool_InputSchema t with
  | None => mkTool (tool_Name t) (tool_Description t) (Some default_schema)
  | Some _ => t
  end.

(** The loop writes into the slice it was given, so a provider that shares its
    slice is changed. *)
Definition handleToolsList (p : ToolProvider) (req : JSONRPCRequest) : ToolProvider * JSONRPCResponse :=
  let tools := map fill_schema (default [] (tp_Tools p)) in
  let p' := match tp_Tools p with
            | Some _ => if tp_Shares p then mkToolProvider (Some tools) true (tp_CallTool p) else p
            | None => p
            end in
  (p', mkJSONRPCResponse "2.0" (rq_ID req) (ResultTools (mkToolListResult (SliceOf tools) "")) None).

Definition invalid_params (req : JSONRPCRequest) (msg : string) : JSONRPCResponse :=
  mkJSONRPCResponse "2.0" (rq_ID req) NoResult (Some (mkJSONRPCError ErrCodeInvalidParams msg ANil)).

Section server.
(** [json.Unmarshal] into [ToolCallParams]. *)
Variable decode_params : string → result error ToolCallParams.

Definition handleToolsCall (p : ToolProvider) (req : JSONRPCRequest) : JSONRPCResponse :=
  match json_marshal (rq_Params req) with
  | None => invalid_params req "invalid params"
  | Some paramsBytes =>
      match decode_params paramsBytes with
      | Err _ => invalid_params req "invalid params format"
      | Ok params =>
          if String.eqb (tcp_Name params) "" then invalid_params req "tool name is required"
          else
            let args := default (AMap []) (tcp_Arguments params) in
            match tp_CallTool p (tcp_Name params) args with
            | Err err =>
                mkJSONRPCResponse "2.0" (rq_ID req)
                  (ResultCall (Some (mkToolCallResult (SliceOf [ErrText err]) true))) None
            | Ok result => mkJSONRPCResponse "2.0" (rq_ID req) (ResultCall result) None
            end
      end
  end.

Definition HandleRequest (p : ToolProvider) (req : JSONRPCRequest) : ToolProvider * JSONRPCResponse :=
  if String.eqb (rq_Method req) "initialize" then (p, handleInitialize req)
  else if String.eqb (rq_Method req) "tools/list" then handleToolsList p req
  else if String.eqb (rq_Method req) "tools/call" then (p, handleToolsCall p req)
  else (p, mkJSONRPCResponse "2.0" (rq_ID req) NoResult
             (Some (mkJSONRPCError ErrCodeMethodNotFound "method not found" ANil))).
End server.

(** [HandleNotification] does nothing. *)
Definition HandleNotification (p : ToolProvider) (notif : JSONRPCNotification) : ToolProvider := p.

(* ------------------------------------------------------------------ *)
(** ** Client authentication (types.go) *)
(* ------------------------------------------------------------------ *)

Record ServerAuth := mkServerAuth {
  sa_Type : string;
  sa_Token : string;
  sa_Header : string;
  sa_Headers : gmap string string;
  sa_EnvAuth : gmap string string
}.

(** nil and the empty map are told apart: [None] is nil. *)
Definition HTTPHeaders `{MapRange} (a : option ServerAuth) : option (gmap string string) :=
  match a with
  | None => None
  | Some a =>
      if String.eqb (sa_Type a) "none" || String.eqb (sa_Type a) "" then None
      else if String.eqb (sa_Type a) "bearer" then
        Some (if negb (String.eqb (sa_Token a) "")
              then {[ "Authorization" := "Bearer " +:+ sa_Token a ]} else ∅)
      else if String.eqb (sa_Type a) "api_key" then
        let h := if String.eqb (sa_Header a) "" then "X-API-Key" else sa_Header a in
        Some (if negb (String.eqb (sa_Token a) "") then {[ h := sa_Token a ]} else ∅)
      else if String.eqb (sa_Type a) "custom" then
        Some (foldl (λ m kv, <[kv.1 := kv.2]> m) ∅ (range (sa_Headers a)))
      else Some ∅
  end.

Definition EnvVars (a : option ServerAuth) : option (gmap string string) := sa_EnvAuth <$> a.

(* ------------------------------------------------------------------ *)
(** ** Theorems *)
(* ------------------------------------------------------------------ *)

Definition has_result (r : JSONRPCResponse) : bool :=
  match rs_Result r with NoResult => false | _ => true end.

Lemma fill_schema_twice t : fill_schema (fill_schema t) = fill_schema t.
Proof. unfold fill_schema. destruct (tool_InputSchema t) eqn:E; simpl; by rewrite ?E. Qed.

Lemma handleToolsCall_shape decode p req :
  let r := handleToolsCall decode p req in
  rs_JSONRPC r = "2.0" ∧ rs_ID r = rq_ID req ∧ has_result r = negb (bool_decide (is_Some (rs_Error r))).
Proof. unfold handleToolsCall, invalid_params, has_result. by repeat case_match. Qed.

(** the headers of a connection do not depend on the order of the configured ones
    and carry nothing but what is configured: custom headers are copied as they
    are, and otherwise there is at most one header, with the token in it, and none
    without a token. *)
Theorem headers_carry_the_configured_credential `{MapRange} a :
  (sa_Type a = "custom" → HTTPHeaders (Some a) = Some (sa_Headers a)) ∧
  (sa_Type a ≠ "custom" →
     ∀ k v, (m ← HTTPHeaders (Some a); m !! k) = Some v → sa_Token a ≠ "" ∧
       ((sa_Type a = "bearer" ∧ k = "Authorization" ∧ v = "Bearer " +:+ sa_Token a) ∨
        (sa_Type a = "api_key" ∧ k = (if String.eqb (sa_Header a) "" then "X-API-Key" else sa_Header a) ∧
         v = sa_Token a))).
Proof.
  split.
  - intros Ht. unfold HTTPHeaders. rewrite Ht. simpl. by rewrite copy_map.
  - intros Ht k v. unfold HTTPHeaders. rewrite (proj2 (String.eqb_neq _ "custom") Ht).
    destruct (String.eqb_spec (sa_Token a) "") as [E|E];
      repeat (case_match; simpl; try done); rewrite ?lookup_empty; try done;
      intros [<- <-]%lookup_singleton_Some; (split; [done|]);
      first [by left; split; [apply String.eqb_eq|]|by right; split; [apply String.eqb_eq|]].
Qed.

(* ------------------------------------------------------------------ *)
(** ** Properties *)
(* ------------------------------------------------------------------ *)

(** every request is answered with version and identifier of the request and
    exactly one of a result and an error; a protocol error is either an unknown
    method or parameters that are not a named call, while a tool that fails is a
    successful response that carries the failure. *)
Theorem every_request_gets_one_answer decode p req :
  let r := (HandleRequest decode p req).2 in
  rs_JSONRPC r = "2.0" ∧ rs_ID r = rq_ID req ∧
  has_result r = negb (bool_decide (is_Some (rs_Error r))) ∧
  (∀ e, rs_Error r = Some e →
     (je_Code e = ErrCodeMethodNotFound ∧ rq_Method req ∉ ["initialize"; "tools/list"; "tools/call"]) ∨
     (je_Code e = ErrCodeInvalidParams ∧ rq_Method req = "tools/call")) ∧
  (∀ bytes name args err,
     rq_Method req = "tools/call" → json_marshal (rq_Params req) = Some bytes →
     decode bytes = Ok (mkToolCallParams name args) → name ≠ "" →
     tp_CallTool p name (default (AMap []) args) = Err err →
     rs_Result r = ResultCall (Some (mkToolCallResult (SliceOf [ErrText err]) true))).
Proof.
  unfold HandleRequest.
  destruct (String.eqb_spec (rq_Method req) "initialize") as [Ei|Ei].
  { cbn. split_and!; try done. intros. congruence. }
  destruct (String.eqb_spec (rq_Method req) "tools/list") as [El|El].
  { cbn. split_and!; try done. intros. congruence. }
  destruct (String.eqb_spec (rq_Method req) "tools/call") as [Ec|Ec].
  - pose proof (handleToolsCall_shape decode p req) as (H1 & H2 & H3). cbv zeta. cbn [snd].
    split_and!; try done.
    + intros e He. right. split; [|done]. revert He. unfold handleToolsCall, invalid_params.
      repeat case_match; simpl; intros; simplify_eq; done.
    + intros bytes name args err _ Hb Hd Hn Hcall. unfold handleToolsCall. rewrite Hb, Hd.
      cbn [tcp_Name tcp_Arguments]. apply String.eqb_neq in Hn. by rewrite Hn, Hcall.
  - cbn. split_and!; try done. intros e [= <-]. left. split; [done|]. set_solver.
Qed.

(** a tool list answer has every tool of the provider, in order, each with a
    schema; answering it again gives the same list, and a provider that shares
    its slice has had the default schema written into its own tools. *)
Theorem tool_list_fills_in_schemas p req :
  let '(p', r) := handleToolsList p req in
  (∃ tools, rs_Result r = ResultTools (mkToolListResult (SliceOf tools) "") ∧
     map tool_Name tools = map tool_Name (default [] (tp_Tools p)) ∧
     Forall (λ t, is_Some (tool_InputSchema t)) tools ∧
     rs_Result (handleToolsList p' req).2 = ResultTools (mkToolListResult (SliceOf tools) "")) ∧
  (∀ tools, tp_Tools p = Some tools →
     tp_Tools p' = Some (if tp_Shares p then map fill_schema tools else tools)).
Proof.
  unfold handleToolsList. split.
  - eexists. split; [reflexivity|]. split_and!.
    + rewrite map_map. apply map_ext. intros t. unfold fill_schema. by destruct (tool_InputSchema t).
    + apply Forall_map, Forall_true. intros t. unfold fill_schema.
      destruct (tool_InputSchema t) eqn:E; simpl; rewrite ?E; eauto.
    + simpl. do 3 f_equal. destruct (tp_Tools p) as [tools|] eqn:Ht; [|by rewrite Ht].
      destruct (tp_Shares p); [|by rewrite Ht]. simpl. rewrite map_map. apply map_ext.
      intros t. apply fill_schema_twice.
  - intros tools Ht. rewrite Ht. by destruct (tp_Shares p).
Qed.
