(* ===== verification/McpWire.v ===== *)
(** The messages of the MCP server and of its clients as JSON ([src/mcp/types.go]):
    the struct tags, the documents of the server's responses, and the configuration of
    a connection. *)
From S2P Require Export Registry Mcp SchemaWire.

(* ------------------------------------------------------------------ *)
(** ** Messages *)
(* ------------------------------------------------------------------ *)

#[export] Instance JSONRPCRequest_wire : Wire JSONRPCRequest :=
  struct_wire [req "jsonrpc"; opt "id"; req "method"; opt "params"]
    (λ r, (rq_JSONRPC r, (rq_ID r, (rq_Method r, (rq_Params r, tt)))))
    (λ '(a, (b, (c, (d, _)))), mkJSONRPCRequest a b c d).
#[export] Instance JSONRPCRequest_laws : WireLaws JSONRPCRequest.
Proof. solve_struct. Qed.

#[export] Instance JSONRPCNotification_wire : Wire JSONRPCNotification :=
  struct_wire [req "jsonrpc"; req "method"; opt "params"]
    (λ r, (nt_JSONRPC r, (nt_Method r, (nt_Params r, tt))))
    (λ '(a, (b, (c, _))), mkJSONRPCNotification a b c).
#[export] Instance JSONRPCNotification_laws : WireLaws JSONRPCNotification.
Proof. solve_struct. Qed.

#[export] Instance JSONRPCError_wire : Wire JSONRPCError :=
  struct_wire [req "code"; req "message"; opt "data"]
    (λ r, (je_Code r, (je_Message r, (je_Data r, tt))))
    (λ '(a, (b, (c, _))), mkJSONRPCError a b c).
#[export] Instance JSONRPCError_laws : WireLaws JSONRPCError.
Proof. solve_struct. Qed.

#[export] Instance Tool_wire : Wire Tool :=
  struct_wire [req "name"; opt "description"; req "inputSchema"]
    (λ r, (tool_Name r, (tool_Description r, (mkAnyMap (tool_InputSchema r), tt))))
    (λ '(a, (b, (c, _))), mkTool a b (map_value c)).
#[export] Instance Tool_laws : WireLaws Tool.
Proof. solve_struct. Qed.

#[export] Instance ToolListResult_wire : Wire ToolListResult :=
  struct_wire [req "tools"; opt "nextCursor"]
    (λ r, (tlr_Tools r, (tlr_NextCursor r, tt)))
    (λ '(a, (b, _)), mkToolListResult a b).
#[export] Instance ToolListResult_laws : WireLaws ToolListResult.
Proof. solve_struct. Qed.

#[export] Instance ToolCallParams_wire : Wire ToolCallParams :=
  struct_wire [req "name"; opt "arguments"]
    (λ r, (tcp_Name r, (mkAnyMap (tcp_Arguments r), tt)))
    (λ '(a, (b, _)), mkToolCallParams a (map_value b)).
#[export] Instance ToolCallParams_laws : WireLaws ToolCallParams.
Proof. solve_struct. Qed.

#[export] Instance Annotation_wire : Wire Annotation :=
  struct_wire [opt "audience"; opt "priority"]
    (λ r, (an_Audience r, (an_Priority r, tt)))
    (λ '(a, (b, _)), mkAnnotation a b).
#[export] Instance Annotation_laws : WireLaws Annotation.
Proof. solve_struct. Qed.

#[export] Instance ContentItem_wire : Wire ContentItem :=
  struct_wire [req "type"; opt "text"; opt "data"; opt "mimeType"; opt "uri"; opt "annotations"]
    (λ r, (ci_Type r, (ci_Text r, (ci_Data r, (ci_MimeType r, (ci_URI r, (ci_Annotations r, tt)))))))
    (λ '(a, (b, (c, (d, (e, (f, _)))))), mkContentItem a b c d e f).
#[export] Instance ContentItem_laws : WireLaws ContentItem.
Proof. solve_struct. Qed.

Section results.
(** [err.Error()]. *)
Variable error_text : error → string.

Definition item_content (i : item) : ContentItem :=
  match i with
  | Item c => c
  | ErrText e => mkContentItem "text" (error_text e) "" "" "" None
  end.

Definition item_wire : Wire item := {|
  encode i := encode (item_content i);
  decode d := Item <$> decode d;
  zero := Item zero;
  is_empty _ := false;
  good i := match i with Item c => good c | ErrText _ => False end
|}.
#[local] Existing Instance item_wire.

Definition ToolCallResult_wire : Wire ToolCallResult :=
  struct_wire [req "content"; opt "isError"]
    (λ r, (tcr_Content r, (tcr_IsError r, tt)))
    (λ '(a, (b, _)), mkToolCallResult a b).
#[local] Existing Instance ToolCallResult_wire.

(** What is in the interface value decides how it is written; a typed nil pointer is
    not an empty interface. *)
Definition rpc_result_wire : Wire rpc_result := {|
  encode r := match r with
              | NoResult => Some JNull
              | ResultMap v => to_json v
              | ResultTools r => encode r
              | ResultCall r => encode r
              end;
  decode d := match d with JNull => None | _ => ResultMap <$> to_any d end;
  zero := NoResult;
  is_empty r := match r with NoResult => true | _ => false end;
  good r := match r with NoResult => True | ResultMap v => good v ∧ v ≠ ANil | _ => False end
|}.
#[local] Existing Instance rpc_result_wire.

Definition JSONRPCResponse_wire : Wire JSONRPCResponse :=
  struct_wire [req "jsonrpc"; req "id"; opt "result"; opt "error"]
    (λ r, (rs_JSONRPC r, (rs_ID r, (rs_Result r, (rs_Error r, tt)))))
    (λ '(a, (b, (c, (d, _)))), mkJSONRPCResponse a b c d).

(* ------------------------------------------------------------------ *)
(** ** The parameters of a call *)
(* ------------------------------------------------------------------ *)

(** The error of the decoder, of which the server only asks whether there is one. *)
Variable unreadable : error.

Definition decode_params (bytes : string) : result error ToolCallParams :=
  match unmarshal bytes with Some p => Ok p | None => Err unreadable end.

End results.

(* ------------------------------------------------------------------ *)
(** ** The client side (types.go, client.go) *)
(* ------------------------------------------------------------------ *)

#[export] Instance ServerAuth_wire : Wire ServerAuth :=
  struct_wire [req "type"; opt "token"; opt "header"; opt "headers"; opt "env_auth"]
    (λ r, (sa_Type r, (sa_Token r, (sa_Header r, (sa_Headers r, (sa_EnvAuth r, tt))))))
    (λ '(a, (b, (c, (d, (e, _))))), mkServerAuth a b c d e).
#[export] Instance ServerAuth_laws : WireLaws ServerAuth.
Proof. solve_struct. Qed.
#[export] Instance ServerAuth_shallow : Shallow ServerAuth := struct_shallow _ _ _.
#[export] Instance ServerAuth_written : Written ServerAuth.
Proof. apply struct_always_written. simpl. lia. Qed.

Record ServerConfig := mkServerConfig {
  sc_ID : string;
  sc_Name : string;
  sc_Transport : string;
  sc_Command : string;
  sc_Args : list string;
  sc_URL : string;
  sc_Env : gmap string string;
  sc_Auth : option ServerAuth;
  sc_Enabled : bool
}.
#[export] Instance ServerConfig_wire : Wire ServerConfig :=
  struct_wire [req "id"; req "name"; req "transport"; opt "command"; opt "args"; opt "url"; opt "env"; opt "auth";
               req "enabled"]
    (λ r, (sc_ID r, (sc_Name r, (sc_Transport r, (sc_Command r, (sc_Args r, (sc_URL r, (sc_Env r, (sc_Auth r,
       (sc_Enabled r, tt))))))))))
    (λ '(a, (b, (c, (d, (e, (f, (g, (h, (i, _))))))))), mkServerConfig a b c d e f g h i).
#[export] Instance ServerConfig_laws : WireLaws ServerConfig.
Proof. solve_struct. Qed.
#[export] Instance ServerConfig_shallow : Shallow ServerConfig := struct_shallow _ _ _.
#[export] Instance ServerConfig_written : Written ServerConfig.
Proof. apply struct_always_written. simpl. lia. Qed.

Record ServerStatus := mkServerStatus {
  ss_ID : string;
  ss_Name : string;
  ss_Transport : string;
  ss_Status : string;
  ss_ToolCount : Z;
  ss_Error : string
}.
#[export] Instance ServerStatus_wire : Wire ServerStatus :=
  struct_wire [req "id"; req "name"; req "transport"; req "status"; req "tool_count"; opt "error"]
    (λ r, (ss_ID r, (ss_Name r, (ss_Transport r, (ss_Status r, (ss_ToolCount r, (ss_Error r, tt)))))))
    (λ '(a, (b, (c, (d, (e, (f, _)))))), mkServerStatus a b c d e f).
#[export] Instance ServerStatus_laws : WireLaws ServerStatus.
Proof. solve_struct. Qed.

Record ServerHealth := mkServerHealth {
  sh_ID : string;
  sh_Name : string;
  sh_Healthy : bool;
  sh_ToolCount : Z;
  sh_Error : string;
  sh_CheckedAt : Time
}.
#[export] Instance ServerHealth_wire `{TimeText} : Wire ServerHealth :=
  struct_wire [req "id"; req "name"; req "healthy"; req "tool_count"; opt "error"; req "checked_at"]
    (λ r, (sh_ID r, (sh_Name r, (sh_Healthy r, (sh_ToolCount r, (sh_Error r, (sh_CheckedAt r, tt)))))))
    (λ '(a, (b, (c, (d, (e, (f, _)))))), mkServerHealth a b c d e f).
#[export] Instance ServerHealth_laws `{TimeText} : WireLaws ServerHealth.
Proof. solve_struct. Qed.

(** What a client makes of the answers; schemas nest to a given depth. *)
Module Client.
Record ContentBlock := mkContentBlock { cb_Type : string; cb_Text : string }.
#[export] Instance ContentBlock_wire : Wire ContentBlock :=
  struct_wire [req "type"; opt "text"]
    (λ r, (cb_Type r, (cb_Text r, tt)))
    (λ '(a, (b, _)), mkContentBlock a b).

Record CallToolResult := mkCallToolResult { ctr_Content : slice ContentBlock; ctr_IsError : bool }.
#[export] Instance CallToolResult_wire : Wire CallToolResult :=
  struct_wire [req "content"; opt "is_error"]
    (λ r, (ctr_Content r, (ctr_IsError r, tt)))
    (λ '(a, (b, _)), mkCallToolResult a b).

Definition ClientTool_wire (n : nat) : Wire ClientTool :=
  struct_wire (H:=@cons_fields _ _ _ (@cons_fields _ _ _ (@cons_fields _ (@pointer_wire _ (schema_wire n)) _ _)))
    [req "name"; opt "description"; opt "input_schema"]
    (λ r, (ct_Name r, (ct_Description r, (ct_InputSchema r, tt))))
    (λ '(a, (b, (c, _))), mkClientTool a b c).

(** What a connection to a server offers; it has no implementation here. *)
Class Client (C W : Type) := {
  Initialize : C → W → W * option error;
  ListTools : C → W → W * result error (list ClientTool);
  CallTool : C → string → any_map → W → W * result error (option CallToolResult);
  Close : C → W → W * option error
}.
End Client.
#[export] Existing Instances Client.ContentBlock_wire Client.CallToolResult_wire.

(* ------------------------------------------------------------------ *)
(** ** Theorems *)
(* ------------------------------------------------------------------ *)

(** *** The documents of JSON-RPC *)

Section documents.
Context (error_text : error → string).

Definition annotation_document (a : Annotation) : option json :=
  object [when (match an_Audience a with [] => false | _ => true end) "audience" (array (map (Some ∘ JStr) (an_Audience a)));
          when (negb (feqb (an_Priority a) (S754_zero false))) "priority" (JNum <$> json_float (an_Priority a))].

Definition content_document (c : ContentItem) : option json :=
  object [always "type" (Some (JStr (ci_Type c))); text_member "text" (ci_Text c); text_member "data" (ci_Data c);
          text_member "mimeType" (ci_MimeType c); text_member "uri" (ci_URI c);
          pointed "annotations" (ci_Annotations c) annotation_document].

(** A failure is a text. *)
Definition failure_document (e : error) : option json :=
  object [always "type" (Some (JStr "text")); text_member "text" (error_text e)].
Definition item_document (i : item) : option json :=
  match i with Item c => content_document c | ErrText e => failure_document e end.

(** The result of a tool; the nil pointer is null, and so is the content of a result
    whose slice is nil. *)
Definition result_document (r : option ToolCallResult) : option json :=
  match r with
  | None => Some JNull
  | Some r =>
      object [always "content" (match tcr_Content r with
                                | SliceOf l => array (map item_document l)
                                | NilSlice => Some JNull
                                end);
              when (tcr_IsError r) "isError" (Some (JBool true))]
  end.

(** A tool without a schema is listed as one that takes any object. *)
Definition tool_document (t : Tool) : option json :=
  object [always "name" (Some (JStr (tool_Name t))); text_member "description" (tool_Description t);
          always "inputSchema" (match tool_InputSchema t with
                                | Some schema => to_json schema
                                | None => Some (JObj [("type", JStr "object")])
                                end)].

Definition error_document (code message : string) : option json :=
  Some (JObj [("code", JNum code); ("message", JStr message)]).

(** What a request is to be answered with: the name of the member beside version and
    identifier, and its document. *)
Inductive answered (p : ToolProvider) (rq : JSONRPCRequest) : string → option json → Prop :=
| answered_initialize :
    rq_Method rq = "initialize" →
    answered p rq "result"
      (Some (JObj [("capabilities", JObj [("tools", JObj [])]); ("protocolVersion", JStr "2024-11-05");
                   ("serverInfo", JObj [("name", JStr "openbotstack"); ("version", JStr "1.0.0")])]))
| answered_list :
    rq_Method rq = "tools/list" →
    answered p rq "result" (object [always "tools" (array (map tool_document (default [] (tp_Tools p))))])
| answered_call bytes name args r :
    rq_Method rq = "tools/call" → json_marshal (rq_Params rq) = Some bytes →
    unmarshal bytes = Some (mkToolCallParams name args) → name ≠ "" →
    tp_CallTool p name (default (AMap []) args) = Ok r →
    answered p rq "result" (result_document r)
| answered_failure bytes name args e :
    rq_Method rq = "tools/call" → json_marshal (rq_Params rq) = Some bytes →
    unmarshal bytes = Some (mkToolCallParams name args) → name ≠ "" →
    tp_CallTool p name (default (AMap []) args) = Err e →
    answered p rq "result"
      (object [always "content" (array [failure_document e]); always "isError" (Some (JBool true))])
| answered_unwritable :
    rq_Method rq = "tools/call" → json_marshal (rq_Params rq) = None →
    answered p rq "error" (error_document "-32602" "invalid params")
| answered_unreadable bytes :
    rq_Method rq = "tools/call" → json_marshal (rq_Params rq) = Some bytes →
    unmarshal (A:=ToolCallParams) bytes = None →
    answered p rq "error" (error_document "-32602" "invalid params format")
| answered_nameless bytes args :
    rq_Method rq = "tools/call" → json_marshal (rq_Params rq) = Some bytes →
    unmarshal bytes = Some (mkToolCallParams "" args) →
    answered p rq "error" (error_document "-32602" "tool name is required")
| answered_unknown :
    rq_Method rq ∉ ["initialize"; "tools/list"; "tools/call"] →
    answered p rq "error" (error_document "-32601" "method not found").

Lemma encode_annotation a : encode a = annotation_document a.
Proof.
  solve_object. destruct (an_Audience a) as [|x l] eqn:E; [done|].
  cbn [is_empty list_wire opt andb when]. do 2 f_equal. symmetry. by apply encode_array.
Qed.
Lemma encode_content c : encode c = content_document c.
Proof. solve_object. destruct (ci_Annotations c) as [a|]; [|done]. simpl. by rewrite <-encode_annotation. Qed.
#[local] Existing Instance item_wire.
Lemma encode_item i : encode (Wire:=item_wire error_text) i = item_document i.
Proof. destruct i as [c|e]; [apply encode_content|]. cbn [encode item_wire item_content]. solve_object. Qed.
Lemma encode_result r :
  encode (Wire:=rpc_result_wire error_text) (ResultCall r) = result_document r.
Proof.
  destruct r as [r|]; [|done]. cbn [encode rpc_result_wire pointer_wire result_document]. solve_object.
  unfold always. do 2 f_equal. destruct (tcr_Content r) as [|l]; [done|]. symmetry. apply encode_array. intros i _. apply encode_item.
Qed.
Lemma encode_tool t : encode (fill_schema t) = tool_document t.
Proof. unfold fill_schema, tool_document. by destruct (tool_InputSchema t) eqn:E; solve_object; rewrite ?E. Qed.
Lemma encode_tools tools :
  encode (Wire:=rpc_result_wire error_text) (ResultTools (mkToolListResult (SliceOf (map fill_schema tools)) ""))
  = object [always "tools" (array (map tool_document tools))].
Proof.
  cbn [encode rpc_result_wire]. solve_object. unfold always. do 2 f_equal.
  symmetry. transitivity (array (map encode (map fill_schema tools))); [by apply encode_array|].
  f_equal. rewrite map_map. apply map_ext, encode_tool.
Qed.

(** A response with a result, and one with an error, is the document of its parts. *)
Lemma encode_response id r :
  r ≠ NoResult →
  encode (Wire:=JSONRPCResponse_wire error_text) (mkJSONRPCResponse "2.0" id r None)
  = object [always "jsonrpc" (Some (JStr "2.0")); always "id" (to_json id);
            always "result" (encode (Wire:=rpc_result_wire error_text) r)].
Proof. intros Hr. solve_object. Qed.
Lemma encode_refusal id code message :
  encode (Wire:=JSONRPCResponse_wire error_text)
    (mkJSONRPCResponse "2.0" id NoResult (Some (mkJSONRPCError code message ANil)))
  = object [always "jsonrpc" (Some (JStr "2.0")); always "id" (to_json id);
            always "error" (error_document (pretty code) message)].
Proof.
  transitivity (object [always "jsonrpc" (Some (JStr "2.0")); always "id" (to_json id); [];
                        always "error" (error_document (pretty code) message)]); [|done].
  solve_object.
Qed.
End documents.

(** Every request has an answer. *)
Lemma answered_always error_text p rq : ∃ name content, answered error_text p rq name content.
Proof.
  destruct (decide (rq_Method rq ∈ ["initialize"; "tools/list"; "tools/call"])) as [Hm|Hm].
  2:{ eexists _, _. by apply answered_unknown. }
  rewrite !elem_of_cons, elem_of_nil in Hm. destruct Hm as [Hm|[Hm|[Hm|[]]]].
  - eexists _, _. by apply answered_initialize.
  - eexists _, _. by apply answered_list.
  - destruct (json_marshal (rq_Params rq)) as [bytes|] eqn:Hb; [|eexists _, _; by apply answered_unwritable].
    destruct (unmarshal (A:=ToolCallParams) bytes) as [[name args]|] eqn:Hu; [|eexists _, _; by eapply answered_unreadable].
    destruct (decide (name = "")) as [->|Hn]; [eexists _, _; by eapply answered_nameless|].
    destruct (tp_CallTool p name (default (AMap []) args)) as [r|e] eqn:Hc; eexists _, _;
      [by eapply answered_call|by eapply answered_failure].
Qed.

(** *** Reading an object that came from a generic value *)

(** The one member whose key selects a name. *)
Lemma lookup_field_unique name l e :
  e ∈ l → selects name e.1 = true → (∀ e', e' ∈ l → selects name e'.1 = true → e' = e) →
  lookup_field name l = Some e.2.
Proof.
  unfold lookup_field. intros He Hs Hu.
  enough (∀ acc, (acc = Some e.2 ∨ e ∈ l) →
    foldl (λ acc e, if selects name e.1 then Some e.2 else acc) acc l = Some e.2) as H by (apply H; by right).
  clear He. induction l as [|x l IH]; intros acc Ha; simpl.
  - destruct Ha as [Ha|Ha]; [done|by apply elem_of_nil in Ha].
  - apply IH; [intros e' He'; apply Hu; by right|]. destruct (selects name x.1) eqn:Ex.
    + left. by rewrite (Hu x) by (done || by left).
    + destruct Ha as [Ha|[->|Ha]%elem_of_cons]; [by left|congruence|by right].
Qed.

(** A member of a marshalled map, as it is read back. *)
Lemma marshalled_member m es name v :
  NoDup m.*1 → Forall (λ kv, utf8_valid kv.1) m →
  mapM (λ kv, d ← to_json kv.2; Some (kv.1, d)) m = Some es →
  assoc name m = Some v → (∀ k, k ∈ m.*1 → selects name k = true → k = name) →
  ∃ d, to_json v = Some d ∧ lookup_field name (map fix_entry (isort entry_leb es)) = Some (fix_json d).
Proof.
  intros Hnd Hval Hm Hv Hu. destruct (mapM_assoc _ _ _ _ _ Hm Hv) as (d & Hd & He). exists d. split; [done|].
  pose proof (mapM_keys _ _ _ Hm) as Hkeys. pose proof (assoc_elem _ _ _ He) as Hin.
  assert (Hfix : ∀ e, e ∈ es → utf8_fix 0 e.1 = e.1).
  { intros e Hin'. assert (Hk : e.1 ∈ m.*1) by (rewrite <-Hkeys; apply list_elem_of_fmap; eauto).
    apply list_elem_of_fmap in Hk as (kv & -> & Hk). rewrite Forall_forall in Hval. by apply Hval. }
  apply (lookup_field_unique name _ (fix_entry (name, d))).
  - apply list_elem_of_fmap. exists (name, d). split; [done|]. by apply elem_of_isort.
  - pose proof (Hfix (name, d) Hin) as Hn. cbn [fst fix_entry] in *. rewrite Hn. apply String.eqb_refl.
  - intros e (e' & -> & Hin')%list_elem_of_fmap. rewrite elem_of_isort in Hin'. unfold fix_entry. cbn [fst].
    rewrite (Hfix e' Hin'). intros Hs.
    assert (Hk : e'.1 = name). { apply Hu; [|done]. rewrite <-Hkeys. apply list_elem_of_fmap. eauto. }
    destruct e' as [k d']. cbn [fst snd] in *. subst k. assert (Hnd' : NoDup es.*1) by (by rewrite Hkeys). rewrite (assoc_NoDup name d' es Hnd' Hin') in He.
    injection He as ->. by rewrite (Hfix (name, d) Hin : utf8_fix 0 name = name).
Qed.

Lemma native_written v : native v → is_Some (to_json v).
Proof.
  induction v as [|b|z|f|s|l IH|m IH] using any_ind'; try done; try (by intros; eexists).
  - intros (lit & Hj & _). simpl. rewrite Hj. by eexists.
  - rewrite native_slice. intros Hn. simpl. apply fmap_is_Some, mapM_is_Some.
    rewrite Forall_forall in *. eauto.
  - rewrite native_map. intros [_ Hn]. cbn [to_json]. apply fmap_is_Some, mapM_is_Some.
    rewrite Forall_forall in *. intros kv Hkv. unfold compose. destruct (IH kv Hkv) as [d ->]; [by apply Hn|]. by eexists.
Qed.

(** A named call with its arguments, through the marshaller and back. *)
Lemma decode_call unreadable m name args :
  native (AMap m) → (any_nesting (AMap m) ≤ maxNestingDepth)%Z →
  assoc "name" m = Some (AString name) → assoc "arguments" m = Some (AMap args) →
  (∀ k, k ∈ m.*1 → selects "name" k = true → k = "name") →
  (∀ k, k ∈ m.*1 → selects "arguments" k = true → k = "arguments") →
  ∃ bytes args', json_marshal (AMap m) = Some bytes ∧ as_decoded (AMap args) = Some args' ∧
    decode_params unreadable bytes = Ok (mkToolCallParams name (Some args')).
Proof.
  intros Hn Hd Hname Hargs Hu1 Hu2. destruct (native_written _ Hn) as [d Hm].
  destruct (document_of _ _ Hm (native_floats _ Hn)) as [Hl Hdepth].
  pose proof (proj1 (native_map m) Hn) as [Hnd Hall].
  assert (Hval : Forall (λ kv, utf8_valid kv.1) m) by (eapply Forall_impl; [exact Hall|]; naive_solver).
  assert (Hnat : ∀ k v, assoc k m = Some v → native v).
  { intros k v Hv%assoc_elem. rewrite Forall_forall in Hall. by destruct (Hall (k, v) Hv). }
  exists (print d). rewrite json_marshal_print, Hm. unfold decode_params, unmarshal.
  rewrite parse_print by (done || lia). cbn [to_json] in Hm.
  destruct (mapM _ m) as [es|] eqn:E; [|done]. injection Hm as <-.
  destruct (marshalled_member m es _ _ Hnd Hval E Hname Hu1) as (d1 & [= <-] & H1).
  destruct (marshalled_member m es _ _ Hnd Hval E Hargs Hu2) as (d2 & Hd2 & H2).
  destruct (native_decoded (AMap args) (Hnat _ _ Hargs)) as (args' & Hdec & _). exists args'.
  split; [done|]. split; [done|].
  assert (Hread : read (H:=any_map_wire) (fix_json d2) = Some (mkAnyMap (Some args'))).
  { pose proof (decoded_document _ _ Hd2 (native_floats _ (Hnat _ _ Hargs))) as Hr. rewrite Hdec in Hr.
    destruct (map_document _ _ Hd2) as [m2 ->]. cbn [fix_json read] in *. cbn [decode any_map_wire]. by rewrite Hr. }
  cbn [mbind option_bind fix_json read decode ToolCallParams_wire struct_wire dec_fields cons_fields no_fields req opt].
  change (λ e : string * json, (utf8_fix 0 e.1, fix_json e.2)) with fix_entry. rewrite H2. cbn [mbind option_bind].
  rewrite Hread. cbn [mbind option_bind]. rewrite H1. cbn. rewrite (Hnat _ _ Hname). done.
Qed.

(* ------------------------------------------------------------------ *)
(** ** Properties *)
(* ------------------------------------------------------------------ *)

(** C18: what the server makes of a request is, written, a JSON-RPC response: an object
    with the version, the identifier the request was decoded with, and one more
    member, which is the result the method asks for - the server's description, the
    list of tools with a schema each, what the called tool returned, null for a nil
    pointer, or its failure as a text with isError - or, for other methods and for
    parameters that are no named call, the error with its code and message; every
    request has one of these answers. The identifier is that of the decoded request: a
    number past 2^53 in the request's text is answered as another one. *)
Theorem answers_are_json_rpc error_text unreadable p rq :
  (∃ name content, answered error_text p rq name content) ∧
  (∀ name content, answered error_text p rq name content →
     encode (Wire:=JSONRPCResponse_wire error_text) (HandleRequest (decode_params unreadable) p rq).2
     = object [always "jsonrpc" (Some (JStr "2.0")); always "id" (to_json (rq_ID rq)); always name content]).
Proof.
  split; [apply answered_always|]. intros name content Ha.
  destruct Ha as [Hm|Hm|bytes name args r Hm Hb Hu Hn Hc|bytes name args e Hm Hb Hu Hn Hc|Hm Hb|bytes Hm Hb Hu
                 |bytes args Hm Hb Hu|Hm];
    unfold HandleRequest, handleToolsCall, decode_params; rewrite ?Hm, ?Hb, ?Hu; cbn [String.eqb Ascii.eqb Bool.eqb snd].
  - unfold handleInitialize. by rewrite encode_response.
  - cbn [handleToolsList snd]. rewrite encode_response by done. by rewrite encode_tools.
  - cbn [tcp_Name tcp_Arguments]. rewrite (proj2 (String.eqb_neq name "") Hn), Hc.
    rewrite encode_response by done. by rewrite encode_result.
  - cbn [tcp_Name tcp_Arguments]. rewrite (proj2 (String.eqb_neq name "") Hn), Hc.
    rewrite encode_response by done. by rewrite encode_result.
  - apply encode_refusal.
  - apply encode_refusal.
  - apply encode_refusal.
  - rewrite !not_elem_of_cons in Hm. destruct Hm as (H1 & H2 & H3 & _).
    rewrite (proj2 (String.eqb_neq _ "initialize") H1), (proj2 (String.eqb_neq _ "tools/list") H2),
      (proj2 (String.eqb_neq _ "tools/call") H3). apply encode_refusal.
Qed.

(** A provider whose one tool, asked for anything, returns nothing or fails. *)
Definition silent_tools : ToolProvider :=
  mkToolProvider None false (λ name _, if String.eqb name "fail" then Err (ESentinel "boom") else Ok None).
Definition no_text (e : error) : string := match e with ESentinel s => s | _ => "" end.
Definition call_of (name : string) : JSONRPCRequest :=
  mkJSONRPCRequest "2.0" (AString "7") "tools/call"
    (AMap [("name", AString name); ("arguments", AMap [("q", AString "x")])]).

Lemma answers_are_json_rpc_witness :
  encode (Wire:=JSONRPCResponse_wire no_text)
    (HandleRequest (decode_params (ESentinel "")) silent_tools (call_of "fail")).2
  = Some (JObj [("jsonrpc", JStr "2.0"); ("id", JStr "7");
                ("result", JObj [("content", JArr [JObj [("type", JStr "text"); ("text", JStr "boom")]]);
                                 ("isError", JBool true)])]).
Proof.
  rewrite (proj2 (answers_are_json_rpc no_text (ESentinel "") silent_tools (call_of "fail")) "result"
             (object [always "content" (array [failure_document no_text (ESentinel "boom")]);
                      always "isError" (Some (JBool true))])); [reflexivity|].
  by eapply (answered_failure no_text silent_tools (call_of "fail") _ "fail" (Some (AMap [("q", AString "x")]))).
Defined.

(** C19: a named tool is called with the arguments of the request: marshalling the
    decoded parameters and decoding them again into the call changes nothing but
    the order of the keys, and the tool's answer or failure is the result. *)
Theorem tool_receives_the_arguments unreadable p rq m name args :
  rq_Method rq = "tools/call" → rq_Params rq = AMap m → name ≠ "" →
  native (AMap m) → (any_nesting (AMap m) ≤ maxNestingDepth)%Z →
  assoc "name" m = Some (AString name) → assoc "arguments" m = Some (AMap args) →
  (∀ k, k ∈ m.*1 → selects "name" k = true → k = "name") →
  (∀ k, k ∈ m.*1 → selects "arguments" k = true → k = "arguments") →
  ∃ args', any_equiv (AMap args) args' ∧
    rs_Result (HandleRequest (decode_params unreadable) p rq).2
    = ResultCall (match tp_CallTool p name args' with
                  | Ok r => r
                  | Err e => Some (mkToolCallResult (SliceOf [ErrText e]) true)
                  end).
Proof.
  intros Hmeth Hparams Hname Hn Hd H1 H2 Hu1 Hu2.
  destruct (decode_call unreadable m name args Hn Hd H1 H2 Hu1 Hu2) as (bytes & args' & Hb & Hdec & Hcall).
  exists args'. split.
  - assert (Hargs : native (AMap args)).
    { apply native_map in Hn as [_ Hall]. rewrite Forall_forall in Hall.
      by destruct (Hall _ (assoc_elem _ _ _ H2)). }
    destruct (native_decoded _ Hargs) as (v & Hv & Heq). rewrite Hv in Hdec. by injection Hdec as <-.
  - unfold HandleRequest, handleToolsCall. rewrite Hmeth, Hparams, Hb, Hcall. cbn [String.eqb Ascii.eqb tcp_Name tcp_Arguments].
    rewrite (proj2 (String.eqb_neq name "") Hname). cbn. by destruct (tp_CallTool p name args').
Qed.

Definition sample_call : list (string * any) :=
  [("name", AString "fail"); ("_meta", ANil); ("arguments", AMap [("q", AString "x"); ("all", ABool true)])].

Lemma tool_receives_the_arguments_witness :
  rs_Result (HandleRequest (decode_params (ESentinel "")) silent_tools
               (mkJSONRPCRequest "2.0" ANil "tools/call" (AMap sample_call))).2
  = ResultCall (Some (mkToolCallResult (SliceOf [ErrText (ESentinel "boom")]) true)).
Proof.
  destruct (tool_receives_the_arguments (ESentinel "") silent_tools
              (mkJSONRPCRequest "2.0" ANil "tools/call" (AMap sample_call)) sample_call "fail"
              [("q", AString "x"); ("all", ABool true)]) as (args' & _ & ->); try reflexivity; try done.
  - apply native_map. split; [apply (bool_decide_unpack _); by vm_compute|]. repeat constructor; try done.
    all: by (apply (bool_decide_unpack _); vm_compute).
  - intros k Hk Hs. unfold sample_call in Hk. cbn in Hk. set_unfold. by destruct_or! Hk; subst k.
  - intros k Hk Hs. unfold sample_call in Hk. cbn in Hk. set_unfold. by destruct_or! Hk; subst k.
Defined.

(** the client's result type reads another member than the server writes: the
    failure of a tool, written by the server, is read by the client as a success. *)
Theorem clients_read_failures_as_successes error_text (r : ToolCallResult) d c :
  encode (Wire:=ToolCallResult_wire error_text) r = Some d → decode (A:=Client.CallToolResult) d = Some c →
  Client.ctr_IsError c = false.
Proof.
  destruct r as [content iserror]. unfold ToolCallResult_wire, struct_wire.
  cbn [encode tcr_Content tcr_IsError enc_fields cons_fields no_fields req opt fst snd andb mbind option_bind].
  destruct iserror; cbn [is_empty bool_wire negb encode mbind option_bind];
    (destruct (encode content) as [e|]; [|done]); cbn [mbind option_bind]; intros [= <-];
    cbn [decode Client.CallToolResult_wire struct_wire dec_fields cons_fields no_fields req opt mbind option_bind];
    [change (lookup_field "is_error" [("content", e); ("isError", JBool true)]) with (@None json)
    |change (lookup_field "is_error" [("content", e)]) with (@None json)]; cbn [mbind option_bind];
    (destruct (lookup_field "content" _) as [x|]; [destruct (read x)|]); simpl; by intros; simplify_eq.
Qed.

Lemma clients_read_failures_as_successes_witness :
  let r := mkToolCallResult (SliceOf [ErrText (ESentinel "boom")]) true in
  ∃ d c, encode (Wire:=ToolCallResult_wire no_text) r = Some d ∧ decode (A:=Client.CallToolResult) d = Some c ∧
         Client.ctr_IsError c = false ∧
         Client.ctr_Content c = SliceOf [Client.mkContentBlock "text" "boom"].
Proof.
  eexists _, _. split; [reflexivity|]. split; [reflexivity|]. split; [|reflexivity].
  eapply (clients_read_failures_as_successes no_text (mkToolCallResult (SliceOf [ErrText (ESentinel "boom")]) true));
    reflexivity.
Defined.

(** the configuration of a connection is always written, and when its texts are
    UTF-8 it is read back as it was. *)
Theorem connections_are_read_back (c : ServerConfig) :
  good c → ∃ s, marshal c = Some s ∧ unmarshal s = Some c.
Proof.
  intros Hc. destruct (written c) as [d Hd]. exists (print d).
  assert (Hm : marshal c = Some (print d)) by (unfold marshal; by rewrite Hd).
  split; [done|]. apply (read_back_shallow c); [by vm_compute|done..].
Qed.

(** The schemas of a listed tool are lost the same way. *)
Lemma clients_lose_the_schemas n (t : Tool) d c :
  encode t = Some d → decode (Wire:=Client.ClientTool_wire n) d = Some c →
  ct_Name c = tool_Name t ∧ ct_InputSchema c = None.
Proof.
  destruct t as [name desc schema]. unfold Tool_wire, struct_wire.
  cbn [encode tool_Name tool_Description tool_InputSchema enc_fields cons_fields no_fields req opt fst snd andb
       mbind option_bind].
  destruct (encode (mkAnyMap schema)) as [e|]; [|done]. cbn [mbind option_bind].
  assert (Hnone : ∀ m, m = [("name", JStr name); ("description", JStr desc); ("inputSchema", e)] ∨
                       m = [("name", JStr name); ("inputSchema", e)] →
                       lookup_field "input_schema" m = None ∧ lookup_field "name" m = Some (JStr name))
    by by intros m [->| ->].
  intros Hd.
  assert (∃ m, d = JObj m ∧ lookup_field "input_schema" m = None ∧ lookup_field "name" m = Some (JStr name))
    as (m & -> & Hm & Hname).
  { destruct (is_empty desc); simplify_eq/=; eexists; (split; [done|apply Hnone; auto]). }
  unfold Client.ClientTool_wire.
  cbn [decode struct_wire dec_fields cons_fields no_fields req opt mbind option_bind]. rewrite Hm, Hname.
  cbn [mbind option_bind].
  destruct (lookup_field "description" m) as [x|]; [destruct (read x); [|done]|]; simpl; by intros [= <-].
Qed.

(** An identifier past 2^53 is answered as another number. *)
Example large_identifiers_change :
  (rq ← unmarshal (print (JObj [("jsonrpc", JStr "2.0"); ("id", JNum "9007199254740993"); ("method", JStr "ping")]));
   encode (Wire:=JSONRPCResponse_wire no_text) (HandleRequest (decode_params (ESentinel "")) silent_tools rq).2)
  = Some (JObj [("jsonrpc", JStr "2.0"); ("id", JNum "9007199254740992");
                ("error", JObj [("code", JNum "-32601"); ("message", JStr "method not found")])]).
Proof. vm_compute. reflexivity. Qed.
