(* ===== verification/Telemetry.v ===== *)
(** Metrics, spans and telemetry contexts ([src/telemetry]): labels and their
    serialized form, the in-memory meter and its snapshots, and spans. *)
From S2P Require Export GoValue.
From Stdlib Require Import Ascii.

(* ------------------------------------------------------------------ *)
(** ** Labels (metrics.go) *)
(* ------------------------------------------------------------------ *)

Definition Labels : Type := gmap string string.

Definition comma : ascii := ",".
Definition equals : ascii := "=".

Definition Labels_String `{MapRange} (l : Labels) : string :=
  if size (l : gmap string string) =? 0 then ""
  else
    let keys := sort_strings (range_keys (l : gmap string string)) in
    join (String comma sempty)
      (map (λ k, k +:+ String equals (default "" ((l : gmap string string) !! k))) keys).

Definition allowed_keys : list string :=
  ["provider"; "skill"; "stop_reason"; "execution_mode"; "status"; "span_kind"; "component"; "operation"].
Definition allowedLabelKeys (key : string) : bool := bool_decide (key ∈ allowed_keys).

Definition ValidateLabelKey (key : string) : option error :=
  if String.eqb key "" then None
  else if negb (allowedLabelKeys key) then
    Some (EFmt "telemetry: label key %q is not allowed (high cardinality or forbidden)" [FS key])
  else None.

Definition filterLabels `{MapRange} (labels : Labels) : Labels :=
  foldl (λ filtered kv, if allowedLabelKeys kv.1 then <[kv.1 := kv.2]> filtered else filtered)
    (∅ : gmap string string) (range (labels : gmap string string)).

(* ------------------------------------------------------------------ *)
(** ** The in-memory meter (metrics.go) *)
(* ------------------------------------------------------------------ *)

(** The maps are keyed by the metric's name and by the serialized labels. *)
Record MemoryMeter := mkMemoryMeter {
  counters : gmap string (gmap string Z);
  gauges : gmap string (gmap string float64);
  histograms : gmap string (gmap string (list float64));
  labelKeys : gmap string (gmap string Labels)
}.

Definition NewMemoryMeter : MemoryMeter := mkMemoryMeter ∅ ∅ ∅ ∅.

(** [m[name]], made if it is nil. *)
Definition slot {V} (m : gmap string (gmap string V)) (name : string) : gmap string V :=
  default ∅ (m !! name).

Definition ensureLabelKey (name lk : string) (labels : Labels) (keys : gmap string (gmap string Labels)) :
    gmap string (gmap string Labels) :=
  let of_name := slot keys name in
  <[name := match of_name !! lk with Some _ => of_name | None => <[lk := labels]> of_name end]> keys.

Section meter.
Context `{MapRange}.

(** [+=] on an [int64] wraps around. *)
Definition Counter (name : string) (delta : Z) (labels : Labels) (m : MemoryMeter) : MemoryMeter :=
  let labels := filterLabels labels in
  let lk := Labels_String labels in
  let of_name := slot (counters m) name in
  mkMemoryMeter (<[name := <[lk := wrap64 (default 0%Z (of_name !! lk) + delta)]> of_name]> (counters m))
    (gauges m) (histograms m) (ensureLabelKey name lk labels (labelKeys m)).

Definition Gauge (name : string) (value : float64) (labels : Labels) (m : MemoryMeter) : MemoryMeter :=
  let labels := filterLabels labels in
  let lk := Labels_String labels in
  mkMemoryMeter (counters m) (<[name := <[lk := value]> (slot (gauges m) name)]> (gauges m))
    (histograms m) (ensureLabelKey name lk labels (labelKeys m)).

Definition Histogram (name : string) (value : float64) (labels : Labels) (m : MemoryMeter) : MemoryMeter :=
  let labels := filterLabels labels in
  let lk := Labels_String labels in
  let of_name := slot (histograms m) name in
  mkMemoryMeter (counters m) (gauges m)
    (<[name := <[lk := default [] (of_name !! lk) ++ [value]]> of_name]> (histograms m))
    (ensureLabelKey name lk labels (labelKeys m)).

(** An entry is its labels and its value. *)
Record MetricsSnapshot := mkMetricsSnapshot {
  Counters : gmap string (list (Labels * Z));
  Gauges : gmap string (list (Labels * float64));
  Histograms : gmap string (list (Labels * list float64))
}.

(** One of the three loops over a map of maps. *)
Definition snapshot_of {V} (keys : gmap string (gmap string Labels)) (m : gmap string (gmap string V)) :
    gmap string (list (Labels * V)) :=
  foldl (λ snap nm,
           <[nm.1 := map (λ kv, (default ∅ (slot keys nm.1 !! kv.1), kv.2)) (range nm.2)]> snap)
    ∅ (range m).

Definition Snapshot (m : MemoryMeter) : MetricsSnapshot :=
  mkMetricsSnapshot (snapshot_of (labelKeys m) (counters m)) (snapshot_of (labelKeys m) (gauges m))
    (snapshot_of (labelKeys m) (histograms m)).
End meter.

(* ------------------------------------------------------------------ *)
(** ** Spans (trace.go) *)
(* ------------------------------------------------------------------ *)

Section ids.
(** [uuid.New], by the number of identifiers drawn before. *)
Variable uuid : nat → string.
Definition NewTraceID (n : nat) : string * nat := (uuid n, S n).
Definition NewSpanID (n : nat) : string * nat := (uuid n, S n).
End ids.

(** Times are nanoseconds on the clock. *)
Record SpanEvent := mkSpanEvent {
  se_Name : string;
  se_Timestamp : Z;
  se_Attributes : gmap string string
}.

Record Span := mkSpan {
  sp_TraceID : string;
  sp_SpanID : string;
  sp_ParentSpanID : string;
  sp_Name : string;
  sp_Kind : string;
  sp_StartTime : Z;
  sp_EndTime : Z;
  sp_Status : string;
  sp_Attributes : gmap string string;
  sp_Events : list SpanEvent
}.

(** [Time.Sub] saturates at the ends of the 64-bit range. *)
Definition Duration (s : Span) : Z :=
  Z.max min_int64 (Z.min max_int64 (sp_EndTime s - sp_StartTime s)).

Definition AddEvent (now : Z) (name : string) (attrs : gmap string string) (s : Span) : Span :=
  mkSpan (sp_TraceID s) (sp_SpanID s) (sp_ParentSpanID s) (sp_Name s) (sp_Kind s) (sp_StartTime s)
    (sp_EndTime s) (sp_Status s) (sp_Attributes s) (sp_Events s ++ [mkSpanEvent name now attrs]).

(* ------------------------------------------------------------------ *)
(** ** Labels, verified *)
(* ------------------------------------------------------------------ *)

(** A loop over a map that builds another, entry by entry. *)
Lemma range_build `{MapRange} {V W} (P : string → V → bool) (f : string → V → W) (m : gmap string V) k :
  foldl (λ s kv, if P kv.1 kv.2 then <[kv.1 := f kv.1 kv.2]> s else s) (∅ : gmap string W) (range m) !! k
  = (v ← m !! k; if P k v then Some (f k v) else None).
Proof.
  assert (Hgen : ∀ l (s : gmap string W), NoDup l.*1 →
    foldl (λ s kv, if P kv.1 kv.2 then <[kv.1 := f kv.1 kv.2]> s else s) s l !! k
    = match list_to_map (M:=gmap string V) l !! k with
      | Some v => if P k v then Some (f k v) else s !! k
      | None => s !! k
      end).
  { induction l as [|[k' v'] l IH]; intros s; csimpl; [by rewrite lookup_empty|].
    intros [Hk Hnd]%NoDup_cons. rewrite IH by done. destruct (decide (k = k')) as [->|Hne].
    - rewrite !lookup_insert_eq. apply not_elem_of_list_to_map in Hk. rewrite Hk.
      destruct (P k' v'); [|done]. by rewrite lookup_insert_eq.
    - rewrite !lookup_insert_ne by done.
      assert (Hs : (if P k' v' then <[k' := f k' v']> s else s) !! k = s !! k)
        by (destruct (P k' v'); [by rewrite lookup_insert_ne|done]).
      by rewrite Hs. }
  rewrite Hgen by apply range_NoDup_keys. rewrite range_list_to_map, lookup_empty.
  by destruct (m !! k).
Qed.

Lemma filterLabels_lookup `{MapRange} (l : Labels) k :
  (filterLabels l : gmap string string) !! k
  = (v ← (l : gmap string string) !! k; if allowedLabelKeys k then Some v else None).
Proof. apply (range_build (λ k _, allowedLabelKeys k) (λ _ v, v)). Qed.

(** What the serialization is injective on: allowed keys, and values without the
    separator. *)
Definition plain_labels (l : gmap string string) : Prop :=
  ∀ k v, l !! k = Some v → allowedLabelKeys k = true ∧ has_byte comma v = false.

Definition pair_text (kv : string * string) : string := kv.1 +:+ String equals kv.2.

Lemma allowed_key_bytes k : allowedLabelKeys k = true → has_byte comma k = false ∧ has_byte equals k = false.
Proof.
  unfold allowedLabelKeys. rewrite bool_decide_eq_true. unfold allowed_keys.
  intros Hk. repeat (apply elem_of_cons in Hk as [->|Hk]; [done|]). by apply elem_of_nil in Hk.
Qed.

Lemma pair_text_inj k1 v1 k2 v2 :
  has_byte equals k1 = false → has_byte equals k2 = false →
  pair_text (k1, v1) = pair_text (k2, v2) → (k1, v1) = (k2, v2).
Proof.
  unfold pair_text. simpl. revert k2. induction k1 as [|c k1 IH]; intros [|d k2]; simpl; intros H1 H2 He;
    rewrite ?has_byte_cons in *; simplify_eq; try done; bool_simp; try done.
  specialize (IH k2 ltac:(done) ltac:(done) ltac:(done)). by simplify_eq.
Qed.

(** The entries in the order of their keys. *)
Definition sorted_entries `{MapRange} (l : gmap string string) : list (string * string) :=
  map (λ k, (k, default "" (l !! k))) (sort_strings (range_keys l)).

Lemma Labels_String_join `{MapRange} (l : gmap string string) :
  Labels_String l = if size l =? 0 then "" else join (String comma sempty) (map pair_text (sorted_entries l)).
Proof. unfold Labels_String, sorted_entries. by rewrite map_map. Qed.

Lemma elem_of_sorted_entries `{MapRange} (l : gmap string string) k v :
  (k, v) ∈ sorted_entries l ↔ l !! k = Some v.
Proof.
  unfold sorted_entries. rewrite list_elem_of_fmap. setoid_rewrite sort_strings_perm.
  setoid_rewrite elem_of_range_keys. split.
  - intros (k' & Heq & [v' Hv]). simplify_eq. by rewrite Hv.
  - intros Hv. exists k. rewrite Hv. eauto.
Qed.

Lemma sorted_entries_inj `{MapRange} (l1 l2 : gmap string string) :
  sorted_entries l1 = sorted_entries l2 → l1 = l2.
Proof.
  intros He. apply map_eq. intros k. apply option_eq. intros v.
  by rewrite <-!elem_of_sorted_entries, He.
Qed.

Lemma sorted_entries_nonempty `{MapRange} (l : gmap string string) : size l ≠ 0 → sorted_entries l ≠ [].
Proof.
  intros Hs He. apply Hs. apply map_size_empty_iff, map_eq. intros k.
  rewrite lookup_empty. destruct (l !! k) as [v|] eqn:Hk; [|done].
  apply elem_of_sorted_entries in Hk. rewrite He in Hk. by apply elem_of_nil in Hk.
Qed.

Lemma sorted_entries_plain `{MapRange} (l : gmap string string) :
  plain_labels l →
  Forall (λ kv, has_byte equals kv.1 = false ∧ has_byte comma (pair_text kv) = false) (sorted_entries l).
Proof.
  intros Hp. apply Forall_forall. intros [k v] Hkv. apply elem_of_sorted_entries in Hkv.
  destruct (Hp _ _ Hkv) as [Hk Hv]. destruct (allowed_key_bytes k Hk) as [Hc He].
  split; [done|]. unfold pair_text. rewrite has_byte_app, has_byte_cons. simpl. by rewrite Hc, Hv.
Qed.

Lemma map_pair_text_inj l1 l2 :
  Forall (λ kv, has_byte equals kv.1 = false) l1 → Forall (λ kv, has_byte equals kv.1 = false) l2 →
  map pair_text l1 = map pair_text l2 → l1 = l2.
Proof.
  intros H1. revert l2. induction H1 as [|[k v] l1 Hk H1 IH]; intros [|[k' v'] l2] H2 He; try done.
  inversion H2; subst. cbn [map] in He. injection He as He1 He2.
  f_equal; [by apply pair_text_inj|by apply IH].
Qed.

Lemma Labels_String_inj `{MapRange} (l1 l2 : gmap string string) :
  plain_labels l1 → plain_labels l2 → Labels_String l1 = Labels_String l2 → l1 = l2.
Proof.
  intros Hp1 Hp2. rewrite !Labels_String_join.
  pose proof (sorted_entries_plain l1 Hp1) as H1. pose proof (sorted_entries_plain l2 Hp2) as H2.
  assert (Hc : ∀ l : gmap string string, Forall (λ kv, has_byte equals kv.1 = false ∧
              has_byte comma (pair_text kv) = false) (sorted_entries l) → size l ≠ 0 →
            split_on comma (join (String comma sempty) (map pair_text (sorted_entries l)))
            = map pair_text (sorted_entries l)).
  { intros l Hl Hs. apply split_join.
    - intros He. apply map_eq_nil in He. by apply (sorted_entries_nonempty l).
    - apply Forall_map. eapply Forall_impl; [exact Hl|]. by intros kv [_ ?]. }
  assert (Hne : ∀ l : gmap string string, size l ≠ 0 →
            join (String comma sempty) (map pair_text (sorted_entries l)) ≠ "").
  { intros l Hs. pose proof (sorted_entries_nonempty l Hs).
    destruct (sorted_entries l) as [|[[|c k] v] [|x xs]]; try done; simpl; by destruct k. }
  destruct (Nat.eqb_spec (size l1) 0) as [Hs1|Hs1], (Nat.eqb_spec (size l2) 0) as [Hs2|Hs2]; intros He.
  - apply map_size_empty_inv in Hs1 as ->. by apply map_size_empty_inv in Hs2 as ->.
  - symmetry in He. by apply Hne in He.
  - by apply Hne in He.
  - apply sorted_entries_inj, map_pair_text_inj.
    + eapply Forall_impl; [exact H1|]. by intros kv [? _].
    + eapply Forall_impl; [exact H2|]. by intros kv [? _].
    + rewrite <-(Hc l1), <-(Hc l2) by done. by rewrite He.
Qed.

(* ------------------------------------------------------------------ *)
(** ** The meter against its history *)
(* ------------------------------------------------------------------ *)

(** What is recorded, in order. *)
Inductive record :=
| RCounter (name : string) (delta : Z) (labels : Labels)
| RGauge (name : string) (value : float64) (labels : Labels)
| RHistogram (name : string) (value : float64) (labels : Labels).

Definition record_labels (r : record) : Labels :=
  match r with RCounter _ _ l | RGauge _ _ l | RHistogram _ _ l => l end.
Definition record_name (r : record) : string :=
  match r with RCounter n _ _ | RGauge n _ _ | RHistogram n _ _ => n end.

(** The values recorded under a name and a set of labels, by kind. *)
Definition counted (r : record) : option Z := match r with RCounter _ d _ => Some d | _ => None end.
Definition gauged (r : record) : option float64 := match r with RGauge _ v _ => Some v | _ => None end.
Definition observed (r : record) : option float64 :=
  match r with RHistogram _ v _ => Some v | _ => None end.

Section history.
Context `{MapRange}.

Definition apply_record (m : MemoryMeter) (r : record) : MemoryMeter :=
  match r with
  | RCounter name d l => Counter name d l m
  | RGauge name v l => Gauge name v l m
  | RHistogram name v l => Histogram name v l m
  end.
Definition meter_after (rs : list record) : MemoryMeter := foldl apply_record NewMemoryMeter rs.

Definition values_at {A} (value : record → option A) (name : string) (l : Labels) (rs : list record) : list A :=
  omap (λ r, if decide (record_name r = name ∧ filterLabels (record_labels r) = l) then value r else None) rs.

(** The labels the meter keeps have no comma in a value. *)
Definition plain_record (r : record) : Prop := plain_labels (filterLabels (record_labels r)).

Lemma slot_insert {V} (m : gmap string (gmap string V)) n (s : gmap string V) n' :
  slot (<[n := s]> m) n' = if decide (n' = n) then s else slot m n'.
Proof.
  unfold slot. destruct (decide (n' = n)) as [->|Hn].
  - by rewrite lookup_insert_eq.
  - by rewrite lookup_insert_ne.
Qed.

(** The two ways a record changes the keys. *)
Lemma labelKeys_step m r :
  labelKeys (apply_record m r)
  = ensureLabelKey (record_name r) (Labels_String (filterLabels (record_labels r)))
      (filterLabels (record_labels r)) (labelKeys m).
Proof. by destruct r. Qed.

Lemma ensureLabelKey_lookup name lk l keys name' lk' :
  slot (ensureLabelKey name lk l keys) name' !! lk'
  = match slot keys name' !! lk' with
    | Some l' => Some l'
    | None => if decide (name' = name ∧ lk' = lk) then Some l else None
    end.
Proof.
  unfold ensureLabelKey. rewrite slot_insert. destruct (decide (name' = name)) as [->|Hn].
  - destruct (slot keys name !! lk) as [l0|] eqn:Hl.
    + destruct (slot keys name !! lk') eqn:Hl'; [done|]. rewrite decide_False; [done|].
      intros [_ ->]. congruence.
    + destruct (decide (lk' = lk)) as [->|Hk].
      * rewrite lookup_insert_eq, Hl. by rewrite decide_True.
      * rewrite lookup_insert_ne by done. destruct (slot keys name !! lk'); [done|].
        by rewrite decide_False by tauto.
  - destruct (slot keys name' !! lk'); [done|]. by rewrite decide_False by tauto.
Qed.

(** Labels are found back under their serialization. *)
Lemma labelKeys_ok rs :
  Forall plain_record rs →
  (∀ name lk l, slot (labelKeys (meter_after rs)) name !! lk = Some l →
     lk = Labels_String l ∧ plain_labels l) ∧
  (∀ r, r ∈ rs →
     slot (labelKeys (meter_after rs)) (record_name r) !! Labels_String (filterLabels (record_labels r))
     = Some (filterLabels (record_labels r))).
Proof.
  unfold meter_after. induction rs as [|r rs IH] using rev_ind; intros Hall.
  { split; [|intros r Hr; by apply elem_of_nil in Hr]. intros name lk l. unfold slot. simpl.
    by rewrite lookup_empty. }
  apply Forall_app in Hall as [Hall Hr]. rewrite Forall_singleton in Hr.
  destruct (IH Hall) as [IH1 IH2]. rewrite foldl_app. cbn [foldl].
  set (m := foldl apply_record NewMemoryMeter rs) in *. split.
  - intros name lk l. rewrite labelKeys_step, ensureLabelKey_lookup.
    destruct (slot (labelKeys m) name !! lk) eqn:Hl; [intros [= <-]; by eapply IH1|].
    case_decide as Hd; [|done]. destruct Hd as [-> ->]. by intros [= <-].
  - intros r' [Hr'| ->%list_elem_of_singleton]%elem_of_app; rewrite labelKeys_step, ensureLabelKey_lookup.
    + by rewrite (IH2 r' Hr').
    + destruct (slot (labelKeys m) (record_name r) !! _) as [l|] eqn:Hl; [|by rewrite decide_True].
      destruct (IH1 _ _ _ Hl) as [He Hp]. f_equal. symmetry. by apply Labels_String_inj.
Qed.

Lemma snapshot_of_lookup {V} keys (m : gmap string (gmap string V)) name :
  snapshot_of keys m !! name
  = (λ s, map (λ kv, (default ∅ (slot keys name !! kv.1), kv.2)) (range s)) <$> m !! name.
Proof.
  unfold snapshot_of. etransitivity.
  - apply (range_build (λ _ _, true)
      (λ n s, map (λ kv, (default ∅ (slot keys n !! kv.1), kv.2)) (range s))).
  - by destruct (m !! name).
Qed.

Section kind.
Context {A V : Type}.
Variable get : MemoryMeter → gmap string (gmap string V).
Variable value : record → option A.
Variable add : option V → A → V.
Hypothesis get_new : get NewMemoryMeter = ∅.
Hypothesis get_apply : ∀ m r,
  get (apply_record m r)
  = match value r with
    | Some a =>
        let lk := Labels_String (filterLabels (record_labels r)) in
        let s := slot (get m) (record_name r) in
        <[record_name r := <[lk := add (s !! lk) a]> s]> (get m)
    | None => get m
    end.

(** The value of a series: what its records add up to. *)
Definition series (name : string) (l : Labels) (rs : list record) : option V :=
  foldl (λ o a, Some (add o a)) None (values_at value name l rs).

Lemma values_at_snoc {B} (val : record → option B) name l rs r :
  values_at val name l (rs ++ [r])
  = values_at val name l rs
      ++ match val r with
         | Some a => if decide (record_name r = name ∧ filterLabels (record_labels r) = l) then [a] else []
         | None => []
         end.
Proof.
  unfold values_at. rewrite omap_app. f_equal. cbn [omap list_omap].
  case_decide; destruct (val r); done.
Qed.

Lemma kind_lookup rs name l :
  Forall plain_record rs → plain_labels l →
  slot (get (meter_after rs)) name !! Labels_String l = series name l rs.
Proof.
  unfold meter_after, series. induction rs as [|r rs IH] using rev_ind; intros Hall Hl.
  { cbn. rewrite get_new. unfold slot. by rewrite lookup_empty. }
  apply Forall_app in Hall as [Hall Hr]. rewrite Forall_singleton in Hr.
  rewrite foldl_app, values_at_snoc. cbn [foldl]. rewrite get_apply.
  destruct (value r) as [a|]; [|by rewrite app_nil_r, IH].
  cbv zeta. rewrite slot_insert. destruct (decide (name = record_name r)) as [->|Hn].
  - destruct (decide (filterLabels (record_labels r) = l)) as [Hf|Hf].
    + rewrite decide_True by done. rewrite foldl_app. cbn [foldl]. subst l.
      rewrite lookup_insert_eq, <-IH by done. done.
    + rewrite decide_False by tauto. rewrite app_nil_r, <-IH by done.
      apply lookup_insert_ne. intros He. apply Hf. by apply Labels_String_inj.
  - rewrite decide_False by (intros [He _]; congruence). by rewrite app_nil_r, IH.
Qed.

(** Every entry of the store is a series of some record. *)
Lemma kind_entries rs name lk v :
  Forall plain_record rs →
  slot (get (meter_after rs)) name !! lk = Some v →
  ∃ r, r ∈ rs ∧ record_name r = name ∧ lk = Labels_String (filterLabels (record_labels r)).
Proof.
  unfold meter_after. revert v. induction rs as [|r rs IH] using rev_ind; intros v Hall.
  { cbn. rewrite get_new. unfold slot. by rewrite lookup_empty. }
  apply Forall_app in Hall as [Hall _]. rewrite foldl_app. cbn [foldl]. rewrite get_apply.
  assert (Hold : ∀ v, slot (get (foldl apply_record NewMemoryMeter rs)) name !! lk = Some v →
    ∃ r', r' ∈ rs ++ [r] ∧ record_name r' = name ∧ lk = Labels_String (filterLabels (record_labels r'))).
  { intros v' Hv'. destruct (IH _ Hall Hv') as (r' & ? & ? & ?). exists r'. set_solver. }
  destruct (value r) as [a|]; [|apply Hold].
  cbv zeta. rewrite slot_insert. destruct (decide (name = record_name r)) as [Hn|Hn]; [|apply Hold].
  subst name. destruct (decide (lk = Labels_String (filterLabels (record_labels r)))) as [Hk|Hk].
  - intros _. exists r. set_solver.
  - rewrite lookup_insert_ne by done. apply Hold.
Qed.

(** The snapshot lists the series, each once. *)
Lemma snapshot_series rs name l v :
  Forall plain_record rs →
  (∃ es, snapshot_of (labelKeys (meter_after rs)) (get (meter_after rs)) !! name = Some es ∧ (l, v) ∈ es) ↔
  (∃ r, r ∈ rs ∧ record_name r = name ∧ filterLabels (record_labels r) = l) ∧ series name l rs = Some v.
Proof.
  intros Hall. rewrite snapshot_of_lookup.
  destruct (labelKeys_ok rs Hall) as [Hk1 Hk2].
  assert (Hin : ∀ s, get (meter_after rs) !! name = Some s → slot (get (meter_after rs)) name = s)
    by (intros s Hs; unfold slot; by rewrite Hs).
  split.
  - intros (es & Hes & Hin'). destruct (get (meter_after rs) !! name) as [s|] eqn:Hg; [|done].
    simpl in Hes. injection Hes as <-. apply list_elem_of_fmap in Hin' as ([lk v'] & Heq & Hlk).
    simpl in Heq. injection Heq as -> ->. apply elem_of_range in Hlk.
    rewrite <-(Hin s) in Hlk by done. destruct (kind_entries rs name lk v' Hall Hlk) as (r & Hr & Hn & ->).
    subst name. rewrite (Hk2 r Hr). simpl. split; [eauto|].
    rewrite <-Hlk. symmetry. apply kind_lookup; [done|].
    rewrite Forall_forall in Hall. by apply Hall.
  - intros ((r & Hr & Hn & Hf) & Hser). subst name l.
    assert (Hp : plain_labels (filterLabels (record_labels r)))
      by (rewrite Forall_forall in Hall; by apply Hall).
    rewrite <-kind_lookup in Hser by done.
    destruct (get (meter_after rs) !! record_name r) as [s|] eqn:Hg.
    + simpl. eexists. split; [done|]. apply list_elem_of_fmap.
      exists (Labels_String (filterLabels (record_labels r)), v). simpl. rewrite (Hk2 r Hr). split; [done|].
      apply elem_of_range. by rewrite <-(Hin s).
    + exfalso. unfold slot in Hser. rewrite Hg in Hser. simpl in Hser. by rewrite lookup_empty in Hser.
Qed.

Lemma snapshot_once rs name es :
  Forall plain_record rs →
  snapshot_of (labelKeys (meter_after rs)) (get (meter_after rs)) !! name = Some es → NoDup es.*1.
Proof.
  intros Hall. rewrite snapshot_of_lookup.
  destruct (get (meter_after rs) !! name) as [s|] eqn:Hg; [|done]. simpl. intros [= <-].
  destruct (labelKeys_ok rs Hall) as [_ Hk].
  assert (Hback : ∀ lk, lk ∈ range_keys s →
    Labels_String (default ∅ (slot (labelKeys (meter_after rs)) name !! lk)) = lk).
  { intros lk [v Hv]%elem_of_range_keys.
    destruct (kind_entries rs name lk v Hall) as (r & Hr & Hn & ->); [unfold slot; by rewrite Hg|].
    subst name. by rewrite (Hk r Hr). }
  pose proof (range_NoDup_keys s) as Hnd. unfold range_keys in *. revert Hback Hnd.
  induction (range s) as [|[lk v] es IH]; intros Hback Hnd; csimpl in *; [constructor|].
  apply NoDup_cons in Hnd as [Hlk Hnd]. apply NoDup_cons. split.
  - intros (lk' & Heq & Hin)%list_elem_of_fmap. apply list_elem_of_fmap in Hin as ([lk2 v2] & -> & Hin).
    simpl in Heq. apply Hlk. apply list_elem_of_fmap. exists (lk2, v2). split; [|done]. simpl.
    rewrite <-(Hback lk) by set_solver. rewrite Heq. apply Hback. apply elem_of_cons. right.
    apply list_elem_of_fmap. by exists (lk2, v2).
  - apply IH; [|done]. intros lk' Hin. apply Hback. set_solver.
Qed.
End kind.
End history.

Lemma counter_series vs :
  foldl (λ o a, Some (wrap64 (default 0%Z o + a))) None vs
  = match vs with [] => None | _ => Some (wrap64 (foldr Z.add 0%Z vs)) end.
Proof.
  induction vs as [|a vs IH] using rev_ind; [done|]. rewrite foldl_app, IH. cbn [foldl].
  assert (Hsum : foldr Z.add 0%Z (vs ++ [a]) = (foldr Z.add 0 vs + a)%Z).
  { clear. induction vs as [|b vs IH]; simpl; lia. }
  destruct vs as [|b vs]; [simpl; by rewrite Z.add_0_r|].
  simpl (default _ _). by rewrite wrap64_add_l, Hsum.
Qed.

Lemma gauge_series (vs : list float64) : foldl (λ _ a, Some a) None vs = last vs.
Proof. induction vs as [|a vs IH] using rev_ind; [done|]. by rewrite foldl_app, last_snoc. Qed.

Lemma histogram_series (vs : list float64) :
  foldl (λ o a, Some (default [] o ++ [a])) None vs = match vs with [] => None | _ => Some vs end.
Proof.
  induction vs as [|a vs IH] using rev_ind; [done|]. rewrite foldl_app, IH. cbn [foldl].
  destruct vs; done.
Qed.

(** A series that has a value has a record behind it. *)
Lemma values_at_record `{MapRange} {A} (value : record → option A) name l rs :
  values_at value name l rs ≠ [] →
  ∃ r, r ∈ rs ∧ record_name r = name ∧ filterLabels (record_labels r) = l.
Proof.
  intros Hne. destruct (values_at value name l rs) as [|a vs] eqn:E; [done|].
  assert (Ha : a ∈ values_at value name l rs) by (rewrite E; set_solver).
  unfold values_at in Ha. apply list_elem_of_omap in Ha as (r & Hr & Hv).
  case_decide as Hd; [|done]. destruct Hd. eauto.
Qed.

(* ------------------------------------------------------------------ *)
(** ** Properties *)
(* ------------------------------------------------------------------ *)

(** C37: after any history of records whose kept labels have no comma in a value, a
    snapshot is exact, whatever order its loops take: under each name every set
    of kept labels that was recorded has one entry and no other set has any, for
    counters, gauges and histograms alike; the entry holds for a counter the 64-bit
    sum of the deltas recorded under it, for a gauge the last value and for a
    histogram all values in order. *)
Theorem snapshot_is_the_history `{MapRange} rs name l :
  Forall plain_record rs →
  let snap := Snapshot (meter_after rs) in
  (∀ z, (∃ es, Counters snap !! name = Some es ∧ (l, z) ∈ es) ↔
        values_at counted name l rs ≠ [] ∧ z = wrap64 (foldr Z.add 0%Z (values_at counted name l rs))) ∧
  (∀ v, (∃ es, Gauges snap !! name = Some es ∧ (l, v) ∈ es) ↔
        last (values_at gauged name l rs) = Some v) ∧
  (∀ vs, (∃ es, Histograms snap !! name = Some es ∧ (l, vs) ∈ es) ↔
        values_at observed name l rs ≠ [] ∧ vs = values_at observed name l rs) ∧
  (∀ es, Counters snap !! name = Some es → NoDup es.*1) ∧
  (∀ es, Gauges snap !! name = Some es → NoDup es.*1) ∧
  (∀ es, Histograms snap !! name = Some es → NoDup es.*1).
Proof.
  intros Hall snap. unfold snap, Snapshot. cbn [Counters Gauges Histograms].
  assert (Hc : ∀ m r, counters (apply_record m r) = match counted r with
    | Some a => <[record_name r := <[Labels_String (filterLabels (record_labels r))
        := wrap64 (default 0%Z (slot (counters m) (record_name r) !! Labels_String (filterLabels (record_labels r))) + a)]>
        (slot (counters m) (record_name r))]> (counters m)
    | None => counters m end) by (by intros m []).
  split_and!.
  - intros z. rewrite (snapshot_series counters counted (λ o a, wrap64 (default 0%Z o + a)) eq_refl Hc _ _ _ _ Hall).
    unfold series. rewrite counter_series. split.
    + intros [_ Hz]. destruct (values_at counted name l rs) eqn:E; [done|]. split; [done|congruence].
    + intros [Hne ->]. split; [by apply (values_at_record counted)|].
      by destruct (values_at counted name l rs).
  - intros v. rewrite (snapshot_series gauges gauged (λ _ a, a) eq_refl) by (done || by intros m []).
    unfold series. rewrite gauge_series. split; [by intros [_ ?]|]. intros Hv. split; [|done].
    apply (values_at_record gauged). intros He. by rewrite He in Hv.
  - intros vs. rewrite (snapshot_series histograms observed (λ o a, default [] o ++ [a]) eq_refl)
      by (done || by intros m []).
    unfold series. rewrite histogram_series. split.
    + intros [_ Hz]. destruct (values_at observed name l rs) eqn:E; [done|]. split; [done|congruence].
    + intros [Hne ->]. split; [by apply (values_at_record observed)|].
      by destruct (values_at observed name l rs).
  - intros es. by apply (snapshot_once counters counted (λ o a, wrap64 (default 0%Z o + a)) eq_refl Hc).
  - intros es. apply (snapshot_once gauges gauged (λ _ a, a) eq_refl); [by intros m []|done].
  - intros es. apply (snapshot_once histograms observed (λ o a, default [] o ++ [a]) eq_refl); [by intros m []|done].
Qed.

Lemma plain_by_check `{MapRange} (l : Labels) :
  bool_decide (map_Forall (λ _ v, has_byte comma v = false) (l : gmap string string)) = true →
  plain_labels (filterLabels l).
Proof.
  rewrite bool_decide_eq_true. intros Hl k v. rewrite filterLabels_lookup.
  destruct ((l : gmap string string) !! k) as [v'|] eqn:Hk; [|done]. simpl.
  destruct (allowedLabelKeys k) eqn:Ha; [|done]. intros [= <-]. split; [done|]. by apply (Hl k).
Qed.

Definition provider_labels (v : string) : Labels := {[ "provider" := v; "user_id" := "u1" ]}.

Lemma snapshot_is_the_history_witness :
  let rs := [RCounter "calls" max_int64 (provider_labels "a"); RGauge "calls" (f_of_Z 3) ∅;
             RCounter "calls" 1 (provider_labels "a"); RCounter "calls" 5 (provider_labels "b")] in
  ∃ es, Counters (@Snapshot range_rev (@meter_after range_rev rs)) !! "calls" = Some es ∧
        (({[ "provider" := "a" ]} : Labels), min_int64) ∈ es.
Proof.
  assert (Hall : Forall (@plain_record range_rev)
    [RCounter "calls" max_int64 (provider_labels "a"); RGauge "calls" (f_of_Z 3) ∅;
     RCounter "calls" 1 (provider_labels "a"); RCounter "calls" 5 (provider_labels "b")]).
  { repeat (apply Forall_cons_2; [apply plain_by_check; vm_compute; reflexivity|]). apply Forall_nil_2. }
  refine (proj2 (proj1 (@snapshot_is_the_history range_rev _ "calls" _ Hall) _) _).
  split; vm_compute; [discriminate|reflexivity].
Defined.

(** the serialization of labels is not injective on values with a comma: two
    sets of allowed labels share a series, so the count of one is reported
    under the labels of the other. *)
Theorem labels_with_commas_collide name d1 d2 :
  let l1 : Labels := {[ "provider" := "a,status=ok" ]} in
  let l2 : Labels := {[ "provider" := "a"; "status" := "ok" ]} in
  l1 ≠ l2 ∧
  Counters (@Snapshot range_fwd (@meter_after range_fwd [RCounter name d1 l1; RCounter name d2 l2]))
    !! name = Some [(l1, wrap64 (wrap64 d1 + d2))].
Proof.
  split.
  - intros He. apply (f_equal (λ m : gmap string string, m !! "status")) in He. by vm_compute in He.
  - assert (Hs : Labels_String (H:=range_fwd) (filterLabels (H:=range_fwd) {[ "provider" := "a,status=ok" ]})
             = Labels_String (H:=range_fwd) (filterLabels (H:=range_fwd) {[ "provider" := "a"; "status" := "ok" ]}))
      by (vm_compute; reflexivity).
    assert (Hf : filterLabels (H:=range_fwd) {[ "provider" := "a,status=ok" ]} = {[ "provider" := "a,status=ok" ]})
      by (vm_compute; reflexivity).
    unfold meter_after. cbn [foldl apply_record]. unfold Counter. rewrite <-Hs, Hf.
    generalize (Labels_String (H:=range_fwd) {[ "provider" := "a,status=ok" ]}). intros lk.
    unfold Snapshot. cbn [Counters counters labelKeys NewMemoryMeter].
    rewrite snapshot_of_lookup, !slot_insert, !decide_True, insert_insert_eq, lookup_insert_eq by done.
    cbn [fmap option_fmap option_map]. f_equal.
    rewrite lookup_insert_eq. unfold slot at 2. rewrite lookup_empty. cbn [default from_option].
    rewrite insert_insert_eq. unfold slot at 2. rewrite lookup_empty. unfold default at 2. simpl from_option.
    rewrite lookup_empty. simpl default. unfold id. rewrite insert_empty.
    change (range ?m) with (map_to_list m). rewrite map_to_list_singleton. cbn [map fst snd].
    rewrite !ensureLabelKey_lookup. unfold slot. rewrite lookup_empty. simpl. rewrite lookup_empty.
    rewrite decide_True by (split; reflexivity). rewrite Z.add_0_l. reflexivity.
Qed.
