(* ===== verification/Retrieval.v ===== *)
(** The retrieval pipeline ([src/ai/retrieval/pipeline.go]): documents split into
    sentences, ranked by keyword overlap and assembled into a context.

    [strings.ToLower] is a parameter, since its tables are not part of the
    repository; [sort.Slice] is any function that does what its documentation
    says, which leaves open how it orders chunks of equal score. *)
From S2P Require Export GoWords GoValue.
From Stdlib Require Import Ascii.

(* ------------------------------------------------------------------ *)
(** ** Sorting with [sort.Slice] *)
(* ------------------------------------------------------------------ *)

(** A strict weak ordering on the elements of a list. *)
Record strict_weak {A} (less : A → A → bool) (l : list A) : Prop := {
  sw_asym x y : x ∈ l → y ∈ l → less x y = true → less y x = false;
  sw_trans x y z : x ∈ l → y ∈ l → z ∈ l → less y x = false → less z y = false → less z x = false
}.

(** What the documentation promises: the same elements, and, for a strict weak
    ordering, none before one that is less. *)
Class SliceSort := {
  sort_slice : ∀ {A : Type}, (A → A → bool) → list A → list A;
  sort_slice_perm : ∀ {A} (less : A → A → bool) l, sort_slice less l ≡ₚ l;
  sort_slice_sorted : ∀ {A} (less : A → A → bool) l,
    strict_weak less l → StronglySorted (λ x y, less y x = false) (sort_slice less l)
}.

(** Insertion sort is one such function. *)
Lemma strict_weak_tail {A} (less : A → A → bool) x l : strict_weak less (x :: l) → strict_weak less l.
Proof.
  intros [Ha Ht]. split; intros; [eapply Ha|eapply (Ht _ y)]; try done; by apply list_elem_of_further.
Qed.

Lemma insert_slice_sorted {A} (less : A → A → bool) x l :
  strict_weak less (x :: l) → StronglySorted (λ x y, less y x = false) l →
  StronglySorted (λ x y, less y x = false) (insert_sorted (λ x y, negb (less y x)) x l).
Proof.
  intros Hw Hs. induction Hs as [|y l Hs IH Hall]; simpl; [by repeat constructor|].
  rewrite Forall_forall in Hall. destruct (less y x) eqn:Hxy; simpl.
  - constructor.
    + apply IH. destruct Hw as [Ha Ht].
      split; intros; [eapply Ha|eapply (Ht _ y0)]; try done; set_solver.
    + rewrite insert_sorted_perm. constructor; [|by apply Forall_forall].
      apply (sw_asym _ _ Hw) in Hxy; [done|set_solver..].
  - constructor; [by constructor; [|apply Forall_forall]|]. constructor; [done|].
    apply Forall_forall. intros z Hz. apply (sw_trans _ _ Hw x y z); [set_solver..|done|by apply Hall].
Qed.

Lemma isort_slice_sorted {A} (less : A → A → bool) l :
  strict_weak less l → StronglySorted (λ x y, less y x = false) (isort (λ x y, negb (less y x)) l).
Proof.
  induction l as [|x l IH]; intros Hw; simpl; [constructor|]. apply insert_slice_sorted.
  - destruct Hw as [Ha Ht]. split; intros; [eapply Ha|eapply (Ht _ y)]; try done;
      rewrite elem_of_cons, elem_of_isort in *; set_solver.
  - apply IH. by eapply strict_weak_tail.
Qed.

Definition insertion : SliceSort :=
  {| sort_slice A less l := isort (λ x y, negb (less y x)) l;
     sort_slice_perm A less l := isort_perm _ l;
     sort_slice_sorted A less l := isort_slice_sorted less l |}.

(* ------------------------------------------------------------------ *)
(** ** Documents, chunks and tokens *)
(* ------------------------------------------------------------------ *)

Record Document := mkDocument {
  doc_ID : string;
  doc_Content : string;
  doc_Metadata : gmap string string
}.

(** The embedding of a chunk is never set by the pipeline. *)
Record Chunk := mkChunk {
  ch_ID : string;
  ch_DocumentID : string;
  ch_Content : string;
  ch_Metadata : gmap string string;
  ch_Score : float64
}.

Definition set_Score (f : float64) (c : Chunk) : Chunk :=
  mkChunk (ch_ID c) (ch_DocumentID c) (ch_Content c) (ch_Metadata c) f.

Definition splitSentences (text : string) : list string :=
  let text := trim_space text in
  if String.eqb text "" then []
  else
    let text := foldl (λ t r, replace_all t r (stake 1 r +:+ nl)) text [". "; "! "; "? "] in
    let result := filter (λ l, l ≠ "") (map trim_space (split_on "010" text)) in
    match result with [] => [text] | _ => result end.

Definition splitIntoChunks (doc : Document) : list Chunk :=
  imap (λ i s, mkChunk (doc_ID doc +:+ "-chunk-" +:+ pretty (Z.of_nat i)) (doc_ID doc) s
                 (doc_Metadata doc) (f_of_Z 0)) (splitSentences (doc_Content doc)).

Record Pipeline := mkPipeline {
  docs : gmap string Document;
  chunks : gmap string (list Chunk)
}.
Definition NewPipeline : Pipeline := mkPipeline ∅ ∅.

(** [ctx] tells whether the context is non-nil. *)
Definition Index `{MapRange} (ctx : bool) (doc : Document) (p : Pipeline) : Pipeline * option error :=
  if negb ctx then (p, Some (EFmt "retrieval: context is required" []))
  else if String.eqb (doc_ID doc) "" then (p, Some (EFmt "retrieval: document ID is required" []))
  else if String.eqb (doc_Content doc) "" then
    (p, Some (EFmt "retrieval: document content is required" []))
  else
    let metadata := foldl (λ m kv, <[kv.1 := kv.2]> m) ∅ (range (doc_Metadata doc)) in
    let doc := mkDocument (doc_ID doc) (doc_Content doc) metadata in
    (mkPipeline (<[doc_ID doc := doc]> (docs p)) (<[doc_ID doc := splitIntoChunks doc]> (chunks p)), None).

Section retrieve.
Context `{MapRange} `{SliceSort}.
(** [strings.ToLower] *)
Variable ToLower : string → string.

Definition tokenize (text : string) : gset string :=
  foldl (λ tokens w, if 1 <? slen w then {[w]} ∪ tokens else tokens) ∅ (Fields (ToLower text)).

Definition overlapScore (queryTokens chunkTokens : gset string) : float64 :=
  if size queryTokens =? 0 then f_of_Z 0
  else
    let overlap := length (filter (λ q, q ∈ chunkTokens) (elements queryTokens)) in
    fdiv (f_of_Z (Z.of_nat overlap)) (f_of_Z (Z.of_nat (size queryTokens))).

(** The loop over the documents' chunks stops when the context ends: [done i] is
    its error before the [i]-th document. *)
Fixpoint collect (done : nat → option error) (i : nat) (l : list (list Chunk)) : result error (list Chunk) :=
  match l with
  | [] => Ok []
  | cs :: l =>
      match done i with
      | Some e => Err e
      | None => match collect done (S i) l with Ok rest => Ok (cs ++ rest) | Err e => Err e end
      end
  end.

Definition scored (query : string) (c : Chunk) : Chunk :=
  set_Score (overlapScore (tokenize query) (tokenize (ch_Content c))) c.

Definition higher (a b : Chunk) : bool := fltb (ch_Score b) (ch_Score a).

(** The chunks of the result; its duration is not modelled. *)
Definition Retrieve (ctx : bool) (done : nat → option error) (query : string) (topK : Z) (p : Pipeline) :
    result error (list Chunk) :=
  if negb ctx then Err (EFmt "retrieval: context is required" [])
  else if String.eqb query "" then Err (EFmt "retrieval: query is required" [])
  else if (topK <=? 0)%Z then Err (EFmt "retrieval: topK must be positive" [])
  else
    match collect done 0 (range_values (chunks p)) with
    | Err e => Err e
    | Ok allChunks =>
        let allChunks := sort_slice higher (map (scored query) allChunks) in
        Ok (take (Z.to_nat (Z.min topK (Z.of_nat (length allChunks)))) allChunks)
    end.
End retrieve.

(* ------------------------------------------------------------------ *)
(** ** Assembling the context *)
(* ------------------------------------------------------------------ *)

Definition separator : string := nl +:+ nl +:+ "---" +:+ nl +:+ nl.

(** The loop; [totalLen] bytes have been taken. *)
Fixpoint context_parts (maxLength totalLen : Z) (cs : list Chunk) : list string :=
  match cs with
  | [] => []
  | c :: cs =>
      let len := Z.of_nat (slen (ch_Content c)) in
      if (0 <? maxLength)%Z && (maxLength <? totalLen + len)%Z then
        let remaining := (maxLength - totalLen)%Z in
        if (0 <? remaining)%Z then [stake (Z.to_nat remaining) (ch_Content c)] else []
      else ch_Content c :: context_parts maxLength (totalLen + len) cs
  end.

Definition AssembleContext (cs : list Chunk) (maxLength : Z) : string :=
  match cs with [] => "" | _ => join separator (context_parts maxLength 0 cs) end.

(* ------------------------------------------------------------------ *)
(** ** The context's budget *)
(* ------------------------------------------------------------------ *)

Lemma stake_app_le n (a b : string) : slen a ≤ n → stake n (a +:+ b) = a +:+ stake (n - slen a) b.
Proof. revert n. induction a as [|c a IH]; intros [|n] Hn; simpl in *; try lia; auto. f_equal. apply IH. lia. Qed.

Lemma stake_app_ge n (a b : string) : n ≤ slen a → stake n (a +:+ b) = stake n a.
Proof. revert n. induction a as [|c a IH]; intros [|n] Hn; simpl in *; try lia; auto. f_equal. apply IH. lia. Qed.

Lemma slen_join sep l : slen (join sep l) = slen (concat_str l) + slen sep * (length l - 1).
Proof.
  induction l as [|x l IH]; [simpl; lia|]. destruct l as [|y l]; [simpl; rewrite slen_app; simpl; lia|].
  rewrite join_cons by done. rewrite !slen_app, IH. simpl. rewrite !slen_app. lia.
Qed.

Lemma context_parts_unlimited maxLength t cs :
  (maxLength ≤ 0)%Z → context_parts maxLength t cs = map ch_Content cs.
Proof. intros Hm. revert t. induction cs as [|c cs IH]; intros t; simpl; [done|]. rewrite (proj2 (Z.ltb_ge _ _)) by lia. simpl. by rewrite IH. Qed.

Lemma context_parts_content maxLength t cs :
  (0 < maxLength)%Z → (0 ≤ t ≤ maxLength)%Z →
  concat_str (context_parts maxLength t cs) =
    stake (Z.to_nat (maxLength - t)) (concat_str (map ch_Content cs)).
Proof.
  intros Hm. revert t. induction cs as [|c cs IH]; intros t Ht; simpl; [by destruct (Z.to_nat _)|].
  rewrite (proj2 (Z.ltb_lt _ _)) by lia. simpl.
  destruct (Z.ltb_spec maxLength (t + Z.of_nat (slen (ch_Content c)))).
  - rewrite stake_app_ge by lia. destruct (Z.ltb_spec 0 (maxLength - t)); simpl; [by rewrite sapp_nil_r|].
    replace (Z.to_nat _) with 0 by lia. by destruct (ch_Content c).
  - simpl. rewrite IH by lia. rewrite stake_app_le by lia. do 2 f_equal. lia.
Qed.

(** Only the last part can be cut. *)
Lemma context_parts_whole maxLength t cs :
  let parts := context_parts maxLength t cs in
  take (length parts - 1) parts = take (length parts - 1) (map ch_Content cs).
Proof.
  revert t. induction cs as [|c cs IH]; intros t; [done|]. simpl.
  destruct (_ && _); [by destruct (0 <? _)%Z|]. specialize (IH (t + Z.of_nat (slen (ch_Content c)))%Z).
  simpl. destruct (context_parts _ _ cs) as [|p ps]; [done|]. simpl in *.
  rewrite Nat.sub_0_r in *. by f_equal.
Qed.

(** AssembleContext joins, with a separator of seven bytes, parts of which
    all but the last are whole chunks in their order. Without a positive limit
    they are all the chunks; with one, what they hold is exactly the first
    maxLength bytes of the chunks' contents, so the text is the longest the
    limit allows, and may end inside a sentence or inside a character. The
    separators are not counted: the context is seven bytes longer than that for
    each part after the first. *)
Theorem context_budget cs maxLength :
  ∃ parts,
    AssembleContext cs maxLength = join separator parts ∧
    take (length parts - 1) parts = take (length parts - 1) (map ch_Content cs) ∧
    concat_str parts =
      (if (0 <? maxLength)%Z then stake (Z.to_nat maxLength) (concat_str (map ch_Content cs))
       else concat_str (map ch_Content cs)) ∧
    ((maxLength ≤ 0)%Z → parts = map ch_Content cs) ∧
    slen (AssembleContext cs maxLength) = slen (concat_str parts) + 7 * (length parts - 1).
Proof.
  assert (HA : AssembleContext cs maxLength = join separator (context_parts maxLength 0 cs))
    by (by destruct cs).
  exists (context_parts maxLength 0 cs). rewrite HA. split_and!; [done|apply context_parts_whole| | |].
  - destruct (Z.ltb_spec 0 maxLength).
    + rewrite context_parts_content by lia. by rewrite Z.sub_0_r.
    + by rewrite context_parts_unlimited.
  - intros. by apply context_parts_unlimited.
  - by rewrite slen_join.
Qed.

(** Two five-byte chunks under a limit of eight give fifteen bytes. *)
Example context_exceeds_its_limit :
  let c s := mkChunk "" "" s ∅ (f_of_Z 0) in
  AssembleContext [c "alpha"; c "gamma"] 8 = "alpha" +:+ separator +:+ "gam".
Proof. reflexivity. Qed.

(* ------------------------------------------------------------------ *)
(** ** Ranking *)
(* ------------------------------------------------------------------ *)

Section ranking.
Context `{MapRange} `{SliceSort}.
Variable ToLower : string → string.

Lemma collect_done done i l : (∀ i, done i = None) → collect done i l = Ok (concat l).
Proof. intros Hd. revert i. induction l as [|cs l IH]; intros i; simpl; [done|]. by rewrite Hd, IH. Qed.

(** Go's integers hold the number of tokens; 2^53 is the bound up to which a
    [float64] holds an integer. *)
Lemma overlapScore_not_nan q c : (Z.of_nat (size q) < 2 ^ 53)%Z → overlapScore q c ≠ S754_nan.
Proof.
  intros Hq. unfold overlapScore. destruct (size q =? 0) eqn:E; [done|]. apply Nat.eqb_neq in E.
  set (o := length _). assert (Ho : o ≤ size q) by apply length_filter.
  destruct (f_of_Z_finite (Z.of_nat (size q))) as (m & e & ->); [lia|]. apply fdiv_not_nan.
  destruct o as [|o]; [done|]. by destruct (f_of_Z_finite (Z.of_nat (S o))) as (m' & e' & ->); [lia|].
Qed.

Lemma higher_strict_weak l : Forall (λ c, ch_Score c ≠ S754_nan) l → strict_weak higher l.
Proof.
  rewrite Forall_forall. intros Hl. unfold higher. split.
  - intros. apply fltb_asym; auto.
  - intros x y z Hx Hy Hz Hyx Hzy. by apply (fltb_neg_trans _ (ch_Score y)); auto.
Qed.

Lemma StronglySorted_app_inv {A} (R : A → A → Prop) l1 l2 :
  StronglySorted R (l1 ++ l2) → StronglySorted R l1 ∧ Forall (λ a, Forall (R a) l2) l1.
Proof.
  induction l1 as [|x l1 IH]; simpl; [by repeat constructor|]. intros Hs. inversion Hs as [|? ? Hs' Hall]; subst.
  apply Forall_app in Hall as [??]. destruct (IH Hs'). by repeat constructor.
Qed.

(** C33: For a query with fewer than 2^53 distinct tokens, Retrieve scores every
    chunk of the index and returns, best first, topK of them, or all when there
    are fewer: no chunk left out has a higher score than one returned. This
    holds for every order of the map and every sort that does what sort.Slice
    documents, although the order of equal scores is then open. *)
Theorem retrieve_returns_the_best done query topK p :
  (Z.of_nat (size (tokenize ToLower query)) < 2 ^ 53)%Z → (∀ i, done i = None) →
  query ≠ "" → (0 < topK)%Z →
  ∃ best rest,
    Retrieve ToLower true done query topK p = Ok best ∧
    best ++ rest ≡ₚ map (scored ToLower query) (concat (range_values (chunks p))) ∧
    length best = min (Z.to_nat topK) (length (concat (range_values (chunks p)))) ∧
    StronglySorted (λ a b, fltb (ch_Score a) (ch_Score b) = false) best ∧
    Forall (λ a, Forall (λ b, fltb (ch_Score a) (ch_Score b) = false) rest) best.
Proof.
  intros Hq Hd Hne Hk. unfold Retrieve. simpl.
  rewrite (proj2 (String.eqb_neq _ _) Hne), (proj2 (Z.leb_gt _ _)) by lia. rewrite collect_done by done.
  set (all := concat _). set (l := sort_slice _ _). set (n := Z.to_nat (Z.min _ _)).
  assert (Hl : length l = length all) by (unfold l; by rewrite sort_slice_perm, length_map).
  assert (Hs : StronglySorted (λ a b, fltb (ch_Score a) (ch_Score b) = false) l).
  { apply sort_slice_sorted, higher_strict_weak, Forall_map, Forall_true. intros c.
    by apply overlapScore_not_nan. }
  rewrite <-(take_drop n l) in Hs. apply StronglySorted_app_inv in Hs as [Hs Hall].
  exists (take n l), (drop n l). split_and!; [done| | |done|done].
  - rewrite take_drop. apply sort_slice_perm.
  - rewrite length_take. unfold n. lia.
Qed.

(** Retrieve fails, without looking at the index, for a nil context, an empty
    query or a topK that is not positive, in that order, and otherwise only with
    the context's error; on an index without documents it succeeds even after
    the context has ended. *)
Theorem retrieve_errors ctx done query topK p e :
  Retrieve ToLower ctx done query topK p = Err e →
  (ctx = false ∧ e = EFmt "retrieval: context is required" [] ∨
   ctx = true ∧ query = "" ∧ e = EFmt "retrieval: query is required" [] ∨
   ctx = true ∧ query ≠ "" ∧ (topK ≤ 0)%Z ∧ e = EFmt "retrieval: topK must be positive" [] ∨
   ctx = true ∧ query ≠ "" ∧ (0 < topK)%Z ∧ ∃ i, i < size (chunks p) ∧ done i = Some e ∧ ∀ j, j < i → done j = None).
Proof.
  assert (Hc : ∀ l k, collect done k l = Err e →
    ∃ i, i < length l ∧ done (k + i) = Some e ∧ ∀ j, j < i → done (k + j) = None).
  { induction l as [|cs l IH]; intros k; simpl; [done|]. destruct (done k) as [e'|] eqn:Hk.
    - intros [= <-]. exists 0. rewrite Nat.add_0_r. split_and!; [lia|done|]. intros; lia.
    - destruct (collect done (S k) l) eqn:Hl; [done|]. intros [= ->].
      destruct (IH _ Hl) as (i & Hi & He & Hj). exists (S i). rewrite <-plus_n_Sm. split_and!; [lia|done|].
      intros [|j] Hlt; [by rewrite Nat.add_0_r|]. rewrite <-plus_n_Sm. apply Hj. lia. }
  unfold Retrieve. destruct ctx; simpl; [|intros [= <-]; auto].
  destruct (String.eqb_spec query ""); [intros [= <-]; auto|].
  destruct (Z.leb_spec topK 0); [intros [= <-]; auto 8|].
  destruct (collect _ _ _) eqn:E; [done|]. intros [= ->]. apply Hc in E as (i & Hi & He & Hj).
  do 3 right. split_and!; [done..|]. exists i. split_and!; [|done|done].
  unfold range_values in Hi. by rewrite length_fmap, range_length in Hi.
Qed.
End ranking.

(* ------------------------------------------------------------------ *)
(** ** Splitting loses no word *)
(* ------------------------------------------------------------------ *)

Lemma Fields_replace p s :
  p ∈ [". "; "! "; "? "] → Fields (replace_all s p (stake 1 p +:+ nl)) = Fields s.
Proof.
  intros Hp. apply alike_fields, replace_alike; repeat (apply elem_of_cons in Hp as [->|Hp]);
    try (by apply elem_of_nil in Hp); try done; repeat constructor.
Qed.

(** The words of a text are those of its sentences. *)
Lemma splitSentences_words s : concat (map Fields (splitSentences s)) = Fields s.
Proof.
  unfold splitSentences. rewrite <-(Fields_trim s). generalize (trim_space s) as t. intros t.
  destruct (String.eqb_spec t "") as [->|_]; [done|].
  set (t' := foldl _ t _).
  assert (Ht : Fields t' = Fields t).
  { unfold t'. cbn [foldl]. rewrite !Fields_replace by set_solver. done. }
  assert (Hl : concat (map Fields (filter (λ l, l ≠ "") (map trim_space (split_on "010" t')))) = Fields t').
  { rewrite <-(Fields_lines t'). induction (split_on "010" t') as [|l ls IH]; [done|]. cbn [map].
    rewrite filter_cons. cbn [concat]. rewrite <-IH, <-(Fields_trim l).
    destruct (decide (trim_space l ≠ "")) as [|Hn]; [done|]. apply dec_stable in Hn. by rewrite Hn. }
  destruct (filter _ _) as [|l ls]; [|by rewrite <-Ht, <-Hl]. cbn [map concat]. by rewrite app_nil_r.
Qed.

Lemma splitIntoChunks_words doc :
  concat (map (λ c, Fields (ch_Content c)) (splitIntoChunks doc)) = Fields (doc_Content doc).
Proof.
  rewrite <-splitSentences_words. unfold splitIntoChunks. f_equal. apply list_eq. intros i.
  change (@map) with (λ A B, @fmap list _ A B). cbv beta. rewrite !list_lookup_fmap, list_lookup_imap.
  by destruct (splitSentences (doc_Content doc) !! i).
Qed.

(* ------------------------------------------------------------------ *)
(** ** The index *)
(* ------------------------------------------------------------------ *)

(** What the pipeline keeps: documents under their identifiers, and the chunks
    of each. *)
Definition consistent (p : Pipeline) : Prop :=
  chunks p = splitIntoChunks <$> docs p ∧ map_Forall (λ k d, doc_ID d = k) (docs p).

Lemma chunk_id_inj d1 d2 i j :
  d1 +:+ "-chunk-" +:+ pretty (Z.of_nat i) = d2 +:+ "-chunk-" +:+ pretty (Z.of_nat j) → d1 = d2 ∧ i = j.
Proof.
  assert (Hd : ∀ n, has_byte "-" (pretty (Z.of_nat n)) = false).
  { intros n. apply digits_no_byte; [done|]. apply pretty_nat_digits. }
  assert (Ha : ∀ d n, d +:+ "-chunk-" +:+ pretty (Z.of_nat n) =
    (d +:+ "-chunk") +:+ String "-" (pretty (Z.of_nat n))) by (intros; by rewrite sapp_assoc).
  rewrite !Ha. intros Heq. pose proof Heq as Heq'.
  apply app_byte_inv in Heq as [[Hp Hn]|[f Hf]]; [| |done].
  - split; [|apply (inj pretty) in Hn; lia]. by apply sapp_inj_r in Hp.
  - rewrite Hf, (sapp_assoc (d1 +:+ _)) in Heq'. apply sapp_inj_l in Heq'. injection Heq' as Heq'.
    pose proof (Hd i) as Hi. rewrite Heq', has_byte_app, has_byte_cons in Hi. simpl in Hi.
    by rewrite orb_true_r in Hi.
Qed.

Lemma splitIntoChunks_ids d c :
  c ∈ splitIntoChunks d → ∃ i, ch_ID c = doc_ID d +:+ "-chunk-" +:+ pretty (Z.of_nat i).
Proof. unfold splitIntoChunks. intros Hc. apply list_elem_of_lookup in Hc as [i Hi]. rewrite list_lookup_imap in Hi. apply fmap_Some in Hi as (s & _ & ->). by exists i. Qed.

Lemma splitIntoChunks_NoDup d : NoDup (map ch_ID (splitIntoChunks d)).
Proof.
  apply NoDup_alt. intros i j x. unfold splitIntoChunks. change (map ch_ID) with (fmap (M := list) ch_ID).
  rewrite !list_lookup_fmap, !list_lookup_imap. destruct (_ !! i), (_ !! j); try done. simpl.
  intros [= <-] [= Heq]. symmetry. by apply chunk_id_inj in Heq as [_ ?].
Qed.

Section index.
Context `{MapRange}.

(** Indexing keeps the index consistent: it fails for a nil context, a document
    without identifier or without content, leaving the pipeline as it is, and
    otherwise replaces the document of that identifier and its chunks by copies
    of the new ones. *)
Lemma Index_result ctx doc p :
  Index ctx doc p =
  match (if negb ctx then Some "retrieval: context is required"
         else if String.eqb (doc_ID doc) "" then Some "retrieval: document ID is required"
         else if String.eqb (doc_Content doc) "" then Some "retrieval: document content is required"
         else None) with
  | Some m => (p, Some (EFmt m []))
  | None => (mkPipeline (<[doc_ID doc := doc]> (docs p)) (<[doc_ID doc := splitIntoChunks doc]> (chunks p)), None)
  end.
Proof.
  unfold Index. repeat (case_match; simplify_eq; try done). cbv zeta. rewrite copy_map. by destruct doc.
Qed.

Lemma Index_consistent ctx doc p : consistent p → consistent (Index ctx doc p).1.
Proof.
  intros [Hc Hd]. rewrite Index_result. case_match; [done|]. split; simpl.
  - by rewrite fmap_insert, Hc.
  - by apply map_Forall_insert_2.
Qed.

Lemma fmap_concat_values {A B C} (f : B → C) (l : list (A * list B)) :
  f <$> concat l.*2 = l ≫= λ kv, f <$> kv.2.
Proof. induction l as [|[k v] l IH]; csimpl; [done|]. by rewrite fmap_app, IH. Qed.

Lemma chunk_ids_NoDup p : consistent p → NoDup (map ch_ID (concat (range_values (chunks p)))).
Proof.
  intros [Hc Hd]. change (map ch_ID) with (fmap (M := list) ch_ID). unfold range_values.
  rewrite fmap_concat_values.
  assert (Hin : ∀ k cs, (k, cs) ∈ range (chunks p) → ∃ d, cs = splitIntoChunks d ∧ doc_ID d = k).
  { intros k cs Hin. apply elem_of_range in Hin. rewrite Hc in Hin.
    apply lookup_fmap_Some in Hin as (d & <- & Hk). exists d. split; [done|]. by apply (Hd k). }
  apply NoDup_bind.
  - intros [k1 cs1] [k2 cs2] x H1 H2 Hx1 Hx2. pose proof H1 as H1'. pose proof H2 as H2'.
    apply Hin in H1' as (d1 & -> & Hk1). apply Hin in H2' as (d2 & -> & Hk2). simpl in *.
    apply list_elem_of_fmap in Hx1 as (c1 & -> & Hx1). apply list_elem_of_fmap in Hx2 as (c2 & Heq & Hx2).
    apply splitIntoChunks_ids in Hx1 as [i Hi]. apply splitIntoChunks_ids in Hx2 as [j Hj].
    rewrite Hi, Hj in Heq. apply chunk_id_inj in Heq as [Heq _]. assert (k1 = k2) as -> by congruence.
    apply elem_of_range in H1, H2. congruence.
  - intros [k cs] Hkc. apply Hin in Hkc as (d & -> & _). apply splitIntoChunks_NoDup.
  - eapply NoDup_fmap_1, range_NoDup_keys.
Qed.

(** The calls of [Index] one after the other. *)
Definition index_all (l : list (bool * Document)) (p : Pipeline) : Pipeline :=
  foldl (λ p x, (Index x.1 x.2 p).1) p l.

Lemma index_all_consistent l p : consistent p → consistent (index_all l p).
Proof. revert p. induction l as [|x l IH]; intros p Hp; simpl; [done|]. by apply IH, Index_consistent. Qed.

(** Whatever calls of Index a pipeline has seen, it holds exactly the chunks
    of its documents, one list per document under the document's identifier, and
    the identifiers of all its chunks differ, although one document's identifier
    may look like another's chunk. Splitting loses no word and makes none up: the
    words of a document are, in order, those of its chunks. A call that fails
    changes nothing, and one that succeeds replaces the document with all its
    chunks. *)
Theorem index_keeps_chunk_ids_unique l ctx doc :
  let p := index_all l NewPipeline in
  let '(p', e) := Index ctx doc p in
  (chunks p = splitIntoChunks <$> docs p ∧ map_Forall (λ k d, doc_ID d = k) (docs p)) ∧
  NoDup (map ch_ID (concat (range_values (chunks p)))) ∧
  concat (map (λ c, Fields (ch_Content c)) (splitIntoChunks doc)) = Fields (doc_Content doc) ∧
  (e = None ↔ ctx = true ∧ doc_ID doc ≠ "" ∧ doc_Content doc ≠ "") ∧
  (e ≠ None → p' = p) ∧
  (e = None → docs p' = <[doc_ID doc := doc]> (docs p) ∧
              chunks p' = <[doc_ID doc := splitIntoChunks doc]> (chunks p)).
Proof.
  intros p. assert (Hp : consistent p) by (by apply index_all_consistent).
  rewrite Index_result. pose proof (chunk_ids_NoDup p Hp) as Hu. destruct Hp as [Hc Hd].
  pose proof (splitIntoChunks_words doc) as Hw.
  destruct ctx, (String.eqb_spec (doc_ID doc) ""), (String.eqb_spec (doc_Content doc) ""); simpl;
    split_and!; first [done | naive_solver].
Qed.
End index.

(** A pipeline with one document of two sentences. *)
Definition two_sentences : Pipeline :=
  @index_all range_fwd [(true, mkDocument "d" "Go maps are unordered. Slices keep order." ∅)] NewPipeline.

Lemma retrieve_returns_the_best_witness :
  let R := @Retrieve range_fwd insertion in
  map ch_Content (concat (@range_values range_fwd _ (chunks two_sentences)))
    = ["Go maps are unordered."; "Slices keep order."] ∧
  ∃ best rest,
    R lower true (λ _, None) "slices order" 1%Z two_sentences = Ok best ∧
    map ch_Content best = ["Slices keep order."] ∧
    best ++ rest ≡ₚ map (scored lower "slices order")
      (concat (@range_values range_fwd _ (chunks two_sentences))).
Proof.
  split; [reflexivity|].
  destruct (@retrieve_returns_the_best range_fwd insertion lower (λ _, None) "slices order" 1%Z two_sentences)
    as (best & rest & Hr & Hp & _); [vm_compute; reflexivity|done|done|done|].
  exists best, rest. split; [exact Hr|]. split; [|exact Hp].
  vm_compute in Hr. injection Hr as <-. reflexivity.
Defined.

Lemma retrieve_errors_witness :
  @Retrieve range_fwd insertion lower true (λ _, None) "" 3%Z two_sentences
    = Err (EFmt "retrieval: query is required" []) ∧
  ("" = "" ∨ False).
Proof.
  split; [reflexivity|].
  destruct (@retrieve_errors range_fwd insertion lower true (λ _, None) "" 3%Z two_sentences
    (EFmt "retrieval: query is required" []) eq_refl) as [[? _]|[(_ & ? & _)|[(_ & ? & _)|(_ & ? & _)]]];
    [done|by left|done|done].
Defined.
