(* ===== verification/Safety.v ===== *)
(** The safety filter ([src/ai/safety/safety.go]): keyword and credential checks,
    and the masking of personal data. *)
From S2P Require Export Regex GoValue.
From Stdlib Require Import Ascii.

(* ------------------------------------------------------------------ *)
(** ** Case folding *)
(* ------------------------------------------------------------------ *)

(** Two letters outside ASCII fold to ASCII ones: the long s (U+017F) to [s] and
    the Kelvin sign (U+212A) to [k]. *)
Definition long_s : regex := Word (bytes [197; 191]).
Definition kelvin : regex := Word (bytes [226; 132; 170]).

(** A letter, or a word, under [(?i)]. *)
Definition FoldChr (c : ascii) : regex :=
  let plain := Class (λ d, Ascii.eqb (ascii_lower d) c) in
  if Ascii.eqb c "k" then Alt plain kelvin
  else if Ascii.eqb c "s" then Alt plain long_s
  else plain.
Fixpoint FoldWord (s : string) : regex :=
  match s with sempty => Eps | String c s => Cat (FoldChr c) (FoldWord s) end.

(** A class of characters that includes all letters, under [(?i)]. *)
Definition FoldClass (P : ascii → bool) : regex :=
  Alt (Class (λ c, P c || P (ascii_lower c))) (Alt long_s kelvin).

(** [strings.ToLower], as far as the result is ASCII: besides the capitals, two
    letters have an ASCII lower case, U+0130 and the Kelvin sign. Other characters
    are left as they are; the words looked for in the result are ASCII. *)
Fixpoint lower_go (skip : nat) (s : string) : string :=
  match s with
  | sempty => sempty
  | String c s' =>
      match skip with
      | S k => lower_go k s'
      | O =>
          if has_prefix s (bytes [196; 176]) then String "i" (lower_go 1 s')
          else if has_prefix s (bytes [226; 132; 170]) then String "k" (lower_go 2 s')
          else String (ascii_lower c) (lower_go 0 s')
      end
  end.
Definition ToLower (s : string) : string := lower_go 0 s.

(* ------------------------------------------------------------------ *)
(** ** Categories, verdicts and policies *)
(* ------------------------------------------------------------------ *)

Definition SafetyCategory : Type := string.
Definition CategoryHarmful : SafetyCategory := "harmful".
Definition CategoryPII : SafetyCategory := "pii".
Definition CategoryToxic : SafetyCategory := "toxic".
Definition CategorySecret : SafetyCategory := "secret".
Definition CategoryCustom : SafetyCategory := "custom".

Record SafetyVerdict := mkSafetyVerdict {
  sv_Safe : bool;
  sv_Category : SafetyCategory;
  sv_Confidence : float64;
  sv_Reason : string;
  sv_MaskedText : string
}.
Definition safe_verdict : SafetyVerdict := mkSafetyVerdict true "" (f_of_Z 0) "" "".

Record SafetyPolicy := mkSafetyPolicy {
  sp_TenantID : string;
  sp_EnabledCategories : list SafetyCategory;
  sp_BlockThreshold : float64;
  sp_MaskPII : bool
}.

(** A filter is its policy: the expressions and words are the same for all. *)
Record Filter := mkFilter { fl_policy : SafetyPolicy }.
Definition NewFilter (policy : SafetyPolicy) : Filter := mkFilter policy.

Definition chr_in (s : string) (c : ascii) : bool := has_byte c s.
Definition is_letter (c : ascii) : bool :=
  let n := nat_of_ascii c in (97 <=? n) && (n <=? 122).
Definition digits (n : nat) : regex := Rep n (Class is_digit).

(** [(?i)\b[a-z0-9._%+\-]+@[a-z0-9.\-]+\.[a-z]{2,}\b] *)
Definition emailRe : regex :=
  Sealed
    (Cat (Plus (FoldClass (λ c, is_letter c || is_digit c || chr_in "._%+-" c)))
    (Cat (Chr "@")
    (Cat (Plus (FoldClass (λ c, is_letter c || is_digit c || chr_in ".-" c)))
    (Cat (Chr ".")
         (AtLeast 2 (FoldClass is_letter)))))).

(** [\b\d{3}[-.]?\d{3}[-.]?\d{4}\b] *)
Definition phoneRe : regex :=
  Sealed (Cat (digits 3) (Cat (Opt (Class (chr_in "-."))) (Cat (digits 3)
    (Cat (Opt (Class (chr_in "-."))) (digits 4))))).

(** [\b\d{3}-\d{2}-\d{4}\b] *)
Definition ssnRe : regex :=
  Sealed (Cat (digits 3) (Cat (Chr "-") (Cat (digits 2) (Cat (Chr "-") (digits 4))))).

(** [(?i)(api[_\-]?key|sk\-|obs_)[a-zA-Z0-9\-_]{8,}] *)
Definition apiKeyRe : regex :=
  Cat (Alt (Cat (FoldWord "api") (Cat (Opt (Class (chr_in "_-"))) (FoldWord "key")))
      (Alt (Cat (FoldWord "sk") (Chr "-")) (Cat (FoldWord "obs") (Chr "_"))))
    (AtLeast 8 (FoldClass (λ c, is_letter c || is_digit c || chr_in "-_" c))).

(** [\s] is tab, line feed, form feed, carriage return and space; for [\S] the
    bytes of a character above ASCII are not white space either. *)
Definition re_space (c : ascii) : bool :=
  let n := nat_of_ascii c in (n =? 9) || (n =? 10) || (n =? 12) || (n =? 13) || (n =? 32).

(** [(?i)(password|passwd|pwd)\s*[:=]\s*\S+] *)
Definition passwordRe : regex :=
  Cat (Alt (FoldWord "password") (Alt (FoldWord "passwd") (FoldWord "pwd")))
    (Cat (Star (Class re_space)) (Cat (Class (chr_in ":="))
      (Cat (Star (Class re_space)) (Plus (Class (λ c, negb (re_space c))))))).

Definition harmfulWords : list string :=
  ["bomb"; "kill"; "attack"; "weapon"; "explosive"; "hack"; "exploit"; "malware"; "terrorist"].

Definition hasCategory (f : Filter) (cat : SafetyCategory) : bool :=
  match sp_EnabledCategories (fl_policy f) with
  | [] => false
  | cs => existsb (λ c, String.eqb c cat) cs
  end.

Definition exceedsThreshold (f : Filter) (confidence : float64) : bool :=
  let threshold := sp_BlockThreshold (fl_policy f) in
  if fleb threshold (f_of_Z 0) then true else fleb threshold confidence.

(* ------------------------------------------------------------------ *)
(** ** Checking input and output *)
(* ------------------------------------------------------------------ *)

Definition no_context : error := EFmt "safety: context is required" [].

(** The loop over the words. *)
Fixpoint harmful_loop (f : Filter) (lower : string) (words : list string) : option SafetyVerdict :=
  match words with
  | [] => None
  | word :: words =>
      if contains lower word then
        let confidence := dec_to_float false 8 (-1) in
        if negb (exceedsThreshold f confidence) then harmful_loop f lower words
        else Some (mkSafetyVerdict false CategoryHarmful confidence
                     ("potentially harmful content detected: " +:+ word) "")
      else harmful_loop f lower words
  end.

(** [ctx] tells whether the context is non-nil. *)
Definition CheckInput (f : Filter) (ctx : bool) (text : string) : result error SafetyVerdict :=
  if negb ctx then Err no_context
  else if String.eqb text "" then Ok safe_verdict
  else if hasCategory f CategoryHarmful then
    match harmful_loop f (ToLower text) harmfulWords with
    | Some v => Ok v
    | None => Ok safe_verdict
    end
  else Ok safe_verdict.

(** One of the two checks for secrets. *)
Definition secret_check (f : Filter) (re : regex) (confidence : float64) (reason text : string) :
    option SafetyVerdict :=
  if MatchString re text then
    if exceedsThreshold f confidence
    then Some (mkSafetyVerdict false CategorySecret confidence reason "")
    else None
  else None.

Definition CheckOutput (f : Filter) (ctx : bool) (text : string) : result error SafetyVerdict :=
  if negb ctx then Err no_context
  else if String.eqb text "" then Ok safe_verdict
  else if hasCategory f CategorySecret then
    match secret_check f apiKeyRe (dec_to_float false 9 (-1)) "potential API key or secret detected" text with
    | Some v => Ok v
    | None =>
        match secret_check f passwordRe (dec_to_float false 85 (-2)) "potential password detected" text with
        | Some v => Ok v
        | None => Ok safe_verdict
        end
    end
  else Ok safe_verdict.

(* ------------------------------------------------------------------ *)
(** ** Masking *)
(* ------------------------------------------------------------------ *)

Definition pii_verdict (confidence : float64) (reason masked : string) : SafetyVerdict :=
  mkSafetyVerdict false CategoryPII confidence reason masked.
Definition email_verdict : SafetyVerdict :=
  pii_verdict (dec_to_float false 95 (-2)) "email address detected" (marker "EMAIL").
Definition phone_verdict : SafetyVerdict :=
  pii_verdict (dec_to_float false 9 (-1)) "phone number detected" (marker "PHONE").
Definition ssn_verdict : SafetyVerdict :=
  pii_verdict (dec_to_float false 95 (-2)) "SSN detected" (marker "SSN").

(** [strings.Count(s, c)] for one byte *)
Definition count_byte (c : ascii) (s : string) : nat := length (split_on c s) - 1.

(** The functions given to [ReplaceAllStringFunc]: the text that replaces the
    match, and the verdict they append. *)
Definition mask_email (m : string) : string * option SafetyVerdict :=
  if contains m "@" && (1 <=? count_byte "." m) then
    match index_of "@" m with
    | Some i =>
        let part0 := stake i m in
        let part1 := sdrop (i + 1) m in
        if (0 <? slen part0) && (0 <? slen part1) && contains part1 "."
        then (marker "EMAIL", Some email_verdict) else (m, None)
    | None => (m, None)
    end
  else (m, None).
Definition mask_phone (_ : string) : string * option SafetyVerdict := (marker "PHONE", Some phone_verdict).
Definition mask_ssn (_ : string) : string * option SafetyVerdict := (marker "SSN", Some ssn_verdict).

(** [ReplaceAllStringFunc] with such a function: the verdicts come in the order of
    the matches. *)
Definition mask_stage (re : regex) (f : string → string * option SafetyVerdict)
    (st : string * list SafetyVerdict) : string * list SafetyVerdict :=
  let '(masked, verdicts) := st in
  (ReplaceAllStringFunc re masked (λ m, (f m).1),
   verdicts ++ omap (λ m, (f m).2) (found_texts (tokens re masked))).

Definition MaskPII (f : Filter) (ctx : bool) (text : string) :
    string * list SafetyVerdict * option error :=
  if negb ctx then ("", [], Some no_context)
  else if String.eqb text "" then ("", [], None)
  else if negb (sp_MaskPII (fl_policy f)) || negb (hasCategory f CategoryPII) then (text, [], None)
  else
    let st := mask_stage emailRe mask_email (text, []) in
    let st := mask_stage phoneRe mask_phone st in
    let st := mask_stage ssnRe mask_ssn st in
    (st, None).

(* ------------------------------------------------------------------ *)
(** ** The expressions for personal data *)
(* ------------------------------------------------------------------ *)

(** What the masking of the three expressions relies on. *)
Definition pii_byte (c : ascii) : bool := Ascii.eqb c "@" || is_digit c.
Record pii_expression (re : regex) : Prop := {
  pii_sealed : ∃ body, re = Sealed body;
  pii_within : within no_bracket re = true;
  pii_needs : needs pii_byte re = true
}.
Lemma email_pii : pii_expression emailRe.
Proof. split; [by eexists|vm_compute; done..]. Qed.
Lemma phone_pii : pii_expression phoneRe.
Proof. split; [by eexists|vm_compute; done..]. Qed.
Lemma ssn_pii : pii_expression ssnRe.
Proof. split; [by eexists|vm_compute; done..]. Qed.
Lemma pii_consuming re : pii_expression re → consuming re.
Proof. intros [_ _ Hn]. by eapply needs_consuming. Qed.
#[export] Hint Resolve email_pii phone_pii ssn_pii pii_consuming : regex.

Definition bare (inner : string) : Prop := sall (λ c, negb (pii_byte c)) inner = true.

(** A text in which every match of one expression has been replaced. *)
Definition mask_with (re : regex) (inner text : string) : string :=
  replace_tokens (λ _, marker inner) (tokens re text).

Lemma mask_with_self re inner text :
  pii_expression re → bare inner → MatchString re (mask_with re inner text) = false.
Proof.
  intros [[body ->] Hw Hn] Hi. unfold MatchString, mask_with, tokens.
  eapply masked_free; [done..|apply tokens_cut| |by left].
  eapply gaps_free_self, tokens_cut. by eapply needs_consuming.
Qed.

Lemma mask_with_other re re' inner text :
  pii_expression re → pii_expression re' → bare inner → MatchString re' text = false →
  MatchString re' (mask_with re inner text) = false.
Proof.
  intros [[body ->] _ _] [_ Hw Hn] Hi Hf. unfold MatchString, mask_with, tokens.
  eapply masked_free; [done..|apply tokens_cut| |by left].
  eapply gaps_free_search, tokens_cut. done.
Qed.

Lemma mask_with_none re inner text : MatchString re text = false → mask_with re inner text = text.
Proof. intros H. by apply tokens_no_match. Qed.

(** A stage whose function masks every match it is given. *)
Lemma mask_stage_masks re f inner v text vs :
  Forall (λ m, f m = (marker inner, Some v)) (found_texts (tokens re text)) →
  mask_stage re f (text, vs) =
    (mask_with re inner text, vs ++ replicate (length (found_texts (tokens re text))) v).
Proof.
  intros Hf. unfold mask_stage, mask_with, ReplaceAllStringFunc. f_equal.
  - apply replace_tokens_ext. eapply Forall_impl; [done|]. by intros m ->.
  - f_equal. induction Hf as [|m ms Hm _ IH]; [done|]. csimpl. rewrite Hm, IH. done.
Qed.

(* ------------------------------------------------------------------ *)
(** ** An email match always has the parts the code looks for *)
(* ------------------------------------------------------------------ *)

Definition not_at (c : ascii) : bool := negb (Ascii.eqb c "@").

Lemma not_at_has_byte s : sall not_at s = true → has_byte "@" s = false.
Proof.
  induction s as [|c s IH]; [done|]. simpl. unfold not_at at 1. intros [Hc Hs]%andb_true_iff.
  rewrite has_byte_cons, IH by done. rewrite orb_false_r, Ascii.eqb_sym. by apply negb_true_iff.
Qed.

(** Local part, at sign, domain, dot and suffix. *)
Lemma email_shape prev m b :
  matches emailRe (prev, m +:+ b) (after prev m, b) →
  ∃ l d t, m = l +:+ "@" +:+ d +:+ "." +:+ t ∧ l ≠ "" ∧ has_byte "@" l = false.
Proof.
  unfold emailRe, Sealed. intros (u0 & m1 & -> & H0 & H1)%matches_Cat_inv.
  apply matches_Bnd_inv in H0 as ->.
  apply matches_Cat_inv in H1 as (m2 & u9 & -> & H1 & H9). apply matches_Bnd_inv in H9 as ->.
  apply matches_Cat_inv in H1 as (l & m3 & -> & Hl & H3).
  apply matches_Cat_inv in H3 as (a & m4 & -> & Ha & H4). apply matches_Chr_inv in Ha as ->.
  apply matches_Cat_inv in H4 as (d & m5 & -> & Hd & H5).
  apply matches_Cat_inv in H5 as (dot & t & -> & Hdot & Ht). apply matches_Chr_inv in Hdot as ->.
  exists l, d, t. split; [by rewrite !sapp_nil_r|]. split.
  - eapply (needs_nonempty (λ _, true)); [exact Hl|vm_compute; done].
  - apply not_at_has_byte. eapply within_sound; [exact Hl|vm_compute; done|done].
Qed.

Lemma split_on_two c x y : 2 ≤ length (split_on c (x +:+ String c y)).
Proof.
  induction x as [|d x IH]; simpl.
  - rewrite Ascii.eqb_refl. pose proof (split_on_nonempty c y). destruct (split_on c y); simpl; [done|lia].
  - destruct (Ascii.eqb c d); simpl; [lia|]. destruct (split_on c (x +:+ String c y)); simpl in *; lia.
Qed.

Lemma mask_email_match text :
  Forall (λ m, mask_email m = (marker "EMAIL", Some email_verdict)) (found_texts (tokens emailRe text)).
Proof.
  eapply Forall_impl; [apply (found_texts_match emailRe None text), tokens_cut|].
  intros m (prev & b & Hm). simpl in Hm. apply email_shape in Hm as (l & d & t & -> & Hl & Hno).
  assert (Hc : contains (l +:+ "@" +:+ d +:+ "." +:+ t) "@" = true) by (apply contains_spec; eauto).
  assert (Hd : 2 ≤ length (split_on "." (l +:+ "@" +:+ d +:+ "." +:+ t))).
  { replace (l +:+ _) with ((l +:+ "@" +:+ d) +:+ String "." t) by (by rewrite !sapp_assoc). apply split_on_two. }
  unfold mask_email, count_byte. rewrite Hc.
  change (l +:+ "@" +:+ d +:+ "." +:+ t) with (l +:+ String "@" (d +:+ "." +:+ t)).
  rewrite index_of_byte by done. change (String "@" (d +:+ "." +:+ t)) with ("@" +:+ d +:+ "." +:+ t).
  rewrite stake_app.
  replace (sdrop (slen l + 1) _) with (d +:+ "." +:+ t)
    by (pose proof (sdrop_app (l +:+ "@") (d +:+ "." +:+ t)) as Hx; by rewrite sapp_assoc, slen_app in Hx).
  assert (contains (d +:+ "." +:+ t) "." = true) as -> by (apply contains_spec; eauto).
  rewrite (proj2 (Nat.leb_le 1 _)) by lia. rewrite !(proj2 (Nat.ltb_lt 0 _)); [done| |].
  - rewrite !slen_app. simpl. lia.
  - destruct l; [done|simpl; lia].
Qed.

(* ------------------------------------------------------------------ *)
(** ** What masking leaves *)
(* ------------------------------------------------------------------ *)

(** The three stages one after the other. *)
Definition masked_text (text : string) : string :=
  mask_with ssnRe "SSN" (mask_with phoneRe "PHONE" (mask_with emailRe "EMAIL" text)).
Definition masked_verdicts (text : string) : list SafetyVerdict :=
  let after_email := mask_with emailRe "EMAIL" text in
  let after_phone := mask_with phoneRe "PHONE" after_email in
  replicate (length (found_texts (tokens emailRe text))) email_verdict ++
  replicate (length (found_texts (tokens phoneRe after_email))) phone_verdict ++
  replicate (length (found_texts (tokens ssnRe after_phone))) ssn_verdict.

Definition masks (f : Filter) : bool := sp_MaskPII (fl_policy f) && hasCategory f CategoryPII.

#[local] Arguments mask_stage : simpl never.

Lemma MaskPII_eq f text :
  MaskPII f true text =
  if masks f then (masked_text text, masked_verdicts text, None) else (text, [], None).
Proof.
  unfold MaskPII, masks. rewrite <-negb_andb. simpl. destruct (String.eqb_spec text "") as [->|].
  - by destruct (_ && _).
  - destruct (_ && _); [|done]. simpl negb. cbv iota zeta.
    rewrite (mask_stage_masks emailRe mask_email "EMAIL" email_verdict) by apply mask_email_match.
    rewrite (mask_stage_masks phoneRe mask_phone "PHONE" phone_verdict) by (by apply Forall_true).
    rewrite (mask_stage_masks ssnRe mask_ssn "SSN" ssn_verdict) by (by apply Forall_true).
    by rewrite <-!app_assoc.
Qed.

Definition pii_free (text : string) : Prop :=
  Forall (λ re, MatchString re text = false) [emailRe; phoneRe; ssnRe].

Lemma pii_free_matches text :
  pii_free text ↔ Forall (λ re, ∀ a u b, text = a +:+ u +:+ b →
    ¬ matches re (after None a, u +:+ b) (after None (a +:+ u), b)) [emailRe; phoneRe; ssnRe].
Proof.
  unfold pii_free. split; intros H; (eapply Forall_impl; [exact H|]); intros re Hre.
  - intros a u b Heq Hm. apply not_true_iff_false in Hre. apply Hre, MatchString_spec. eauto.
  - apply not_true_iff_false. intros (a & u & b & Heq & Hm)%MatchString_spec. by eapply Hre.
Qed.

Lemma masked_text_free text : pii_free (masked_text text).
Proof.
  assert (bare "EMAIL" ∧ bare "PHONE" ∧ bare "SSN") as (He & Hp & Hs) by done.
  unfold pii_free, masked_text. repeat constructor.
  - do 2 (apply mask_with_other; auto with regex). apply mask_with_self; auto with regex.
  - apply mask_with_other; auto with regex. apply mask_with_self; auto with regex.
  - apply mask_with_self; auto with regex.
Qed.

Lemma pii_free_masked text : pii_free text → masked_text text = text ∧ masked_verdicts text = [].
Proof.
  unfold pii_free. rewrite !Forall_cons. intros (He & Hp & Hs & _). unfold masked_text, masked_verdicts.
  rewrite (mask_with_none emailRe), (mask_with_none phoneRe) by done. split; [by apply mask_with_none|].
  unfold MatchString, tokens in *. by rewrite (proj1 (tokens_no_match _ _ _ He)),
    (proj1 (tokens_no_match _ _ _ Hp)), (proj1 (tokens_no_match _ _ _ Hs)).
Qed.

Lemma no_found r text : length (found_texts (tokens r text)) = 0 → ∀ inner, mask_with r inner text = text.
Proof.
  intros Hn inner. rewrite <-(tokens_text r text) at 2. unfold mask_with, replace_tokens. f_equal.
  revert Hn. generalize (tokens r text) as ts. induction ts as [|[c|m] ts IH]; simpl; intros; [done|by rewrite IH|done].
Qed.

(** [s'] is [s] with [n] matches of the expression replaced by the marker, read from
    the left ([prev] is the byte before): a byte at which no match starts is kept, and
    where one starts a match is replaced and the reading goes on behind it. *)
Inductive replaced (re : regex) (mark : string) : option ascii → string → string → nat → Prop :=
| replaced_end prev : replaced re mark prev "" "" 0
| replaced_kept prev c s s' n :
    (∀ u b, String c s = u +:+ b → ¬ matches re (prev, u +:+ b) (after prev u, b)) →
    replaced re mark (Some c) s s' n → replaced re mark prev (String c s) (String c s') n
| replaced_match prev u b b' n :
    u ≠ "" → matches re (prev, u +:+ b) (after prev u, b) →
    replaced re mark (after prev u) b b' n → replaced re mark prev (u +:+ b) (mark +:+ b') (S n).

Lemma mask_with_replaced re inner text :
  consuming re →
  replaced re (marker inner) None text (mask_with re inner text) (length (found_texts (tokens re text))).
Proof.
  intros Hre. unfold mask_with, replace_tokens. unfold tokens.
  induction (tokens_cut re None text) as [|prev m b ts Hm Hq Hc IH|prev c s ts Hf Hc IH].
  - constructor.
  - exact (replaced_match re (marker inner) _ _ _ _ _ Hm Hq IH).
  - apply replaced_kept; [|exact IH]. intros u b Heq Hm. apply found_None in Hf; [|done].
    rewrite run_nil in Hf. by eapply Hf; rewrite Heq.
Qed.

(** C16: When its policy asks for masking, MaskPII replaces in turn the email
    addresses, the phone numbers and the social security numbers, as its three
    expressions recognise them, by their markers, and nothing else: every byte at
    which no match starts is kept, and there is one verdict per replacement, in the
    order of the stages, with its marker. No text that one of the expressions
    recognises is left, not even one put together from what stands around a marker;
    it never fails, masking the result again changes nothing and gives no verdict,
    and a text in which none of the expressions has a match is returned as it is,
    without a verdict. *)
Theorem masking_leaves_nothing_to_mask f text :
  masks f = true →
  ∃ masked verdicts,
    MaskPII f true text = (masked, verdicts, None) ∧
    (∃ t1 t2 n1 n2 n3,
       replaced emailRe "[EMAIL]" None text t1 n1 ∧ replaced phoneRe "[PHONE]" None t1 t2 n2 ∧
       replaced ssnRe "[SSN]" None t2 masked n3 ∧
       map (λ v, (sv_Category v, sv_MaskedText v)) verdicts =
         replicate n1 ("pii", "[EMAIL]") ++ replicate n2 ("pii", "[PHONE]") ++ replicate n3 ("pii", "[SSN]")) ∧
    Forall (λ re, ∀ a u b, masked = a +:+ u +:+ b →
      ¬ matches re (after None a, u +:+ b) (after None (a +:+ u), b)) [emailRe; phoneRe; ssnRe] ∧
    MaskPII f true masked = (masked, [], None) ∧
    (masked = text ↔ verdicts = []) ∧
    (verdicts = [] ↔ Forall (λ re, ∀ a u b, text = a +:+ u +:+ b →
      ¬ matches re (after None a, u +:+ b) (after None (a +:+ u), b)) [emailRe; phoneRe; ssnRe]).
Proof.
  intros Hf. exists (masked_text text), (masked_verdicts text).
  pose proof (masked_text_free text) as Hfree. destruct (pii_free_masked _ Hfree) as [Ht Hv].
  assert (Hsame : masked_text text = text ↔ masked_verdicts text = []).
  { split; [intros Heq; rewrite Heq in Hfree; by apply pii_free_masked|].
    unfold masked_verdicts, masked_text. intros [He [Hp Hs]%app_nil]%app_nil.
    apply (f_equal length) in He, Hp, Hs. rewrite length_replicate in He, Hp, Hs.
    by rewrite !no_found. }
  rewrite !MaskPII_eq, Hf, Ht, Hv, <-pii_free_matches, <-pii_free_matches. split_and!; try done.
  - eexists _, _, _, _, _. split_and!; [apply (mask_with_replaced emailRe "EMAIL"); auto with regex
      |apply (mask_with_replaced phoneRe "PHONE"); auto with regex
      |apply (mask_with_replaced ssnRe "SSN"); auto with regex|].
    unfold masked_verdicts. rewrite !map_app.
    change (@map SafetyVerdict) with (λ B f, @fmap list _ SafetyVerdict B f). cbv beta. by rewrite !fmap_replicate.
  - rewrite <-Hsame. split; [intros Heq; by rewrite Heq in Hfree|apply pii_free_masked].
Qed.

(** The verdicts of MaskPII account for the masking: one for every match of
    the email expression in the text, then one for every phone number in what is
    left, then one for every SSN in what is left of that, each with its marker.
    The text between the matches is kept, and the function passed for emails never
    leaves a match as it is: the parts it looks for are always there. *)
Theorem masking_accounts_for_every_match f text :
  masks f = true →
  ∃ masked1 masked2,
    let replaced re marker_text t := concat_str (map (λ tok, match tok with
      | Byte c => String c "" | Found _ => marker_text end) (tokens re t)) in
    masked1 = replaced emailRe "[EMAIL]" text ∧ masked2 = replaced phoneRe "[PHONE]" masked1 ∧
    (MaskPII f true text).1.1 = replaced ssnRe "[SSN]" masked2 ∧
    map (λ v, (sv_Category v, sv_MaskedText v)) (MaskPII f true text).1.2 =
      replicate (length (found_texts (tokens emailRe text))) ("pii", "[EMAIL]") ++
      replicate (length (found_texts (tokens phoneRe masked1))) ("pii", "[PHONE]") ++
      replicate (length (found_texts (tokens ssnRe masked2))) ("pii", "[SSN]").
Proof.
  intros Hf. rewrite MaskPII_eq, Hf. eexists _, _. split_and!; [done..|].
  cbn [fst snd]. unfold masked_verdicts. rewrite !map_app.
  change (@map SafetyVerdict) with (λ B f, @fmap list _ SafetyVerdict B f). cbv beta. by rewrite !fmap_replicate.
Qed.

(* ------------------------------------------------------------------ *)
(** ** What the checks decide *)
(* ------------------------------------------------------------------ *)

Lemma lower_go_app k a d t :
  ascii_byte d = true → k ≤ slen a →
  lower_go k (a +:+ String d t) = lower_go k a +:+ lower_go 0 (String d t).
Proof.
  intros Hd. revert k. induction a as [|c a IH]; intros k Hk; simpl in Hk; [by replace k with 0 by lia|].
  change (String c a +:+ String d t) with (String c (a +:+ String d t)).
  destruct k as [|k]; cbn [lower_go]; [|apply IH; lia].
  change (String c (a +:+ String d t)) with (String c a +:+ String d t).
  rewrite !has_prefix_high by done.
  destruct (has_prefix (String c a) (bytes [196; 176])) eqn:E1.
  - apply has_prefix_spec in E1 as [x E1]. injection E1 as _ ->. by rewrite IH by (simpl; lia).
  - destruct (has_prefix (String c a) (bytes [226; 132; 170])) eqn:E2.
    + apply has_prefix_spec in E2 as [x E2]. injection E2 as _ ->. by rewrite IH by (simpl; lia).
    + by rewrite IH by lia.
Qed.

(** ASCII text is lowered letter by letter. *)
Lemma lower_go_ascii w t : sall ascii_byte w = true → lower_go 0 (w +:+ t) = lower w +:+ lower_go 0 t.
Proof.
  induction w as [|c w IH]; [done|]. simpl sall. intros Hw. bool_simp.
  change (String c w +:+ t) with (String c (w +:+ t)). cbn [lower_go].
  assert (Hne : ∀ d p, ascii_byte d = false → has_prefix (String c (w +:+ t)) (String d p) = false).
  { intros d p Hd. rewrite has_prefix_cons. destruct (Ascii.eqb_spec d c) as [->|]; [congruence|done]. }
  unfold bytes. simpl foldr. rewrite !Hne by done. by rewrite IH.
Qed.

(** A word in any mix of capitals is found in the lowered text. *)
Lemma ToLower_finds word a w b :
  word ≠ "" → sall ascii_byte w = true → lower w = word → contains (ToLower (a +:+ w +:+ b)) word = true.
Proof.
  intros Hne Hw <-. destruct w as [|d w]; [done|]. unfold ToLower. apply contains_spec.
  exists (lower_go 0 a), (lower_go 0 b). simpl in Hw. bool_simp.
  change (a +:+ String d w +:+ b) with (a +:+ String d (w +:+ b)). rewrite lower_go_app by (done || lia).
  change (String d (w +:+ b)) with (String d w +:+ b). by rewrite lower_go_ascii by (simpl; by rewrite H, H0).
Qed.

Lemma harmful_loop_None f lower words :
  harmful_loop f lower words = None ↔
  exceedsThreshold f (dec_to_float false 8 (-1)) = false ∨ Forall (λ w, contains lower w = false) words.
Proof.
  induction words as [|w words IH]; simpl; [by split; auto|].
  rewrite Forall_cons. destruct (contains lower w), (exceedsThreshold f _); simpl; rewrite ?IH; naive_solver.
Qed.

Lemma harmful_loop_Some f lower words v :
  harmful_loop f lower words = Some v →
  exceedsThreshold f (dec_to_float false 8 (-1)) = true ∧
  ∃ l1 w l2, words = l1 ++ w :: l2 ∧ Forall (λ w, contains lower w = false) l1 ∧ contains lower w = true ∧
    v = mkSafetyVerdict false CategoryHarmful (dec_to_float false 8 (-1))
          ("potentially harmful content detected: " +:+ w) "".
Proof.
  induction words as [|w words IH]; simpl; [done|]. destruct (contains lower w) eqn:Hw.
  - destruct (exceedsThreshold f _) eqn:He; simpl.
    + intros [= <-]. split; [done|]. by exists [], w, words.
    + intros Hv. by apply IH in Hv as [? _].
  - intros Hv. apply IH in Hv as (He & l1 & w' & l2 & -> & Hl & Hc & ->). split; [done|].
    exists (w :: l1), w', l2. by repeat constructor.
Qed.

(** CheckInput refuses a text exactly when the harmful category is enabled,
    the fixed confidence 0.8 reaches the policy's threshold and one of the nine
    words occurs in the lowered text, wherever it stands; the reason names the
    first such word of the list. Every mix of capitals is found, and so is a word
    inside another word. *)
Theorem input_check_decides f text :
  ∃ v, CheckInput f true text = Ok v ∧
    (sv_Safe v = false ↔
       hasCategory f CategoryHarmful = true ∧ exceedsThreshold f (dec_to_float false 8 (-1)) = true ∧
       ∃ w, w ∈ harmfulWords ∧ contains (ToLower text) w = true) ∧
    (sv_Safe v = false → ∃ l1 w l2, harmfulWords = l1 ++ w :: l2 ∧
       Forall (λ w, contains (ToLower text) w = false) l1 ∧ contains (ToLower text) w = true ∧
       sv_Reason v = "potentially harmful content detected: " +:+ w) ∧
    (∀ a w b, lower w ∈ harmfulWords → sall ascii_byte w = true → text = a +:+ w +:+ b →
       contains (ToLower text) (lower w) = true).
Proof.
  unfold CheckInput. simpl negb. cbv iota.
  assert (Hcase : ∀ a w b, lower w ∈ harmfulWords → sall ascii_byte w = true → text = a +:+ w +:+ b →
    contains (ToLower text) (lower w) = true).
  { intros a w b Hin Hw ->. apply ToLower_finds; [|done..]. intros Hl. rewrite Hl in Hin.
    unfold harmfulWords in Hin. set_unfold. naive_solver. }
  destruct (String.eqb_spec text "") as [->|Hne].
  { exists safe_verdict. split_and!; try done. split; [done|]. intros (_ & _ & w & Hw & Hc).
    unfold harmfulWords in Hw. set_unfold. naive_solver. }
  destruct (hasCategory f CategoryHarmful) eqn:Hh; [|exists safe_verdict; naive_solver].
  destruct (harmful_loop f (ToLower text) harmfulWords) as [v|] eqn:Hl.
  - apply harmful_loop_Some in Hl as (He & l1 & w & l2 & Heq & Hf & Hc & ->).
    eexists. split; [done|]. split_and!; [|naive_solver|done].
    split; [|done]. intros _. split_and!; [done..|]. exists w. split; [|done]. rewrite Heq. set_solver.
  - apply harmful_loop_None in Hl. exists safe_verdict. split_and!; try done. split; [done|].
    intros (_ & He & w & Hw & Hc). destruct Hl as [Hl|Hl]; [congruence|].
    rewrite Forall_forall in Hl. apply Hl in Hw. congruence.
Qed.

Lemma secret_check_spec f re conf reason text :
  secret_check f re conf reason text =
    if MatchString re text && exceedsThreshold f conf
    then Some (mkSafetyVerdict false CategorySecret conf reason "") else None.
Proof. unfold secret_check. by destruct (MatchString re text), (exceedsThreshold f conf). Qed.

(** Some part of the text is a match where it stands. *)
Definition has_match (re : regex) (text : string) : Prop :=
  ∃ a u b, text = a +:+ u +:+ b ∧ matches re (after None a, u +:+ b) (after None (a +:+ u), b).

(** CheckOutput refuses a text exactly when the secret category is enabled and
    some part of it, wherever it stands, has the form of an API key while the
    threshold allows 0.9, or else that of a password assignment while it allows
    0.85; the two have different reasons and the first takes precedence. Without
    a context every operation of the filter fails, before anything else. *)
Theorem output_check_decides f text :
  (∃ v, CheckOutput f true text = Ok v ∧
    (sv_Safe v = false ↔
       hasCategory f CategorySecret = true ∧
       (exceedsThreshold f (dec_to_float false 9 (-1)) = true ∧ has_match apiKeyRe text ∨
        exceedsThreshold f (dec_to_float false 85 (-2)) = true ∧ has_match passwordRe text)) ∧
    (sv_Safe v = false → sv_Reason v =
       if exceedsThreshold f (dec_to_float false 9 (-1)) && MatchString apiKeyRe text
       then "potential API key or secret detected" else "potential password detected")) ∧
  CheckOutput f false text = Err no_context ∧ CheckInput f false text = Err no_context ∧
  MaskPII f false text = ("", [], Some no_context).
Proof.
  split; [|done]. unfold has_match. setoid_rewrite <-(MatchString_spec apiKeyRe text).
  setoid_rewrite <-(MatchString_spec passwordRe text).
  assert (H0 : text = "" → MatchString apiKeyRe text = false ∧ MatchString passwordRe text = false)
    by (intros ->; split; vm_compute; reflexivity).
  unfold CheckOutput. rewrite !secret_check_spec. revert H0.
  generalize (MatchString apiKeyRe text), (MatchString passwordRe text),
    (dec_to_float false 9 (-1)), (dec_to_float false 85 (-2)). intros m1 m2 c1 c2 H0. simpl negb. cbv iota.
  destruct (String.eqb_spec text "") as [Hne|_].
  { destruct (H0 Hne) as [-> ->]. exists safe_verdict. naive_solver. }
  destruct (hasCategory f CategorySecret); [|exists safe_verdict; naive_solver].
  destruct m1, (exceedsThreshold f c1), m2, (exceedsThreshold f c2);
    simpl; eexists; (split; [reflexivity|]); simpl; naive_solver.
Qed.

(* ------------------------------------------------------------------ *)
(** ** Concrete texts *)
(* ------------------------------------------------------------------ *)

(** All categories the filter looks at, no threshold, masking. *)
Definition sample_filter : Filter :=
  NewFilter (mkSafetyPolicy "t" [CategoryHarmful; CategoryPII; CategorySecret] (f_of_Z 0) true).

Example mask_sample :
  (MaskPII sample_filter true "Ask bob.o@x-y.example.com or 555-123-4567, SSN 123-45-6789.").1.1 =
  "Ask [EMAIL] or [PHONE], SSN [SSN].".
Proof. vm_compute. reflexivity. Qed.

(** The program's own vocabulary is refused: a skill has a word inside. *)
Example skills_are_harmful :
  match CheckInput sample_filter true "List my skills" with
  | Ok v => sv_Reason v
  | Err _ => ""
  end = "potentially harmful content detected: kill".
Proof. vm_compute. reflexivity. Qed.

(** Without a word boundary in front, the end of a word counts as a key's prefix. *)
Example risk_assessment_is_a_key :
  match CheckOutput sample_filter true "The risk-assessment is done." with
  | Ok v => sv_Reason v
  | Err _ => ""
  end = "potential API key or secret detected".
Proof. vm_compute. reflexivity. Qed.

Lemma masking_leaves_nothing_to_mask_witness :
  masks sample_filter = true ∧
  ∃ masked verdicts,
    MaskPII sample_filter true "a@b.co 123-45-6789" = (masked, verdicts, None) ∧
    masked = "[EMAIL] [SSN]" ∧ length verdicts = 2 ∧
    MaskPII sample_filter true masked = (masked, [], None).
Proof.
  split; [reflexivity|].
  destruct (masking_leaves_nothing_to_mask sample_filter "a@b.co 123-45-6789" eq_refl)
    as (masked & verdicts & Hm & _ & _ & Ht & _).
  exists masked, verdicts. split; [exact Hm|]. assert (Heq := Hm). vm_compute in Heq.
  injection Heq as <- <-. split; [reflexivity|]. split; [reflexivity|exact Ht].
Defined.

Lemma masking_accounts_for_every_match_witness :
  masks sample_filter = true ∧
  map (λ v, (sv_Category v, sv_MaskedText v)) (MaskPII sample_filter true "a@b.co 123-45-6789").1.2 =
    [("pii", "[EMAIL]"); ("pii", "[SSN]")].
Proof.
  split; [reflexivity|].
  destruct (masking_accounts_for_every_match sample_filter "a@b.co 123-45-6789" eq_refl)
    as (m1 & m2 & H1 & H2 & _ & Hv).
  rewrite Hv, H2, H1. vm_compute. reflexivity.
Defined.
