(* ===== verification/Concurrent.v ===== *)
(** The registries under concurrent use. The skill registry
    ([src/registry/skills/in_memory_registry.go]) is modelled with its locks: the
    read-write lock of its store and the lock of its callbacks are part of the
    state, a goroutine is the stack of its calls, and a callback may make calls of
    its own. The audit emitter ([src/audit/emitter.go]) holds its lock only around
    single accesses to its map, and its operations are threads cut there. A pool of
    threads takes steps in any order. *)
From S2P Require Export Registry AuditTrail.
From Stdlib Require Import Wellfounded.
From Stdlib Require Import Ascii.

(* ------------------------------------------------------------------ *)
(** ** Pools of threads *)
(* ------------------------------------------------------------------ *)

Section pool.
Context {St T : Type}.
(** What a thread does next to the shared state; [None] when it has returned. *)
Variable step : St → T → option (St * T).

(** Any thread that has not returned may go next. *)
Inductive pool_step : St * list T → St * list T → Prop :=
| pool_sched s ts i t s' t' :
    ts !! i = Some t → step s t = Some (s', t') → pool_step (s, ts) (s', <[i := t']> ts).

(** A thread that runs without interruption. *)
Inductive solo : St * T → St * T → Prop :=
| solo_step s t s' t' : step s t = Some (s', t') → solo (s, t) (s', t').

Lemma pool_split s ts c' :
  pool_step (s, ts) c' →
  ∃ l1 t l2 s' t', ts = l1 ++ t :: l2 ∧ step s t = Some (s', t') ∧ c' = (s', l1 ++ t' :: l2).
Proof.
  intros Hs. inversion Hs as [? ? i t s' t' Hi Ht]; subst.
  exists (take i ts), t, (drop (S i) ts), s', t'. split_and!; [by rewrite take_drop_middle|done|].
  by rewrite insert_take_drop by (by eapply lookup_lt_Some).
Qed.

(** An invariant of the steps holds in every schedule. *)
Lemma pool_invariant (I : St * list T → Prop) :
  (∀ s l1 t l2 s' t', I (s, l1 ++ t :: l2) → step s t = Some (s', t') → I (s', l1 ++ t' :: l2)) →
  ∀ c c', rtc pool_step c c' → I c → I c'.
Proof.
  intros HI c c' Hr. induction Hr as [|[s ts] c c' Hs Hr IH]; [done|]. intros Hc. apply IH.
  apply pool_split in Hs as (l1 & t & l2 & s' & t' & -> & Ht & ->). eauto.
Qed.

(** A pool in which only returned threads cannot go on, and whose steps decrease
    a measure, ends with all threads returned, whatever the schedule. *)
Lemma pool_terminates (m : St * list T → nat) :
  (∀ s l1 t l2 s' t', step s t = Some (s', t') → m (s', l1 ++ t' :: l2) < m (s, l1 ++ t :: l2)) →
  well_founded (flip pool_step).
Proof.
  intros Hm. apply (well_founded_lt_compat _ m). intros c' [s ts] Hs.
  apply pool_split in Hs as (l1 & t & l2 & s' & t' & -> & Ht & ->). eauto.
Qed.

Lemma pool_stuck s ts : (∀ c', ¬ pool_step (s, ts) c') → Forall (λ t, step s t = None) ts.
Proof.
  intros Hn. apply Forall_lookup. intros i t Hi. destruct (step s t) as [[s' t']|] eqn:E; [|done].
  destruct (Hn (s', <[i := t']> ts)). by econstructor.
Qed.
End pool.

(* ------------------------------------------------------------------ *)
(** ** Operations of the skill registry *)
(* ------------------------------------------------------------------ *)

Module RegistryThreads.
Import SkillRegistry.

(** A call of the registry. A callback is the calls it makes for an event, in
    order (a panic, which the registry recovers from, ends it sooner). *)
Inductive op :=
| Register (skill : option Skill)
| Unregister (id : string)
| Subscribe (callback : ChangeEvent → list op)
| Get (id : string)
| List_
| ListByPermission (permissions : list string)
| Validate.
Definition callback : Type := ChangeEvent → list op.

(** The store and its read-write lock [mu] ([writer]: a writer holds it or has
    announced itself, so that no reader is let in any more; [readers]: those that
    hold it), the callbacks and their lock [cbMu]; the calls of callbacks made so
    far, each with the place of the callback in the list; and, only to state what
    holds, the changes of the store in the order in which they were made. *)
Record shared := mkShared {
  store : gmap string Skill;
  writer : bool;
  readers : nat;
  callbacks : list callback;
  cbMu : bool;
  called : list (nat * ChangeEvent);
  changes : list ChangeEvent
}.

Definition set_mu (w : bool) (n : nat) (s : shared) : shared :=
  mkShared (store s) w n (callbacks s) (cbMu s) (called s) (changes s).
Definition set_cbMu (b : bool) (s : shared) : shared :=
  mkShared (store s) (writer s) (readers s) (callbacks s) b (called s) (changes s).
Definition set_store (st : gmap string Skill) (made : list ChangeEvent) (s : shared) : shared :=
  mkShared st (writer s) (readers s) (callbacks s) (cbMu s) (called s) (changes s ++ made).
Definition append_callback (cb : callback) (s : shared) : shared :=
  mkShared (store s) (writer s) (readers s) (callbacks s ++ [cb]) (cbMu s) (called s) (changes s).
Definition call (i : nat) (e : ChangeEvent) (s : shared) : shared :=
  mkShared (store s) (writer s) (readers s) (callbacks s) (cbMu s) (called s ++ [(i, e)]) (changes s).

(** The accesses to the store under its write lock. *)
Inductive access := Put (id : string) (skill : Skill) | Delete (id : string).

(** Where a call of the registry is: not begun; waiting for the readers to leave,
    or writing; waiting to read [n] more times ([List] takes the lock for [Len] and
    again for [ForEach]), or reading; having changed the store and waiting for
    [cbMu], or copying the callbacks; calling the copies; appending a callback. *)
Inductive frame :=
| Call (o : op)
| Waiting (a : access)
| Writing (a : access)
| Entering (n : nat)
| Reading (n : nat)
| Changed (e : ChangeEvent)
| Copying (e : ChangeEvent)
| Firing (cbs : list (nat * callback)) (e : ChangeEvent)
| Appending (cb : callback).

(** A goroutine: its calls, the innermost first and those it is still to make
    behind, and what Register and Unregister have returned to it. *)
Record thread := mkThread { stack : list frame; returns : list (option error) }.

Definition event_of (a : access) : ChangeEvent :=
  match a with
  | Put id _ => mkChangeEvent ChangeEventRegister id
  | Delete id => mkChangeEvent ChangeEventUnregister id
  end.

(** [PutIfAbsent] and [DeleteIfExists] between [Lock] and [Unlock], and the error
    of the operation when there was nothing to change. *)
Definition apply_access (a : access) (st : gmap string Skill) : gmap string Skill * option error :=
  match a with
  | Put id skill =>
      let '(st, ok) := MapStore.PutIfAbsent id skill st in
      (st, if negb ok then Some (EFmt "%w: %s" [FW ErrSkillAlreadyExists; FS id]) else None)
  | Delete id =>
      let '(st, ok) := MapStore.DeleteIfExists id st in
      (st, if negb ok then Some (EFmt "%w: %s" [FW ErrSkillNotFound; FS id]) else None)
  end.

(** What a goroutine does next, [outer] being the calls behind the innermost one;
    [None] when it has to wait for a lock or has nothing left to do. *)
Definition run_frame (s : shared) (f : frame) (outer : list frame) (outs : list (option error)) :
    option (shared * thread) :=
  let return_ err := Some (s, mkThread outer (outs ++ [err])) in
  let go s f := Some (s, mkThread (f :: outer) outs) in
  let lock_store a := if writer s then None else go (set_mu true (readers s) s) (Waiting a) in
  let read_store n := if writer s then None else go (set_mu false (S (readers s)) s) (Reading n) in
  match f with
  | Call (Register None) => return_ (Some (EFmt "cannot register nil skill" []))
  | Call (Register (Some skill)) =>
      let id := sk_ID skill in
      if String.eqb id "" then return_ (Some (EFmt "skill ID cannot be empty" []))
      else
        match sk_Validate skill with
        | Some err => return_ (Some (EFmt "invalid skill %s: %w" [FS id; FW err]))
        | None => lock_store (Put id skill)
        end
  | Call (Unregister id) => lock_store (Delete id)
  | Waiting a => if 0 <? readers s then None else go s (Writing a)
  | Writing a =>
      let '(st, err) := apply_access a (store s) in
      match err with
      | Some err => Some (set_mu false (readers s) s, mkThread outer (outs ++ [Some err]))
      | None => go (set_mu false (readers s) (set_store st [event_of a] s)) (Changed (event_of a))
      end
  | Changed e => if cbMu s then None else go (set_cbMu true s) (Copying e)
  | Copying e => go (set_cbMu false s) (Firing (imap pair (callbacks s)) e)
  | Firing [] e => return_ None
  | Firing ((i, cb) :: cbs) e =>
      Some (call i e s, mkThread (map Call (cb e) ++ Firing cbs e :: outer) outs)
  | Call (Subscribe cb) => if cbMu s then None else go (set_cbMu true s) (Appending cb)
  | Appending cb => Some (set_cbMu false (append_callback cb s), mkThread outer outs)
  | Call (Get _) | Call (ListByPermission _) | Call Validate => read_store 0
  | Call List_ => read_store 1
  | Entering n => read_store n
  | Reading n =>
      let s := set_mu (writer s) (pred (readers s)) s in
      match n with
      | O => Some (s, mkThread outer outs)
      | S n => go s (Entering n)
      end
  end.
Definition step (s : shared) (t : thread) : option (shared * thread) :=
  match stack t with
  | [] => None
  | f :: outer => run_frame s f outer (returns t)
  end.

(** A registry with some callbacks, before anything is called, and a goroutine
    with some calls to make. *)
Definition start (cbs : list callback) : shared := mkShared ∅ false 0 cbs false [] [].
Definition calling (ops : list op) : thread := mkThread (map Call ops) [].
Definition finished (t : thread) : Prop := stack t = [].

(** *** Alone, a goroutine does what the sequential definitions say *)

(** The registry as they have it, with callbacks that write down what they get. *)
Definition recording (i : nat) (e : ChangeEvent) (w : list (nat * ChangeEvent)) : list (nat * ChangeEvent) * bool :=
  (w ++ [(i, e)], false).
Definition sequential (s : shared) : state (list (nat * ChangeEvent)) :=
  mkState (store s) (imap (λ i _, recording i) (callbacks s)).
(** Callbacks that make no calls of their own. *)
Definition quiet (s : shared) : Prop := Forall (λ cb, ∀ e, cb e = []) (callbacks s).
Definition unlocked (s : shared) : Prop := writer s = false ∧ readers s = 0 ∧ cbMu s = false.

Lemma solo_next s f outer outs s' t' c :
  run_frame s f outer outs = Some (s', t') → rtc (solo step) (s', t') c →
  rtc (solo step) (s, mkThread (f :: outer) outs) c.
Proof. intros Hs Hr. eapply rtc_l; [|exact Hr]. by constructor. Qed.

Lemma solo_last s f outer outs s' t' :
  run_frame s f outer outs = Some (s', t') → rtc (solo step) (s, mkThread (f :: outer) outs) (s', t').
Proof. intros Hs. by eapply solo_next, rtc_refl. Qed.

(** The calls of callbacks added to the state. *)
Definition after_calls (w : list (nat * ChangeEvent)) (s : shared) : shared :=
  mkShared (store s) (writer s) (readers s) (callbacks s) (cbMu s) w (changes s).

Lemma firing_alone s e outer outs j cbs :
  Forall (λ cb, ∀ e, cb e = []) cbs →
  rtc (solo step) (s, mkThread (Firing (imap (λ i cb, (j + i, cb)) cbs) e :: outer) outs)
    (after_calls (fireCallbacks (imap (λ i _, recording (j + i)) cbs) e (called s)) s,
     mkThread outer (outs ++ [None])).
Proof.
  intros Hq. revert s j. induction Hq as [|cb cbs Hcb Hq IH]; intros s j; simpl.
  - apply solo_last. by destruct s.
  - rewrite Nat.add_0_r. eapply solo_next; [simpl; rewrite Hcb; reflexivity|]. simpl.
    pose proof (IH (call j e s) (S j)) as H. destruct s; simpl in *.
    rewrite (imap_ext _ (λ i cb, (S j + i, cb)) cbs), (imap_ext _ (λ i _, recording (S j + i)) cbs); [exact H|..];
      intros; simpl; by rewrite <-plus_n_Sm.
Qed.

Lemma changed_alone s e outer outs :
  quiet s → cbMu s = false →
  rtc (solo step) (s, mkThread (Changed e :: outer) outs)
    (after_calls (fireCallbacks (imap (λ i _, recording i) (callbacks s)) e (called s)) s,
     mkThread outer (outs ++ [None])).
Proof.
  intros Hq Hcb. eapply solo_next; [simpl; rewrite Hcb; reflexivity|].
  eapply solo_next; [reflexivity|]. destruct s; simpl in *. subst.
  pose proof (firing_alone (mkShared store0 writer0 readers0 callbacks0 false called0 changes0) e outer outs 0 _ Hq) as H.
  exact H.
Qed.

Lemma access_alone a s outer outs :
  quiet s → unlocked s →
  rtc (solo step) (set_mu true (readers s) s, mkThread (Waiting a :: outer) outs)
    (match apply_access a (store s) with
     | (_, Some err) => (s, mkThread outer (outs ++ [Some err]))
     | (st, None) =>
         (after_calls (fireCallbacks (imap (λ i _, recording i) (callbacks s)) (event_of a) (called s))
            (set_store st [event_of a] s), mkThread outer (outs ++ [None]))
     end).
Proof.
  intros Hq (Hw & Hr & Hc). eapply solo_next; [simpl; rewrite Hr; reflexivity|].
  destruct (apply_access a (store s)) as [st [err|]] eqn:Ha.
  - apply solo_last. simpl. rewrite Ha. destruct s; simpl in *; by subst.
  - eapply solo_next; [simpl; rewrite Ha; reflexivity|].
    pose proof (changed_alone (set_mu false (readers s) (set_store st [event_of a] s)) (event_of a) outer outs Hq Hc) as H.
    destruct s; simpl in *; by subst.
Qed.

Lemma run_register skill s outer outs :
  quiet s → unlocked s →
  let '(r', w', err) := SkillRegistry.Register skill (sequential s) (called s) in
  ∃ s', rtc (solo step) (s, mkThread (Call (Register skill) :: outer) outs) (s', mkThread outer (outs ++ [err])) ∧
        sequential s' = r' ∧ called s' = w' ∧ unlocked s'.
Proof.
  intros Hq Hu. unfold SkillRegistry.Register. destruct skill as [sk|].
  2:{ exists s. split; [by apply solo_last|done]. }
  destruct (String.eqb (sk_ID sk) "") eqn:E1.
  { exists s. split; [apply solo_last; simpl; by rewrite E1|done]. }
  destruct (sk_Validate sk) eqn:E2.
  { exists s. split; [apply solo_last; simpl; by rewrite E1, E2|done]. }
  pose proof (access_alone (Put (sk_ID sk) sk) s outer outs Hq Hu) as Ha. simpl in Ha. cbn [sequential SkillRegistry.store].
  destruct (MapStore.PutIfAbsent (sk_ID sk) sk (store s)) as [st ok] eqn:E3.
  destruct ok; simpl in *; (eexists; split;
    [eapply solo_next; [simpl; rewrite E1, E2, (proj1 Hu); reflexivity|exact Ha]|done]).
Qed.

Lemma run_unregister id s outer outs :
  quiet s → unlocked s →
  let '(r', w', err) := SkillRegistry.Unregister id (sequential s) (called s) in
  ∃ s', rtc (solo step) (s, mkThread (Call (Unregister id) :: outer) outs) (s', mkThread outer (outs ++ [err])) ∧
        sequential s' = r' ∧ called s' = w' ∧ unlocked s'.
Proof.
  intros Hq Hu. unfold SkillRegistry.Unregister.
  pose proof (access_alone (Delete id) s outer outs Hq Hu) as Ha. simpl in Ha. cbn [sequential SkillRegistry.store].
  destruct (MapStore.DeleteIfExists id (store s)) as [st ok] eqn:E3.
  destruct ok; simpl in *; (eexists; split;
    [eapply solo_next; [simpl; rewrite (proj1 Hu); reflexivity|exact Ha]|done]).
Qed.

(** *** Locks *)

(** The locks a call holds, or has announced itself for, where it is. *)
Definition writes (f : frame) : nat := match f with Waiting _ | Writing _ => 1 | _ => 0 end.
Definition reads (f : frame) : nat := match f with Reading _ => 1 | _ => 0 end.
Definition holds_cbMu (f : frame) : nat := match f with Copying _ | Appending _ => 1 | _ => 0 end.
Definition lock_free (f : frame) : Prop := writes f = 0 ∧ reads f = 0 ∧ holds_cbMu f = 0.

Definition held (h : frame → nat) (t : thread) : nat := sum_list_with h (stack t).
Definition nat_of (b : bool) : nat := if b then 1 else 0.

(** The locks are as held as the calls hold them, and only an innermost call holds
    any: a goroutine that calls a callback, or is inside of one, holds none on
    account of the calls around it. *)
Record locks_ok (c : shared * list thread) : Prop := {
  lo_writer : sum_list_with (held writes) c.2 = nat_of (writer c.1);
  lo_readers : sum_list_with (held reads) c.2 = readers c.1;
  lo_cbMu : sum_list_with (held holds_cbMu) c.2 = nat_of (cbMu c.1);
  lo_outer : Forall (λ t, Forall lock_free (tail (stack t))) c.2
}.

Lemma lock_free_sum fs :
  Forall lock_free fs → sum_list_with writes fs = 0 ∧ sum_list_with reads fs = 0 ∧ sum_list_with holds_cbMu fs = 0.
Proof. induction 1 as [|f fs (H1 & H2 & H3) _ IH]; [done|]. simpl. by rewrite H1, H2, H3. Qed.

Lemma calls_lock_free ops : Forall lock_free (map Call ops).
Proof. induction ops; constructor; done. Qed.

Lemma nat_of_le b : nat_of b ≤ 1.
Proof. destruct b; simpl; lia. Qed.

(** What a step does to the locks. *)
Lemma step_locks s t s' t' :
  step s t = Some (s', t') → Forall lock_free (tail (stack t)) →
  held writes t ≤ nat_of (writer s) → held reads t ≤ readers s → held holds_cbMu t ≤ nat_of (cbMu s) →
  nat_of (writer s') + held writes t = nat_of (writer s) + held writes t' ∧
  readers s' + held reads t = readers s + held reads t' ∧
  nat_of (cbMu s') + held holds_cbMu t = nat_of (cbMu s) + held holds_cbMu t' ∧
  Forall lock_free (tail (stack t')).
Proof.
  intros Hs Hout Hw Hr Hc. destruct t as [[|f outer] outs]; [done|]. simpl in Hout.
  destruct (lock_free_sum outer Hout) as (Ow & Or & Oc).
  assert (Htail : Forall lock_free (tail outer)) by (by destruct Hout).
  unfold held in *. simpl in Hw, Hr, Hc. unfold step in Hs. cbn [stack returns] in Hs.
  pose proof (nat_of_le (writer s)). pose proof (nat_of_le (cbMu s)).
  destruct f as [[[sk|]|id|cb|id| |ps|]|a|a|n|n|e|e|[|[i cb] cbs] e|cb]; simpl in Hs;
    repeat (case_match || simplify_eq/=);
    rewrite ?sum_list_with_app, ?(proj1 (lock_free_sum _ (calls_lock_free (cb e)))),
      ?(proj1 (proj2 (lock_free_sum _ (calls_lock_free (cb e))))),
      ?(proj2 (proj2 (lock_free_sum _ (calls_lock_free (cb e))))); simpl;
    repeat match goal with
      | H : writer _ = _ |- _ => rewrite H in *; clear H
      | H : cbMu _ = _ |- _ => rewrite H in *; clear H
      end; simpl in *; (split_and!; [lia|lia|lia|try done]).
  assert (Hf : Forall lock_free (map Call (cb e) ++ Firing cbs e :: outer))
    by (apply Forall_app; split; [apply calls_lock_free|by constructor]).
  by destruct (map Call (cb e) ++ Firing cbs e :: outer); inversion Hf.
Qed.

#[local] Arguments step : simpl never.

Lemma pool_locks c c' : rtc (pool_step step) c c' → locks_ok c → locks_ok c'.
Proof.
  apply pool_invariant. intros s l1 t l2 s' t' [Hw Hr Hc Ho] Hs. simpl in *.
  apply Forall_app in Ho as [Ho1 [Ho Ho2]%Forall_cons].
  rewrite sum_list_with_app in Hw, Hr, Hc. simpl in *.
  destruct (step_locks _ _ _ _ Hs Ho) as (Hw' & Hr' & Hc' & Ho'); [lia..|].
  split; simpl; rewrite ?sum_list_with_app; simpl; [lia..|]. by apply Forall_app; auto.
Qed.

Lemma start_locks cbs calls : locks_ok (start cbs, map calling calls).
Proof.
  split; simpl.
  1-3: induction calls as [|ops calls IH]; [done|]; simpl; rewrite IH; unfold held; simpl;
    pose proof (lock_free_sum _ (calls_lock_free ops)); lia.
  apply Forall_map, Forall_true. intros ops. simpl. pose proof (calls_lock_free ops) as H. by destruct H.
Qed.

(** What a goroutine waits for. *)
Lemma blocked s f outer outs :
  run_frame s f outer outs = None →
  reads f = 0 ∧ holds_cbMu f = 0 ∧
  (if decide (writes f = 0) then writer s = true ∨ cbMu s = true else readers s ≠ 0).
Proof.
  destruct f as [[[sk|]|id|cb|id| |ps|]|a|a|n|n|e|e|[|[i cb] cbs] e|cb]; simpl; intros Hs;
    repeat (case_match || simplify_eq/=); bool_simp; auto with lia.
Qed.

Lemma sum_list_with_zero {A} (f : A → nat) l : Forall (λ x, f x = 0) l → sum_list_with f l = 0.
Proof. induction 1 as [|x l Hx _ IH]; simpl; lia. Qed.

Lemma nobody_waits_forever s ts :
  locks_ok (s, ts) → Forall (λ t, step s t = None) ts → Forall finished ts.
Proof.
  intros [Hw Hr Hc Ho] Hn. simpl in *.
  assert (Hb : Forall (λ t, held reads t = 0 ∧ held holds_cbMu t = 0 ∧
      match stack t with [] => True | f :: _ =>
        if decide (writes f = 0) then writer s = true ∨ cbMu s = true else readers s ≠ 0 end) ts).
  { rewrite Forall_forall in *. intros t Ht. specialize (Ho t Ht). specialize (Hn t Ht).
    destruct t as [[|f outer] outs]; [done|]. unfold step in Hn. cbn [stack returns] in Hn.
    destruct (blocked _ _ _ _ Hn) as (H1 & H2 & H3). destruct (lock_free_sum _ Ho) as (O1 & O2 & O3).
    unfold held. simpl in *. rewrite H1, H2, O2, O3. done. }
  assert (Hz : readers s = 0 ∧ cbMu s = false).
  { rewrite sum_list_with_zero in Hr, Hc by (eapply Forall_impl; [exact Hb|]; by intros t (? & ? & _)).
    split; [done|]. by destruct (cbMu s). }
  destruct Hz as [Hz1 Hz2].
  assert (Hwr : writer s = false).
  { rewrite sum_list_with_zero in Hw; [by destruct (writer s)|]. rewrite Forall_forall in *.
    intros t Ht. specialize (Hb t Ht). specialize (Ho t Ht). destruct t as [[|f outer] outs]; [done|].
    unfold held. simpl in *. rewrite (proj1 (lock_free_sum _ Ho)). destruct Hb as (_ & _ & Hb).
    destruct (decide (writes f = 0)); [lia|congruence]. }
  eapply Forall_impl; [exact Hb|]. intros [[|f outer] outs]; [done|]. simpl. rewrite Hz1, Hz2, Hwr.
  intros (_ & _ & Hf). destruct (decide (writes f = 0)); [by destruct Hf|done].
Qed.

(** *** Accounting for the events *)

(** The events a callback has been called with, by its place in the list, and those
    a goroutine has still to call it with. *)
Definition received (k : nat) (s : shared) : list ChangeEvent := (filter (λ p, p.1 = k) (called s)).*2.
Definition pending (k : nat) (f : frame) : list ChangeEvent :=
  match f with
  | Changed e | Copying e => [e]
  | Firing cbs e => map (λ _, e) (filter (λ p, p.1 = k) cbs)
  | _ => []
  end.
Definition outstanding (k : nat) (ts : list thread) : list ChangeEvent := ts ≫= λ t, stack t ≫= pending k.

(** Changes from the empty registry that each find something to change: the
    registration of an absent skill or the removal of a present one. *)
Inductive history : list ChangeEvent → gset string → Prop :=
| history_empty : history [] ∅
| history_register l ids id :
    history l ids → id ∉ ids → history (l ++ [mkChangeEvent ChangeEventRegister id]) ({[id]} ∪ ids)
| history_unregister l ids id :
    history l ids → id ∈ ids → history (l ++ [mkChangeEvent ChangeEventUnregister id]) (ids ∖ {[id]}).

Definition made (c : shared * list thread) (k : nat) : Prop :=
  received k c.1 ++ outstanding k c.2 ⊆+ changes c.1.
Definition made_exactly (c : shared * list thread) (k : nat) : Prop :=
  received k c.1 ++ outstanding k c.2 ≡ₚ changes c.1.

Lemma pending_calls k ops : map Call ops ≫= pending k = [].
Proof. by induction ops. Qed.

Lemma copied_pending {A} (k j : nat) (e : A) (cbs : list callback) :
  map (λ _, e) (filter (λ p, p.1 = k) (imap (λ i cb, (j + i, cb)) cbs)) =
  if decide (j ≤ k < j + length cbs) then [e] else [].
Proof.
  revert j. induction cbs as [|cb cbs IH]; intros j; simpl.
  { rewrite decide_False by lia. done. }
  rewrite filter_cons. simpl. rewrite (imap_ext _ (λ i cb, (S j + i, cb)) cbs) by (intros; simpl; by rewrite <-plus_n_Sm).
  rewrite Nat.add_0_r. specialize (IH (S j)). simpl in IH. destruct (decide (j = k)) as [->|Hne]; simpl.
  - rewrite IH, decide_False, decide_True by lia. done.
  - rewrite IH. repeat case_decide; (done || lia).
Qed.

Lemma access_history a st l :
  history l (dom st) →
  match apply_access a st with
  | (st', None) => history (l ++ [event_of a]) (dom st')
  | (st', Some _) => st' = st
  end.
Proof.
  intros Hl. destruct a as [id sk|id]; simpl.
  - unfold MapStore.PutIfAbsent. destruct (st !! id) eqn:Hid; simpl; [done|].
    rewrite dom_insert_L. apply history_register; [done|]. by apply not_elem_of_dom.
  - unfold MapStore.DeleteIfExists. destruct (st !! id) eqn:Hid; simpl; [|done].
    rewrite dom_delete_L. apply history_unregister; [done|]. apply elem_of_dom. eauto.
Qed.

Definition stack_pending (k : nat) (t : thread) : list ChangeEvent := stack t ≫= pending k.

(** What a step does to the events: [s'] and the pending ones [p'] after [s] and [p]. *)
Definition events_step (s s' : shared) (p p' : nat → list ChangeEvent) : Prop :=
  callbacks s `prefix_of` callbacks s' ∧ history (changes s') (dom (store s')) ∧
  ∃ new, changes s' = changes s ++ new ∧
    ∀ k, received k s' ++ p' k ⊆+ received k s ++ p k ++ new ∧
         (k < length (callbacks s) → received k s' ++ p' k ≡ₚ received k s ++ p k ++ new).

Lemma events_exact s s' p p' new :
  callbacks s `prefix_of` callbacks s' → history (changes s') (dom (store s')) →
  changes s' = changes s ++ new → (∀ k, received k s' ++ p' k ≡ₚ received k s ++ p k ++ new) →
  events_step s s' p p'.
Proof.
  intros Hp Hh Hc Hk. split_and!; [done..|]. exists new. split; [done|]. intros k. by rewrite Hk.
Qed.

Lemma events_none s s' p p' :
  callbacks s `prefix_of` callbacks s' → history (changes s) (dom (store s)) →
  store s' = store s → changes s' = changes s → called s' = called s → (∀ k, p' k = p k) →
  events_step s s' p p'.
Proof.
  intros Hp Hh Hst Hc Hcd Hk. apply (events_exact _ _ _ _ []); [done|by rewrite Hc, Hst|by rewrite app_nil_r|].
  intros k. unfold received. by rewrite Hcd, Hk, app_nil_r.
Qed.

(** A step adds a change to those pending for every callback, calls a callback with
    one that is pending, or does neither; the events of a change are dropped only
    for callbacks that are not there yet when it copies them. *)
Lemma step_events s t s' t' :
  step s t = Some (s', t') → history (changes s) (dom (store s)) →
  events_step s s' (λ k, stack_pending k t) (λ k, stack_pending k t').
Proof.
  intros Hs Hh. destruct t as [[|f outer] outs]; [done|]. unfold step in Hs. cbn [stack returns] in Hs.
  unfold stack_pending. cbn [stack].
  destruct f as [[[sk|]|id|cb|id| |ps|]|a|a|n|n|e|e|[|[i cb] cbs] e|cb]; simpl in Hs;
    try (repeat (case_match || simplify_eq/=); by apply events_none).
  - pose proof (access_history a (store s) (changes s) Hh) as Ha.
    destruct (apply_access a (store s)) as [st [err|]] eqn:E; simplify_eq/=; [by apply events_none|].
    apply (events_exact _ _ _ _ [event_of a]); [done|done|done|]. intros k. apply Permutation_app_head.
    apply (Permutation_app_comm [event_of a]).
  - simplify_eq/=. split_and!; [done..|]. exists []. split; [by rewrite app_nil_r|]. intros k.
    rewrite app_nil_r.
    change (imap pair (callbacks s)) with (imap (λ i (cb : callback), (0 + i, cb)) (callbacks s)).
    rewrite copied_pending. split.
    + apply submseteq_skips_l. case_decide; [done|]. apply (submseteq_inserts_l [e]). done.
    + intros Hk. rewrite decide_True by lia. done.
  - simplify_eq/=. apply (events_exact _ _ _ _ []); [done..|by rewrite app_nil_r|]. intros k.
    rewrite app_nil_r, bind_app, pending_calls. simpl.
    unfold received. cbn [called call]. rewrite filter_app, filter_cons, filter_nil, fmap_app. cbn [fst].
    rewrite (filter_cons _ (i, cb)). cbn [fst].
    destruct (decide (i = k)); cbn [map app fmap list_fmap]; by rewrite <-app_assoc.
  - simplify_eq/=. apply events_none; [by apply prefix_app_r|done..].
Qed.

Definition accounted (n : nat) (c : shared * list thread) : Prop :=
  n ≤ length (callbacks c.1) ∧ history (changes c.1) (dom (store c.1)) ∧
  ∀ k, made c k ∧ (k < n → made_exactly c k).

Lemma pool_accounted n c c' : rtc (pool_step step) c c' → accounted n c → accounted n c'.
Proof.
  apply pool_invariant. intros s l1 t l2 s' t' (Hn & Hh & Hk) Hs. simpl in *.
  destruct (step_events _ _ _ _ Hs Hh) as (Hp & Hh' & new & Hnew & He). unfold accounted. simpl.
  split_and!; [apply prefix_length in Hp; lia|done|]. intros k. destruct (Hk k) as [Hm Hx].
  unfold made, made_exactly, outstanding in *. simpl in *. rewrite !bind_app, !bind_cons in *. fold (stack_pending k t) in *.
  fold (stack_pending k t'). rewrite Hnew. destruct (He k) as [He1 He2]. split.
  - set (a := l1 ≫= _) in *. set (b := l2 ≫= _) in *.
    transitivity ((received k s ++ stack_pending k t ++ new) ++ a ++ b).
    + transitivity ((received k s' ++ stack_pending k t') ++ a ++ b); [solve_submseteq|].
      by apply submseteq_skips_r.
    + transitivity ((received k s ++ a ++ stack_pending k t ++ b) ++ new); [solve_submseteq|].
      by apply submseteq_skips_r.
  - intros Hlt. rewrite <-(Hx Hlt). set (a := l1 ≫= _) in *. set (b := l2 ≫= _) in *.
    transitivity ((received k s' ++ stack_pending k t') ++ a ++ b); [solve_Permutation|].
    rewrite (He2 ltac:(lia)). solve_Permutation.
Qed.

Lemma start_outstanding k calls : outstanding k (map calling calls) = [].
Proof.
  unfold outstanding. induction calls as [|ops calls IH]; [done|]. simpl map. rewrite bind_cons, IH.
  simpl. by rewrite pending_calls.
Qed.

Lemma start_accounted cbs calls : accounted (length cbs) (start cbs, map calling calls).
Proof.
  split_and!; [done|simpl; rewrite dom_empty_L; constructor|]. intros k.
  unfold made, made_exactly. simpl. rewrite start_outstanding. done.
Qed.

Lemma finished_outstanding k ts : Forall finished ts → outstanding k ts = [].
Proof. induction 1 as [|t ts Ht _ IH]; [done|]. unfold outstanding in *. rewrite bind_cons, IH, Ht. done. Qed.
End RegistryThreads.

(* ------------------------------------------------------------------ *)
(** ** Properties of the skill registry *)
(* ------------------------------------------------------------------ *)

(** C35: Whatever goroutines call the registry, and whatever calls of it their
    callbacks make in turn, they never deadlock: as long as one of them has
    something left to do, one of them can go on. A goroutine that is calling
    callbacks holds neither the lock of the store nor that of the callbacks, neither
    for the innermost call nor for any call around it, so that a callback may
    register, remove, read and subscribe; and when all are done no lock is held.
    (The methods of a skill, which two reading operations call under the read lock,
    are assumed not to call the registry.) *)
Theorem registry_calls_never_deadlock cbs calls s ts :
  rtc (pool_step RegistryThreads.step)
    (RegistryThreads.start cbs, map RegistryThreads.calling calls) (s, ts) →
  (Exists (λ t, RegistryThreads.stack t ≠ []) ts → ∃ c', pool_step RegistryThreads.step (s, ts) c') ∧
  (∀ t copies e outer, t ∈ ts → RegistryThreads.stack t = RegistryThreads.Firing copies e :: outer →
     Forall RegistryThreads.lock_free (RegistryThreads.stack t)) ∧
  (Forall RegistryThreads.finished ts →
     RegistryThreads.writer s = false ∧ RegistryThreads.readers s = 0 ∧ RegistryThreads.cbMu s = false).
Proof.
  intros Hr. pose proof (RegistryThreads.pool_locks _ _ Hr (RegistryThreads.start_locks cbs calls)) as Hl.
  split_and!.
  - intros Hex. destruct (decide (Forall (λ t, RegistryThreads.step s t = None) ts)) as [Hn|Hn].
    + exfalso. apply (RegistryThreads.nobody_waits_forever _ _ Hl) in Hn.
      apply Exists_exists in Hex as (t & Ht & Hne). rewrite Forall_forall in Hn. by apply Hne, Hn.
    + apply not_Forall_Exists in Hn; [|apply _]. apply Exists_exists in Hn as (t & Ht & Hs).
      apply list_elem_of_lookup in Ht as [i Hi]. destruct (RegistryThreads.step s t) as [[s' t']|] eqn:E; [|done].
      exists (s', <[i := t']> ts). by econstructor.
  - intros t copies e outer Ht Hst. destruct Hl as [_ _ _ Ho]. rewrite Forall_forall in Ho.
    specialize (Ho t Ht). rewrite Hst in *. by constructor.
  - intros Hf. destruct Hl as [Hw Hr' Hc _]. simpl in *.
    rewrite RegistryThreads.sum_list_with_zero in Hw, Hr', Hc
      by (eapply Forall_impl; [exact Hf|]; intros t Ht; unfold RegistryThreads.held; by rewrite Ht).
    split_and!; [by destruct (RegistryThreads.writer s)|done|by destruct (RegistryThreads.cbMu s)].
Qed.

(** The order of the events is not that of the changes: between a change and its
    event another operation can make and report one of its own. *)
Definition race : list (list RegistryThreads.op) :=
  [[RegistryThreads.Register (Some (sample_skill "a" []))]; [RegistryThreads.Unregister "a"]].
Definition registered (id : string) := SkillRegistry.mkChangeEvent SkillRegistry.ChangeEventRegister id.
Definition unregistered (id : string) := SkillRegistry.mkChangeEvent SkillRegistry.ChangeEventUnregister id.
(** A subscriber that looks at the skill and subscribes another one. *)
Definition curious : RegistryThreads.callback :=
  λ e, [RegistryThreads.Get (SkillRegistry.ce_SkillID e); RegistryThreads.Subscribe (λ _, [])].

Ltac turn i := eapply rtc_l; [eapply (pool_sched _ _ _ i); reflexivity|].

Lemma race_ends cbs e1 e2 :
  cbs = [λ _, []] → e1 = registered "a" → e2 = unregistered "a" →
  rtc (pool_step RegistryThreads.step) (RegistryThreads.start cbs, map RegistryThreads.calling race)
    (RegistryThreads.mkShared ∅ false 0 cbs false [(0, e2); (0, e1)] [e1; e2],
     [RegistryThreads.mkThread [] [None]; RegistryThreads.mkThread [] [None]]).
Proof. intros -> -> ->. do 3 turn 0. do 7 turn 1. do 4 turn 0. apply rtc_refl. Qed.

Lemma registry_calls_never_deadlock_witness :
  ∃ s ts, RegistryThreads.called s = [(0, registered "a")] ∧ RegistryThreads.readers s = 0 ∧
    ∃ c', pool_step RegistryThreads.step (s, ts) c'.
Proof.
  eexists _, _. split; [|split].
  3:{ refine (proj1 (registry_calls_never_deadlock [curious] race _ _ _) _).
      - do 6 turn 0. apply rtc_refl.
      - apply Exists_cons_hd. discriminate. }
  - reflexivity.
  - reflexivity.
Defined.

(** C28: Whatever goroutines register and remove skills, and whatever the callbacks
    call in turn: at every moment the changes made so far are a history of the
    registry, each registering an absent skill or removing a present one, that
    leads from the empty registry to the skills registered now. For every callback
    there from the beginning, the events it has been called with and those it is
    still to be called with are exactly these changes, each as often as it was made;
    so once all goroutines are done it has been told of every change once and of
    nothing else. A callback that is subscribed later is told of no change twice and
    of none that was not made. *)
Theorem concurrent_changes_are_all_reported cbs calls s ts :
  rtc (pool_step RegistryThreads.step)
    (RegistryThreads.start cbs, map RegistryThreads.calling calls) (s, ts) →
  RegistryThreads.history (RegistryThreads.changes s) (dom (RegistryThreads.store s)) ∧
  (∀ k, k < length cbs →
     RegistryThreads.received k s ++ RegistryThreads.outstanding k ts ≡ₚ RegistryThreads.changes s) ∧
  (Forall RegistryThreads.finished ts →
     ∀ k, k < length cbs → RegistryThreads.received k s ≡ₚ RegistryThreads.changes s) ∧
  (∀ k, RegistryThreads.received k s ⊆+ RegistryThreads.changes s).
Proof.
  intros Hr. destruct (RegistryThreads.pool_accounted _ _ _ Hr (RegistryThreads.start_accounted cbs calls))
    as (_ & Hh & Hk). unfold RegistryThreads.made, RegistryThreads.made_exactly in Hk. simpl in *. split_and!; [done|..].
  - intros k. apply Hk.
  - intros Hf k Hlt. rewrite <-(proj2 (Hk k) Hlt), RegistryThreads.finished_outstanding by done. by rewrite app_nil_r.
  - intros k. transitivity (RegistryThreads.received k s ++ RegistryThreads.outstanding k ts); [|apply Hk].
    apply submseteq_inserts_r. done.
Qed.

Lemma concurrent_changes_are_all_reported_witness :
  [unregistered "a"; registered "a"] ≡ₚ [registered "a"; unregistered "a"].
Proof.
  refine (proj1 (proj2 (proj2 (concurrent_changes_are_all_reported [λ _, []] race _ _
    (race_ends _ _ _ eq_refl eq_refl eq_refl)))) _ 0 _).
  - repeat constructor.
  - simpl. lia.
Defined.

(** Events can overtake each other: from an empty registry, a registration and
    a removal of the same skill can both succeed and leave it unregistered while a
    subscriber is told of the removal first. A subscriber that keeps its own list
    in the order of the events then holds a skill that is gone. *)
Theorem events_can_overtake_each_other :
  ∃ s ts,
    rtc (pool_step RegistryThreads.step)
      (RegistryThreads.start [λ _, []], map RegistryThreads.calling race) (s, ts) ∧
    map RegistryThreads.returns ts = [[None]; [None]] ∧ Forall RegistryThreads.finished ts ∧
    RegistryThreads.store s = ∅ ∧ SkillRegistryFacts.replay (RegistryThreads.received 0 s) = {["a"]}.
Proof.
  eexists _, _. split; [by apply race_ends|]. split_and!; [reflexivity|repeat constructor|reflexivity|].
  apply set_eq. intros id. vm_compute (SkillRegistryFacts.replay _). set_solver.
Qed.

(* ------------------------------------------------------------------ *)
(** ** Operations of the audit emitter *)
(* ------------------------------------------------------------------ *)

Module EmitterThreads.
Section threads.
Context `{MapRange} {W : Type}.
Variable uuid : nat → string.

(** The subscribers, the identifiers handed out, and the world. *)
Definition shared : Type := gmap string (AuditSubscriber W) * nat * W.

(** An operation before its access to the subscribers, while it delivers to the
    ones it copied, and returned. *)
Inductive thread :=
| Emitting (ctx : bool) (event : AuditEvent)
| Delivering (subs : list (AuditSubscriber W)) (event : AuditEvent)
| Subscribing (s : option (AuditSubscriber W))
| Unsubscribing (id : string)
| Returned (err : option error).

(** The identifier is made before the lock is taken; it is the thread's own. *)
Definition step (c : shared) (t : thread) : option (shared * thread) :=
  let '(subscribers, n, w) := c in
  match t with
  | Emitting ctx event =>
      if negb ctx then Some (c, Returned (Some (EFmt "audit: context is required" [])))
      else
        let '(event, n) := if String.eqb (ae_ID event) "" then (set_ID (uuid n) event, S n) else (event, n) in
        Some ((subscribers, n, w), Delivering (range_values subscribers) event)
  | Delivering [] _ => Some (c, Returned None)
  | Delivering (s :: subs) event => Some ((subscribers, n, (OnEvent s event w).1), Delivering subs event)
  | Subscribing s =>
      let '(subscribers, err) := Subscribe s subscribers in Some ((subscribers, n, w), Returned err)
  | Unsubscribing id =>
      let '(subscribers, err) := Unsubscribe id subscribers in Some ((subscribers, n, w), Returned err)
  | Returned _ => None
  end.

Lemma deliver_alone subscribers n w subs event :
  rtc (solo step) ((subscribers, n, w), Delivering subs event)
    ((subscribers, n, foldl (λ w s, (OnEvent s event w).1) w subs), Returned None).
Proof using.
  revert w. induction subs as [|s subs IH]; intros w; simpl; [by apply rtc_once; constructor|].
  eapply rtc_l; [by constructor|]. apply IH.
Qed.

Lemma emit_alone subscribers ctx event n w :
  let '(w', n', err) := Emit uuid subscribers ctx event n w in
  rtc (solo step) ((subscribers, n, w), Emitting ctx event) ((subscribers, n', w'), Returned err).
Proof using.
  unfold Emit. destruct ctx; simpl; [|by apply rtc_once; constructor].
  destruct (String.eqb (ae_ID event) "") eqn:E;
    (eapply rtc_l; [by constructor; simpl; rewrite E|]); apply deliver_alone.
Qed.
End threads.
Arguments thread : clear implicits.

(** *** A subscriber that stays *)

Abbreviation log := (list (string * AuditEvent)).
Abbreviation pool := (shared (W := log) * list (thread log))%type.

(** Events up to their identifier. *)
Definition anonymous (e : AuditEvent) : AuditEvent := set_ID "" e.
(** What the log holds for one subscriber. *)
Definition received (k : string) (l : log) : list AuditEvent :=
  map (λ x, anonymous x.2) (filter (λ x, x.1 = k) l).
(** What a thread has still to deliver to it. *)
Definition due (k : string) (t : thread log) : list AuditEvent :=
  match t with
  | Emitting true e => [anonymous e]
  | Delivering subs e => map (λ _, anonymous e) (filter (λ s, sub_ID s = k) subs)
  | _ => []
  end.

Definition recording (how : string → AuditEvent → delivery) (s : AuditSubscriber log) : Prop :=
  s = recorder (sub_ID s) (how (sub_ID s)).
(** The subscribers of the pool write down what they get, and none removes [k]. *)
Definition harmless (how : string → AuditEvent → delivery) (k : string) (t : thread log) : Prop :=
  match t with
  | Delivering subs _ => Forall (recording how) subs
  | Subscribing (Some s) => recording how s
  | Unsubscribing id => id ≠ k
  | _ => True
  end.

Definition staying (how : string → AuditEvent → delivery) (k : string)
    (m : gmap string (AuditSubscriber log)) : Prop :=
  is_Some (m !! k) ∧ map_Forall (λ id s, sub_ID s = id ∧ recording how s) m.

Section staying.
Context `{MapRange}.
Variable uuid : nat → string.
Variables (how : string → AuditEvent → delivery) (k : string).

Lemma one_subscriber (l : list (string * AuditSubscriber log)) s :
  NoDup l.*1 → (∀ id x, (id, x) ∈ l → sub_ID x = id) → (k, s) ∈ l →
  filter (λ x, sub_ID x = k) l.*2 = [s].
Proof using.
  induction l as [|[id x] l IH]; csimpl; intros Hnd Hid Hin; [by apply elem_of_nil in Hin|].
  apply NoDup_cons in Hnd as [Hni Hnd]. assert (Hx : sub_ID x = id) by (apply Hid; constructor).
  apply elem_of_cons in Hin as [[= <- <-]|Hin].
  - rewrite filter_cons, decide_True by done. f_equal.
    destruct (filter _ l.*2) as [|y ys] eqn:E; [done|]. exfalso. apply Hni.
    assert (y ∈ filter (λ x, sub_ID x = k) l.*2) as [Heq Hy]%list_elem_of_filter by (rewrite E; constructor).
    apply list_elem_of_fmap in Hy as ([id y'] & -> & Hy).
    assert (sub_ID y' = id) by (apply Hid; by constructor). simpl in *. subst. apply list_elem_of_fmap.
    by exists (sub_ID y', y').
  - rewrite filter_cons, decide_False.
    + apply IH; [done| |done]. intros ? ? ?. apply Hid. by constructor.
    + intros Heq. apply Hni. apply list_elem_of_fmap. exists (k, s). split; [simpl; congruence|done].
Qed.

Lemma staying_once m e :
  staying how k m → map (λ _, anonymous e) (filter (λ s, sub_ID s = k) (range_values m)) = [anonymous e].
Proof using.
  intros [[s Hs] Hm]. unfold range_values. rewrite (one_subscriber _ s); [done|apply range_NoDup_keys| |].
  - intros id x Hx. apply elem_of_range in Hx. by apply Hm in Hx as [? _].
  - by apply elem_of_range.
Qed.

Lemma received_app l1 l2 : received k (l1 ++ l2) = received k l1 ++ received k l2.
Proof using. unfold received. by rewrite filter_app, map_app. Qed.

Lemma step_staying m n (w : log) t m' n' w' t' :
  step uuid (m, n, w) t = Some ((m', n', w'), t') → staying how k m → harmless how k t →
  staying how k m' ∧ harmless how k t' ∧ received k w' ++ due k t' = received k w ++ due k t.
Proof using.
  intros Hs Hm Ht. destruct t as [[] e|[|s subs] e|[s|]|id|err]; simpl in Hs; simplify_eq; try done.
  - assert (Hall : Forall (recording how) (range_values m)).
    { apply Forall_forall. intros x [id Hx]%elem_of_range_values. by apply Hm in Hx as [_ ?]. }
    destruct (String.eqb (ae_ID e) ""); simplify_eq; (split_and!; [done..|]);
      simpl; f_equal; first [by apply staying_once|by apply (staying_once _ (set_ID (uuid n) e))].
  - apply Forall_cons in Ht as [Hr Ht]. split_and!; [done..|]. rewrite Hr. simpl.
    rewrite received_app, <-app_assoc. f_equal. unfold received. rewrite !filter_cons, filter_nil. simpl.
    rewrite <-Hr. by case_decide.
  - unfold Subscribe in Hs. destruct (m !! sub_ID s) eqn:Hl; simplify_eq; [done|].
    split; [|done]. destruct Hm as [Hk Hm]. split.
    + destruct (decide (k = sub_ID s)) as [->|]; [by rewrite lookup_insert_eq|by rewrite lookup_insert_ne].
    + by apply map_Forall_insert_2.
  - unfold Unsubscribe in Hs. destruct (String.eqb id ""); simplify_eq; [done|].
    destruct (m !! id) eqn:Hl; simplify_eq; [|done]. split; [|done]. destruct Hm as [Hk Hm]. split.
    + simpl in Ht. by rewrite lookup_delete_ne.
    + by apply map_Forall_delete.
Qed.

#[local] Arguments step : simpl never.

Lemma pool_staying c c' :
  rtc (pool_step (step uuid)) c c' → staying how k c.1.1.1 → Forall (harmless how k) c.2 →
  received k c'.1.2 ++ (c'.2 ≫= due k) ≡ₚ received k c.1.2 ++ (c.2 ≫= due k).
Proof using.
  intros Hr Hm Ht.
  apply (pool_invariant (step uuid) (λ x, staying how k x.1.1.1 ∧ Forall (harmless how k) x.2 ∧
    received k x.1.2 ++ (x.2 ≫= due k) ≡ₚ received k c.1.2 ++ (c.2 ≫= due k))) in Hr; [by apply Hr| |done].
  clear. intros [[m n] w] l1 t l2 [[m' n'] w'] t' (Hm & Ht & Hp) Hs. simpl in *.
  apply Forall_app in Ht as [Ht1 [Ht Ht2]%Forall_cons].
  destruct (step_staying _ _ _ _ _ _ _ _ Hs Hm Ht) as (Hm' & Ht' & Heq).
  split_and!; [done|by apply Forall_app; auto|]. rewrite <-Hp, !bind_app, !bind_cons.
  rewrite !(Permutation_app_swap_app (l1 ≫= due k)), !(app_assoc (received k _)), Heq. done.
Qed.
End staying.

(** *** Termination *)

Section termination.
Context `{MapRange} {W : Type}.
Variable uuid : nat → string.

Definition subscribing (t : thread W) : nat := match t with Subscribing _ => 1 | _ => 0 end.
Definition potential (c : shared (W := W) * list (thread W)) : nat :=
  size c.1.1.1 + sum_list_with subscribing c.2.
Definition weight (n : nat) (t : thread W) : nat :=
  match t with
  | Emitting _ _ => n + 2
  | Delivering subs _ => length subs + 1
  | Subscribing _ | Unsubscribing _ => 1
  | Returned _ => 0
  end.
Definition measure (c : shared (W := W) * list (thread W)) : nat := sum_list_with (weight (potential c)) c.2.

Lemma emitter_step_potential m n w t m' n' w' t' :
  step uuid (m, n, w) t = Some ((m', n', w'), t') →
  size m' + subscribing t' ≤ size m + subscribing t.
Proof using.
  destruct t as [[] e|[|s subs] e|[s|]|id|err]; simpl; unfold Subscribe, Unsubscribe; intros Hs;
    repeat (case_match || simplify_eq/=); try lia.
  - rewrite map_size_insert_None by done. lia.
  - rewrite map_size_delete_Some by eauto. lia.
Qed.

Lemma emitter_step_weight m n w t m' n' w' t' b :
  step uuid (m, n, w) t = Some ((m', n', w'), t') → size m ≤ b → weight b t' < weight b t.
Proof using.
  destruct t as [[] e|[|s subs] e|[s|]|id|err]; simpl; unfold Subscribe, Unsubscribe; intros Hs Hb;
    repeat (case_match || simplify_eq/=); try lia;
    unfold range_values; rewrite length_fmap, range_length; lia.
Qed.

Lemma weight_mono a b ts : a ≤ b → sum_list_with (weight a) ts ≤ sum_list_with (weight b) ts.
Proof using.
  intros Hab. induction ts as [|t ts IH]; simpl; [done|].
  assert (weight a t ≤ weight b t) by (destruct t; simpl; lia). lia.
Qed.

Lemma emitter_step_measure s l1 t l2 s' t' :
  step uuid s t = Some (s', t') → measure (s', l1 ++ t' :: l2) < measure (s, l1 ++ t :: l2).
Proof using.
  destruct s as [[m n] w], s' as [[m' n'] w']. intros Hs.
  set (a := potential ((m', n', w'), l1 ++ t' :: l2)). set (b := potential ((m, n, w), l1 ++ t :: l2)).
  assert (Hp : a ≤ b).
  { apply emitter_step_potential in Hs. unfold a, b, potential. simpl. rewrite !sum_list_with_app. simpl. lia. }
  assert (Hm : size m ≤ b) by (unfold b, potential; simpl; lia).
  apply (emitter_step_weight _ _ _ _ _ _ _ _ b) in Hs; [|done].
  change (sum_list_with (weight a) (l1 ++ t' :: l2) < sum_list_with (weight b) (l1 ++ t :: l2)).
  pose proof (weight_mono _ _ (l1 ++ t' :: l2) Hp) as Hle. clearbody a b.
  rewrite !sum_list_with_app in *. simpl in *. lia.
Qed.

Definition returned (t : thread W) : Prop := ∃ err, t = Returned err.
Lemma emitter_step_None (c : shared (W := W)) t : step uuid c t = None → returned t.
Proof using.
  destruct c as [[m n] w]. destruct t as [[] e|[|s subs] e|[s|]|id|err]; simpl;
    unfold Subscribe, Unsubscribe; repeat case_match; try done; by eexists.
Qed.
End termination.
End EmitterThreads.

(* ------------------------------------------------------------------ *)
(** ** Properties of the audit emitter *)
(* ------------------------------------------------------------------ *)

(** C29: A subscriber that is registered when a pool of operations starts, and that
    no operation of the pool removes, receives every event emitted with a context
    exactly once, however the emissions interleave with each other and with other
    subscribers coming and going; the pool always comes to an end, with every
    operation returned, and an emission that runs alone does what Emit does. *)
Theorem concurrent_emits_reach_who_stays `{MapRange} uuid how k subs n ts c' :
  EmitterThreads.staying how k subs →
  Forall (λ t, EmitterThreads.harmless how k t ∧
    match t with EmitterThreads.Delivering _ _ => False | _ => True end) ts →
  rtc (pool_step (EmitterThreads.step uuid)) ((subs, n, []), ts) c' →
  Acc (flip (pool_step (EmitterThreads.step uuid))) c' ∧
  ((∀ c'', ¬ pool_step (EmitterThreads.step uuid) c' c'') →
     Forall EmitterThreads.returned c'.2 ∧
     EmitterThreads.received k c'.1.2 ≡ₚ
       omap (λ t, match t with EmitterThreads.Emitting true e => Some (set_ID "" e) | _ => None end) ts) ∧
  (∀ ctx event w, let '(w', n', err) := Emit uuid subs ctx event n w in
     rtc (solo (EmitterThreads.step uuid)) ((subs, n, w), EmitterThreads.Emitting ctx event)
       ((subs, n', w'), EmitterThreads.Returned err)).
Proof.
  intros Hs Ht Hr. split_and!.
  - apply (pool_terminates _ EmitterThreads.measure). intros. by apply (EmitterThreads.emitter_step_measure uuid).
  - destruct c' as [s ts']. intros Hn.
    assert (Hd : Forall EmitterThreads.returned ts').
    { eapply Forall_impl; [by eapply pool_stuck|]. intros t. apply (EmitterThreads.emitter_step_None uuid). }
    split; [done|]. apply (EmitterThreads.pool_staying uuid how k) in Hr;
      [|done|by eapply Forall_impl; [exact Ht|intros t [? _]]]. simpl in *.
    assert (ts' ≫= EmitterThreads.due k = []) as Hp.
    { clear Hr Hn. induction Hd as [|t l [err ->] _ IH]; [done|]. by rewrite bind_cons, IH. }
    rewrite Hp, app_nil_r in Hr. rewrite Hr. clear -Ht.
    induction Ht as [|t ts [_ Ht] _ IH]; [done|]. rewrite bind_cons. destruct t as [[]| | | |]; csimpl; try done.
    by rewrite IH.
  - intros. apply EmitterThreads.emit_alone.
Qed.

(** An emission while another subscriber is removed. *)
Definition one_recorder : gmap string (AuditSubscriber (list (string * AuditEvent))) :=
  {[ "a" := recorder "a" (λ _, Delivered) ]}.
Definition emit_and_leave : list (EmitterThreads.thread (list (string * AuditEvent))) :=
  [EmitterThreads.Emitting true blank_event; EmitterThreads.Unsubscribing "b"].

Lemma concurrent_emits_reach_who_stays_witness :
  ∃ c', rtc (pool_step (@EmitterThreads.step range_fwd _ (λ _, "u"))) ((one_recorder, 0, []), emit_and_leave) c' ∧
        EmitterThreads.received "a" c'.1.2 = [blank_event].
Proof.
  set (c' := ((one_recorder, 1, [("a", set_ID "u" blank_event)]),
    [EmitterThreads.Returned None;
     EmitterThreads.Returned (Some (EFmt "audit: subscriber %s not found" [FS "b"]))])
     : EmitterThreads.shared * list (EmitterThreads.thread (list (string * AuditEvent)))).
  assert (Hr : rtc (pool_step (@EmitterThreads.step range_fwd _ (λ _, "u")))
    ((one_recorder, 0, []), emit_and_leave) c').
  { eapply rtc_l; [eapply (pool_sched _ _ _ 0); reflexivity|].
    eapply rtc_l; [eapply (pool_sched _ _ _ 1); reflexivity|].
    do 2 (eapply rtc_l; [eapply (pool_sched _ _ _ 0); reflexivity|]). apply rtc_refl. }
  exists c'. split; [exact Hr|].
  destruct (@concurrent_emits_reach_who_stays range_fwd (λ _, "u") (λ _ _, Delivered) "a" one_recorder 0
    emit_and_leave c') as (_ & Hd & _); [| |exact Hr|].
  - split; [by eexists|]. by apply map_Forall_singleton.
  - repeat constructor. done.
  - destruct Hd as [_ Hd]; [|by apply Permutation_singleton_r in Hd].
    intros c'' Hs. apply pool_split in Hs as ([|? [|? [|]]] & u & l2 & s' & u' & Heq & Hu & _); unfold c' in *; by simplify_eq/=.
Defined.
