(* ===== verification/Runtime.v ===== *)
(** The request-scoped state: the execution context that concurrent steps add their
    results to ([src/execution/execution_context.go]), the assistant a request is
    served by ([src/assistant/assistant_runtime.go]), the user it comes from
    ([src/access/auth/user.go]) and the restricted model access of builtin tools
    ([src/ai/types/llm_access.go]). *)
From S2P Require Export Planner Concurrent.

(* ------------------------------------------------------------------ *)
(** ** The assistant (assistant_runtime.go) *)
(* ------------------------------------------------------------------ *)

Definition defaultSystemPrompt : string := "You are a helpful AI assistant.".

Record AssistantRuntime := mkAssistantRuntime {
  ar_AssistantID : string;
  ar_TenantID : string;
  ar_Soul : AssistantSoul;
  ar_Skills : list string;
  ar_Policies : list string;
  ar_MemoryScope : string;
  ar_ToolPermissions : list string
}.

Definition EffectiveSystemPrompt (r : AssistantRuntime) : string :=
  if negb (String.eqb (as_SystemPrompt (ar_Soul r)) "") then as_SystemPrompt (ar_Soul r)
  else defaultSystemPrompt.
Definition EffectivePersonality (r : AssistantRuntime) : string := as_Personality (ar_Soul r).
Definition EffectiveInstructions (r : AssistantRuntime) : string := as_Instructions (ar_Soul r).
Definition AllowedSkills (r : AssistantRuntime) : list string := as_AllowedSkills (ar_Soul r).
Definition AllowedTools (r : AssistantRuntime) : list string := as_AllowedTools (ar_Soul r).

(* ------------------------------------------------------------------ *)
(** ** Users (user.go) *)
(* ------------------------------------------------------------------ *)

Record User := mkUser { us_ID : string; us_TenantID : string; us_Name : string; us_Role : string }.

(** On a nil user too. *)
Definition IsAdmin (u : option User) : bool :=
  match u with Some u => String.eqb (us_Role u) "admin" | None => false end.

(* ------------------------------------------------------------------ *)
(** ** Model access for builtin tools (llm_access.go) *)
(* ------------------------------------------------------------------ *)

Record LLMRequest := mkLLMRequest {
  lr_SystemPrompt : string;
  lr_Contents : list ContentBlock;
  lr_MaxTokens : Z;
  lr_Temperature : float64
}.

Record LLMResponse := mkLLMResponse {
  lp_Content : string;
  lp_Usage : TokenUsage;
  lp_ModelUsed : string;
  lp_Latency : Z
}.

(** The interface, and the adapter that makes a function one. A response comes
    after some actions of a type [A] of its own. *)
Class LLMAccess (A : Type) := llm_generate : LLMRequest → A * result error LLMResponse.
Definition LLMAccessFunc {A} (f : LLMRequest → A * result error LLMResponse) : LLMAccess A := f.

(* ------------------------------------------------------------------ *)
(** ** Steps that add their results concurrently (execution_context.go) *)
(* ------------------------------------------------------------------ *)

Module ResultThreads.
Section threads.
Context {P : Type}.

(** A worker with results still to add, and a reader before and after it has
    copied the results. Both hold the lock for the whole of a call. *)
Inductive thread :=
| Adding (todo : list StepResult)
| Asking
| Answered (copy : list StepResult).

Definition step (ec : ExecutionContext P) (t : thread) : option (ExecutionContext P * thread) :=
  match t with
  | Adding (res :: todo) => Some (AddResult ec res, Adding todo)
  | Adding [] => None
  | Asking => Some (ec, Answered (Results ec))
  | Answered _ => None
  end.

Definition todo (t : thread) : list StepResult := match t with Adding rs => rs | _ => [] end.
Definition weight (t : thread) : nat := match t with Adding rs => length rs | Asking => 1 | Answered _ => 0 end.

(** Two threads before and after some steps: what a worker has added since is a
    sublist of what was added to the context, and a copy taken since is a prefix of
    its results that has all there were before. *)
Definition progressed (before : list StepResult) (ec : ExecutionContext P) (t t' : thread) : Prop :=
  match t, t' with
  | Adding rs, Adding rs' => ∃ added, rs = added ++ rs' ∧ ∃ new, Results ec = before ++ new ∧ added `sublist_of` new
  | Asking, Asking => True
  | Asking, Answered copy => before `prefix_of` copy ∧ copy `prefix_of` Results ec
  | Answered copy, Answered copy' => copy' = copy
  | _, _ => False
  end.

Definition history (before : list StepResult) (ts : list thread) (c : ExecutionContext P * list thread) : Prop :=
  Forall2 (progressed before c.1) ts c.2 ∧
  ∃ new, Results c.1 = before ++ new ∧ new ++ (c.2 ≫= todo) ≡ₚ ts ≫= todo.

Lemma progressed_refl ec t : progressed (Results ec) ec t t.
Proof. destruct t; simpl; try done. exists []. split; [done|]. exists []. by rewrite app_nil_r. Qed.

Lemma history_refl ec ts : history (Results ec) ts (ec, ts).
Proof.
  split; [|exists []; by rewrite app_nil_r]. simpl. apply Forall2_same_length_lookup_2; [done|].
  intros i t t' Ht Ht'. simplify_eq. apply progressed_refl.
Qed.

Lemma progressed_add before ec res t t' :
  progressed before ec t t' → progressed before (AddResult ec res) t t'.
Proof.
  destruct t, t'; simpl; try done.
  - intros (added & -> & new & Hn & Hs). exists added. split; [done|]. exists (new ++ [res]).
    unfold Results in *. simpl. rewrite Hn. split; [by rewrite app_assoc|]. by apply sublist_inserts_r.
  - intros [Hb Hc]. split; [done|]. unfold Results in *. simpl. by apply prefix_app_r.
Qed.

Lemma step_history before ts ec l1 t l2 ec' t' :
  history before ts (ec, l1 ++ t :: l2) → step ec t = Some (ec', t') → history before ts (ec', l1 ++ t' :: l2).
Proof.
  intros [Hf (new & Hn & Hp)] Hs. simpl in *.
  apply Forall2_app_inv_r in Hf as (k1 & k2 & Hk1 & Hk2 & ->).
  apply Forall2_cons_inv_r in Hk2 as (t0 & k2' & Ht & Hk2 & ->).
  destruct t as [[|res rs]| |]; simplify_eq/=.
  - split; simpl.
    + apply Forall2_app; [|apply Forall2_cons_2]; [by eapply Forall2_impl; [|apply progressed_add]| |
        by eapply Forall2_impl; [|apply progressed_add]].
      destruct t0; simpl in *; try done. destruct Ht as (added & -> & new' & Hn' & Hsub).
      exists (added ++ [res]). rewrite <-app_assoc. split; [done|]. exists (new' ++ [res]).
      unfold Results in *. simpl. rewrite Hn'. split; [by rewrite app_assoc|]. by apply sublist_app.
    + exists (new ++ [res]). unfold Results in *. simpl. rewrite Hn. split; [by rewrite app_assoc|].
      rewrite <-Hp, !bind_app, !bind_cons. simpl. rewrite <-!app_assoc. simpl. f_equiv.
      by rewrite <-Permutation_middle.
  - split; simpl.
    + apply Forall2_app; [done|apply Forall2_cons_2; [|done]].
      destruct t0; simpl in *; try done. split; [|done]. rewrite Hn. by eexists.
    + exists new. split; [done|]. rewrite <-Hp, !bind_app, !bind_cons. done.
Qed.

Lemma pool_history before ts c c' :
  rtc (pool_step step) c c' → history before ts c → history before ts c'.
Proof. apply pool_invariant. intros. by eapply step_history. Qed.

Lemma result_step_weight l1 l2 ec t ec' t' :
  step ec t = Some (ec', t') → sum_list_with weight (l1 ++ t' :: l2) < sum_list_with weight (l1 ++ t :: l2).
Proof.
  rewrite !sum_list_with_app. destruct t as [[|res rs]| |]; intros; simplify_eq/=; lia.
Qed.
End threads.
End ResultThreads.

(** C30: Steps that run concurrently lose no result and disturb none: however their
    calls interleave, the context's results only grow, the results of one worker
    stand in the order in which it added them, and a copy that was asked for is a
    prefix of the results that holds all there were when it was asked for. Every
    schedule is finite, and at its end the new results are, in some order, exactly
    those of all workers, and every reader has its copy. *)
Theorem concurrent_results_are_all_kept {P} (ec : ExecutionContext P) ts ec' ts' :
  rtc (pool_step ResultThreads.step) (ec, ts) (ec', ts') →
  Acc (flip (pool_step ResultThreads.step)) (ec', ts') ∧
  Results ec `prefix_of` Results ec' ∧
  Forall2 (ResultThreads.progressed (Results ec) ec') ts ts' ∧
  ((∀ c, ¬ pool_step ResultThreads.step (ec', ts') c) →
   (∃ new, Results ec' = Results ec ++ new ∧ new ≡ₚ ts ≫= ResultThreads.todo) ∧
   Forall (λ t, t ≠ ResultThreads.Asking) ts').
Proof.
  intros Hr. destruct (ResultThreads.pool_history (Results ec) ts _ _ Hr (ResultThreads.history_refl ec ts))
    as [Hf (new & Hn & Hp)]. simpl in *. split_and!; [|by exists new|done|].
  - apply (pool_terminates _ (λ c, sum_list_with ResultThreads.weight c.2)). intros s l1 t l2 s' t' Hs.
    by eapply ResultThreads.result_step_weight.
  - intros Hend. apply pool_stuck in Hend. split; [|eapply Forall_impl; [exact Hend|]; by intros []].
    exists new. split; [done|]. rewrite <-Hp.
    assert (ts' ≫= ResultThreads.todo = []) as ->; [|by rewrite app_nil_r].
    clear Hr Hf Hp. induction Hend as [|t l Ht _ IH]; [done|]. rewrite bind_cons, IH.
    by destruct t as [[]| |].
Qed.

(** Two workers, the second of which is overtaken by the first, and a reader. *)
Definition named (n : string) : StepResult := mkStepResult n "tool" ANil [] None 0 n 0 false None.
Definition workers : list ResultThreads.thread :=
  [ResultThreads.Adding [named "a"; named "b"]; ResultThreads.Adding [named "c"]; ResultThreads.Asking].

Lemma concurrent_results_are_all_kept_witness :
  ∃ ec', rtc (pool_step ResultThreads.step) (NewExecutionContext (P := unit) None 0 "r" "a" "s" "t" "u", workers)
    (ec', [ResultThreads.Adding []; ResultThreads.Adding []; ResultThreads.Answered [named "a"]]) ∧
  Results ec' = [named "a"; named "c"; named "b"] ∧ [named "a"] `prefix_of` Results ec'.
Proof.
  assert (Hr : rtc (pool_step ResultThreads.step)
    (NewExecutionContext (P := unit) None 0 "r" "a" "s" "t" "u", workers)
    (mkExecutionContext "r" "a" "s" "t" "u" 0 None None [named "a"; named "c"; named "b"],
     [ResultThreads.Adding []; ResultThreads.Adding []; ResultThreads.Answered [named "a"]])).
  { eapply rtc_l; [eapply (pool_sched _ _ _ 0); reflexivity|].
    eapply rtc_l; [eapply (pool_sched _ _ _ 2); reflexivity|].
    eapply rtc_l; [eapply (pool_sched _ _ _ 1); reflexivity|].
    eapply rtc_l; [eapply (pool_sched _ _ _ 0); reflexivity|]. apply rtc_refl. }
  eexists. split; [exact Hr|]. split; [reflexivity|].
  destruct (concurrent_results_are_all_kept _ _ _ _ Hr) as (_ & _ & Hf & _).
  apply Forall2_cons_1 in Hf as [_ Hf]. apply Forall2_cons_1 in Hf as [_ Hf].
  apply Forall2_cons_1 in Hf as [[_ Hc] _]. exact Hc.
Defined.
