(* ===== verification/Contracts.v ===== *)
(** The record types and interfaces that the repository declares for the programs
    around it: execution requests, approvals, hooks and policies ([src/execution]),
    rate limits ([src/access/ratelimit]), agents and conversations
    ([src/control/agent]), memory ([src/memory/abstraction]), telemetry events
    ([src/telemetry]); each with its JSON form where it has struct tags, and the
    interfaces as classes of operations, with an instance where the repository
    implements one. *)
From S2P Require Export Runtime Telemetry Registry ProfileWire PlanWire McpWire Wire.

(* ------------------------------------------------------------------ *)
(** ** Execution (executor.go, errors.go) *)
(* ------------------------------------------------------------------ *)

Definition ErrSkillNotLoaded : error := ESentinel "runtime: skill not loaded".
Definition ErrExecutionTimeout : error := ESentinel "runtime: execution timeout".
Definition ErrResourceExhausted : error := ESentinel "runtime: resource exhausted".
Definition ErrPolicyRejected : error := ESentinel "runtime: policy rejected execution".

Definition ExecutionStatus : Type := string.
Definition StatusSuccess : ExecutionStatus := "success".
Definition StatusFailed : ExecutionStatus := "failed".
Definition StatusTimeout : ExecutionStatus := "timeout".
Definition StatusCanceled : ExecutionStatus := "canceled".
Definition StatusRejected : ExecutionStatus := "rejected".

Section executor.
(** The world an executor acts on. *)
Context {W : Type}.

(** [TokenFn] is nil or what a token does to the world. *)
Record ExecutionRequest := mkExecutionRequest {
  exr_SkillID : string;
  exr_Input : string;
  exr_Timeout : Z;
  exr_TenantID : string;
  exr_UserID : string;
  exr_RequestID : string;
  exr_TokenFn : option (string → W → W)
}.

Record ExecutionResult := mkExecutionResult {
  exs_Output : string;
  exs_Error : string;
  exs_Status : ExecutionStatus;
  exs_Duration : Z
}.

Class SkillExecutor := {
  Execute : ExecutionRequest → W → W * result error ExecutionResult;
  CanExecute : string → W → W * result error bool;
  LoadSkill : Skill → W → W * option error
}.
End executor.
Arguments ExecutionRequest : clear implicits.
Arguments SkillExecutor : clear implicits.

(* ------------------------------------------------------------------ *)
(** ** Approvals (approval.go) *)
(* ------------------------------------------------------------------ *)

Definition ApprovalStatus : Type := string.
Definition ApprovalPending : ApprovalStatus := "pending".
Definition ApprovalApproved : ApprovalStatus := "approved".
Definition ApprovalDenied : ApprovalStatus := "denied".
Definition ApprovalExpired : ApprovalStatus := "expired".

Record ApprovalRequest := mkApprovalRequest {
  apr_ID : string;
  apr_StepName : string;
  apr_StepID : string;
  apr_ExecutionID : string;
  apr_TenantID : string;
  apr_RiskLevel : string;
  apr_Reason : string;
  apr_Status : ApprovalStatus;
  apr_ApproverID : string;
  apr_DenyReason : string;
  apr_CreatedAt : Time;
  apr_ResolvedAt : option Time;
  apr_ExpiresAt : Time
}.
#[export] Instance ApprovalRequest_wire `{TimeText} : Wire ApprovalRequest :=
  struct_wire [req "id"; req "step_name"; req "step_id"; req "execution_id"; req "tenant_id"; req "risk_level";
               req "reason"; req "status"; opt "approver_id"; opt "deny_reason"; req "created_at";
               opt "resolved_at"; req "expires_at"]
    (λ r, (apr_ID r, (apr_StepName r, (apr_StepID r, (apr_ExecutionID r, (apr_TenantID r, (apr_RiskLevel r,
       (apr_Reason r, (apr_Status r, (apr_ApproverID r, (apr_DenyReason r, (apr_CreatedAt r, (apr_ResolvedAt r,
       (apr_ExpiresAt r, tt))))))))))))))
    (λ '(a, (b, (c, (d, (e, (f, (g, (h, (i, (j, (k, (l, (m, _))))))))))))),
       mkApprovalRequest a b c d e f g h i j k l m).
#[export] Instance ApprovalRequest_laws `{TimeText} : WireLaws ApprovalRequest.
Proof. solve_struct. Qed.
#[export] Instance ApprovalRequest_shallow `{TimeText} : Shallow ApprovalRequest := struct_shallow _ _ _.

Class ApprovalGateway (W : Type) := {
  RequestApproval : ApprovalRequest → W → W * result error ApprovalRequest;
  GetApproval : string → W → result error ApprovalRequest;
  Approve : string → string → W → W * option error;
  Deny : string → string → string → W → W * option error;
  ListPending : string → W → list ApprovalRequest
}.

(* ------------------------------------------------------------------ *)
(** ** Hooks, failures and their policies (support_types.go) *)
(* ------------------------------------------------------------------ *)

Record HookResult := mkHookResult { hkr_Deny : bool; hkr_Reason : string }.
#[export] Instance HookResult_wire : Wire HookResult :=
  struct_wire [req "deny"; opt "reason"]
    (λ r, (hkr_Deny r, (hkr_Reason r, tt)))
    (λ '(a, (b, _)), mkHookResult a b).
#[export] Instance HookResult_laws : WireLaws HookResult.
Proof. solve_struct. Qed.
#[export] Instance HookResult_shallow : Shallow HookResult := struct_shallow _ _ _.
#[export] Instance HookResult_written : Written HookResult.
Proof. apply struct_always_written. simpl. lia. Qed.

(** The pointers of a hook's context; [P] is the planner's context that an execution
    context carries. *)
Record HookContext (P : Type) := mkHookContext {
  hkc_Step : option ExecutionStep;
  hkc_StepIndex : Z;
  hkc_Plan : option ExecutionPlan;
  hkc_EC : option (ExecutionContext P);
  hkc_ToolInput : option loc;
  hkc_ToolOutput : any
}.
Section hooks.
Context (P W : Type).
Definition PreStepExecuteHook : Type := HookContext P → W → W * result error (option HookResult).
Definition PostStepExecuteHook : Type := HookContext P → W → W * option error.
Definition PreToolUseHook : Type := HookContext P → W → W * result error (option HookResult).
Definition PostToolUseHook : Type := HookContext P → W → W * option error.
Definition OnStopHook : Type := HookContext P → W → W.
End hooks.

#[export] Instance RetryPolicy_wire : Wire RetryPolicy :=
  struct_wire [req "max_retries"; req "initial_backoff"; req "max_backoff"; req "fail_fast"; opt "fallback_tool"]
    (λ r, (MaxRetries r, (InitialBackoff r, (MaxBackoff r, (FailFast r, (FallbackTool r, tt))))))
    (λ '(a, (b, (c, (d, (e, _))))), mkRetryPolicy a b c d e).
#[export] Instance RetryPolicy_laws : WireLaws RetryPolicy.
Proof. solve_struct. Qed.
#[export] Instance RetryPolicy_shallow : Shallow RetryPolicy := struct_shallow _ _ _.
#[export] Instance RetryPolicy_written : Written RetryPolicy.
Proof. apply struct_always_written. simpl. lia. Qed.
#[export] Instance RetryPolicy_typed : Typed RetryPolicy.
Proof. solve_typed. Defined.

Record StepFailure := mkStepFailure {
  stf_StepID : string;
  stf_StepName : string;
  stf_Attempt : Z;
  stf_Error : option error;
  stf_WillRetry : bool;
  stf_Fallback : bool
}.

#[export] Instance PermissionConfig_wire : Wire PermissionConfig :=
  struct_wire [opt "allowed_tools"; opt "denied_tools"; opt "approval_mode"]
    (λ r, (AllowedTools r, (DeniedTools r, (ApprovalMode r, tt))))
    (λ '(a, (b, (c, _))), mkPermissionConfig a b c).
#[export] Instance PermissionConfig_laws : WireLaws PermissionConfig.
Proof. solve_struct. Qed.
#[export] Instance PermissionConfig_shallow : Shallow PermissionConfig := struct_shallow _ _ _.
#[export] Instance PermissionConfig_written : Written PermissionConfig.
Proof. apply struct_always_written. simpl. lia. Qed.

(** What a tool's code can prove of its output (evidence.go). *)
Class EvidenceProducer (T : Type) := ProduceEvidence : T → any_map → any_map → list Evidence.

(* ------------------------------------------------------------------ *)
(** ** Rate limits (limiter.go, errors.go) *)
(* ------------------------------------------------------------------ *)

Definition ErrRateLimitExceeded : error := ESentinel "ratelimit: quota exceeded".
Definition ErrQuotaNotFound : error := ESentinel "ratelimit: quota not found".
Definition ErrInvalidKey : error := ESentinel "ratelimit: invalid key".

Record RateLimitKey := mkRateLimitKey { rlk_TenantID : string; rlk_UserID : string; rlk_SkillID : string }.
Record QuotaConfig := mkQuotaConfig {
  TenantTokensPerMinute : Z;
  TenantRequestsPerMinute : Z;
  UserRequestsPerMinute : Z;
  UserTokensPerMinute : Z
}.
Record RateLimitResult := mkRateLimitResult {
  rlr_Allowed : bool;
  rlr_Remaining : Z;
  rlr_ResetAt : Time;
  rlr_RetryAfter : Z
}.
Class RateLimiter (W : Type) := {
  Allow : RateLimitKey → W → W * result error RateLimitResult;
  Consume : RateLimitKey → Z → W → W * option error;
  Remaining : RateLimitKey → W → W * result error Z;
  ResetQuota : RateLimitKey → W → W * option error
}.
Class QuotaStore (W : Type) := {
  GetQuota : string → W → W * result error QuotaConfig;
  SetQuota : string → QuotaConfig → W → W * option error
}.

(* ------------------------------------------------------------------ *)
(** ** Memory (manager.go, types.go, errors.go) *)
(* ------------------------------------------------------------------ *)

Definition ErrMemoryNotFound : error := ESentinel "memory: not found".
Definition ErrStoreFailed : error := ESentinel "memory: store failed".
Definition ErrRetrieveFailed : error := ESentinel "memory: retrieve failed".
Definition ErrSummarizeFailed : error := ESentinel "memory: summarize failed".

(** An embedding is its single-precision floats, each a double that has the value. *)
Record MemoryEntry := mkMemoryEntry {
  mem_ID : string;
  mem_Content : string;
  mem_Embedding : slice float64;
  mem_Tags : list string;
  mem_Metadata : gmap string string;
  mem_CreatedAt : Time;
  mem_TTL : option Z
}.
Class MemoryManager (W : Type) := {
  StoreShortTerm : MemoryEntry → W → W * option error;
  StoreLongTerm : MemoryEntry → W → W * option error;
  RetrieveSimilar : string → Z → W → W * result error (list MemoryEntry);
  RetrieveByTag : list string → Z → W → W * result error (list MemoryEntry);
  Summarize : list MemoryEntry → W → W * result error MemoryEntry
}.

(* ------------------------------------------------------------------ *)
(** ** Agents and conversations (agent.go, types.go, conversation_store.go) *)
(* ------------------------------------------------------------------ *)

(** A field that holds a function, by whether it is set. [encoding/json] has no form
    for it, set or not, and reads nothing but null into it. *)
Record callback := mkCallback { is_callback_set : bool }.
#[export] Instance callback_wire : Wire callback := {|
  encode _ := None;
  decode _ := None;
  zero := mkCallback false;
  is_empty c := negb (is_callback_set c);
  good c := is_callback_set c = false
|}.
#[export] Instance callback_laws : WireLaws callback.
Proof. by split. Qed.

Record MessageRequest := mkMessageRequest {
  mrq_TenantID : string;
  mrq_UserID : string;
  mrq_SessionID : string;
  mrq_Message : string;
  mrq_SessionProfile : option AssistantProfile;
  mrq_ProgressCallback : callback
}.
(** The callback has no tag, so its member has the field's own name. *)
#[export] Instance MessageRequest_wire : Wire MessageRequest :=
  struct_wire [req "tenant_id"; req "user_id"; req "session_id"; req "message"; opt "session_profile";
               req "ProgressCallback"]
    (λ r, (mrq_TenantID r, (mrq_UserID r, (mrq_SessionID r, (mrq_Message r, (mrq_SessionProfile r,
       (mrq_ProgressCallback r, tt)))))))
    (λ '(a, (b, (c, (d, (e, (f, _)))))), mkMessageRequest a b c d e f).

(** The plan of a response as the document it is written from. *)
Record MessageResponse := mkMessageResponse {
  mrs_SessionID : string;
  mrs_Message : string;
  mrs_SkillUsed : string;
  mrs_ExecutionID : string;
  mrs_Plan : option PlanDocument
}.
Section responses.
(** How deep output schemas may nest. *)
Variable n : nat.
#[local] Instance response_plan_wire : Wire PlanDocument := PlanDocument_wire n.
#[local] Instance response_plan_laws : WireLaws PlanDocument := PlanDocument_laws n.
#[local] Instance response_plan_typed : Typed PlanDocument := PlanDocument_typed n.
#[export] Instance MessageResponse_wire : Wire MessageResponse :=
  struct_wire [req "session_id"; req "message"; opt "skill_used"; opt "execution_id"; opt "plan"]
    (λ r, (mrs_SessionID r, (mrs_Message r, (mrs_SkillUsed r, (mrs_ExecutionID r, (mrs_Plan r, tt))))))
    (λ '(a, (b, (c, (d, (e, _))))), mkMessageResponse a b c d e).
#[export] Instance MessageResponse_laws : WireLaws MessageResponse.
Proof. solve_struct. Qed.
#[export] Instance MessageResponse_typed : Typed MessageResponse.
Proof. solve_typed. Defined.
End responses.

Record SessionMessage := mkSessionMessage {
  sms_TenantID : string;
  sms_UserID : string;
  sms_SessionID : string;
  sms_Role : string;
  sms_Content : string;
  sms_Timestamp : string;
  sms_ExecutionID : string
}.
Record ExecutionMeta := mkExecutionMeta {
  exm_TenantID : string;
  exm_UserID : string;
  exm_SessionID : string;
  exm_RequestID : string;
  exm_AssistantID : string
}.

Class Agent (W : Type) := HandleMessage : MessageRequest → W → W * result error MessageResponse.
(** An agent may also take its memory configuration; the manager acts on a world. *)
Class MemoryConfigurable (A W : Type) := {
  SetMaxHistoryMessages : Z → A → A;
  SetMemoryManager : MemoryManager W → A → A
}.
Class ConversationStore (W : Type) := {
  AppendMessage : SessionMessage → W → W * option error;
  GetHistory : string → string → string → Z → W → W * result error (list Message);
  GetSummary : string → string → string → W → W * result error string;
  StoreSummary : string → string → string → string → W → W * option error;
  ClearSession : string → string → string → W → W * option error
}.

(* ------------------------------------------------------------------ *)
(** ** Telemetry events and spans (event.go, trace.go) *)
(* ------------------------------------------------------------------ *)

Definition EventLevel : Type := string.
Definition EventLevelInfo : EventLevel := "info".
Definition EventLevelWarn : EventLevel := "warn".
Definition EventLevelError : EventLevel := "error".

Definition TraceID : Type := string.
Definition SpanID : Type := string.
Definition SpanKind : Type := string.
Definition SpanKindExecution : SpanKind := "execution".
Definition SpanKindPlanner : SpanKind := "planner".
Definition SpanKindToolCall : SpanKind := "tool_call".
Definition SpanKindProvider : SpanKind := "provider".
Definition SpanKindWasm : SpanKind := "wasm".
Definition SpanKindSkill : SpanKind := "skill".
Definition SpanKindCompaction : SpanKind := "compaction".
Definition SpanStatus : Type := string.
Definition SpanStatusOK : SpanStatus := "ok".
Definition SpanStatusError : SpanStatus := "error".
Definition SpanStatusTimeout : SpanStatus := "timeout".
Definition SpanStatusCancelled : SpanStatus := "cancelled".

Record TelemetryContext := mkTelemetryContext {
  tlc_TraceID : string;
  tlc_SpanID : string;
  tlc_ExecutionID : string;
  tlc_RequestID : string;
  tlc_TenantID : string
}.
#[export] Instance TelemetryContext_wire : Wire TelemetryContext :=
  struct_wire [req "trace_id"; req "span_id"; req "execution_id"; req "request_id"; req "tenant_id"]
    (λ r, (tlc_TraceID r, (tlc_SpanID r, (tlc_ExecutionID r, (tlc_RequestID r, (tlc_TenantID r, tt))))))
    (λ '(a, (b, (c, (d, (e, _))))), mkTelemetryContext a b c d e).
#[export] Instance TelemetryContext_laws : WireLaws TelemetryContext.
Proof. solve_struct. Qed.
#[export] Instance TelemetryContext_shallow : Shallow TelemetryContext := struct_shallow _ _ _.

Record TelemetryEvent := mkTelemetryEvent {
  tle_Timestamp : Time;
  tle_TraceID : string;
  tle_SpanID : string;
  tle_Component : string;
  tle_Operation : string;
  tle_Level : EventLevel;
  tle_Message : string;
  tle_Attributes : gmap string string
}.

Section times.
Context `{TimeText}.
#[export] Instance TelemetryEvent_wire : Wire TelemetryEvent :=
  struct_wire [req "timestamp"; req "trace_id"; req "span_id"; req "component"; req "operation"; req "level";
               req "message"; opt "attributes"]
    (λ r, (tle_Timestamp r, (tle_TraceID r, (tle_SpanID r, (tle_Component r, (tle_Operation r, (tle_Level r,
       (tle_Message r, (tle_Attributes r, tt)))))))))
    (λ '(a, (b, (c, (d, (e, (f, (g, (h, _)))))))), mkTelemetryEvent a b c d e f g h).
#[export] Instance TelemetryEvent_laws : WireLaws TelemetryEvent.
Proof. solve_struct. Qed.
#[export] Instance TelemetryEvent_shallow : Shallow TelemetryEvent := struct_shallow _ _ _.

#[export] Instance SpanEvent_wire : Wire SpanEvent :=
  struct_wire [req "name"; req "timestamp"; opt "attributes"]
    (λ r, (se_Name r, (mkTime (se_Timestamp r), (se_Attributes r, tt))))
    (λ '(a, (b, (c, _))), mkSpanEvent a (unix_nano b) c).
#[export] Instance SpanEvent_laws : WireLaws SpanEvent.
Proof. solve_struct. Qed.
#[export] Instance SpanEvent_shallow : Shallow SpanEvent := struct_shallow _ _ _.

#[export] Instance Span_wire : Wire Span :=
  struct_wire [req "trace_id"; req "span_id"; opt "parent_span_id"; req "name"; req "kind"; req "start_time";
               req "end_time"; req "status"; opt "attributes"; opt "events"]
    (λ r, (sp_TraceID r, (sp_SpanID r, (sp_ParentSpanID r, (sp_Name r, (sp_Kind r, (mkTime (sp_StartTime r),
       (mkTime (sp_EndTime r), (sp_Status r, (sp_Attributes r, (sp_Events r, tt)))))))))))
    (λ '(a, (b, (c, (d, (e, (f, (g, (h, (i, (j, _)))))))))), mkSpan a b c d e (unix_nano f) (unix_nano g) h i j).
#[export] Instance Span_laws : WireLaws Span.
Proof. solve_struct. Qed.
#[export] Instance Span_shallow : Shallow Span := struct_shallow _ _ _.
End times.

(* ------------------------------------------------------------------ *)
(** ** What planning sends around ([src/planning]) *)
(* ------------------------------------------------------------------ *)

#[export] Instance TurnToolResult_wire : Wire TurnToolResult :=
  struct_wire [req "step_name"; req "step_type"; req "success"; opt "summary"; opt "output"; opt "error"]
    (λ r, (tr_StepName r, (tr_StepType r, (tr_Success r, (tr_Summary r, (tr_Output r, (tr_Error r, tt)))))))
    (λ '(a, (b, (c, (d, (e, (f, _)))))), mkTurnToolResult a b c d e f).
#[export] Instance TurnToolResult_laws : WireLaws TurnToolResult.
Proof. solve_struct. Qed.
#[export] Instance TurnToolResult_shallow : Shallow TurnToolResult := struct_shallow _ _ _.
#[export] Instance TurnToolResult_written : Written TurnToolResult.
Proof. apply struct_always_written. simpl. lia. Qed.

(* ------------------------------------------------------------------ *)
(** ** Planners (execution_planner.go, replan_types.go) *)
(* ------------------------------------------------------------------ *)

Definition ReplanTrigger : Type := string.
Definition ReplanTriggerToolFailure : ReplanTrigger := "tool_failure".
Definition ReplanTriggerInvalidData : ReplanTrigger := "invalid_data".
Definition ReplanTriggerExplicitSignal : ReplanTrigger := "explicit_signal".
Definition ReplanTriggerPolicyAllowed : ReplanTrigger := "policy_allowed".

(** What a planner does: the progress calls, the store and the plan or the error;
    [None] is a panic. *)
Class ExecutionPlanner (P : Type) :=
  run_Plan : P → heap → PlannerContext → option (list (string * string) * heap * result error ExecutionPlan).
Class Replanner (P : Type) :=
  run_Replan : P → heap → nat → ReplanContext →
    option (list (string * string) * heap * nat * result error ExecutionPlan).

Record LLMPlanner := mkLLMPlanner { llp_router : ModelRouter; llp_validator : ExecutionLimits }.
Definition NewLLMPlanner (router : ModelRouter) (limits : option ExecutionLimits) : LLMPlanner :=
  mkLLMPlanner router (NewValidator limits).

Section planners.
(** The fixed prose of the prompts, the decoder's error, the depth of schemas and the
    source of identifiers. *)
Variable plan_rules replan_rules1 replan_rules2 replan_rules3 : string.
Variable unreadable : error.
Variable n : nat.
Variable uuid : nat → string.
#[export] Instance LLMPlanner_plans : ExecutionPlanner LLMPlanner :=
  λ p, @Planner.Plan (llp_router p) (unmarshal_plan n unreadable) plan_rules (llp_validator p).
#[export] Instance LLMPlanner_replans : Replanner LLMPlanner :=
  λ p, @Planner.Replan (llp_router p) (unmarshal_plan n unreadable) replan_rules1 replan_rules2 replan_rules3
         (llp_validator p) uuid.
End planners.

(* ------------------------------------------------------------------ *)
(** ** Registries and meters as their clients see them *)
(* ------------------------------------------------------------------ *)

Module Interfaces.

(** registry/skills/registry.go; [W] is the world the subscribers act on. *)
Class SkillRegistry (R W : Type) := {
  Register : option Skill → R → W → R * W * option error;
  Unregister : string → R → W → R * W * option error;
  Get : R → string → result error Skill;
  List_ : R → list string;
  ListByPermission : list string → R → list Skill;
  Validate : R → option error;
  Subscribe : (SkillRegistry.ChangeEvent → W → W * bool) → R → R
}.
#[export] Instance InMemorySkillRegistry `{MapRange} W : SkillRegistry (SkillRegistry.state W) W := {|
  Register := SkillRegistry.Register;
  Unregister := SkillRegistry.Unregister;
  Get := SkillRegistry.Get;
  List_ := SkillRegistry.List_;
  ListByPermission := SkillRegistry.ListByPermission;
  Validate := SkillRegistry.Validate;
  Subscribe := SkillRegistry.Subscribe
|}.

(** capability/types.go: what the two kinds of capability answer. *)
Class Capability (C : Type) := {
  ID : C → string;
  Name : C → string;
  Description : C → string;
  Kind : C → string;
  InputSchema : C → option JSONSchema;
  SourceID : C → string
}.
#[export] Instance registered_capability : Capability Registry.Capability := {|
  ID := cap_ID;
  Name c := match c with capabilityAdapter _ name _ _ _ _ => name | skillCapability s => sk_Name s end;
  Description c := match c with capabilityAdapter _ _ d _ _ _ => d | skillCapability s => sk_Description s end;
  Kind := cap_Kind;
  InputSchema c := match c with capabilityAdapter _ _ _ _ i _ => i | skillCapability s => sk_InputSchema s end;
  SourceID c := match c with capabilityAdapter _ _ _ _ _ src => src | skillCapability s => sk_ID s end
|}.

(** capability/registry.go. *)
Class CapabilityRegistry (R : Type) := {
  cr_Register : option Registry.Capability → R → R * option error;
  cr_Unregister : string → R → R * option error;
  cr_Get : R → string → result error Registry.Capability;
  cr_List : R → list SkillDescriptor;
  cr_ListByKind : string → R → list SkillDescriptor
}.
#[export] Instance MemoryRegistry `{MapRange} : CapabilityRegistry (gmap string Registry.Capability) := {|
  cr_Register := CapabilityRegistry.Register;
  cr_Unregister id r := (CapabilityRegistry.Unregister id r, None);
  cr_Get := CapabilityRegistry.Get;
  cr_List := CapabilityRegistry.List_;
  cr_ListByKind := CapabilityRegistry.ListByKind
|}.

(** What is registered last under an identifier is what is found. *)
Class CapabilityRegistryLaws (R : Type) `{CapabilityRegistry R} := {
  get_registered c r : cr_Get (cr_Register (Some c) r).1 (cap_ID c) = Ok c;
  get_others c r id : id ≠ cap_ID c → cr_Get (cr_Register (Some c) r).1 id = cr_Get r id;
  listed r d : d ∈ cr_List r ↔ ∃ id c, cr_Get r id = Ok c ∧ d = CapabilityToDescriptor c
}.
#[export] Instance MemoryRegistry_laws `{MapRange} : CapabilityRegistryLaws (gmap string Registry.Capability).
Proof.
  split; simpl; unfold CapabilityRegistry.Get, MapStore.Get, MapStore.Put.
  - intros c r. by rewrite lookup_insert_eq.
  - intros c r id Hid. by rewrite lookup_insert_ne.
  - intros r d. unfold CapabilityRegistry.List_.
    rewrite (elem_of_ForEach (λ _ _, true) (λ _ c, CapabilityToDescriptor c)). split.
    + intros (id & c & Hc & _ & ->). exists id, c. by rewrite Hc.
    + intros (id & c & Hc & ->). destruct (r !! id) as [c'|] eqn:E; [|done]. injection Hc as ->. eauto.
Qed.

(** telemetry/metrics.go. *)
Class Meter (M : Type) := {
  m_Counter : string → Z → Labels → M → M;
  m_Gauge : string → float64 → Labels → M → M;
  m_Histogram : string → float64 → Labels → M → M;
  m_Snapshot : M → MetricsSnapshot
}.
#[export] Instance memory_meter `{MapRange} : Meter MemoryMeter := {|
  m_Counter := Counter;
  m_Gauge := Gauge;
  m_Histogram := Histogram;
  m_Snapshot := Snapshot
|}.
End Interfaces.

(* ------------------------------------------------------------------ *)
(** ** Build information (version.go) *)
(* ------------------------------------------------------------------ *)

(** What the variables hold unless the linker sets them. *)
Definition Version : string := "dev".
Definition Commit : string := "unknown".
Definition BuildTime : string := "unknown".

(* ------------------------------------------------------------------ *)
(** ** Theorems *)
(* ------------------------------------------------------------------ *)

Import Interfaces.

(** A client registers what it discovered on a server, tool by tool. *)
Definition discover `{CapabilityRegistry R} (server : string) (tools : list ClientTool) (r : R) : R :=
  foldl (λ r t, (cr_Register (Some (NewFromMCP server t)) r).1) r tools.

Lemma discover_get `{CapabilityRegistryLaws R} server tools (r : R) id :
  (∃ t, t ∈ tools ∧ id = cap_ID (NewFromMCP server t) ∧
        cr_Get (discover server tools r) id = Ok (NewFromMCP server t)) ∨
  ((∀ t, t ∈ tools → id ≠ cap_ID (NewFromMCP server t)) ∧ cr_Get (discover server tools r) id = cr_Get r id).
Proof.
  revert r. induction tools as [|t tools IH]; intros r; [right; split; [set_solver|done]|].
  unfold discover. simpl. fold (discover server tools (cr_Register (Some (NewFromMCP server t)) r).1).
  destruct (IH (cr_Register (Some (NewFromMCP server t)) r).1) as [(t' & Ht & Hid & Hg)|[Hn Hg]].
  - left. exists t'. split; [by right|done].
  - rewrite Hg. destruct (decide (id = cap_ID (NewFromMCP server t))) as [->|Hne].
    + left. exists t. split; [by left|]. split; [done|]. apply get_registered.
    + right. split; [|by apply get_others]. intros t' [->|Ht]%elem_of_cons; [done|by apply Hn].
Qed.

Lemma mcp_id_inj server t1 t2 :
  cap_ID (NewFromMCP server t1) = cap_ID (NewFromMCP server t2) → ct_Name t1 = ct_Name t2.
Proof.
  intros Heq. change ("mcp." +:+ (server +:+ ("." +:+ ct_Name t1)) = "mcp." +:+ (server +:+ ("." +:+ ct_Name t2))) in Heq.
  by apply sapp_inj_l, sapp_inj_l, sapp_inj_l in Heq.
Qed.

(* ------------------------------------------------------------------ *)
(** ** Properties *)
(* ------------------------------------------------------------------ *)

(** C36: through any registry that keeps what was registered last, the tools a client
    discovers on a server of this package are all offered under the server's name,
    and none has a parameter schema: the member the server writes it under is not
    the one the client reads. *)
Theorem discovered_tools_have_no_schema `{CapabilityRegistryLaws R} n server (tools : list Tool) ds cts (r : R) :
  mapM encode tools = Some ds → mapM (decode (Wire:=Client.ClientTool_wire n)) ds = Some cts →
  ∀ t, t ∈ tools →
  ∃ c, cr_Get (discover server cts r) ("mcp." +:+ server +:+ "." +:+ tool_Name t) = Ok c ∧
       Name c = tool_Name t ∧ InputSchema c = None.
Proof.
  intros Hds Hcts.
  assert (Hall : Forall2 (λ t ct, ct_Name ct = tool_Name t ∧ ct_InputSchema ct = None) tools cts).
  { apply mapM_Some_1 in Hds, Hcts. revert cts Hcts. induction Hds as [|t d tools ds Hd _ IH]; intros cts Hcts.
    - inversion_clear Hcts. constructor.
    - inversion_clear Hcts. constructor; [by eapply clients_lose_the_schemas|by apply IH]. }
  intros t Ht. apply list_elem_of_lookup in Ht as [i Hi].
  destruct (Forall2_lookup_l _ _ _ _ _ Hall Hi) as (ct & Hct & Hname & _).
  apply list_elem_of_lookup_2 in Hct.
  destruct (discover_get server cts r ("mcp." +:+ server +:+ "." +:+ tool_Name t)) as [(t' & Ht' & Hid & ->)|[Hn _]].
  - exists (NewFromMCP server t'). split; [done|].
    rewrite <-Hname in Hid. change (cap_ID (NewFromMCP server ct) = cap_ID (NewFromMCP server t')) in Hid.
    apply mcp_id_inj in Hid. split; [simpl; congruence|].
    apply list_elem_of_lookup in Ht' as [j Hj]. by destruct (Forall2_lookup_r _ _ _ _ _ Hall Hj) as (? & _ & _ & ?).
  - exfalso. apply (Hn ct Hct). simpl. by rewrite Hname.
Qed.

Definition search_tool : Tool :=
  mkTool "search" "finds" (Some (AMap [("properties", AMap [("q", AMap [("type", AString "string")])]);
                                       ("type", AString "object")])).
Lemma discovered_tools_have_no_schema_witness :
  ∃ ds cts c, mapM encode [search_tool] = Some ds ∧ mapM (decode (Wire:=Client.ClientTool_wire 3)) ds = Some cts ∧
    cr_Get (CapabilityRegistry:=@MemoryRegistry range_rev)
      (discover (H:=@MemoryRegistry range_rev) "srv" cts ∅) "mcp.srv.search" = Ok c ∧
    Name c = "search" ∧ InputSchema c = None.
Proof.
  edestruct (discovered_tools_have_no_schema (H0:=@MemoryRegistry_laws range_rev) 3 "srv" [search_tool])
    as (c & Hc & Hname & Hschema); [vm_compute; reflexivity|vm_compute; reflexivity|by left|].
  eexists _, _, c. split; [vm_compute; reflexivity|]. split; [vm_compute; reflexivity|].
  split; [exact Hc|]. by split.
Defined.

(** a request to an agent has a callback without a tag, which [encoding/json]
    refuses: no request can be written, set callback or not. *)
Theorem message_requests_are_never_written (r : MessageRequest) : marshal r = None.
Proof.
  apply eq_None_not_Some. unfold marshal. rewrite fmap_is_Some. unfold MessageRequest_wire.
  rewrite struct_written. cbv beta. unfold req, opt. rewrite !enc_fields_cons.
  intros (_ & _ & _ & _ & _ & [Hc|Hc] & _); [done|]. by destruct Hc.
Qed.

(** each tagged record of the contracts, with texts in UTF-8 and integers of
    their width, is read back from what is written for it. *)
Theorem tagged_records_are_read_back `{TimeText} s :
  (∀ x : ApprovalRequest, good x → marshal x = Some s → unmarshal s = Some x) ∧
  (∀ x : HookResult, good x → marshal x = Some s → unmarshal s = Some x) ∧
  (∀ x : RetryPolicy, good x → marshal x = Some s → unmarshal s = Some x) ∧
  (∀ x : PermissionConfig, good x → marshal x = Some s → unmarshal s = Some x) ∧
  (∀ x : TurnToolResult, good x → marshal x = Some s → unmarshal s = Some x) ∧
  (∀ x : TelemetryEvent, good x → marshal x = Some s → unmarshal s = Some x) ∧
  (∀ x : TelemetryContext, good x → marshal x = Some s → unmarshal s = Some x) ∧
  (∀ x : Span, good x → marshal x = Some s → unmarshal s = Some x).
Proof. split_and!; intros x; apply read_back_shallow; vm_compute; discriminate. Qed.
