(* ===== verification/Reports.v ===== *)
(** The audit records as they are stored and sent ([src/audit]): compliance
    reports ([compliance.go]), the signature chain ([chain.go]), the mapper interface
    ([mapper.go]) and the JSON form of these and of envelopes ([envelope.go]), with
    the struct tags of the source. *)
From S2P Require Export AuditTrail Wire.

(* ------------------------------------------------------------------ *)
(** ** Compliance reports (compliance.go) *)
(* ------------------------------------------------------------------ *)

Record ComplianceScope := mkComplianceScope { csc_TenantID : string; csc_UserID : string }.
Record TimeRange := mkTimeRange { tmr_From : Time; tmr_To : Time }.
Record ComplianceSummary := mkComplianceSummary {
  csu_TotalEvents : Z;
  csu_TotalExecutions : Z;
  csu_ErrorRate : float64;
  csu_DenialRate : float64
}.
Record ActionCount := mkActionCount { act_Action : string; act_Count : Z }.
Record PolicyComplianceSection := mkPolicyComplianceSection {
  pcs_TotalChecks : Z;
  pcs_Allowed : Z;
  pcs_Denied : Z;
  pcs_DenialRate : float64;
  pcs_TopDeniedActions : slice ActionCount
}.
Record ExecutionHealthSection := mkExecutionHealthSection {
  ehs_StepsTotal : Z;
  ehs_StepsCompleted : Z;
  ehs_StepsFailed : Z;
  ehs_SuccessRate : float64;
  ehs_AvgDurationMs : Z;
  ehs_P99DurationMs : Z;
  ehs_FailureBreakdown : gmap string Z
}.
Record ChainIntegritySection := mkChainIntegritySection {
  cis_TotalEvents : Z;
  cis_Verified : bool;
  cis_FirstBreakIndex : Z;
  cis_BreakCount : Z
}.
Record RetentionComplianceSection := mkRetentionComplianceSection {
  rcs_PolicyEnabled : bool;
  rcs_DefaultDays : Z;
  rcs_OldestEvent : Time;
  rcs_EventsInRange : Z;
  rcs_EventsExpired : Z;
  rcs_Compliant : bool
}.
Record ErrorPattern := mkErrorPattern { erp_Error : string; erp_Count : Z; erp_Source : string }.
Record ComplianceReport := mkComplianceReport {
  rep_ID : string;
  rep_GeneratedAt : Time;
  rep_Scope : ComplianceScope;
  rep_Period : TimeRange;
  rep_Summary : ComplianceSummary;
  rep_PolicyCompliance : PolicyComplianceSection;
  rep_ExecutionHealth : ExecutionHealthSection;
  rep_ChainIntegrity : ChainIntegritySection;
  rep_RetentionCompliance : RetentionComplianceSection;
  rep_TopErrors : slice ErrorPattern
}.

(* ------------------------------------------------------------------ *)
(** ** Their JSON form *)
(* ------------------------------------------------------------------ *)

#[export] Instance ComplianceScope_wire : Wire ComplianceScope :=
  struct_wire [opt "tenant_id"; opt "user_id"]
    (λ r, (csc_TenantID r, (csc_UserID r, tt)))
    (λ '(a, (b, _)), mkComplianceScope a b).
#[export] Instance ComplianceScope_laws : WireLaws ComplianceScope.
Proof. solve_struct. Qed.
#[export] Instance ComplianceScope_shallow : Shallow ComplianceScope := struct_shallow _ _ _.
#[export] Instance ComplianceScope_written : Written ComplianceScope.
Proof. apply struct_always_written. simpl. lia. Qed.

#[export] Instance ActionCount_wire : Wire ActionCount :=
  struct_wire [req "action"; req "count"]
    (λ r, (act_Action r, (act_Count r, tt)))
    (λ '(a, (b, _)), mkActionCount a b).
#[export] Instance ActionCount_laws : WireLaws ActionCount.
Proof. solve_struct. Qed.
#[export] Instance ActionCount_shallow : Shallow ActionCount := struct_shallow _ _ _.
#[export] Instance ActionCount_written : Written ActionCount.
Proof. apply struct_always_written. simpl. lia. Qed.

#[export] Instance ErrorPattern_wire : Wire ErrorPattern :=
  struct_wire [req "error"; req "count"; req "source"]
    (λ r, (erp_Error r, (erp_Count r, (erp_Source r, tt))))
    (λ '(a, (b, (c, _))), mkErrorPattern a b c).
#[export] Instance ErrorPattern_laws : WireLaws ErrorPattern.
Proof. solve_struct. Qed.
#[export] Instance ErrorPattern_shallow : Shallow ErrorPattern := struct_shallow _ _ _.
#[export] Instance ErrorPattern_written : Written ErrorPattern.
Proof. apply struct_always_written. simpl. lia. Qed.

#[export] Instance ComplianceSummary_wire : Wire ComplianceSummary :=
  struct_wire [req "total_events"; req "total_executions"; req "error_rate"; req "denial_rate"]
    (λ r, (csu_TotalEvents r, (csu_TotalExecutions r, (csu_ErrorRate r, (csu_DenialRate r, tt)))))
    (λ '(a, (b, (c, (d, _)))), mkComplianceSummary a b c d).
#[export] Instance ComplianceSummary_laws : WireLaws ComplianceSummary.
Proof. solve_struct. Qed.
#[export] Instance ComplianceSummary_shallow : Shallow ComplianceSummary := struct_shallow _ _ _.

#[export] Instance PolicyComplianceSection_wire : Wire PolicyComplianceSection :=
  struct_wire [req "total_checks"; req "allowed"; req "denied"; req "denial_rate"; opt "top_denied_actions"]
    (λ r, (pcs_TotalChecks r, (pcs_Allowed r, (pcs_Denied r, (pcs_DenialRate r, (pcs_TopDeniedActions r, tt))))))
    (λ '(a, (b, (c, (d, (e, _))))), mkPolicyComplianceSection a b c d e).
#[export] Instance PolicyComplianceSection_laws : WireLaws PolicyComplianceSection.
Proof. solve_struct. Qed.
#[export] Instance PolicyComplianceSection_shallow : Shallow PolicyComplianceSection := struct_shallow _ _ _.

#[export] Instance ExecutionHealthSection_wire : Wire ExecutionHealthSection :=
  struct_wire [req "steps_total"; req "steps_completed"; req "steps_failed"; req "success_rate";
               req "avg_duration_ms"; req "p99_duration_ms"; opt "failure_breakdown"]
    (λ r, (ehs_StepsTotal r, (ehs_StepsCompleted r, (ehs_StepsFailed r, (ehs_SuccessRate r,
       (ehs_AvgDurationMs r, (ehs_P99DurationMs r, (ehs_FailureBreakdown r, tt))))))))
    (λ '(a, (b, (c, (d, (e, (f, (g, _))))))), mkExecutionHealthSection a b c d e f g).
#[export] Instance ExecutionHealthSection_laws : WireLaws ExecutionHealthSection.
Proof. solve_struct. Qed.
#[export] Instance ExecutionHealthSection_shallow : Shallow ExecutionHealthSection := struct_shallow _ _ _.

#[export] Instance ChainIntegritySection_wire : Wire ChainIntegritySection :=
  struct_wire [req "total_events"; req "verified"; req "first_break_index"; req "break_count"]
    (λ r, (cis_TotalEvents r, (cis_Verified r, (cis_FirstBreakIndex r, (cis_BreakCount r, tt)))))
    (λ '(a, (b, (c, (d, _)))), mkChainIntegritySection a b c d).
#[export] Instance ChainIntegritySection_laws : WireLaws ChainIntegritySection.
Proof. solve_struct. Qed.
#[export] Instance ChainIntegritySection_shallow : Shallow ChainIntegritySection := struct_shallow _ _ _.
#[export] Instance ChainIntegritySection_written : Written ChainIntegritySection.
Proof. apply struct_always_written. simpl. lia. Qed.

Section times.
Context `{TimeText}.

#[export] Instance TimeRange_wire : Wire TimeRange :=
  struct_wire [req "from"; req "to"]
    (λ r, (tmr_From r, (tmr_To r, tt)))
    (λ '(a, (b, _)), mkTimeRange a b).
#[export] Instance TimeRange_laws : WireLaws TimeRange.
Proof. solve_struct. Qed.
#[export] Instance TimeRange_shallow : Shallow TimeRange := struct_shallow _ _ _.

#[export] Instance RetentionComplianceSection_wire : Wire RetentionComplianceSection :=
  struct_wire [req "policy_enabled"; req "default_days"; opt "oldest_event"; req "events_in_range";
               req "events_expired"; req "compliant"]
    (λ r, (rcs_PolicyEnabled r, (rcs_DefaultDays r, (rcs_OldestEvent r, (rcs_EventsInRange r,
       (rcs_EventsExpired r, (rcs_Compliant r, tt)))))))
    (λ '(a, (b, (c, (d, (e, (f, _)))))), mkRetentionComplianceSection a b c d e f).
#[export] Instance RetentionComplianceSection_laws : WireLaws RetentionComplianceSection.
Proof. solve_struct. Qed.
#[export] Instance RetentionComplianceSection_shallow : Shallow RetentionComplianceSection := struct_shallow _ _ _.

#[export] Instance ComplianceReport_wire : Wire ComplianceReport :=
  struct_wire [req "id"; req "generated_at"; req "scope"; req "period"; req "summary"; req "policy_compliance";
               req "execution_health"; req "chain_integrity"; req "retention_compliance"; opt "top_errors"]
    (λ r, (rep_ID r, (rep_GeneratedAt r, (rep_Scope r, (rep_Period r, (rep_Summary r, (rep_PolicyCompliance r,
       (rep_ExecutionHealth r, (rep_ChainIntegrity r, (rep_RetentionCompliance r, (rep_TopErrors r, tt)))))))))))
    (λ '(a, (b, (c, (d, (e, (f, (g, (h, (i, (j, _)))))))))), mkComplianceReport a b c d e f g h i j).
#[export] Instance ComplianceReport_laws : WireLaws ComplianceReport.
Proof. solve_struct. Qed.
#[export] Instance ComplianceReport_shallow : Shallow ComplianceReport := struct_shallow _ _ _.

(* ------------------------------------------------------------------ *)
(** ** The JSON form of envelopes (envelope.go) *)
(* ------------------------------------------------------------------ *)

Definition envelope_tags : list tag :=
  [req "event_id"; opt "trace_id"; req "timestamp"; req "tenant_id"; opt "user_id"; opt "execution_id";
   opt "session_id"; opt "step_id"; opt "step_name"; req "event_type"; req "severity"; req "source";
   req "action"; opt "resource"; req "outcome"; req "duration_ms"; opt "error"; opt "metadata"; opt "payload"].
#[export] Instance AuditEnvelope_wire : Wire AuditEnvelope :=
  struct_wire envelope_tags
    (λ r, (env_EventID r, (env_TraceID r, (mkTime (env_Timestamp r), (env_TenantID r, (env_UserID r,
       (env_ExecutionID r, (env_SessionID r, (env_StepID r, (env_StepName r, (env_EventType r, (env_Severity r,
       (env_Source r, (env_Action r, (env_Resource r, (env_Outcome r, (env_DurationMs r, (env_Error r,
       (env_Metadata r, (mkRawMessage (env_Payload r), tt))))))))))))))))))))
    (λ '(a, (b, (c, (d, (e, (f, (g, (h, (i, (j, (k, (l, (m, (n, (o, (p, (q, (r, (s, _))))))))))))))))))),
       mkAuditEnvelope a b (unix_nano c) d e f g h i j k l m n o p q r (raw_bytes s)).
#[export] Instance AuditEnvelope_laws : WireLaws AuditEnvelope.
Proof. solve_struct. Qed.
End times.

(* ------------------------------------------------------------------ *)
(** ** Signed events and mappers (chain.go, mapper.go) *)
(* ------------------------------------------------------------------ *)

Record SignedEvent := mkSignedEvent { sgn_Event : AuditEvent; sgn_Signature : string }.
Record ChainVerificationResult := mkChainVerificationResult {
  cvr_Valid : bool;
  cvr_TotalChecked : Z;
  cvr_FirstBreak : Z
}.

(** What an implementation outside the repository gives: a format and a conversion
    of envelopes, one or several. *)
Class AuditEventMapper (M : Type) := {
  Format : M → string;
  Map : M → AuditEnvelope → any * option error;
  MapBatch : M → list AuditEnvelope → any * option error
}.

(* ------------------------------------------------------------------ *)
(** ** What can be written *)
(* ------------------------------------------------------------------ *)

Definition report_rates (r : ComplianceReport) : list float64 :=
  [csu_ErrorRate (rep_Summary r); csu_DenialRate (rep_Summary r);
   pcs_DenialRate (rep_PolicyCompliance r); ehs_SuccessRate (rep_ExecutionHealth r)].
Definition report_times (r : ComplianceReport) : list Time :=
  [rep_GeneratedAt r; tmr_From (rep_Period r); tmr_To (rep_Period r);
   rcs_OldestEvent (rep_RetentionCompliance r)].

Lemma summary_written (r : ComplianceSummary) :
  is_Some (encode r) ↔ is_Some (json_float (csu_ErrorRate r)) ∧ is_Some (json_float (csu_DenialRate r)).
Proof. unfold ComplianceSummary_wire. solve_written. Qed.
Lemma policy_written (r : PolicyComplianceSection) :
  is_Some (encode r) ↔ is_Some (json_float (pcs_DenialRate r)).
Proof. unfold PolicyComplianceSection_wire. solve_written. Qed.
Lemma health_written (r : ExecutionHealthSection) :
  is_Some (encode r) ↔ is_Some (json_float (ehs_SuccessRate r)).
Proof. unfold ExecutionHealthSection_wire. solve_written. Qed.

Section times.
Context `{TimeText}.
Lemma period_written (r : TimeRange) :
  is_Some (encode r) ↔ is_Some (format_time (unix_nano (tmr_From r))) ∧ is_Some (format_time (unix_nano (tmr_To r))).
Proof. unfold TimeRange_wire. solve_written. Qed.
Lemma retention_written (r : RetentionComplianceSection) :
  is_Some (encode r) ↔ is_Some (format_time (unix_nano (rcs_OldestEvent r))).
Proof. unfold RetentionComplianceSection_wire. solve_written. Qed.

Lemma report_written (r : ComplianceReport) :
  is_Some (marshal r) ↔
  Forall (λ f, is_Some (json_float f)) (report_rates r) ∧
  Forall (λ t, is_Some (format_time (unix_nano t))) (report_times r).
Proof.
  unfold marshal, report_rates, report_times. rewrite fmap_is_Some, !Forall_cons, !Forall_nil.
  unfold ComplianceReport_wire. rewrite struct_written. cbv beta. unfold req, opt.
  rewrite !enc_fields_cons, time_written, summary_written, policy_written, health_written, period_written,
    retention_written, !written_iff.
  cbn [andb]. naive_solver.
Qed.
End times.

(* ------------------------------------------------------------------ *)
(** ** How deep an envelope nests *)
(* ------------------------------------------------------------------ *)

Definition shallower (n : Z) (e : string * json) : Prop := (nesting e.2 ≤ n)%Z.

Lemma enc_fields_nesting `{Wire A} `{Fields T} n tag tags (x : A) (t : T) m :
  (∀ d, encode x = Some d → (nesting d ≤ n)%Z) →
  (∀ m', enc_fields tags t = Some m' → Forall (shallower n) m') →
  enc_fields (tag :: tags) (x, t) = Some m → Forall (shallower n) m.
Proof.
  intros Hx Ht. destruct tag as [name omit]. simpl. destruct (enc_fields tags t) as [rest|]; simpl; [|done].
  destruct (omit && is_empty x); [by intros [= <-]; apply Ht|].
  destruct (encode x); simpl; [|done]. intros [= <-]. constructor; [by apply Hx|by apply Ht].
Qed.

Lemma envelope_nesting `{TimeText} (r : AuditEnvelope) n d :
  (1 ≤ n)%Z → (∀ p, encode (mkRawMessage (env_Payload r)) = Some p → (nesting p ≤ n)%Z) →
  encode r = Some d → (nesting d ≤ 1 + n)%Z.
Proof.
  intros Hn Hp. unfold AuditEnvelope_wire. cbn [encode struct_wire].
  destruct (enc_fields envelope_tags _) as [m|] eqn:E; simpl; [|done]. intros [= <-].
  cbn [nesting]. apply Z.add_le_mono_l, (foldr_max_le (λ e : string * json, nesting e.2)); [lia|].
  revert E. unfold envelope_tags.
  repeat (apply enc_fields_nesting;
          [first [exact Hp|intros d Hd; apply encode_levels in Hd; unfold levels in Hd; simpl in Hd; lia]|intros ?]).
  intros [= <-]. constructor.
Qed.

(* ------------------------------------------------------------------ *)
(** ** What comes back of an event *)
(* ------------------------------------------------------------------ *)

(** Texts in UTF-8, floats whose text reads back, and not too deep for the decoder
    inside the envelope. *)
Definition payload_good (v : any) : Prop :=
  texts_valid v ∧ floats_read_back v ∧ (1 + any_nesting v ≤ maxNestingDepth)%Z.
Definition event_good (e : AuditEvent) : Prop :=
  Forall utf8_valid
    [ae_ID e; ae_TraceID e; ae_TenantID e; ae_UserID e; ae_RequestID e; ae_StepID e; ae_StepName e; ae_Source e;
     ae_Action e; ae_Resource e; ae_Outcome e; ae_Error e] ∧
  (∀ k x, ae_Metadata e !! k = Some x → utf8_valid k ∧ utf8_valid x) ∧
  in_int64 (ae_Duration e) ∧
  (∀ v, payload_of e = Some v → payload_good v).

Lemma payload_object e v : payload_of e = Some v → ∃ m, v = AMap m.
Proof. unfold payload_of. case_match; [|done]. intros [= <-]. eauto. Qed.

(** The payload of an envelope is a document that comes back. *)
Lemma payload_document e s :
  event_good e → env_Payload (ToEnvelope e) = Some s →
  ∃ m, s = print (JObj m) ∧ fix_json (JObj m) = JObj m ∧ lits_ok (JObj m) ∧
       (nesting (JObj m) < maxNestingDepth)%Z.
Proof.
  intros (_ & _ & _ & Hp) Hs. simpl in Hs. destruct (payload_of e) as [v|] eqn:E; simpl in Hs; [|done].
  destruct (payload_object e v E) as [m ->]. destruct (Hp _ eq_refl) as (Ht & Hf & Hn).
  rewrite json_marshal_print in Hs. destruct (to_json (AMap m)) as [d|] eqn:Ed; [|done]. injection Hs as <-.
  destruct (document_of _ _ Ed Hf) as [Hl Hd]. pose proof (valid_document _ _ Ed Ht) as Hv.
  cbn [to_json] in Ed. destruct (mapM _ m) as [es|]; [|done]. injection Ed as <-.
  eexists. split; [reflexivity|]. split_and!; [done..|]. unfold maxNestingDepth in *. lia.
Qed.

Lemma quot_in_int64 z n : (0 < n)%Z → in_int64 z → in_int64 (Z.quot z n).
Proof.
  intros Hn Hz. assert (Hle : ∀ a, (0 ≤ a)%Z → (0 ≤ Z.quot a n ≤ a)%Z).
  { intros a Ha. split; [by apply Z.quot_pos; lia|]. apply Z.quot_le_upper_bound; nia. }
  unfold in_int64, min_int64, max_int64 in *. destruct (Z.le_ge_cases 0 z) as [H0|H0].
  - specialize (Hle z H0). lia.
  - specialize (Hle (- z)%Z ltac:(lia)). rewrite Z.quot_opp_l in Hle by lia. lia.
Qed.

Lemma envelope_payload_good e :
  event_good e →
  env_Payload (ToEnvelope e) = None ∨
  good (mkRawMessage (env_Payload (ToEnvelope e))) ∧ is_empty (mkRawMessage (env_Payload (ToEnvelope e))) = false.
Proof.
  intros He. destruct (env_Payload (ToEnvelope e)) as [s|] eqn:E; [right|by left].
  destruct (payload_document e s He E) as (m & -> & Hf & Hl & Hn). split; [|done].
  exists (JObj m). split_and!; [done..|lia].
Qed.

Lemma session_valid (m : gmap string string) k :
  (∀ k x, m !! k = Some x → utf8_valid k ∧ utf8_valid x) → utf8_valid (default "" (m !! k)).
Proof. intros Hm. destruct (m !! k) as [x|] eqn:E; [|done]. by destruct (Hm k x E). Qed.
Lemma event_type_valid e : utf8_valid (inferEventType e).
Proof.
  assert (Hall : Forall utf8_valid inferable) by (repeat constructor).
  rewrite Forall_forall in Hall. apply Hall, inferEventType_inferable.
Qed.
Lemma severity_valid e : utf8_valid (inferSeverity e).
Proof. unfold inferSeverity. by repeat case_match. Qed.
Lemma source_valid e : utf8_valid (ae_Source e) → utf8_valid (resolveSource e).
Proof. intros Hs. unfold resolveSource, inferSource. by repeat case_match. Qed.

Lemma envelope_good `{TimeText} e : event_good e → good (ToEnvelope e).
Proof.
  intros He. pose proof (envelope_payload_good e He) as Hp.
  destruct He as (Hs & Hm & Hd & _). rewrite !Forall_cons in Hs. destruct_and! Hs.
  cbn [good AuditEnvelope_wire struct_wire]. unfold envelope_tags.
  repeat first [apply good_field|apply good_required];
    first [done|by apply session_valid|apply event_type_valid|apply severity_valid|by apply source_valid
          |by apply quot_in_int64|idtac].
  split; [|done]. cbn [fst andb opt].
  destruct Hp as [-> |[Hp ->]]; [done|exact Hp].
Qed.

(* ------------------------------------------------------------------ *)
(** ** Properties *)
(* ------------------------------------------------------------------ *)

(** a compliance report is written exactly when its four rates and its four
    times have a text, so a rate that is no number stops the whole report; and a
    report with valid texts and counters of their width is read back from what was
    written. *)
Theorem compliance_reports_are_read_back `{TimeText} (r : ComplianceReport) :
  (is_Some (marshal r) ↔
   Forall (λ f, is_Some (json_float f)) (report_rates r) ∧
   Forall (λ t, is_Some (format_time (unix_nano t))) (report_times r)) ∧
  (good r → ∀ s, marshal r = Some s → unmarshal s = Some r).
Proof.
  split; [apply report_written|]. intros Hr s. apply read_back_shallow; [|done]. vm_compute. discriminate.
Qed.

Definition sample_rate : float64 := Eval vm_compute in dec_to_float false 125 (-1).
Definition sample_report : ComplianceReport :=
  mkComplianceReport "r1" (mkTime 5) (mkComplianceScope "" "u") (mkTimeRange (mkTime 0) (mkTime 4))
    (mkComplianceSummary 8 2 sample_rate sample_rate)
    (mkPolicyComplianceSection 4 3 1 sample_rate (SliceOf [mkActionCount "delete" 1]))
    (mkExecutionHealthSection 4 3 1 sample_rate (-1) 9 {["executor" := 1%Z]})
    (mkChainIntegritySection 8 true (-1) 0) (mkRetentionComplianceSection true 30 (mkTime 1) 8 0 true) NilSlice.

Lemma sample_rate_back : reads_back sample_rate.
Proof. eexists. split; [vm_compute; reflexivity|]. by split; vm_compute. Qed.
Lemma sample_counts_good : good {["executor" := 1%Z]}.
Proof. intros k x [<- <-]%lookup_singleton_Some. split; [done|]. by split; vm_compute. Qed.

Ltac solve_good :=
  repeat match goal with
         | |- _ ∧ _ => split
         | |- reads_back _ => exact sample_rate_back
         | |- in_int64 _ => split; vm_compute; discriminate
         | |- utf8_valid _ => reflexivity
         | |- False → _ => intros []
         | |- false = true → _ => discriminate
         | |- true = true → _ => intros _
         | |- _ = true → _ => let Hx := fresh in intros Hx; first [reflexivity|vm_compute in Hx; discriminate Hx]
         | |- True => exact I
         | |- Forall _ _ => constructor
         | |- _ = _ => reflexivity
         end.

Lemma sample_report_good : @good _ (@ComplianceReport_wire decimal_time) sample_report.
Proof. unfold sample_report. simpl. solve_good. exact sample_counts_good. Qed.

Lemma compliance_reports_are_read_back_witness :
  ∃ s, @marshal _ (@ComplianceReport_wire decimal_time) sample_report = Some s ∧
       @unmarshal _ (@ComplianceReport_wire decimal_time) s = Some sample_report.
Proof.
  eexists. split; [vm_compute; reflexivity|].
  apply (@compliance_reports_are_read_back decimal_time sample_report); [exact sample_report_good|].
  vm_compute. reflexivity.
Defined.

(** C27: the envelope of an event with valid texts is written whenever its time has
    a text, and what is written is read back as the envelope, with its payload
    byte for byte. *)
Theorem envelopes_are_read_back `{TimeText} (e : AuditEvent) :
  event_good e →
  (is_Some (marshal (ToEnvelope e)) ↔ is_Some (format_time (ae_Timestamp e))) ∧
  ∀ s, marshal (ToEnvelope e) = Some s → unmarshal s = Some (ToEnvelope e).
Proof.
  intros He. split.
  - unfold marshal. rewrite fmap_is_Some. unfold AuditEnvelope_wire. rewrite struct_written. cbv beta.
    unfold envelope_tags, req, opt.
    assert (is_Some (encode (mkRawMessage (env_Payload (ToEnvelope e))))).
    { destruct (env_Payload (ToEnvelope e)) as [s|] eqn:E; [|by eexists].
      destruct (payload_document e s He E) as (m & -> & Hf & Hl & Hn). cbn [encode raw_message_wire raw_bytes].
      rewrite parse_print by (done || lia). by eexists. }
    rewrite !enc_fields_cons, time_written, !written_iff. cbn [andb unix_nano env_Timestamp ToEnvelope].
    split; [by intros (_ & _ & [|Ht] & _)|]. intros Ht. repeat (split; [by right|]). apply enc_fields_nil.
  - intros s Hs. unfold marshal in Hs. destruct (encode (ToEnvelope e)) as [d|] eqn:Ed; [|done]. injection Hs as <-.
    apply read_back; [by apply envelope_good|done|].
    transitivity (1 + (maxNestingDepth - 1))%Z; [|lia]. eapply envelope_nesting; [by vm_compute| |exact Ed].
    intros p Hp. destruct (env_Payload (ToEnvelope e)) as [s|] eqn:E.
    + destruct (payload_document e s He E) as (m & -> & Hf & Hl & Hn). cbn [encode raw_message_wire raw_bytes] in Hp.
      rewrite parse_print, Hf in Hp by (done || lia). injection Hp as <-. lia.
    + injection Hp as <-. by vm_compute.
Qed.

Definition sample_event : AuditEvent :=
  mkAuditEvent "e1" "t" "u" "r" "tool.call" "search" "success" 1500000 {["session_id" := "s1"]} 7 "" "" "step" "find"
    "tool" "completed" {["q" := AString "a<b"]} (ASlice [AInt 1; ANil]) "" "".

Lemma sample_event_good : event_good sample_event.
Proof.
  split_and!.
  - repeat constructor.
  - intros k x Hx. unfold sample_event in Hx. cbn [ae_Metadata] in Hx.
    apply lookup_singleton_Some in Hx as [<- <-]. by split.
  - by split; vm_compute.
  - intros v Hv. vm_compute in Hv. injection Hv as <-. split_and!; vm_compute; naive_solver.
Qed.

Lemma envelopes_are_read_back_witness :
  ∃ s, @marshal _ (@AuditEnvelope_wire decimal_time) (ToEnvelope sample_event) = Some s ∧
       @unmarshal _ (@AuditEnvelope_wire decimal_time) s = Some (ToEnvelope sample_event) ∧
       env_Payload (ToEnvelope sample_event) ≠ None.
Proof.
  eexists. split; [vm_compute; reflexivity|]. split; [|by vm_compute].
  apply (@envelopes_are_read_back decimal_time sample_event sample_event_good). vm_compute. reflexivity.
Defined.

(** Though the tag says [omitempty], a report always has the member, the zero time
    too: no [time.Time] is ever empty. *)
Lemma oldest_event_is_always_written `{TimeText} (r : RetentionComplianceSection) d :
  encode r = Some d → ∃ m t, d = JObj m ∧ lookup_field "oldest_event" m = Some (JStr t).
Proof.
  unfold RetentionComplianceSection_wire. simpl. destruct (format_time _) as [t|]; simpl; [|done].
  intros [= <-]. eexists _, t. split; [done|]. reflexivity.
Qed.
