(* ===== verification/ProviderWire.v ===== *)
(** Requests and answers of the model services as JSON (the struct tags of
    [src/ai/providers]): the codecs the clients of [Providers] and [Streaming] are
    parameters of, and what goes over the wire between the planner and a service. *)
From S2P Require Export Factory PlanWire.
From Stdlib Require Import Ascii.

(** A structure whose record and product differ in more than their shape. *)
Ltac solve_struct_with tac :=
  apply struct_laws; [split; [apply (bool_decide_unpack _); vm_compute; exact I|repeat constructor]|tac].

(* ------------------------------------------------------------------ *)
(** ** The OpenAI request *)
(* ------------------------------------------------------------------ *)

Record openAIImageURL := mkOpenAIImageURL { URL : string }.
#[export] Instance openAIImageURL_wire : Wire openAIImageURL :=
  struct_wire [req "url"] (λ u, (URL u, tt)) (λ '(a, _), mkOpenAIImageURL a).
#[export] Instance openAIImageURL_laws : WireLaws openAIImageURL.
Proof. solve_struct. Qed.

#[export] Instance openAIContentBlock_wire : Wire openAIContentBlock :=
  struct_wire [req "type"; opt "text"; opt "image_url"]
    (λ b, (ob_Type b, (ob_Text b, (mkOpenAIImageURL <$> ob_ImageURL b, tt))))
    (λ '(a, (b, (c, _))), mkOpenAIContentBlock a b (URL <$> c)).
#[export] Instance openAIContentBlock_laws : WireLaws openAIContentBlock.
Proof.
  solve_struct_with ltac:(by intros [a b [u|]]).
Qed.

(** The content of a message is an [any]; it is read back the way the service reads
    it, as nothing, a text or parts. *)
#[export] Instance chat_content_wire : Wire chat_content := {|
  encode c := match c with
              | ContentNil => Some JNull
              | ContentText s => encode s
              | ContentParts l => encode l
              end;
  decode d := match d with
              | JStr s => Some (ContentText s)
              | JArr _ => ContentParts <$> decode d
              | _ => None
              end;
  Wire.zero := ContentNil;
  is_empty c := match c with ContentNil => true | _ => false end;
  good c := match c with ContentNil => True | ContentText s => utf8_valid s | ContentParts l => Forall good l end
|}.
#[export] Instance chat_content_laws : WireLaws chat_content.
Proof.
  split; intros [|s|l] d Hg Hd; cbn [encode good chat_content_wire] in *.
  - by injection Hd as <-.
  - injection Hd as <-. simpl. by rewrite Hg.
  - pose proof (read_encode l d Hg Hd) as Hr. cbn [encode list_wire] in Hd.
    destruct (mapM encode l); simpl in Hd; [|done]. injection Hd as <-. cbn [fix_json read] in *.
    cbn [decode chat_content_wire]. by rewrite Hr.
  - by injection Hd as <-.
  - by injection Hd as <-.
  - by apply (encode_lits (A:=list openAIContentBlock) l).
Qed.

#[export] Instance chatMessage_wire : Wire chatMessage :=
  struct_wire [req "role"; req "content"; opt "name"]
    (λ m, (cm_Role m, (cm_Content m, (cm_Name m, tt)))) (λ '(a, (b, (c, _))), mkChatMessage a b c).
#[export] Instance chatMessage_laws : WireLaws chatMessage.
Proof. solve_struct. Qed.

(** A tool choice is an [any] too: a mode, or one of the two structures. *)
Definition text_field (name : string) (m : list (string * json)) : option string :=
  match lookup_field name m with Some d => read d | None => Some "" end.
#[export] Instance wire_choice_wire : Wire wire_choice := {|
  encode c := Some match c with
              | WireMode s => JStr s
              | openAIToolChoice ty name => JObj [("type", JStr ty); ("function", JObj [("name", JStr name)])]
              | anthropicToolChoice ty name =>
                  JObj (("type", JStr ty) :: if String.eqb name "" then [] else [("name", JStr name)])
              end;
  decode d := match d with
              | JStr s => Some (WireMode s)
              | JObj m =>
                  ty ← text_field "type" m;
                  match lookup_field "function" m with
                  | Some (JObj f) => openAIToolChoice ty <$> text_field "name" f
                  | Some _ => None
                  | None => anthropicToolChoice ty <$> text_field "name" m
                  end
              | _ => None
              end;
  Wire.zero := WireMode "";
  is_empty _ := false;
  good c := match c with
            | WireMode s => utf8_valid s
            | openAIToolChoice ty name | anthropicToolChoice ty name => utf8_valid ty ∧ utf8_valid name
            end
|}.
#[export] Instance wire_choice_laws : WireLaws wire_choice.
Proof.
  split; intros [s|ty name|ty name] d Hg [= <-]; cbn [good wire_choice_wire] in Hg; try done.
  - simpl. by rewrite Hg.
  - destruct Hg as [Ht Hn]. cbn [fix_json map fst snd]. rewrite Ht, Hn. reflexivity.
  - destruct Hg as [Ht Hn]. destruct (String.eqb_spec name "") as [->|Hne]; cbn [fix_json map fst snd];
      rewrite Ht, ?Hn; reflexivity.
  - by destruct (String.eqb name "").
Qed.

Record streamOptions := mkStreamOptions { IncludeUsage : bool }.
#[export] Instance streamOptions_wire : Wire streamOptions :=
  struct_wire [req "include_usage"] (λ o, (IncludeUsage o, tt)) (λ '(a, _), mkStreamOptions a).
#[export] Instance streamOptions_laws : WireLaws streamOptions.
Proof. solve_struct. Qed.

Section schemas.
(** How deep the schemas of tools may nest. *)
Variable n : nat.
#[local] Instance tool_schema_wire : Wire JSONSchema := schema_wire n.

Record chatFunction := mkChatFunction {
  cf_Name : string;
  cf_Description : string;
  cf_Parameters : option JSONSchema
}.
Definition chatFunction_wire : Wire chatFunction :=
  struct_wire [req "name"; opt "description"; opt "parameters"]
    (λ f, (cf_Name f, (cf_Description f, (cf_Parameters f, tt)))) (λ '(a, (b, (c, _))), mkChatFunction a b c).
#[local] Existing Instance chatFunction_wire.
Lemma chatFunction_laws : WireLaws chatFunction.
Proof. solve_struct. Qed.
#[local] Existing Instance chatFunction_laws.

Definition chatTool_wire : Wire chatTool :=
  struct_wire [req "type"; req "function"]
    (λ t, (ct_Type t, (mkChatFunction (ct_Name t) (ct_Description t) (ct_Parameters t), tt)))
    (λ '(a, (f, _)), mkChatTool a (cf_Name f) (cf_Description f) (cf_Parameters f)).
#[local] Existing Instance chatTool_wire.
Lemma chatTool_laws : WireLaws chatTool.
Proof. solve_struct. Qed.
#[local] Existing Instance chatTool_laws.

Definition kwargs_map (k : option (list (string * any))) : any_map := mkAnyMap (AMap <$> k).
Definition map_kwargs (m : any_map) : option (list (string * any)) :=
  match map_value m with Some (AMap es) => Some es | _ => None end.

Definition chat_tags : list tag :=
  [req "model"; req "messages"; opt "max_tokens"; opt "temperature"; opt "tools"; opt "tool_choice";
   opt "parallel_tool_calls"; opt "chat_template_kwargs"].
Definition chatRequest_wire : Wire chatRequest :=
  struct_wire chat_tags
    (λ r, (cr_Model r, (cr_Messages r, (cr_MaxTokens r, (cr_Temperature r, (cr_Tools r, (cr_ToolChoice r,
       (cr_ParallelToolCalls r, (kwargs_map (cr_ChatTemplateKwargs r), tt)))))))))
    (λ '(a, (b, (c, (d, (e, (f, (g, (h, _)))))))), mkChatRequest a b c d e f g (map_kwargs h)).
Lemma chatRequest_laws : @WireLaws chatRequest chatRequest_wire.
Proof.
  solve_struct_with ltac:(by intros [? ? ? ? ? ? ? []]).
Qed.

(** The fields of the embedded request come first. *)
Definition streamChatRequest_wire : Wire streamChatRequest :=
  struct_wire (chat_tags ++ [req "stream"; opt "stream_options"])
    (λ r, let q := scr_chatRequest r in
       (cr_Model q, (cr_Messages q, (cr_MaxTokens q, (cr_Temperature q, (cr_Tools q, (cr_ToolChoice q,
       (cr_ParallelToolCalls q, (kwargs_map (cr_ChatTemplateKwargs q),
       (scr_Stream r, (mkStreamOptions <$> scr_IncludeUsage r, tt)))))))))))
    (λ '(a, (b, (c, (d, (e, (f, (g, (h, (i, (j, _)))))))))),
       mkStreamChatRequest (mkChatRequest a b c d e f g (map_kwargs h)) i (IncludeUsage <$> j)).
Lemma streamChatRequest_laws : @WireLaws streamChatRequest streamChatRequest_wire.
Proof.
  solve_struct_with ltac:(by intros [[? ? ? ? ? ? ? []] ? []]).
Qed.

(* ------------------------------------------------------------------ *)
(** ** The Anthropic request *)
(* ------------------------------------------------------------------ *)

#[export] Instance anthropicMessage_wire : Wire anthropicMessage :=
  struct_wire [req "role"; req "content"] (λ m, (am_Role m, (am_Content m, tt))) (λ '(a, (b, _)), mkAnthropicMessage a b).
#[export] Instance anthropicMessage_laws : WireLaws anthropicMessage.
Proof. solve_struct. Qed.

Definition anthropicToolDefinition_wire : Wire anthropicToolDefinition :=
  struct_wire [req "name"; opt "description"; opt "input_schema"]
    (λ t, (at_Name t, (at_Description t, (at_InputSchema t, tt)))) (λ '(a, (b, (c, _))), mkAnthropicToolDefinition a b c).
#[local] Existing Instance anthropicToolDefinition_wire.
Lemma anthropicToolDefinition_laws : WireLaws anthropicToolDefinition.
Proof. solve_struct. Qed.
#[local] Existing Instance anthropicToolDefinition_laws.

(** A slice that is nil when it is empty. *)
Definition grown {A} (l : list A) : slice A := match l with [] => NilSlice | _ => SliceOf l end.
Definition elements {A} (s : slice A) : list A := match s with SliceOf l => l | NilSlice => [] end.

Definition anthropicMessagesRequest_wire : Wire anthropicMessagesRequest :=
  struct_wire [req "model"; req "max_tokens"; opt "system"; req "messages"; opt "tools"; opt "tool_choice";
               opt "disable_parallel_tool_use"; opt "stream"; opt "temperature"]
    (λ r, (ar_Model r, (ar_MaxTokens r, (ar_System r, (grown (ar_Messages r), (ar_Tools r, (ar_ToolChoice r,
       (ar_DisableParallelUse r, (ar_Stream r, (ar_Temperature r, tt))))))))))
    (λ '(a, (b, (c, (d, (e, (f, (g, (h, (i, _))))))))), mkAnthropicMessagesRequest a b c (elements d) e f g h i).
Lemma anthropicMessagesRequest_laws : @WireLaws anthropicMessagesRequest anthropicMessagesRequest_wire.
Proof.
  solve_struct_with ltac:(by intros [? ? ? [] ? ? ? ? ?]).
Qed.
End schemas.

(* ------------------------------------------------------------------ *)
(** ** The OpenAI answer *)
(* ------------------------------------------------------------------ *)

(** Every tagged field is read, so that one of the wrong kind is an error; what a
    field no code looks at is written as is what a service writes there. *)
Record chatFunctionCall := mkChatFunctionCall { fc_Name : string; fc_Arguments : string }.
#[export] Instance chatFunctionCall_wire : Wire chatFunctionCall :=
  struct_wire [req "name"; req "arguments"] (λ c, (fc_Name c, (fc_Arguments c, tt))) (λ '(a, (b, _)), mkChatFunctionCall a b).
#[export] Instance chatFunctionCall_laws : WireLaws chatFunctionCall.
Proof. solve_struct. Qed.

#[export] Instance chatToolCall_wire : Wire ToolCall :=
  struct_wire [req "id"; req "type"; req "function"]
    (λ c, (tc_ID c, ("function", (mkChatFunctionCall (tc_Name c) (tc_Arguments c), tt))))
    (λ '(a, (_, (f, _))), mkToolCall a (fc_Name f) (fc_Arguments f)).
#[export] Instance chatToolCall_laws : WireLaws ToolCall.
Proof. solve_struct. Qed.

Record chatResponseMessage := mkChatResponseMessage {
  rm_Content : string;
  rm_ReasoningContent : string;
  rm_ToolCalls : list ToolCall
}.
#[export] Instance chatResponseMessage_wire : Wire chatResponseMessage :=
  struct_wire [req "role"; req "content"; opt "reasoning_content"; opt "tool_calls"]
    (λ m, ("assistant", (rm_Content m, (rm_ReasoningContent m, (rm_ToolCalls m, tt)))))
    (λ '(_, (b, (c, (d, _)))), mkChatResponseMessage b c d).
#[export] Instance chatResponseMessage_laws : WireLaws chatResponseMessage.
Proof. solve_struct. Qed.

(** A choice, as [Providers.chatResponse] keeps it. *)
#[export] Instance chatChoice_wire : Wire (string * string * list ToolCall * string) :=
  struct_wire [req "message"; req "finish_reason"]
    (λ '(content, reasoning, calls, finish), (mkChatResponseMessage content reasoning calls, (finish, tt)))
    (λ '(m, (finish, _)), (rm_Content m, rm_ReasoningContent m, rm_ToolCalls m, finish)).
#[export] Instance chatChoice_laws : WireLaws (string * string * list ToolCall * string).
Proof. solve_struct_with ltac:(by intros [[[]]]). Qed.

#[export] Instance chatUsage_wire : Wire TokenUsage :=
  struct_wire [req "prompt_tokens"; req "completion_tokens"; req "total_tokens"]
    (λ u, (tu_PromptTokens u, (tu_CompletionTokens u, (tu_TotalTokens u, tt)))) (λ '(a, (b, (c, _))), mkTokenUsage a b c).
#[export] Instance chatUsage_laws : WireLaws TokenUsage.
Proof. solve_struct. Qed.

Record chatError := mkChatError { ce_Message : string; ce_Type : string }.
#[export] Instance chatError_wire : Wire chatError :=
  struct_wire [req "message"; req "type"] (λ e, (ce_Message e, (ce_Type e, tt))) (λ '(a, (b, _)), mkChatError a b).
#[export] Instance chatError_laws : WireLaws chatError.
Proof. solve_struct. Qed.
Definition error_of (e : chatError) : string * string := (ce_Message e, ce_Type e).
Definition chat_error (e : string * string) : chatError := mkChatError e.1 e.2.

#[export] Instance chatResponse_wire : Wire chatResponse :=
  struct_wire [req "choices"; req "usage"; opt "error"]
    (λ r, (cresp_Choices r, (cresp_Usage r, (chat_error <$> cresp_Error r, tt))))
    (λ '(a, (b, (c, _))), mkChatResponse a b (error_of <$> c)).
#[export] Instance chatResponse_laws : WireLaws chatResponse.
Proof. solve_struct_with ltac:(by intros [a b [[]|]]). Qed.

(** *** Streamed *)

Record streamFunctionDelta := mkStreamFunctionDelta { fd_Name : string; fd_Arguments : string }.
#[export] Instance streamFunctionDelta_wire : Wire streamFunctionDelta :=
  struct_wire [opt "name"; opt "arguments"] (λ d, (fd_Name d, (fd_Arguments d, tt)))
    (λ '(a, (b, _)), mkStreamFunctionDelta a b).
#[export] Instance streamFunctionDelta_laws : WireLaws streamFunctionDelta.
Proof. solve_struct. Qed.

#[export] Instance streamToolCallDelta_wire : Wire streamToolCallDelta :=
  struct_wire [req "index"; opt "id"; opt "type"; opt "function"]
    (λ d, (std_Index d, (std_ID d, ("function", (mkStreamFunctionDelta (std_Name d) (std_Arguments d), tt)))))
    (λ '(a, (b, (_, (f, _)))), mkStreamToolCallDelta a b (fd_Name f) (fd_Arguments f)).
#[export] Instance streamToolCallDelta_laws : WireLaws streamToolCallDelta.
Proof. solve_struct. Qed.

Record streamDelta := mkStreamDelta { sd_Content : string; sd_ToolCalls : list streamToolCallDelta }.
#[export] Instance streamDelta_wire : Wire streamDelta :=
  struct_wire [opt "role"; opt "content"; opt "tool_calls"]
    (λ d, ("assistant", (sd_Content d, (sd_ToolCalls d, tt)))) (λ '(_, (b, (c, _))), mkStreamDelta b c).
#[export] Instance streamDelta_laws : WireLaws streamDelta.
Proof. solve_struct. Qed.

#[export] Instance streamChoice_wire : Wire streamChoice :=
  struct_wire [req "delta"; req "finish_reason"]
    (λ c, (mkStreamDelta (sch_Content c) (sch_ToolCalls c), (sch_FinishReason c, tt)))
    (λ '(d, (f, _)), mkStreamChoice (sd_Content d) (sd_ToolCalls d) f).
#[export] Instance streamChoice_laws : WireLaws streamChoice.
Proof. solve_struct. Qed.

#[export] Instance streamChunk_wire : Wire streamChunk :=
  struct_wire [req "choices"; opt "usage"]
    (λ c, (swc_Choices c, (swc_Usage c, tt))) (λ '(a, (b, _)), mkStreamChunkWire a b).
#[export] Instance streamChunk_laws : WireLaws streamChunk.
Proof. solve_struct. Qed.

(* ------------------------------------------------------------------ *)
(** ** Embeddings *)
(* ------------------------------------------------------------------ *)

#[export] Instance embedRequest_wire : Wire embedRequest :=
  struct_wire [req "model"; req "input"; opt "dimensions"]
    (λ r, (er_Model r, (er_Input r, (er_Dimensions r, tt)))) (λ '(a, (b, (c, _))), mkEmbedRequest a b c).
#[export] Instance embedRequest_laws : WireLaws embedRequest.
Proof. solve_struct. Qed.

Section float32.
Local Open Scope Z_scope.
(** [neg]·[m]·10^[k] rounded to 32 bits (a significand of 24 bits), as the double
    of the same value. *)
Definition widen (f : float64) : float64 :=
  match f with
  | S754_finite s m e => binary_normalize fprec femax (if s then Z.neg m else Z.pos m) e s
  | _ => f
  end.
Definition dec_to_float32 (neg : bool) (m k : Z) : float64 :=
  match m with
  | Z.pos _ =>
      widen (if 0 <=? k then
               let f := binary_normalize 24 128 (m * 10 ^ k) 0 false in
               if neg then SFopp f else f
             else
               let '(q, e, l) := SFdiv_core_binary 24 128 m 0 (10 ^ (- k)) 0 in
               binary_round_aux 24 128 neg q e l)
  | _ => S754_zero neg
  end.
End float32.

(** A [float32], by the double of its value. Nothing here writes one. *)
Record float32 := mkFloat32 { widened : float64 }.
Definition read_float32 (lit : string) : option float32 :=
  let '(ip, s1) := span_digits (drop_minus lit) in
  let '(fp, s2) := match s1 with
                   | String c s' => if Ascii.eqb c "." then span_digits s' else ("", s1)
                   | "" => ("", "")
                   end in
  let f := dec_to_float32 (is_minus lit) (dec_value 0 (ip +:+ fp)) (read_exponent s2 - Z.of_nat (slen fp)) in
  if is_finite f then Some (mkFloat32 f) else None.
#[export] Instance float32_wire : Wire float32 := {|
  encode _ := None;
  decode d := match d with JNum lit => read_float32 lit | _ => None end;
  Wire.zero := mkFloat32 (S754_zero false);
  is_empty f := feqb (widened f) (S754_zero false);
  good _ := False
|}.

#[export] Instance embedData_wire : Wire embedData :=
  struct_wire [req "object"; req "embedding"; req "index"]
    (λ d, ("embedding", (map mkFloat32 (ed_Embedding d), (ed_Index d, tt))))
    (λ '(_, (b, (c, _))), mkEmbedData (map widened b) c).

Record embedUsage := mkEmbedUsage { eu_PromptTokens : Z; eu_TotalTokens : Z }.
#[export] Instance embedUsage_wire : Wire embedUsage :=
  struct_wire [req "prompt_tokens"; req "total_tokens"]
    (λ u, (eu_PromptTokens u, (eu_TotalTokens u, tt))) (λ '(a, (b, _)), mkEmbedUsage a b).

#[export] Instance embedResponse_wire : Wire embedResponse :=
  struct_wire [req "object"; req "data"; req "model"; req "usage"; opt "error"]
    (λ r, ("list", (eresp_Data r, ("", (mkEmbedUsage 0 0, (chat_error <$> eresp_Error r, tt))))))
    (λ '(_, (b, (_, (_, (e, _))))), mkEmbedResponse b (error_of <$> e)).

(** 0.1 and 2^24 + 1 are no 32-bit floats. *)
Example vector_is_read :
  let d := JObj [("data", JArr [JObj [("embedding", JArr [JNum "0.1"; JNum "-1.5"; JNum "16777217"]); ("index", JNum "0")]])] in
  unmarshal (print d)
  = Some (mkEmbedResponse [mkEmbedData [S754_finite false 7205759511166976 (-56);
            S754_finite true 6755399441055744 (-52); S754_finite false 4503599627370496 (-28)] 0] None).
Proof. vm_compute. reflexivity. Qed.

(* ------------------------------------------------------------------ *)
(** ** The Anthropic answer *)
(* ------------------------------------------------------------------ *)

(** The input of a tool is a raw message, of which the code takes the bytes. *)
Definition raw_of (bytes : string) : raw_message :=
  mkRawMessage (if String.eqb bytes "" then None else Some bytes).
#[export] Instance anthropicContentBlock_wire : Wire anthropicContentBlock :=
  struct_wire [req "type"; opt "text"; opt "id"; opt "name"; opt "input"]
    (λ b, (ab_Type b, (ab_Text b, (ab_ID b, (ab_Name b, (raw_of (ab_Input b), tt))))))
    (λ '(a, (b, (c, (d, (e, _))))), mkAnthropicContentBlock a b c d (default "" (raw_bytes e))).
#[export] Instance anthropicContentBlock_laws : WireLaws anthropicContentBlock.
Proof. solve_struct_with ltac:(by intros [? ? ? ? []]). Qed.

#[export] Instance anthropicUsage_wire : Wire anthropicUsage :=
  struct_wire [req "input_tokens"; req "output_tokens"]
    (λ u, (au_InputTokens u, (au_OutputTokens u, tt))) (λ '(a, (b, _)), mkAnthropicUsage a b).
#[export] Instance anthropicUsage_laws : WireLaws anthropicUsage.
Proof. solve_struct. Qed.

Record anthropicErrorResponse := mkAnthropicErrorResponse { ae_Type : string; ae_Message : string }.
#[export] Instance anthropicErrorResponse_wire : Wire anthropicErrorResponse :=
  struct_wire [req "type"; req "message"] (λ e, (ae_Type e, (ae_Message e, tt))) (λ '(a, (b, _)), mkAnthropicErrorResponse a b).
#[export] Instance anthropicErrorResponse_laws : WireLaws anthropicErrorResponse.
Proof. solve_struct. Qed.

#[export] Instance anthropicMessagesResponse_wire : Wire anthropicMessagesResponse :=
  struct_wire [req "id"; req "type"; req "role"; req "content"; req "model"; req "stop_reason"; req "usage"; opt "error"]
    (λ r, ("", ("message", ("assistant", (aresp_Content r, ("", (aresp_StopReason r, (aresp_Usage r,
       ((λ e, mkAnthropicErrorResponse e.2 e.1) <$> aresp_Error r, tt)))))))))
    (λ '(_, (_, (_, (d, (_, (f, (g, (h, _)))))))),
       mkAnthropicMessagesResponse d f g ((λ e, (ae_Message e, ae_Type e)) <$> h)).
#[export] Instance anthropicMessagesResponse_laws : WireLaws anthropicMessagesResponse.
Proof. solve_struct_with ltac:(by intros [? ? ? [[]|]]). Qed.

(** *** Streamed *)

#[export] Instance anthropicDelta_wire : Wire anthropicDelta :=
  struct_wire [opt "type"; opt "text"; opt "partial_json"; opt "stop_reason"]
    (λ d, (dl_Type d, (dl_Text d, (dl_PartialJSON d, ("", tt))))) (λ '(a, (b, (c, _))), mkAnthropicDelta a b c).
#[export] Instance anthropicDelta_laws : WireLaws anthropicDelta.
Proof. solve_struct. Qed.

Record anthropicSSEEvent := mkAnthropicSSEEvent {
  ev_Type : string;
  ev_Index : Z;
  ev_Delta : anthropicDelta;
  ev_Message : option anthropicMessagesResponse;
  ev_ContentBlock : option anthropicContentBlock;
  ev_StopReason : string;
  ev_Usage : option anthropicUsage
}.
#[export] Instance anthropicSSEEvent_wire : Wire anthropicSSEEvent :=
  struct_wire [req "type"; opt "index"; opt "delta"; opt "message"; opt "content_block"; opt "stop_reason"; opt "usage"]
    (λ e, (ev_Type e, (ev_Index e, (ev_Delta e, (ev_Message e, (ev_ContentBlock e, (ev_StopReason e, (ev_Usage e, tt))))))))
    (λ '(a, (b, (c, (d, (e, (f, (g, _))))))), mkAnthropicSSEEvent a b c d e f g).
#[export] Instance anthropicSSEEvent_laws : WireLaws anthropicSSEEvent.
Proof. solve_struct. Qed.

(** The structures declared where the other two events are read. *)
Record block_start := mkBlockStart { bs_Index : Z; bs_ContentBlock : option anthropicContentBlock }.
#[export] Instance block_start_wire : Wire block_start :=
  struct_wire [req "index"; req "content_block"]
    (λ e, (bs_Index e, (bs_ContentBlock e, tt))) (λ '(a, (b, _)), mkBlockStart a b).
#[export] Instance block_start_laws : WireLaws block_start.
Proof. solve_struct. Qed.

Record stop_delta := mkStopDelta { st_StopReason : string }.
#[export] Instance stop_delta_wire : Wire stop_delta :=
  struct_wire [req "stop_reason"] (λ d, (st_StopReason d, tt)) (λ '(a, _), mkStopDelta a).
#[export] Instance stop_delta_laws : WireLaws stop_delta.
Proof. solve_struct. Qed.
Record message_delta := mkMessageDelta { md_Delta : stop_delta; md_Usage : option anthropicUsage }.
#[export] Instance message_delta_wire : Wire message_delta :=
  struct_wire [req "delta"; req "usage"] (λ e, (md_Delta e, (md_Usage e, tt))) (λ '(a, (b, _)), mkMessageDelta a b).
#[export] Instance message_delta_laws : WireLaws message_delta.
Proof. solve_struct. Qed.

(* ------------------------------------------------------------------ *)
(** ** The codecs of the clients *)
(* ------------------------------------------------------------------ *)

Section codecs.
Variable n : nat.
(** The errors of the encoder, of the decoder and of a closed body. *)
Variable unwritable unreadable closed : error.

Definition encoding {A} (W : Wire A) (x : A) : result error string :=
  match marshal x with Some s => Ok s | None => Err unwritable end.
Definition decoding {A B} `{Wire A} (f : A → B) (s : string) : result error B :=
  match unmarshal s with Some x => Ok (f x) | None => Err unreadable end.

Definition json_codecs : codecs := {|
  enc_chat := encoding (chatRequest_wire n);
  dec_chat := decoding (λ r : chatResponse, r);
  enc_stream := encoding (streamChatRequest_wire n);
  dec_stream := decoding (λ c : streamChunk, c);
  enc_embed := encoding embedRequest_wire;
  dec_embed := decoding (λ r : embedResponse, r);
  enc_messages := encoding (anthropicMessagesRequest_wire n);
  dec_messages := decoding (λ r : anthropicMessagesResponse, r);
  dec_start := decoding (λ e, (bs_Index e, bs_ContentBlock e));
  dec_delta := decoding (λ e, (ev_Index e, ev_Delta e));
  dec_message_delta := decoding (λ e, (st_StopReason (md_Delta e), md_Usage e));
  err_closed := closed
|}.
End codecs.
