(* ===== verification/ServiceWire.v ===== *)
(** The clients and a model service over text: the documents that requests are to be
    sent as, stated apart from the clients, and that they are what is sent; and a plan
    that is streamed back to the planner ([src/ai/providers], [src/planner]). *)
From S2P Require Export ProviderWire.
From Stdlib Require Import Ascii.

(* ------------------------------------------------------------------ *)
(** ** Texts put together from valid ones *)
(* ------------------------------------------------------------------ *)

Lemma utf8_fix_app a b : utf8_valid a → utf8_fix 0 (a +:+ b) = a +:+ utf8_fix 0 b.
Proof.
  unfold utf8_valid. remember (slen a) as k eqn:Hk. revert a Hk. induction (lt_wf k) as [k _ IH].
  intros [|c a] -> Ha; [done|]. cbn [String.append utf8_fix] in *.
  destruct (nat_of_ascii c <? 128).
  { injection Ha as Ha. by rewrite (IH (slen a)); [|simpl; lia|..]. }
  destruct (utf8_len (String c a)) as [|j] eqn:Hl.
  - exfalso. cbn in Ha. injection Ha as <- Ha. rewrite <-Ha in Hl. vm_compute in Hl. discriminate.
  - destruct (utf8_len_prefix _ _ Hl) as (c' & p & t & [= <- ->] & <- & _ & Hall).
    change (String c ((p +:+ t) +:+ b)) with (String c (p +:+ t) +:+ b).
    rewrite fix_skip in Ha. injection Ha as Ha%sapp_inj_l.
    rewrite !sapp_assoc. cbn [String.append]. rewrite sapp_assoc, (Hall (t +:+ b)), fix_skip.
    by rewrite (IH (slen t)); [|simpl; rewrite slen_app; lia|..].
Qed.
Lemma utf8_valid_app a b : utf8_valid a → utf8_valid b → utf8_valid (a +:+ b).
Proof. intros Ha Hb. unfold utf8_valid. rewrite utf8_fix_app by done. by rewrite Hb. Qed.

(* ------------------------------------------------------------------ *)
(** ** Requests that come back *)
(* ------------------------------------------------------------------ *)

Definition block_valid (c : ContentBlock) : Prop :=
  Forall utf8_valid [cb_Text c; cb_ImageURL c; cb_Base64 c; cb_Media c].
Definition message_valid (m : Message) : Prop :=
  utf8_valid (msg_Role m) ∧ utf8_valid (msg_Name m) ∧ Forall block_valid (msg_Contents m).
(** Tools whose schemas nest less than [n] and come back. *)
Definition tool_valid (n : nat) (t : ToolDefinition) : Prop :=
  utf8_valid (td_Name t) ∧ utf8_valid (td_Description t) ∧
  good (Wire:=@pointer_wire _ (schema_wire n)) (td_Parameters t).
Definition choice_valid (c : ToolChoice) : Prop :=
  match c with TCSpecific name => utf8_valid name | _ => True end.
(** A request of valid texts, with numbers of their width and a temperature that its
    text reads back as. *)
Definition request_valid (n : nat) (q : GenerateRequest) : Prop :=
  Forall message_valid (gr_Messages q) ∧ Forall (tool_valid n) (gr_Tools q) ∧ in_int64 (gr_MaxTokens q) ∧
  (∀ f, Providers.positive (gr_Temperature q) = Some f → reads_back f) ∧ choice_valid (gr_ToolChoice q).

Lemma image_ref_valid c : block_valid c → utf8_valid (ImageRef c).
Proof.
  unfold block_valid. rewrite !Forall_cons. intros (_ & Hu & Hb & Hm & _). unfold ImageRef.
  destruct (negb _); [|done]. cbv zeta. repeat (apply utf8_valid_app; [try done|]); try done.
  by destruct (String.eqb (cb_Media c) "").
Qed.
Lemma block_text_valid c : block_valid c → utf8_valid (block_text c).
Proof.
  unfold block_valid. rewrite !Forall_cons. intros (Ht & Hu & Hb & Hm & _). unfold block_text.
  repeat case_match; try done; repeat (apply utf8_valid_app; [try done|]); try done. apply pretty_valid.
Qed.
Lemma flatten_from_valid i contents sb :
  utf8_valid sb → Forall block_valid contents → utf8_valid (flatten_from i contents sb).
Proof.
  intros Hsb Hc. revert i sb Hsb. induction Hc as [|c contents Hc _ IH]; intros i sb Hsb; simpl; [done|].
  apply IH, utf8_valid_app; [|by apply block_text_valid]. destruct (0 <? i); [|done]. by apply utf8_valid_app.
Qed.
Lemma flattened_valid contents : Forall block_valid contents → utf8_valid (FlattenToText contents).
Proof. intros Hc. unfold FlattenToText. destruct (_ =? 0); [done|]. by apply flatten_from_valid. Qed.

Lemma openai_block_good c b : block_valid c → openai_block c = Some b → good b.
Proof.
  intros Hc. unfold openai_block. destruct (String.eqb _ _); [|destruct (String.eqb _ _); [|done]]; intros [= <-].
  - unfold block_valid in Hc. rewrite !Forall_cons in Hc. destruct Hc as (Ht & _).
    apply good_required; [done|]. apply good_field; [exact Ht|]. by apply good_field.
  - apply good_required; [done|]. apply good_field; [done|]. apply good_field; [|done].
    split; [|apply struct_not_null]. apply good_required; [by apply image_ref_valid|done].
Qed.
Lemma openai_blocks_good contents : Forall block_valid contents → Forall good (omap openai_block contents).
Proof.
  rewrite !Forall_forall. intros Hc b (c & Hin & Hb)%list_elem_of_omap. eapply openai_block_good; eauto.
Qed.
Lemma contents_good contents : Forall block_valid contents → good (contentsToOpenAI contents).
Proof.
  intros Hc. pose proof (openai_blocks_good _ Hc) as Hp. unfold contentsToOpenAI.
  destruct contents as [|c [|c2 contents]]; [done| |exact Hp]. destruct (String.eqb _ _); [|exact Hp].
  apply Forall_cons in Hc as [Hc _]. unfold block_valid in Hc. rewrite !Forall_cons in Hc. by destruct Hc.
Qed.

Lemma temperature_good q :
  (∀ f, Providers.positive (gr_Temperature q) = Some f → reads_back f) →
  good (Providers.positive (gr_Temperature q)).
Proof.
  intros Hf. destruct (Providers.positive _) as [f|]; [|done]. specialize (Hf f eq_refl). split; [exact Hf|].
  destruct Hf as (lit & Hl & _). simpl. by rewrite Hl.
Qed.

Lemma messages_good q : Forall message_valid (gr_Messages q) → Forall good (buildOpenAIMessages q).
Proof.
  intros Hm. apply Forall_map. eapply Forall_impl; [exact Hm|]. intros m (Hr & Hn & Hc).
  apply good_required; [exact Hr|]. apply good_required; [by apply contents_good|]. by apply good_field.
Qed.
Lemma max_tokens_good z d : in_int64 z → in_int64 d → in_int64 (if (0 <? z)%Z then z else d).
Proof. by destruct (0 <? z)%Z. Qed.
Lemma tools_good n q :
  Forall (tool_valid n) (gr_Tools q) → Forall (good (Wire:=chatTool_wire n)) (cr_Tools (chat_request "" q)).
Proof.
  intros Ht. apply Forall_map. eapply Forall_impl; [exact Ht|]. intros t (Hn & Hd & Hp).
  apply good_required; [done|]. apply good_required; [|done].
  apply good_required; [exact Hn|]. apply good_field; [exact Hd|]. by apply good_field.
Qed.
Lemma openai_choice_good c : choice_valid c → good (mapToolChoiceToOpenAI c).
Proof.
  intros Hc. destruct c; cbn [mapToolChoiceToOpenAI]; repeat case_match; try exact I; (split; [|done]); cbn [good wire_choice_wire];
    by repeat split.
Qed.
Lemma anthropic_choice_good c : choice_valid c → good (mapToolChoiceToAnthropic c).
Proof.
  intros Hc. destruct c; cbn [mapToolChoiceToAnthropic]; repeat case_match; try exact I; (split; [|done]); cbn [good wire_choice_wire];
    by repeat split.
Qed.
Lemma flag_good (o : option bool) : good o.
Proof. by destruct o. Qed.
Lemma kwargs_field {T} `{Fields T} model q tags (t : T) :
  good_fields tags t →
  good_fields (opt "chat_template_kwargs" :: tags) (kwargs_map (cr_ChatTemplateKwargs (chat_request model q)), t).
Proof. intros Ht. unfold chat_request. cbn [cr_ChatTemplateKwargs]. destruct (contains _ _); by split. Qed.

Ltac solve_chat_good :=
  apply good_required; [done|]; apply good_required; [by apply messages_good|];
  apply good_field; [by apply max_tokens_good|]; apply good_field; [by apply temperature_good|];
  apply good_field; [by apply tools_good|]; apply good_field; [by apply openai_choice_good|];
  apply good_field; [apply flag_good|]; apply kwargs_field.

Lemma chat_request_good n model q :
  utf8_valid model → request_valid n q → good (Wire:=chatRequest_wire n) (chat_request model q).
Proof. intros Hmodel (Hm & Ht & Hz & Hf & Hc). by solve_chat_good. Qed.
Lemma stream_request_good n model q :
  utf8_valid model → request_valid n q →
  good (Wire:=streamChatRequest_wire n) (mkStreamChatRequest (chat_request model q) true (Some true)).
Proof.
  intros Hmodel (Hm & Ht & Hz & Hf & Hc). solve_chat_good. apply good_required; [done|]. apply good_field; [|done].
  split; [by apply good_required|done].
Qed.

Lemma split_system_valid msgs :
  Forall message_valid msgs →
  Forall utf8_valid (split_system msgs).1 ∧ Forall good (split_system msgs).2.
Proof.
  induction 1 as [|m msgs (Hr & _ & Hc) _ IH]; [by split; apply Forall_nil_2|]. cbn [split_system].
  destruct (split_system msgs) as [parts conv]. destruct IH as [Hp Hv]. apply flattened_valid in Hc.
  destruct (String.eqb _ _); split; try done; apply Forall_cons_2; try done.
Qed.
Lemma join_valid sep l : utf8_valid sep → Forall utf8_valid l → utf8_valid (join sep l).
Proof.
  intros Hsep Hl. induction Hl as [|s l Hs Hl IH]; [done|]. destruct l as [|s2 l]; [done|].
  rewrite join_cons by done. by repeat apply utf8_valid_app.
Qed.
Lemma grown_field {T} `{Fields T} name tags (l : list anthropicMessage) (t : T) :
  Forall good l → good_fields tags t → good_fields (req name :: tags) (grown l, t).
Proof. intros Hl Ht. apply good_required; [|done]. by destruct Hl; [|apply Forall_cons_2]. Qed.

Lemma anthropic_request_good n stream model q :
  utf8_valid model → request_valid n q →
  good (Wire:=anthropicMessagesRequest_wire n) (anthropic_request stream model q).
Proof.
  intros Hmodel (Hm & Ht & Hz & Hf & Hc). destruct (split_system_valid _ Hm) as [Hp Hv]. unfold anthropic_request.
  destruct (split_system (gr_Messages q)) as [parts conv]. cbn [fst snd] in *.
  apply good_required; [done|]. apply good_required; [by apply max_tokens_good|].
  apply good_field; [by apply join_valid|]. apply grown_field; [done|].
  apply good_field. { apply Forall_map. eapply Forall_impl; [exact Ht|]. intros t (Hn & Hd & Hs).
    apply good_required; [exact Hn|]. apply good_field; [exact Hd|]. by apply good_field. }
  apply good_field; [by apply anthropic_choice_good|]. apply good_field; [apply flag_good|].
  split; [by destruct stream|]. apply good_field; [by apply temperature_good|done].
Qed.

(** Whatever a retry loop sends is its payload. *)
Definition sent (tr : list action) (payload : string) : Prop :=
  ∃ endpoint headers, Send endpoint headers payload ∈ tr.
Lemma nothing_sent payload : ¬ sent [] payload.
Proof. intros (endpoint & headers & Hin). by apply elem_of_nil in Hin. Qed.
Lemma retry_loop_sends {S A} ex wrap (handle : nat → S → http_result → verdict S A) exhausted todo attempt s payload :
  sent (retry_loop ex wrap handle exhausted todo attempt s).1 payload → payload = ex_payload ex.
Proof.
  intros (endpoint & headers & Hin). revert attempt s Hin. induction todo as [|todo IH]; intros attempt s; cbn [retry_loop].
  { intros Hin. by apply elem_of_nil in Hin. }
  set (send := match ex_new_request ex with Some e => _ | None => _ end).
  assert (Hsend : Send endpoint headers payload ∈ send.1 → payload = ex_payload ex).
  { unfold send. destruct (ex_new_request ex); [by intros ?%elem_of_nil|].
    destruct (handle attempt s (ex_net ex attempt)) as [r|s'].
    - by intros [= _ _ ->]%list_elem_of_singleton.
    - specialize (IH (Datatypes.S attempt) s'). destruct (retry_loop _ _ _ _ _ _ s') as [tr r].
      intros [[= _ _ ->]|Hin]%elem_of_cons; [done|by apply IH]. }
  destruct (0 <? attempt); [|done]. destruct (ex_done ex attempt).
  - by intros [=]%list_elem_of_singleton.
  - destruct send as [tr r]. intros [[=]|Hin]%elem_of_cons. by apply Hsend.
Qed.

Lemma generate_sends cd net p q payload :
  sent (Generate cd net p q).1 payload →
  match p with
  | OpenAI s => enc_chat cd (chat_request (oc_modelName s) q) = Ok payload
  | Claude s => enc_messages cd (anthropic_request false (cl_modelName s) q) = Ok payload
  end.
Proof.
  unfold Generate. destruct p as [s|s]; (destruct (String.eqb _ _); [by intros ?%nothing_sent|]);
    [unfold openAICompatibleGenerate|unfold anthropicMessagesGenerate];
    (destruct (_ cd _) as [text|e]; [|by intros ?%nothing_sent]); by intros ->%retry_loop_sends.
Qed.
Lemma stream_sends cd net cn p q payload :
  sent (GenerateStream cd net cn p q).1 payload →
  match p with
  | OpenAI s => enc_stream cd (mkStreamChatRequest (chat_request (oc_modelName s) q) true (Some true)) = Ok payload
  | Claude s => enc_messages cd (anthropic_request true (cl_modelName s) q) = Ok payload
  end.
Proof.
  unfold GenerateStream. destruct p as [s|s]; (destruct (String.eqb _ _); [by intros ?%nothing_sent|]);
    [unfold openAICompatibleStream|unfold anthropicMessagesStream];
    (destruct (_ cd _) as [text|e]; [|by intros ?%nothing_sent]);
    match goal with |- context [retry_loop ?a ?b ?c ?d ?e ?f ?g] =>
      pose proof (retry_loop_sends a b c d e f g payload) as Hs; destruct (retry_loop a b c d e f g) end;
    intros Hin; by rewrite (Hs Hin).
Qed.

(* ------------------------------------------------------------------ *)
(** ** The documents of requests *)
(* ------------------------------------------------------------------ *)

Section request_documents.
(** How deep the schemas of tools may nest. *)
Context (n : nat).

Definition schema_document (s : JSONSchema) : option json := encode (Wire:=schema_wire n) s.

(** *** As the chat completions of OpenAI have them *)

(** A text, or an image by its data when it has any and else by its address; any other
    block is left out. *)
Definition image_address (c : ContentBlock) : string :=
  if String.eqb (cb_Base64 c) "" then cb_ImageURL c
  else "data:" +:+ (if String.eqb (cb_Media c) "" then "image/png" else cb_Media c)
               +:+ ";base64," +:+ cb_Base64 c.
Definition part_document (c : ContentBlock) : list (option json) :=
  if String.eqb (cb_Type c) "text" then [object [always "type" (Some (JStr "text")); text_member "text" (cb_Text c)]]
  else if String.eqb (cb_Type c) "image" then
    [Some (JObj [("type", JStr "image_url"); ("image_url", JObj [("url", JStr (image_address c))])])]
  else [].
(** A lone text is itself the content. *)
Definition openai_content (contents : list ContentBlock) : option json :=
  match contents with
  | [] => Some JNull
  | [c] => if String.eqb (cb_Type c) "text" then Some (JStr (cb_Text c)) else array (part_document c)
  | _ => array (concat (map part_document contents))
  end.
Definition openai_message (m : Message) : option json :=
  object [always "role" (Some (JStr (msg_Role m))); always "content" (openai_content (msg_Contents m));
          text_member "name" (msg_Name m)].
Definition openai_tool (t : ToolDefinition) : option json :=
  object [always "type" (Some (JStr "function"));
          always "function"
            (object [always "name" (Some (JStr (td_Name t))); text_member "description" (td_Description t);
                     pointed "parameters" (td_Parameters t) schema_document])].
Definition openai_choice (c : ToolChoice) : list member :=
  match c with
  | TCMode v =>
      when (String.eqb v "auto") "tool_choice" (Some (JStr "auto")) ++
      when (String.eqb v "required") "tool_choice" (Some (JStr "required")) ++
      when (String.eqb v "none") "tool_choice" (Some (JStr "none"))
  | TCSpecific name =>
      always "tool_choice" (Some (JObj [("type", JStr "function"); ("function", JObj [("name", JStr name)])]))
  | _ => []
  end.
(** A temperature is sent when it is above zero. *)
Definition temperature_member (f : float64) : list member :=
  when (fltb (S754_zero false) f) "temperature" (JNum <$> json_float f).
Definition number (z : Z) : option json := Some (JNum (pretty z)).
Definition flag (b : bool) : option json := Some (JBool b).
Definition nonempty {A} (l : list A) : bool := match l with [] => false | _ => true end.

Definition openai_members (model : string) (q : GenerateRequest) : list (list member) :=
  [always "model" (Some (JStr model));
   always "messages" (array (map openai_message (gr_Messages q)));
   when (0 <? gr_MaxTokens q)%Z "max_tokens" (number (gr_MaxTokens q));
   temperature_member (gr_Temperature q);
   when (nonempty (gr_Tools q)) "tools" (array (map openai_tool (gr_Tools q)));
   openai_choice (gr_ToolChoice q);
   pointed "parallel_tool_calls" (gr_ParallelToolCalls q) flag;
   when (contains (lower model) "qwen") "chat_template_kwargs" (Some (JObj [("enable_thinking", JBool false)]))].
Definition openai_document (stream : bool) (model : string) (q : GenerateRequest) : option json :=
  object (openai_members model q ++
          if stream then [always "stream" (flag true);
                          always "stream_options" (Some (JObj [("include_usage", JBool true)]))]
          else []).

(** *** As the messages of Anthropic have them *)

(** The contents of a message as one text, one line for each block. *)
Definition block_line (c : ContentBlock) : string :=
  if String.eqb (cb_Type c) "text" then cb_Text c
  else if String.eqb (cb_Type c) "image" then
    if String.eqb (cb_ImageURL c) ""
    then "[Image: base64 " +:+ cb_Media c +:+ " (" +:+ pretty (Z.of_nat (slen (cb_Base64 c))) +:+ " bytes)]"
    else "[Image: " +:+ cb_ImageURL c +:+ "]"
  else "".
Definition flat_text (m : Message) : string := join nl (map block_line (msg_Contents m)).
Definition is_system (m : Message) : Prop := msg_Role m = "system".
#[local] Instance is_system_dec m : Decision (is_system m) := decide (_ = _).

Definition anthropic_tool (t : ToolDefinition) : option json :=
  object [always "name" (Some (JStr (td_Name t))); text_member "description" (td_Description t);
          pointed "input_schema" (td_Parameters t) schema_document].
Definition anthropic_choice (c : ToolChoice) : list member :=
  match c with
  | TCMode v =>
      when (String.eqb v "auto") "tool_choice" (Some (JStr "auto")) ++
      when (String.eqb v "required") "tool_choice" (Some (JObj [("type", JStr "any")])) ++
      when (String.eqb v "none") "tool_choice" (Some (JStr "none"))
  | TCSpecific name =>
      always "tool_choice" (object [always "type" (Some (JStr "tool")); text_member "name" name])
  | _ => []
  end.

(** System messages are one text apart from the conversation, which is null when there
    is none; parallel calls are switched off by a flag of their own. *)
Definition anthropic_document (stream : bool) (model : string) (q : GenerateRequest) : option json :=
  let system := filter is_system (gr_Messages q) in
  let conversation := filter (λ m, ¬ is_system m) (gr_Messages q) in
  object
    [always "model" (Some (JStr model));
     always "max_tokens" (number (if (0 <? gr_MaxTokens q)%Z then gr_MaxTokens q else 4096));
     text_member "system" (join nl (map flat_text system));
     always "messages"
       (match conversation with
        | [] => Some JNull
        | _ => array (map (λ m, Some (JObj [("role", JStr (msg_Role m)); ("content", JStr (flat_text m))])) conversation)
        end);
     when (nonempty (gr_Tools q)) "tools" (array (map anthropic_tool (gr_Tools q)));
     anthropic_choice (gr_ToolChoice q);
     when (bool_decide (gr_ParallelToolCalls q = Some false)) "disable_parallel_tool_use" (flag true);
     when stream "stream" (flag true);
     temperature_member (gr_Temperature q)].

Definition request_document (stream : bool) (p : provider) (q : GenerateRequest) : option json :=
  match p with
  | OpenAI s => openai_document stream (oc_modelName s) q
  | Claude s => anthropic_document stream (cl_modelName s) q
  end.

(** *** The clients write them *)

Lemma image_address_ref c : image_address c = ImageRef c.
Proof. unfold image_address, ImageRef. by destruct (String.eqb (cb_Base64 c) ""). Qed.
Lemma part_written c : part_document c = map encode (omap openai_block [c]).
Proof.
  unfold part_document. cbn [omap list_omap]. unfold openai_block.
  destruct (String.eqb (cb_Type c) "text").
  { cbn [map]. f_equal. symmetry. solve_object. }
  destruct (String.eqb (cb_Type c) "image"); [|done]. by rewrite image_address_ref.
Qed.
Lemma parts_written contents : array (concat (map part_document contents)) = encode (ContentParts (omap openai_block contents)).
Proof.
  transitivity (array (map encode (omap openai_block contents))); [|symmetry; by apply encode_array].
  f_equal. induction contents as [|c contents IH]; [done|]. cbn [map concat]. rewrite IH, part_written.
  cbn [omap list_omap]. by destruct (openai_block c).
Qed.
Lemma openai_content_written contents : encode (contentsToOpenAI contents) = openai_content contents.
Proof.
  destruct contents as [|c [|c2 contents]]; [done| |symmetry; apply parts_written]. unfold contentsToOpenAI, openai_content.
  destruct (String.eqb (cb_Type c) "text"); [done|]. rewrite <-parts_written. cbn [map concat]. by rewrite app_nil_r.
Qed.
Lemma openai_messages_written q : encode (buildOpenAIMessages q) = array (map openai_message (gr_Messages q)).
Proof.
  transitivity (array (map encode (buildOpenAIMessages q))); [by apply encode_array|]. f_equal.
  unfold buildOpenAIMessages. rewrite map_map. apply map_ext. intros m. solve_object.
  unfold always. by rewrite <-openai_content_written.
Qed.
Lemma openai_tools_written model q :
  encode (Wire:=@list_wire _ (chatTool_wire n)) (cr_Tools (chat_request model q)) = array (map openai_tool (gr_Tools q)).
Proof.
  transitivity (array (map (@encode _ (chatTool_wire n)) (cr_Tools (chat_request model q)))); [by apply encode_array|].
  f_equal. cbn [cr_Tools chat_request]. rewrite map_map. apply map_ext. intros t. solve_object.
  unfold always. do 2 f_equal. symmetry. solve_object.
Qed.
(** What a field leaves out, or holds. *)
Definition field_of `{Wire A} (name : string) (x : A) : list member :=
  if is_empty x then [] else [(name, encode x)].
Lemma openai_choice_written c : openai_choice c = field_of "tool_choice" (mapToolChoiceToOpenAI c).
Proof.
  destruct c as [|v|name|a]; try done. cbn [openai_choice mapToolChoiceToOpenAI].
  destruct (String.eqb_spec v ToolChoiceAuto) as [->|H1]; [done|].
  destruct (String.eqb_spec v ToolChoiceRequired) as [->|H2]; [done|].
  destruct (String.eqb_spec v ToolChoiceNone) as [->|H3]; [done|].
  by rewrite (proj2 (String.eqb_neq v "auto") H1), (proj2 (String.eqb_neq v "required") H2),
    (proj2 (String.eqb_neq v "none") H3).
Qed.
Lemma anthropic_choice_written c : anthropic_choice c = field_of "tool_choice" (mapToolChoiceToAnthropic c).
Proof.
  destruct c as [|v|name|a]; try done; cbn [anthropic_choice mapToolChoiceToAnthropic].
  - destruct (String.eqb_spec v ToolChoiceAuto) as [->|H1]; [done|].
    destruct (String.eqb_spec v ToolChoiceRequired) as [->|H2]; [done|].
    destruct (String.eqb_spec v ToolChoiceNone) as [->|H3]; [done|].
    by rewrite (proj2 (String.eqb_neq v "auto") H1), (proj2 (String.eqb_neq v "required") H2),
      (proj2 (String.eqb_neq v "none") H3).
  - unfold object, text_member. by destruct (String.eqb name "") eqn:E; cbn; rewrite E.
Qed.
Lemma temperature_member_written f : temperature_member f = field_of "temperature" (Providers.positive f).
Proof. unfold temperature_member, Providers.positive. change (f_of_Z 0) with (S754_zero false). by destruct (fltb _ f). Qed.
Lemma max_tokens_written z :
  when (0 <? z)%Z "max_tokens" (number z) = field_of "max_tokens" (if (0 <? z)%Z then z else 0%Z).
Proof. destruct (Z.ltb_spec 0 z) as [Hz|]; [|done]. cbn. unfold field_of. cbn. by rewrite (proj2 (Z.eqb_neq z 0)) by lia. Qed.
Lemma kwargs_member_written model q :
  when (contains (lower model) "qwen") "chat_template_kwargs" (Some (JObj [("enable_thinking", JBool false)]))
  = field_of "chat_template_kwargs" (kwargs_map (cr_ChatTemplateKwargs (chat_request model q))).
Proof. unfold chat_request. cbn [cr_ChatTemplateKwargs]. by destruct (contains _ _). Qed.
Lemma tools_written {A} `{W : Wire B} (f : A → B) (g : A → option json) l :
  encode (map f l) = array (map g l) →
  when (nonempty l) "tools" (array (map g l)) = field_of "tools" (map f l).
Proof. intros <-. by destruct l. Qed.

Ltac solve_chat :=
  repeat (apply fields_object;
          [first [exact (max_tokens_written _)|exact (temperature_member_written _)|exact (openai_choice_written _)
                 |exact (anthropic_choice_written _)|exact (kwargs_member_written _ _)
                 |apply tools_written, (openai_tools_written "")
                 |unfold always; do 2 f_equal; symmetry; apply openai_messages_written
                 |solve_piece]|]); try reflexivity.

Lemma chat_written model q : encode (Wire:=chatRequest_wire n) (chat_request model q) = openai_document false model q.
Proof. unfold openai_document. rewrite app_nil_r. apply struct_object. cbn [fst snd]. solve_chat. Qed.
Lemma stream_written model q :
  encode (Wire:=streamChatRequest_wire n) (mkStreamChatRequest (chat_request model q) true (Some true))
  = openai_document true model q.
Proof. apply struct_object. cbn [fst snd app]. solve_chat. Qed.

Lemma flat_text_flattened m : flat_text m = FlattenToText (msg_Contents m).
Proof.
  rewrite FlattenToText_join. unfold flat_text. f_equal. apply map_ext. intros c. unfold block_line, block_text.
  by destruct (String.eqb (cb_ImageURL c) "").
Qed.
Lemma split_system_messages msgs :
  split_system msgs
  = (map flat_text (filter is_system msgs),
     map (λ m, mkAnthropicMessage (msg_Role m) (flat_text m)) (filter (λ m, ¬ is_system m) msgs)).
Proof.
  induction msgs as [|m msgs IH]; [done|]. cbn [split_system]. rewrite IH, <-flat_text_flattened, !filter_cons.
  unfold is_system in *. destruct (String.eqb_spec (msg_Role m) "system") as [E|E].
  - rewrite (decide_True (P:=msg_Role m = "system")), decide_False by naive_solver. done.
  - rewrite (decide_False (P:=msg_Role m = "system")), decide_True by naive_solver. done.
Qed.
Lemma conversation_written l :
  encode (grown (map (λ m, mkAnthropicMessage (msg_Role m) (flat_text m)) l))
  = match l with
    | [] => Some JNull
    | _ => array (map (λ m, Some (JObj [("role", JStr (msg_Role m)); ("content", JStr (flat_text m))])) l)
    end.
Proof.
  destruct l as [|m l]; [done|]. cbn [map grown]. symmetry.
  transitivity (array (map encode (map (λ m, mkAnthropicMessage (msg_Role m) (flat_text m)) (m :: l)))); [|symmetry; by apply encode_array].
  f_equal. by rewrite map_map.
Qed.
Lemma anthropic_tools_written stream model q :
  encode (Wire:=@list_wire _ (anthropicToolDefinition_wire n)) (ar_Tools (anthropic_request stream model q))
  = array (map anthropic_tool (gr_Tools q)).
Proof.
  unfold anthropic_request. destruct (split_system _). cbn [ar_Tools].
  transitivity (array (map (@encode _ (anthropicToolDefinition_wire n))
    (map (λ t, mkAnthropicToolDefinition (td_Name t) (td_Description t) (td_Parameters t)) (gr_Tools q)))); [by apply encode_array|].
  f_equal. rewrite map_map. apply map_ext. intros t. solve_object.
Qed.
Lemma parallel_written o :
  when (bool_decide (o = Some false)) "disable_parallel_tool_use" (flag true)
  = field_of "disable_parallel_tool_use" (match o with Some false => Some true | _ => None end : option bool).
Proof. by destruct o as [[]|]. Qed.
Lemma messages_written stream model q :
  encode (Wire:=anthropicMessagesRequest_wire n) (anthropic_request stream model q) = anthropic_document stream model q.
Proof.
  pose proof (anthropic_tools_written stream model q) as Ht. unfold anthropic_document. unfold anthropic_request in *.
  rewrite split_system_messages in *. cbn [ar_Tools] in Ht.
  apply struct_object. cbn [fst snd ar_Model ar_MaxTokens ar_System ar_Messages ar_Tools ar_ToolChoice
    ar_DisableParallelUse ar_Stream ar_Temperature].
  apply fields_object; [done|]. apply fields_object; [done|]. apply fields_object; [solve_piece|].
  apply fields_object; [unfold always; do 2 f_equal; symmetry; apply conversation_written|].
  apply fields_object; [by apply tools_written|]. apply fields_object; [apply anthropic_choice_written|].
  apply fields_object; [apply parallel_written|]. apply fields_object; [solve_piece|].
  apply fields_object; [apply temperature_member_written|done].
Qed.

Definition model_of (p : provider) : string :=
  match p with OpenAI s => oc_modelName s | Claude s => cl_modelName s end.

(** *** What is sent *)

Context (read_error write_error closed_error : error).
Let cd := json_codecs n write_error read_error closed_error.

(** What a call sends on the network. *)
Definition trace (net : network) (cn : consumer) (stream : bool) (p : provider) (q : GenerateRequest) : list action :=
  if stream then (GenerateStream cd net cn p q).1 else (Generate cd net p q).1.

Lemma encoding_document {A} e (W : Wire A) (x : A) payload :
  encoding e W x = Ok payload → ∃ d, encode x = Some d ∧ payload = print d.
Proof. unfold encoding, marshal. destruct (encode x) as [d|]; [|done]. intros [= <-]. by exists d. Qed.
Lemma sent_document net cn stream p q payload :
  sent (trace net cn stream p q) payload → ∃ d, request_document stream p q = Some d ∧ payload = print d.
Proof.
  destruct stream, p as [s|s]; cbn [trace request_document]; intros Hs.
  - apply stream_sends, encoding_document in Hs. by rewrite stream_written in Hs.
  - apply stream_sends, encoding_document in Hs. by rewrite messages_written in Hs.
  - apply generate_sends, encoding_document in Hs. by rewrite chat_written in Hs.
  - apply generate_sends, encoding_document in Hs. by rewrite messages_written in Hs.
Qed.

Lemma encoded e {A} (W : Wire A) (x : A) d : encode x = Some d → encoding e W x = Ok (print d).
Proof. intros Hd. unfold encoding, marshal. by rewrite Hd. Qed.
(** The first attempt is made at once. *)
Lemma retry_loop_first {S A} ex wrap (handle : nat → S → http_result → verdict S A) exhausted todo s :
  ex_new_request ex = None → sent (retry_loop ex wrap handle exhausted (Datatypes.S todo) 0 s).1 (ex_payload ex).
Proof.
  intros Hn. cbn [retry_loop Nat.ltb Nat.leb]. rewrite Hn.
  destruct (handle 0 s (ex_net ex 0)) as [r|s']; [|destruct (retry_loop _ _ _ _ _ _ _)]; eexists _, _; by left.
Qed.
Ltac first_attempt net :=
  cbv zeta; change (attempts_of 0) with 1; match goal with |- context [retry_loop ?ex ?w ?h ?x 1 0 ?s] =>
    pose proof (retry_loop_first ex w h x 0 s) as Hs;
    destruct (retry_loop ex w h x 1 0 s); apply Hs, net
  end.
Lemma document_sent net cn stream p q d :
  api_key p ≠ "" → (∀ endpoint, net_new_request net endpoint = None) →
  request_document stream p q = Some d → sent (trace net cn stream p q) (print d).
Proof.
  intros Hk Hn. destruct stream, p as [s|s]; cbn [trace request_document api_key] in *; intros Hd.
  all: unfold Generate, GenerateStream; rewrite (proj2 (String.eqb_neq _ "") Hk).
  - rewrite <-stream_written in Hd. unfold openAICompatibleStream. cbn [enc_stream cd json_codecs].
    rewrite (encoded _ _ _ _ Hd). first_attempt Hn.
  - rewrite <-messages_written in Hd. unfold anthropicMessagesStream. cbn [enc_messages cd json_codecs].
    rewrite (encoded _ _ _ _ Hd). first_attempt Hn.
  - rewrite <-chat_written in Hd. unfold openAICompatibleGenerate. cbn [enc_chat cd json_codecs].
    rewrite (encoded _ _ _ _ Hd). first_attempt Hn.
  - rewrite <-messages_written in Hd. unfold anthropicMessagesGenerate. cbn [enc_messages cd json_codecs].
    rewrite (encoded _ _ _ _ Hd). first_attempt Hn.
Qed.

(** A document the codecs can read is JSON. *)
Lemma document_lits stream p q d :
  request_valid n q → utf8_valid (model_of p) → request_document stream p q = Some d → lits_ok d.
Proof.
  intros Hq Hm. destruct stream, p as [s|s]; cbn [request_document model_of] in *; intros Hd.
  - rewrite <-stream_written in Hd. eapply (encode_lits (WireLaws:=streamChatRequest_laws n)); [by apply stream_request_good|done].
  - rewrite <-messages_written in Hd. eapply (encode_lits (WireLaws:=anthropicMessagesRequest_laws n)); [by apply anthropic_request_good|done].
  - rewrite <-chat_written in Hd. eapply (encode_lits (WireLaws:=chatRequest_laws n)); [by apply chat_request_good|done].
  - rewrite <-messages_written in Hd. eapply (encode_lits (WireLaws:=anthropicMessagesRequest_laws n)); [by apply anthropic_request_good|done].
Qed.

End request_documents.


(* ------------------------------------------------------------------ *)
(** ** A text in one line *)
(* ------------------------------------------------------------------ *)

Definition not_control (c : ascii) : bool := 32 <=? nat_of_ascii c.

Lemma json_ascii_plain d : sall not_control (json_ascii d) = true.
Proof. by destruct d as [[] [] [] [] [] [] [] []]. Qed.

(** The bytes of a character after the first are no control characters. *)
Lemma utf8_len_plain c p t : utf8_len (String c (p +:+ t)) = S (slen p) → sall not_control p = true.
Proof.
  destruct p as [|b1 p]; [done|]. cbn [String.append utf8_len]. cbv zeta.
  assert (Hlow : ∀ n m d, (n <=? nat_of_ascii d) && m = true → 32 <= n → not_control d = true).
  { intros n m d [H%Nat.leb_le _]%andb_true_iff Hn. apply Nat.leb_le. lia. }
  destruct (_ && _).
  { destruct (_ && _) eqn:E1; intros [= Hp]. destruct p; [|done]. simpl. by rewrite (Hlow _ _ _ E1) by (vm_compute; lia). }
  destruct (p +:+ t) as [|c2 q] eqn:Ep; [done|]. destruct (_ && _).
  { destruct (_ && _ && _) eqn:E1; intros [= Hp]. destruct p as [|b2 [|]]; try done. injection Ep as -> _.
    apply andb_true_iff in E1 as [E1 E2]. simpl. rewrite (Hlow _ _ _ E2) by (vm_compute; lia).
    by rewrite (Hlow _ _ _ E1) by (case_match; vm_compute; lia). }
  destruct q as [|c3 q]; [done|]. destruct (_ && _); [|done].
  destruct (_ && _ && _ && _) eqn:E1; intros [= Hp]. destruct p as [|b2 [|b3 [|]]]; try done. injection Ep as -> -> _.
  apply andb_true_iff in E1 as [[E1 E2]%andb_true_iff E3]. simpl.
  rewrite (Hlow _ _ _ E2), (Hlow _ _ _ E3) by (vm_compute; lia).
  by rewrite (Hlow _ _ _ E1) by (case_match; vm_compute; lia).
Qed.

Lemma json_escape_plain s : sall not_control (json_escape 0 true s) = true.
Proof.
  remember (slen s) as k eqn:Hk. revert s Hk. induction (lt_wf k) as [k _ IH]. intros [|c s] ->; [done|].
  cbn [json_escape]. destruct (nat_of_ascii c <? 128) eqn:Hc.
  { rewrite sall_app, json_ascii_plain, (IH (slen s)); [done|simpl; lia|done]. }
  apply Nat.ltb_ge in Hc. destruct (is_line_sep (String c s)) as [e|] eqn:He.
  { assert (Hplain : sall not_control e = true)
      by (revert He; unfold is_line_sep; repeat case_match; intros [= <-]; reflexivity).
    apply line_sep_char in He as (c' & p & t & [= <- ->] & Hp & _).
    replace 2 with (slen p). rewrite escape_skip. cbn [String.append].
    rewrite sall_app, Hplain, (IH (slen t)); [done|simpl; rewrite slen_app; lia|done]. }
  destruct (utf8_len (String c s)) as [|j] eqn:Hl.
  { rewrite sall_app, (IH (slen s)); [done|simpl; lia|done]. }
  pose proof (utf8_len_prefix _ _ Hl) as (c' & p & t & [= <- ->] & <- & _ & _).
  rewrite escape_skip. cbn [sall]. rewrite sall_app, (utf8_len_plain c p t Hl).
  rewrite (IH (slen t)); [|simpl; rewrite slen_app; lia|done].
  rewrite !andb_true_r. apply Nat.leb_le. lia.
Qed.

Lemma json_string_plain s : sall not_control (json_string s) = true.
Proof. unfold json_string. by rewrite !sall_app, json_escape_plain. Qed.

(** A number has no control characters either. *)
Definition plain_up_to (s rest : string) : Prop := ∃ p, s = p +:+ rest ∧ sall not_control p = true.
Lemma plain_refl s : plain_up_to s s.
Proof. by exists "". Qed.
Lemma plain_trans a b c : plain_up_to a b → plain_up_to b c → plain_up_to a c.
Proof. intros (p & -> & Hp) (q & -> & Hq). exists (p +:+ q). by rewrite sapp_assoc, sall_app, Hp, Hq. Qed.
Lemma plain_cons c s : not_control c = true → plain_up_to (String c s) s.
Proof. intros Hc. exists (String c ""). split; [done|]. simpl. by rewrite Hc. Qed.
Lemma digit_plain c : is_digit c = true → not_control c = true.
Proof. by destruct c as [[] [] [] [] [] [] [] []]. Qed.
Lemma skip_digits_plain s : plain_up_to s (skip_digits s).
Proof.
  induction s as [|c s IH]; simpl; [apply plain_refl|]. destruct (is_digit c) eqn:Hc; [|apply plain_refl].
  eapply plain_trans; [by apply plain_cons, digit_plain|exact IH].
Qed.
Lemma digits_end_plain s r : digits_end s = Some r → plain_up_to s r.
Proof.
  destruct s as [|c s]; simpl; [done|]. destruct (is_digit c) eqn:Hc; [|done]. intros [= <-].
  eapply plain_trans; [by apply plain_cons, digit_plain|apply skip_digits_plain].
Qed.
Lemma num_lit_plain lit : num_lit lit → sall not_control lit = true.
Proof.
  unfold num_lit, number_end. intros Hl. enough (plain_up_to lit "") as (p & -> & Hp) by by rewrite sapp_nil_r.
  assert (Hm : plain_up_to lit (drop_minus lit)).
  { destruct lit as [|c s]; simpl; [apply plain_refl|]. destruct (Ascii.eqb_spec c "-") as [->|]; [by apply plain_cons|apply plain_refl]. }
  eapply plain_trans; [exact Hm|]. destruct (int_end (drop_minus lit)) as [a|] eqn:Ha; simpl in Hl; [|done].
  assert (Hi : plain_up_to (drop_minus lit) a).
  { unfold int_end in Ha. destruct (drop_minus lit) as [|c s]; [done|].
    destruct (Ascii.eqb_spec c "0") as [->|]; [injection Ha as <-; by apply plain_cons|by apply digits_end_plain]. }
  eapply plain_trans; [exact Hi|]. destruct (frac_end a) as [b|] eqn:Hb; simpl in Hl; [|done].
  assert (Hf : plain_up_to a b).
  { unfold frac_end in Hb. destruct a as [|c s]; [injection Hb as <-; apply plain_refl|].
    destruct (Ascii.eqb_spec c ".") as [->|]; [|injection Hb as <-; apply plain_refl].
    eapply plain_trans; [by apply plain_cons|by apply digits_end_plain]. }
  eapply plain_trans; [exact Hf|]. unfold exp_end in Hl. destruct b as [|c s]; [apply plain_refl|].
  destruct (Ascii.eqb c "e" || Ascii.eqb c "E") eqn:Hc; [|done].
  assert (Hexp : not_control c = true) by (apply orb_true_iff in Hc as [->%Ascii.eqb_eq| ->%Ascii.eqb_eq]; reflexivity).
  eapply plain_trans; [by apply plain_cons|]. eapply plain_trans; [|by apply digits_end_plain].
  destruct s as [|d s]; simpl; [apply plain_refl|].
  destruct (Ascii.eqb d "+" || Ascii.eqb d "-") eqn:Hd; [|apply plain_refl].
  apply plain_cons. apply orb_true_iff in Hd as [->%Ascii.eqb_eq| ->%Ascii.eqb_eq]; reflexivity.
Qed.

Lemma join_plain sep l :
  sall not_control sep = true → Forall (λ s, sall not_control s = true) l → sall not_control (join sep l) = true.
Proof.
  intros Hsep Hl. induction Hl as [|s l Hs Hl IH]; [done|]. destruct l as [|s2 l]; [done|].
  rewrite join_cons by done. by rewrite !sall_app, Hs, Hsep, IH.
Qed.

(** What is written for a document is one line. *)
Lemma print_plain d : lits_ok d → sall not_control (print d) = true.
Proof.
  induction d as [|b|lit|s|l IH|m IH] using json_ind'; intros Hd; cbn [print].
  - done.
  - by destruct b.
  - by apply num_lit_plain.
  - apply json_string_plain.
  - apply lits_ok_arr in Hd. rewrite !sall_app. rewrite join_plain; [done|done|].
    apply Forall_map. rewrite Forall_forall in IH, Hd. apply Forall_forall. eauto.
  - apply lits_ok_obj in Hd. rewrite !sall_app. rewrite join_plain; [done|done|].
    apply Forall_map. rewrite Forall_forall in IH, Hd. apply Forall_forall. intros e He.
    rewrite !sall_app, json_string_plain, (IH e He); [done|by apply Hd].
Qed.

Lemma plain_one_line s : sall not_control s = true → has_byte newline s = false.
Proof.
  intros Hs. unfold has_byte. apply negb_false_iff. eapply sall_impl; [|exact Hs].
  intros c Hc. apply negb_true_iff, Ascii.eqb_neq. intros <-. discriminate Hc.
Qed.

(* ------------------------------------------------------------------ *)
(** ** A service that streams a text *)
(* ------------------------------------------------------------------ *)

(** A line that the scanner returns as it was written. *)
Definition line_ok (l : string) : Prop := one_line l ∧ fits l ∧ drop_cr l = l.

Lemma scan_unlines lines err : Forall line_ok lines → scan_lines (mkHttpBody (unlines lines) err) = (lines, err).
Proof.
  intros Hl. assert (H1 : Forall one_line lines) by (eapply Forall_impl; [exact Hl|]; by intros l (? & _)).
  assert (H2 : Forall fits lines) by (eapply Forall_impl; [exact Hl|]; by intros l (_ & ? & _)).
  unfold scan_lines. cbn [hb_text hb_err].
  rewrite <-(sapp_nil_r (unlines lines)), split_unlines by done. rewrite scan_pieces_app by done.
  cbn [split_on scan_pieces fst snd]. rewrite app_nil_r. f_equal.
  clear - Hl. induction Hl as [|l lines (_ & _ & Hd) _ IH]; [done|]. cbn [map]. by rewrite Hd, IH.
Qed.

(** A line of data, and one of a few fixed characters. *)
Definition data_line (d : json) : string := "data: " +:+ print d.
Lemma drop_cr_brace x : drop_cr (x +:+ "}") = x +:+ "}".
Proof.
  unfold drop_cr, trim_suffix. destruct (has_suffix _ _) eqn:Hs; [|done].
  apply has_suffix_spec in Hs as (t & Ht). apply (f_equal String.rev) in Ht. rewrite !srev_app in Ht. discriminate.
Qed.
Lemma data_line_ok m : lits_ok (JObj m) → fits (data_line (JObj m)) → line_ok (data_line (JObj m)).
Proof.
  intros Hl Hf. split; [|split; [exact Hf|]].
  - apply plain_one_line. unfold data_line. by rewrite sall_app, (print_plain _ Hl).
  - unfold data_line. cbn [print]. rewrite <-!sapp_assoc. apply drop_cr_brace.
Qed.
Lemma fixed_line_ok l :
  negb (has_byte newline l) && (slen l <? 64) && String.eqb (drop_cr l) l = true → line_ok l.
Proof.
  intros [[H1%negb_true_iff H2%Nat.ltb_lt]%andb_true_iff H3%String.eqb_eq]%andb_true_iff. split_and!; [done| |done].
  unfold fits. eapply Nat.lt_le_trans; [exact H2|].
  unfold MaxScanTokenSize. apply (Nat.pow_le_mono_r 2 6 16); lia.
Qed.

(** The payload of an event with a piece of text, as each service writes it, with
    members the client does not look at. *)
Definition text_event (p : provider) (t : string) : list (string * json) :=
  match p with
  | OpenAI _ =>
      [("choices", JArr [JObj [("index", JNum "0"); ("delta", JObj [("content", JStr t)]); ("finish_reason", JNull)]])]
  | Claude _ =>
      [("type", JStr "content_block_delta"); ("index", JNum "0");
       ("delta", JObj [("type", JStr "text_delta"); ("text", JStr t)])]
  end.
Definition text_line (p : provider) (t : string) : string := data_line (JObj (text_event p t)).
(** The events of a stream: what comes first, one for each piece, and the end. *)
Definition named_event (name : string) (data : string) : list string := ["event: " +:+ name; data; ""].
Definition bare_event (name : string) : list string := named_event name (data_line (JObj [("type", JStr name)])).
Definition opening (p : provider) : list string :=
  match p with OpenAI _ => [] | Claude _ => bare_event "message_start" ++ bare_event "ping" end.
Definition piece_lines (p : provider) (t : string) : list string :=
  match p with OpenAI _ => [text_line p t; ""] | Claude _ => named_event "content_block_delta" (text_line p t) end.
Definition closing (p : provider) : list string :=
  match p with OpenAI _ => ["data: [DONE]"; ""] | Claude _ => bare_event "message_stop" end.
Definition stream_lines (p : provider) (pieces : list string) : list string :=
  opening p ++ concat (map (piece_lines p) pieces) ++ closing p.
Definition event_stream (p : provider) (pieces : list string) : http_body :=
  mkHttpBody (unlines (stream_lines p pieces)) None.

Lemma text_event_ok p t : lits_ok (JObj (text_event p t)).
Proof. destruct p; by repeat split. Qed.

Ltac fixed_lines :=
  repeat (apply Forall_cons_2; [apply fixed_line_ok; vm_compute; reflexivity|]); apply Forall_nil_2.
Lemma event_stream_scanned p pieces :
  Forall (λ t, fits (text_line p t)) pieces → scan_lines (event_stream p pieces) = (stream_lines p pieces, None).
Proof.
  intros Hf. apply scan_unlines. unfold stream_lines. apply Forall_app. split; [destruct p; fixed_lines|].
  apply Forall_app. split; [|destruct p; fixed_lines].
  apply Forall_concat, Forall_map. eapply Forall_impl; [exact Hf|]. intros t Ht.
  pose proof (data_line_ok _ (text_event_ok p t) Ht) as Hl.
  destruct p; [apply Forall_cons_2; [exact Hl|fixed_lines]|].
  apply Forall_cons_2; [apply fixed_line_ok; vm_compute; reflexivity|]. apply Forall_cons_2; [exact Hl|fixed_lines].
Qed.

(** What a payload decodes to. *)
Definition text_chunk (t : string) : streamChunk := mkStreamChunkWire [mkStreamChoice t [] None] None.
Definition text_delta (t : string) : anthropicSSEEvent :=
  mkAnthropicSSEEvent "content_block_delta" 0 (mkAnthropicDelta "text_delta" t "") None None "" None.
Lemma parse_text_event p t :
  utf8_valid t → parse (print (JObj (text_event p t))) = Some (JObj (text_event p t)).
Proof.
  intros Ht. rewrite parse_print; [|apply text_event_ok|by destruct p; vm_compute].
  destruct p; unfold text_event; cbn [fix_json map fst snd]; by rewrite Ht.
Qed.
Lemma text_chunk_read s t : utf8_valid t → unmarshal (print (JObj (text_event (OpenAI s) t))) = Some (text_chunk t).
Proof. intros Ht. unfold unmarshal. by rewrite parse_text_event. Qed.
Lemma text_delta_read s t : utf8_valid t → unmarshal (print (JObj (text_event (Claude s) t))) = Some (text_delta t).
Proof. intros Ht. unfold unmarshal. by rewrite parse_text_event. Qed.

Section streamed.
Variable n : nat.
Variable unwritable unreadable closed : error.
Notation cd := (json_codecs n unwritable unreadable closed).

Lemma openai_payloads s pieces :
  Forall utf8_valid pieces →
  payloads (dec_stream cd) (stream_lines (OpenAI s) pieces) = (map text_chunk pieces, true).
Proof.
  intros Hp. unfold stream_lines. cbn [opening app]. induction Hp as [|t pieces Ht _ IH]; [reflexivity|].
  cbn [map concat app payloads piece_lines].
  assert (Hc : classify (dec_stream cd) (text_line (OpenAI s) t) = Payload (text_chunk t)).
  { unfold classify, text_line, data_line. rewrite has_prefix_app, trim_prefix_app. cbv zeta.
    assert (Hd : String.eqb (print (JObj (text_event (OpenAI s) t))) "[DONE]" = false) by reflexivity.
    rewrite Hd. cbn [dec_stream json_codecs]. unfold decoding. by rewrite text_chunk_read. }
  rewrite Hc. change (classify (dec_stream cd) "") with (@Noise).
  rewrite IH. reflexivity.
Qed.

Notation claude_line := (anthropic_line (dec_start cd) (dec_delta cd) (dec_message_delta cd)).
Definition said_so_far (t : string) : StreamChunk := mkStreamChunk t [] "" no_usage None.

Lemma claude_piece s t ev :
  utf8_valid t →
  claude_line (mkAnthropicState ev ∅ []) "event: content_block_delta" = Skip (mkAnthropicState "content_block_delta" ∅ []) ∧
  claude_line (mkAnthropicState "content_block_delta" ∅ []) (text_line (Claude s) t)
  = Emit (mkAnthropicState "content_block_delta" ∅ []) (said_so_far t).
Proof.
  intros Ht. split; [reflexivity|]. unfold anthropic_line, text_line, data_line.
  assert (H1 : ∀ x, String.eqb ("data: " +:+ x) "" = false) by reflexivity.
  assert (H2 : ∀ x, has_prefix ("data: " +:+ x) "event: " = false) by reflexivity.
  rewrite H1, H2, has_prefix_app, trim_prefix_app. cbn [negb]. unfold anthropic_data. cbn [currentEvent].
  cbn [dec_delta json_codecs]. unfold decoding. by rewrite text_delta_read.
Qed.

Lemma claude_read s wrap cn pieces i :
  (∀ j, cn_done cn j = None) → Forall utf8_valid pieces →
  read_lines claude_line wrap cn (concat (map (piece_lines (Claude s)) pieces) ++ closing (Claude s)) None
    (mkAnthropicState "" ∅ []) i = map said_so_far pieces.
Proof.
  intros Hcn Hp. revert i. induction Hp as [|t pieces Ht _ IH]; intros i; [reflexivity|].
  destruct (claude_piece s t "" Ht) as [H1 H2]. cbn [map concat app piece_lines named_event].
  change ("event: " +:+ "content_block_delta") with "event: content_block_delta".
  cbn [read_lines]. rewrite H1. rewrite H2, Hcn. f_equal. apply IH.
Qed.
Lemma claude_body s wrap cn pieces :
  (∀ j, cn_done cn j = None) → Forall utf8_valid pieces → Forall (λ t, fits (text_line (Claude s) t)) pieces →
  read_body claude_line wrap cn (event_stream (Claude s) pieces) (mkAnthropicState "" ∅ []) = map said_so_far pieces.
Proof.
  intros Hcn Hp Hf. unfold read_body. rewrite event_stream_scanned by done. unfold stream_lines.
  rewrite <-(claude_read s wrap cn pieces 0 Hcn Hp). reflexivity.
Qed.
End streamed.

(* ------------------------------------------------------------------ *)
(** ** Which requests are written *)
(* ------------------------------------------------------------------ *)

#[export] Instance openAIContentBlock_written : Written openAIContentBlock.
Proof. intros [ty t [u|]]; destruct t; by eexists. Qed.
#[export] Instance chat_content_written : Written chat_content.
Proof. intros [|s|l]; [by eexists..|exact (written l)]. Qed.
#[export] Instance chatMessage_written : Written chatMessage.
Proof. apply struct_always_written. simpl. lia. Qed.
#[export] Instance wire_choice_written : Written wire_choice.
Proof. by eexists. Qed.
#[export] Instance streamOptions_written : Written streamOptions.
Proof. apply struct_always_written. simpl. lia. Qed.

(** A request without tools is written exactly when its temperature, where it sends
    one, has a text. *)
Definition temperature_written (req : GenerateRequest) : Prop :=
  ∀ f, Providers.positive (gr_Temperature req) = Some f → is_Some (json_float f).

Lemma kwargs_written model req : is_Some (encode (kwargs_map (cr_ChatTemplateKwargs (chat_request model req)))).
Proof. unfold chat_request. cbn [cr_ChatTemplateKwargs]. destruct (contains _ _); by eexists. Qed.

Lemma temperature_field model req :
  is_Some (encode (cr_Temperature (chat_request model req))) ↔ temperature_written req.
Proof.
  unfold temperature_written, chat_request. cbn [cr_Temperature]. destruct (Providers.positive _) as [f|].
  - cbn [encode pointer_wire]. rewrite float_written. split; [by intros Hf f' [= <-]|intros Hf; by apply Hf].
  - split; [done|]. by eexists.
Qed.

Lemma stream_request_written n model q :
  gr_Tools q = [] → temperature_written q →
  is_Some (@marshal _ (streamChatRequest_wire n) (mkStreamChatRequest (chat_request model q) true (Some true))).
Proof.
  intros Htools Htemp%(temperature_field model). unfold marshal. rewrite fmap_is_Some.
  unfold streamChatRequest_wire. rewrite struct_written. cbv beta zeta. unfold chat_tags, req, opt. cbn [app].
  cbn [scr_chatRequest scr_Stream scr_IncludeUsage].
  rewrite !enc_fields_cons, !written_iff.
  split_and!; try (by right); [left|right; apply kwargs_written|by eexists].
  unfold chat_request. cbn [cr_Tools]. by rewrite Htools.
Qed.

#[export] Instance anthropicMessage_written : Written anthropicMessage.
Proof. apply struct_always_written. simpl. lia. Qed.

Lemma anthropic_stream_request_written n model q :
  gr_Tools q = [] → temperature_written q →
  is_Some (@marshal _ (anthropicMessagesRequest_wire n) (anthropic_request true model q)).
Proof.
  intros Htools Htemp%(temperature_field model). unfold chat_request in Htemp. cbn [cr_Temperature] in Htemp.
  unfold marshal. rewrite fmap_is_Some. unfold anthropicMessagesRequest_wire. rewrite struct_written. cbv beta.
  unfold anthropic_request. destruct (split_system (gr_Messages q)) as [parts conv]. rewrite Htools.
  unfold req, opt. rewrite !enc_fields_cons, !written_iff.
  split_and!; first [by right|by left|by eexists].
Qed.

(** Reading a stream to its end collects its pieces, from either service. *)
Lemma streamed_text_is_read n e1 e2 e3 net cn p q pieces :
  gr_Tools q = [] → temperature_written q → api_key p ≠ "" →
  (∀ endpoint, net_new_request net endpoint = None) → net_do net 0 = HttpResponse 200 (event_stream p pieces) →
  (∀ j, cn_done cn j = None) → Forall utf8_valid pieces → Forall (λ t, fits (text_line p t)) pieces →
  ask_provider (as_model_provider (json_codecs n e1 e2 e3) net cn p) true (prc_events plan_config) q
  = (("planning_generating", "") :: map (λ t, ("planning_token", t)) (filter (λ t, t ≠ "") pieces)
       ++ [("planning_complete", "")], Ok (concat_str pieces)).
Proof.
  intros Htools Htemp Hkey Hnet Hdo Hcn Hutf Hfits. destruct p as [s|s].
  - destruct (stream_request_written n (oc_modelName s) q Htools Htemp) as [payload Hpay].
    assert (Htexts : map payload_text (map text_chunk pieces) = pieces) by (rewrite map_map; apply map_id).
    pose proof (planner_reads_the_streamed_text (json_codecs n e1 e2 e3) net cn s (prc_events plan_config) q
      payload (event_stream (OpenAI s) pieces) (stream_lines (OpenAI s) pieces) (map text_chunk pieces) true) as Hread.
    rewrite Htexts in Hread. apply Hread; try done.
    + cbn [enc_stream json_codecs]. unfold encoding. by rewrite Hpay.
    + by apply event_stream_scanned.
    + by apply openai_payloads.
    + unfold deltas_of. apply Forall_concat, Forall_map, Forall_map, Forall_true. intros t. apply Forall_nil_2.
  - destruct (anthropic_stream_request_written n (cl_modelName s) q Htools Htemp) as [payload Hpay].
    unfold ask_provider, as_model_provider. cbn [mp_GenerateStream]. unfold GenerateStream.
    cbn [api_key] in Hkey. rewrite (proj2 (String.eqb_neq _ _) Hkey). unfold anthropicMessagesStream. cbn [enc_messages json_codecs].
    unfold encoding. rewrite Hpay. change (attempts_of 0) with 1.
    cbn [retry_loop exchange_over ex_new_request ex_net Nat.ltb Nat.leb]. rewrite Hnet, Hdo.
    cbn [anthropic_connect Z.eqb Pos.eqb snd]. rewrite claude_body by done.
    rewrite read_stream_ok by (apply Forall_map, Forall_true; done). unfold chunk_texts.
    rewrite map_map. cbn [sc_Content said_so_far]. rewrite map_id. by rewrite concat_nonempty.
Qed.

(* ------------------------------------------------------------------ *)
(** ** Properties *)
(* ------------------------------------------------------------------ *)

(** C10: planning over the wire: the planner asks a service of either kind, the
    request is written in JSON and sent, and the service streams the JSON of a plan
    back as server-sent events, in any pieces that are UTF-8 and whose events stay
    under the scanner's limit. If the plan is within the limits, [Plan] returns it
    as it was told, the progress function saw its pieces in order, and the argument
    maps there were are as they were. *)
Theorem streamed_plans_reach_the_caller `{ModelRouter} n e1 e2 e3 net cn service rules limits pCtx prompt pieces h0 h p d :
  let cd := json_codecs n e1 e2 e3 in
  pc_Skills pCtx ≠ [] → pc_ProgressFn pCtx = true → buildPrompt rules pCtx = Some prompt →
  Route [CapTextGeneration] (mkModelConstraints 0 "" "") = Ok (as_model_provider cd net cn service) →
  api_key service ≠ "" → temperature_written (plan_request pCtx prompt) →
  (∀ endpoint, net_new_request net endpoint = None) →
  net_do net 0 = HttpResponse 200 (event_stream service pieces) → (∀ j, cn_done cn j = None) →
  Forall utf8_valid pieces → Forall (λ t, fits (text_line service t)) pieces →
  concat_str pieces = print d ∨ concat_str pieces = in_fence (print d) →
  good (Wire:=PlanDocument_wire n) (plan_document h p) →
  encode (Wire:=PlanDocument_wire n) (plan_document h p) = Some d → (nesting d ≤ maxNestingDepth)%Z →
  plan_within limits p →
  ∃ h' p', Planner.Plan (unmarshal_plan n e2) rules limits h0 pCtx
    = Some (("planning_generating", "") :: map (λ t, ("planning_token", t)) (filter (λ t, t ≠ "") pieces)
              ++ [("planning_complete", "")], h', Ok p') ∧
    h0 ⊆ h' ∧ plan_document h' p' = plan_document h p.
Proof.
  intros cd Hskills Hprogress Hprompt Hroute Hkey Htemp Hnet Hdo Hcn Hutf Hfits Htext Hg Hd Hn Hwithin.
  eapply told_plan_is_returned; [done|exact Hprompt|exact Hroute| |exact Htext|done..].
  rewrite Hprogress. by apply streamed_text_is_read.
Qed.

(** The sample plan in a fence, in four pieces. *)
Definition told_pieces : list string :=
  ["```json" +:+ nl; stake 40 (print told_json); sdrop 40 (print told_json); nl +:+ fence].
Definition told_services : list provider :=
  [OpenAI (NewOpenAIProvider "" "key" "gpt"); Claude (NewClaudeProvider "" "key" "opus")].
Definition told_provider (service : provider) : ModelProvider :=
  as_model_provider (json_codecs 1 (ESentinel "w") (ESentinel "r") (ESentinel "closed"))
    (answers (event_stream service told_pieces)) patient service.
Definition told_router (service : provider) : ModelRouter :=
  @RouterFacts.default_router range_fwd {[ ID service := told_provider service ]}.

Lemma streamed_plans_reach_the_caller_witness :
  Forall (λ service, ∃ h' p',
    @Planner.Plan (told_router service) (unmarshal_plan 1 (ESentinel "r")) "rules" DefaultLimits told_heap sample_context
    = Some (("planning_generating", "") :: map (λ t, ("planning_token", t)) told_pieces ++ [("planning_complete", "")],
            h', Ok p') ∧
    told_heap ⊆ h' ∧ plan_document h' p' = plan_document told_heap told_plan) told_services.
Proof.
  assert (Hp : is_Some (buildPrompt "rules" sample_context)) by (eexists; vm_compute; reflexivity).
  destruct Hp as [prompt Hp].
  assert (Hfilter : filter (λ t, t ≠ "") told_pieces = told_pieces) by (vm_compute; reflexivity).
  unfold told_services. apply Forall_cons_2; [|apply Forall_cons_2; [|apply Forall_nil_2]];
    match goal with |- ∃ _ _, @Planner.Plan (told_router ?service) _ _ _ _ _ = _ ∧ _ =>
    destruct (@streamed_plans_reach_the_caller (told_router service) 1 (ESentinel "w") (ESentinel "r") (ESentinel "closed")
      (answers (event_stream service told_pieces)) patient service "rules" DefaultLimits sample_context prompt
      told_pieces told_heap told_heap told_plan told_json) as (h' & p' & Hplan & Hback);
      [discriminate|reflexivity|exact Hp|reflexivity|discriminate|intros f [=]|reflexivity|reflexivity|reflexivity
      |repeat (apply Forall_cons_2; [vm_compute; reflexivity|]); apply Forall_nil_2
      |repeat (apply Forall_cons_2; [apply Nat.ltb_lt; vm_compute; reflexivity|]); apply Forall_nil_2
      |right; vm_compute; reflexivity|exact told_plan_good|exact told_json_encoded
      |apply Z.leb_le; vm_compute; reflexivity|exact told_plan_within
      |rewrite Hfilter in Hplan; exists h', p'; split; [exact Hplan|exact Hback]]
    end.
Defined.

(** C34: whatever a provider sends for a request, plain or streamed, is the text of the
    request's document, and with a key it sends it. For OpenAI: every message in order
    with its role, its name and its content (nothing, one text, or its texts and images
    by data or address), the tools with their schemas, the tool choice, token limit and
    temperature when above zero, parallel_tool_calls, enable_thinking false for a Qwen
    model, the stream flags. For Anthropic: the system messages as one text, the others
    as texts, tools, choice, 4096 tokens by default, disable_parallel_tool_use, stream.
    A service that parses the text of a request of valid texts gets that document. *)
Theorem requests_reach_the_service n e1 e2 e3 net cn stream p q :
  let calls := trace n e1 e2 e3 net cn stream p q in
  let document := request_document n stream p q in
  (∀ payload, sent calls payload → ∃ d, document = Some d ∧ payload = print d) ∧
  (∀ d, document = Some d → api_key p ≠ "" → (∀ endpoint, net_new_request net endpoint = None) →
     sent calls (print d)) ∧
  (∀ d, document = Some d → request_valid n q → utf8_valid (model_of p) → (nesting d ≤ maxNestingDepth)%Z →
     parse (print d) = Some (fix_json d)).
Proof.
  split_and!.
  - intros payload. apply sent_document.
  - intros d Hd Hk Hn. by apply document_sent.
  - intros d Hd Hq Hm Hn. apply parse_print; [by eapply document_lits|done].
Qed.

Definition told_service : provider := OpenAI (NewOpenAIProvider "" "key" "gpt").
(** A conversation with an image, a tool with a schema and a tool that must be called. *)
Definition told_request : GenerateRequest :=
  mkGenerateRequest
    [NewTextMessage "system" "be brief";
     mkMessage "user" [NewTextBlock "what is this?"; NewImageBlockBase64 "image/png" "iVBORw0KGgo="] "ann" ""]
    [mkToolDefinition "name_it" "names a thing" (Some (text_schema "string"))] 256
    (S754_finite false 4503599627370496 (-53)) None (TCSpecific "name_it") (Some false).

Example told_request_text :
  request_document 1 true told_service told_request
  = Some (JObj
      [("model", JStr "gpt");
       ("messages", JArr
          [JObj [("role", JStr "system"); ("content", JStr "be brief")];
           JObj [("role", JStr "user");
                 ("content", JArr
                    [JObj [("type", JStr "text"); ("text", JStr "what is this?")];
                     JObj [("type", JStr "image_url");
                           ("image_url", JObj [("url", JStr "data:image/png;base64,iVBORw0KGgo=")])]]);
                 ("name", JStr "ann")]]);
       ("max_tokens", JNum "256"); ("temperature", JNum "0.5");
       ("tools", JArr
          [JObj [("type", JStr "function");
                 ("function", JObj [("name", JStr "name_it"); ("description", JStr "names a thing");
                                    ("parameters", JObj [("type", JStr "string"); ("maxLength", JNum "9")])])]]);
       ("tool_choice", JObj [("type", JStr "function"); ("function", JObj [("name", JStr "name_it")])]);
       ("parallel_tool_calls", JBool false);
       ("stream", JBool true); ("stream_options", JObj [("include_usage", JBool true)])]).
Proof. vm_compute. reflexivity. Qed.

Lemma half_reads_back : reads_back (S754_finite false 4503599627370496 (-53)).
Proof. exists "0.5". by split_and!; vm_compute. Qed.

Lemma told_request_valid : request_valid 1 told_request.
Proof.
  split. { repeat (apply Forall_cons_2; [split; [done|split; [done|]]; repeat (apply Forall_cons_2; [by repeat constructor|]);
             apply Forall_nil_2|]). apply Forall_nil_2. }
  split. { apply Forall_cons_2; [|apply Forall_nil_2]. split; [done|]. split; [done|]. by apply good_pointer, text_schema_good. }
  split; [by split; vm_compute|]. split; [|done].
  assert (Hf : Providers.positive (gr_Temperature told_request) = Some (S754_finite false 4503599627370496 (-53)))
    by (vm_compute; reflexivity).
  rewrite Hf. intros f [= <-]. apply half_reads_back.
Qed.

Lemma requests_reach_the_service_witness :
  ∃ d, request_document 1 true told_service told_request = Some d ∧
    sent (trace 1 (ESentinel "w") (ESentinel "r") (ESentinel "closed") (answers (event_stream told_service told_pieces))
            patient true told_service told_request) (print d) ∧
    parse (print d) = Some (fix_json d).
Proof.
  destruct (requests_reach_the_service 1 (ESentinel "w") (ESentinel "r") (ESentinel "closed")
              (answers (event_stream told_service told_pieces)) patient true told_service told_request) as (_ & Hs & Hp).
  eexists. split; [exact told_request_text|]. split.
  - apply Hs; [exact told_request_text|by vm_compute|done].
  - apply Hp; [exact told_request_text|exact told_request_valid|done|by apply Z.leb_le].
Defined.

(** With system messages only, the Anthropic request has null for its messages, where
    the OpenAI request would have an empty array. *)
Example only_system_messages stream model n :
  let q := mkGenerateRequest [NewTextMessage "system" "be brief"] [] 256 (f_of_Z 0) None TCNil None in
  let empty := mkGenerateRequest [] [] 256 (f_of_Z 0) None TCNil None in
  (∃ m, encode (Wire:=anthropicMessagesRequest_wire n) (anthropic_request stream model q) = Some (JObj m) ∧
        lookup_field "messages" m = Some JNull) ∧
  (∃ m, encode (Wire:=chatRequest_wire n) (chat_request model empty) = Some (JObj m) ∧
        lookup_field "messages" m = Some (JArr [])).
Proof.
  cbv zeta. split.
  - destruct stream; eexists; by split.
  - unfold chat_request. destruct (contains _ _); eexists; by split.
Qed.
