(* ===== verification/System.v ===== *)
(** The components put together: what the theorems about single parts mean for a
    request that goes through several of them. *)
From S2P Require Export Factory Channel Registry Uuid Validation Json.
From Stdlib Require Import Ascii.
Import StreamChannel.

(* ------------------------------------------------------------------ *)
(** ** Overlays and the request to the model
    ([src/control/profile], [src/planner]) *)
(* ------------------------------------------------------------------ *)

(** Two overlays that agree on the fields [may]: what they say elsewhere, and
    whether they are there at all, is not looked at. *)
Definition agree_on (may : Field → bool) (p q : option AssistantProfile) : Prop :=
  ∀ f, overlay may f p = overlay may f q.

#[export] Instance agree_on_equivalence may : Equivalence (agree_on may).
Proof. split; [done|intros p q H f; by rewrite H|intros p q r H1 H2 f; by rewrite H1]. Qed.

(** The effective profile of a global one. *)
Definition effective (g : AssistantProfile) (t s : option AssistantProfile) : AssistantProfile :=
  (Profile.Merge g t s).1.

Lemma str_value_inj s s' : str_value s = str_value s' → s = s'.
Proof. unfold str_value, nonempty. destruct (String.eqb_spec s ""), (String.eqb_spec s' ""); naive_solver. Qed.

Lemma fmap_value_inj {A} (k : A → field_value) (o o' : option A) :
  (∀ x y, k x = k y → x = y) → k <$> o = k <$> o' → o = o'.
Proof. intros Hk. destruct o, o'; simpl; intros; simplify_eq; f_equal; auto. Qed.

(** The fields the request to the model is made from. *)
Definition request_reads (f : Field) : bool :=
  match f with
  | FName | FPersona | FDomain | FTone | FSoulCitations | FLanguage | FMarkdown | FCitations
  | FTemperature => true
  | _ => false
  end.

(** The planner's context with the effective profile in it. *)
Definition with_profile (c : PlannerContext) (p : AssistantProfile) : PlannerContext :=
  mkPlannerContext (pc_AssistantID c) (pc_Soul c) (Some (ap_Soul p)) (Some (ap_Output p))
    (pc_MemoryContext c) (pc_Skills c) (pc_UserRequest c) (pc_ProgressFn c)
    (pc_ConversationHistory c) (pc_TurnResults c).

Ltac read_field H f :=
  let E := fresh in pose proof (H f eq_refl) as E; cbn in E;
  first [apply str_value_inj in E | apply fmap_value_inj in E; [|congruence]].

(** The request depends on no other field. *)
Lemma request_reads_only c p q prompt :
  (∀ f, request_reads f = true → get_field f p = get_field f q) →
  plan_request (with_profile c p) prompt = plan_request (with_profile c q) prompt.
Proof.
  intros H. read_field H FName. read_field H FPersona. read_field H FDomain. read_field H FTone.
  read_field H FSoulCitations. read_field H FLanguage. read_field H FMarkdown. read_field H FCitations.
  read_field H FTemperature.
  unfold plan_request, system_text, base_system_text. cbn [with_profile pc_ProfileSoul pc_ProfileOutput
    pc_Soul pc_ConversationHistory]. unfold RenderPrompt, RenderOutputDirective. cbv zeta.
  by repeat match goal with E : _ = _ |- _ => rewrite E; clear E end.
Qed.

(** An overlay shows through a field only if it agrees there. *)
Lemma agree_on_overlay may f p q : agree_on (λ f, may f && request_reads f) p q →
  request_reads f = true → overlay may f p = overlay may f q.
Proof.
  intros H Hf. specialize (H f). unfold overlay in *. by rewrite Hf, andb_true_r in H.
Qed.

(** Fields outside what an overlay may set, and fields the request does not read,
    change nothing in it. *)
Lemma request_of_agreeing g t t' s s' f :
  agree_on (λ f, tenant_may f && request_reads f) t t' →
  agree_on (λ f, session_may f && request_reads f) s s' →
  request_reads f = true →
  get_field f (effective g t s) = get_field f (effective g t' s').
Proof.
  intros Ht Hs Hf. unfold effective. rewrite !Merge_layered. unfold layered.
  by rewrite (agree_on_overlay _ _ _ _ Hs Hf), (agree_on_overlay _ _ _ _ Ht Hf).
Qed.

(** A profile is its fields and its own description. *)
Lemma profile_ext p q :
  (∀ f, get_field f p = get_field f q) → ap_ID p = ap_ID q → ap_Name p = ap_Name q →
  ap_Description p = ap_Description q → ap_Scope p = ap_Scope q → ap_TenantID p = ap_TenantID q → p = q.
Proof.
  intros H ?????. assert (Hr := H FRequiredFields).
  assert (Hall : ∀ f, true = true → get_field f p = get_field f q) by auto.
  read_field Hall FName. read_field Hall FDescription. read_field Hall FPersona. read_field Hall FDomain.
  read_field Hall FAvatar. read_field Hall FTone. read_field Hall FSoulCitations. read_field Hall FEnabled.
  read_field Hall FShowReasoning. read_field Hall FHallucinationGuard. read_field Hall FMedicalMode.
  read_field Hall FContentFilter. read_field Hall FRequired. read_field Hall FCitationRequired.
  read_field Hall FLanguage. read_field Hall FMarkdown. read_field Hall FCitations. read_field Hall FTemperature.
  read_field Hall FReasoningSummary. read_field Hall FCompactMode. read_field Hall FTheme.
  cbn in Hr. destruct p as [?????[[] []] [] [] [] [] []], q as [?????[[] []] [] [] [] [] []]. simpl in *.
  simplify_eq. repeat case_match; simplify_eq; done.
Qed.

Lemma Merge_own_fields g t s :
  ap_ID (effective g t s) = ap_ID g ∧ ap_Name (effective g t s) = ap_Name g ∧
  ap_Description (effective g t s) = ap_Description g ∧ ap_Scope (effective g t s) = ScopeGlobal ∧
  ap_TenantID (effective g t s) = "".
Proof. by destruct t, s. Qed.

(** The merge respects what overlays are allowed to say. *)
#[export] Instance effective_proper g :
  Proper (agree_on tenant_may ==> agree_on session_may ==> eq) (effective g).
Proof.
  intros t t' Ht s s' Hs.
  destruct (Merge_own_fields g t s) as (? & ? & ? & ? & ?), (Merge_own_fields g t' s') as (? & ? & ? & ? & ?).
  apply profile_ext; try congruence. intros f. unfold effective. rewrite !Merge_layered. unfold layered.
  by rewrite (Hs f), (Ht f).
Qed.

(** What a session says of language and Markdown. *)
Definition said_language (s : option AssistantProfile) : option field_value :=
  p ← s; str_value (op_Language (ap_Output p)).
Definition said_markdown (s : option AssistantProfile) : option field_value :=
  p ← s; VBool <$> op_Markdown (ap_Output p).

Lemma session_says s s' :
  said_language s = said_language s' → said_markdown s = said_markdown s' →
  agree_on (λ f, session_may f && request_reads f) s s'.
Proof. intros Hl Hm f. destruct f; first [exact Hl|exact Hm|by destruct s, s']. Qed.

(** C6: What a tenant and a session say where they are not permitted to speak
    changes nothing: overlays that agree on their permitted fields, absent ones
    included, give the same effective profile. Of a session's profile the request
    to the model carries the language and the Markdown flag and nothing else: two
    sessions that agree on these get the same request under every tenant and every
    prompt, and the temperature is never theirs to set. *)
Theorem withheld_fields_never_reach_the_model g t t' s s' c prompt :
  (agree_on tenant_may t t' → agree_on session_may s s' → effective g t s = effective g t' s') ∧
  (said_language s = said_language s' → said_markdown s = said_markdown s' →
   plan_request (with_profile c (effective g t s)) prompt
   = plan_request (with_profile c (effective g t s')) prompt) ∧
  gr_Temperature (plan_request (with_profile c (effective g t s)) prompt)
  = gr_Temperature (plan_request (with_profile c (effective g t None)) prompt).
Proof.
  split_and!.
  - intros Ht Hs. by rewrite Ht, Hs.
  - intros Hl Hm. apply request_reads_only. intros f Hf.
    apply request_of_agreeing; [done|by apply session_says|done].
  - pose proof (Merge_layered FTemperature g t s) as H1.
    pose proof (Merge_layered FTemperature g t None) as H2. unfold layered in H1, H2.
    assert (E : ∀ s, overlay session_may FTemperature s = None) by (by intros []). rewrite E in H1, H2.
    rewrite <-H2 in H1. cbn in H1. apply fmap_value_inj in H1; [|congruence].
    unfold plan_request, effective. cbn. by rewrite H1.
Qed.

(** A session that says no more than its language. *)
Definition plain_session : AssistantProfile :=
  mkAssistantProfile "s" "" "" ScopeSession ""
    (mkSoul (mkIdentity "" "" "" "" "") (mkBehavior "" None))
    (mkReasoningPolicy None (Some true)) (mkSafetyPolicy None None None)
    (mkEvidencePolicy None [] None) (mkOutputPolicy "en" None None (Some S754_nan))
    (mkPresentationPolicy None None "dark").

(** A tenant that sets nothing but what it may not. *)
Definition meddling_tenant : AssistantProfile :=
  mkAssistantProfile "t" "" "" ScopeTenant "acme"
    (mkSoul (mkIdentity "" "" "" "" "") (mkBehavior "" None))
    (mkReasoningPolicy None (Some true)) (mkSafetyPolicy (Some false) None (Some false))
    (mkEvidencePolicy None ["doi"] None) (mkOutputPolicy "" None None None)
    (mkPresentationPolicy None None "dark").

Lemma withheld_fields_never_reach_the_model_witness :
  plan_request (with_profile sample_context (effective DefaultGlobal None (Some greedy_session))) "go"
  = plan_request (with_profile sample_context (effective DefaultGlobal None (Some plain_session))) "go" ∧
  effective DefaultGlobal (Some meddling_tenant) None = DefaultGlobal.
Proof.
  split.
  - apply (withheld_fields_never_reach_the_model DefaultGlobal None None (Some greedy_session)
      (Some plain_session) sample_context "go"); reflexivity.
  - destruct (withheld_fields_never_reach_the_model DefaultGlobal (Some meddling_tenant) None None None
      sample_context "go") as [H _].
    refine (eq_trans (H _ _) _); [intros []; reflexivity|reflexivity|vm_compute; reflexivity].
Defined.

(* ------------------------------------------------------------------ *)
(** ** Prepared arguments and the schema they are for
    ([src/execution], [src/validation]) *)
(* ------------------------------------------------------------------ *)

(** [json.Unmarshal] as the validator calls it. *)
Definition json_input (s : string) : result error any :=
  match Unmarshal s with Some v => Ok v | None => Err (EFmt "invalid JSON" []) end.

(** The arguments a step holds. *)
Definition step_args (h : heap) (s : ExecutionStep) : gmap string any :=
  match es_Arguments s with Some l => args_at h l | None => ∅ end.

Lemma coerced_text txt :
  (coerce_value (AString txt) = None ∧ coerced (AString txt) = AString txt) ∨
  (coerce_value (AString txt) ≠ None ∧ ∀ t, coerced (AString txt) ≠ AString t).
Proof.
  unfold coerced. simpl. destruct (tryParseInt txt); [by right|]. destruct (tryParseFloat txt); [by right|].
  destruct (tryParseBool txt); [by right|by left].
Qed.

(** A prepared text is a text exactly when it was not coerced. *)
Lemma prepared_text results txt v :
  resolve_value results (coerced (AString txt)) = Ok v →
  if coerce_value (AString txt) then ∀ t, v ≠ AString t else ∃ t, v = AString t.
Proof.
  destruct (coerced_text txt) as [[-> ->]|[Hc Hn]].
  - intros Hr. simpl in Hr. exact (Resolve_text txt results v Hr).
  - destruct (coerce_value (AString txt)) eqn:E; [|done]. unfold coerced in *. rewrite E in *. simpl in *.
    destruct a as [| | | |t| |]; simpl; intros Hr; try (by injection Hr as <-). by destruct (Hn t).
Qed.

(** What the validator is given, from the arguments in the store. *)
Lemma marshalled_arguments `{MapRange} h s text :
  ArgumentsJSON h s = Some text → es_Arguments s ≠ None →
  floats_read_back (AMap (range (step_args h s))) →
  (any_nesting (AMap (range (step_args h s))) ≤ maxNestingDepth)%Z →
  Unmarshal text = as_decoded (AMap (range (step_args h s))).
Proof.
  unfold ArgumentsJSON, step_args. destruct (es_Arguments s) as [l|]; [|done]. intros Ht _ Hf Hn.
  by apply marshalled_values_read.
Qed.

(** A property of type string that validates is a text. *)
Lemma validated_text `{Regexp} `{GoArch} m schema k ps v path :
  validateSchema false (AMap m) schema path = None → Type_ schema = "object" →
  (k, Some ps) ∈ props schema → Type_ ps = "string" → assoc k m = Some v → ∃ t, v = AString t.
Proof.
  rewrite validateSchema_decides, conforms_eq. intros (_ & _ & _ & (_ & _ & _ & Ho) & _) Ht Hk Hps Hv.
  destruct (Ho (or_introl Ht)) as (_ & Hp & _). unfold props in Hk.
  destruct (Properties schema) as [l|]; [|by apply elem_of_nil in Hk].
  rewrite all_of_Forall, Forall_forall in Hp. specialize (Hp _ Hk v Hv). cbn in Hp.
  rewrite conforms_eq in Hp. destruct Hp as [Hty _]. rewrite Hps in Hty. specialize (Hty ltac:(done)).
  destruct v as [| | |f|t| |]; cbn in Hty; try done; [by destruct Hty as [?|[? _]]|by exists t].
Qed.

(** C17: Preparation coerces before anyone looks at a schema. When a step's arguments
    are prepared, written as JSON and validated as the input of a skill, a text that
    reads as an integer, a decimal or a boolean makes the validator refuse them
    wherever the schema wants a text, whatever else it says; a text that does not
    read as one of these reaches the validator as a text. *)
Theorem numeric_text_is_refused_as_text `{MapRange} `{Regexp} `{GoArch} h s l m results h' s' text schema k txt ps :
  es_Arguments s = Some l → h !! l = Some m → Prepare h s results = (h', Ok s') →
  ArgumentsJSON h' s' = Some text →
  floats_read_back (AMap (range (step_args h' s'))) →
  (any_nesting (AMap (range (step_args h' s'))) ≤ maxNestingDepth)%Z →
  (∀ k, k ∈ dom m → utf8_valid k) →
  Type_ schema = "object" → (k, Some ps) ∈ props schema → Type_ ps = "string" →
  m !! k = Some (AString txt) →
  (coerce_value (AString txt) ≠ None → ValidateInput json_input text (Some schema) ≠ None) ∧
  (coerce_value (AString txt) = None →
   ∀ d, Unmarshal text = Some d → ∃ args t, d = AMap args ∧ assoc k args = Some (AString t)).
Proof.
  intros Hl Hm Hp Htext Hf Hn Hkeys Hty Hk Hps Htxt.
  pose proof (Prepare_spec h s l m results Hl Hm) as Hs. rewrite Hp in Hs.
  destruct Hs as [_ (l' & m' & -> & _ & Hl' & Hdom & Hv)]. destruct (Hv k _ Htxt) as (v & Hr & Hk').
  apply prepared_text in Hr.
  assert (Hargs : step_args h' (set_Arguments (Some l') s) = m') by (unfold step_args, args_at; simpl; by rewrite Hl').
  pose proof (marshalled_arguments _ _ _ Htext ltac:(done) Hf Hn) as Hd. rewrite Hargs in Hd.
  assert (Hobj : ∀ d, Unmarshal text = Some d →
    ∃ args x, d = AMap args ∧ as_decoded v = Some x ∧ assoc k args = Some x).
  { intros d Hdd. rewrite Hd in Hdd. apply decoded_object in Hdd as (args & -> & Ha).
    - destruct (Ha k v) as (x & ? & ?); [|by exists args, x].
      apply assoc_NoDup; [apply range_NoDup_keys|by apply elem_of_range].
    - apply range_NoDup_keys.
    - apply Forall_forall. intros [k0 v0] Hin. apply elem_of_range in Hin. apply Hkeys. rewrite <-Hdom.
      apply elem_of_dom. eauto. }
  split.
  - intros Hc Hval. destruct (coerce_value (AString txt)); [|done]. unfold ValidateInput, json_input in Hval.
    destruct (Unmarshal text) as [d|]; [|done]. destruct (Hobj d eq_refl) as (args & x & -> & Hx & Ha).
    destruct (validated_text args schema k ps x "" Hval Hty Hk Hps Ha) as [t ->].
    apply as_decoded_text in Hx as [t' ->]. by destruct (Hr t').
  - intros Hc d Hdd. rewrite Hc in Hr. destruct Hr as [t ->]. destruct (Hobj d Hdd) as (args & x & -> & Hx & Ha).
    simpl in Hx. injection Hx as <-. eauto.
Qed.

(** The schema [{"type": "object", "properties": {"n": {"type": "string"}}}]. *)
Definition text_schema : JSONSchema :=
  mkJSONSchema "string" None [] "" "" ANil [] None None "" None None [] None None [] [] [] []
    None [] None None None "" [].
Definition text_object : JSONSchema :=
  mkJSONSchema "object" (Some [("n", Some text_schema)]) [] "" "" ANil [] None None "" None None
    [] None None [] [] [] [] None [] None None None "" [].

Definition sample_text : string := json_bytes (AMap [("n", AInt 42); ("q", AString "for {{a}}")]).

Lemma numeric_text_is_refused_as_text_witness :
  @validateValue regexp_any amd64 (AMap [("n", AString "42")]) (Some text_object) "" = None ∧
  @ValidateInput regexp_any amd64 json_input sample_text (Some text_object) ≠ None.
Proof.
  split; [vm_compute; reflexivity|].
  assert (Hp : match @Prepare range_rev sample_heap sample_step ∅ with
               | (h', Ok s') => @ArgumentsJSON range_rev h' s' = Some sample_text ∧
                   @range range_rev any (step_args h' s') = [("n", AInt 42); ("q", AString "for {{a}}")]
               | _ => False
               end) by (vm_compute; split; reflexivity).
  destruct (@Prepare range_rev sample_heap sample_step ∅) as [h' [s'|e]] eqn:E; [|destruct Hp].
  destruct Hp as [Htext Hargs].
  destruct (@numeric_text_is_refused_as_text range_rev regexp_any amd64 sample_heap sample_step 1%positive
    sample_args ∅ h' s' _ text_object "n" "42" text_schema eq_refl ltac:(vm_compute; reflexivity) E Htext) as [H _].
  - rewrite Hargs. vm_compute. tauto.
  - rewrite Hargs. vm_compute. discriminate.
  - intros k Hk. assert (Hin : k = "n" ∨ k = "q").
    { unfold sample_args in Hk. rewrite dom_insert, dom_singleton in Hk. set_solver. }
    destruct Hin as [-> | ->]; reflexivity.
  - reflexivity.
  - apply list_elem_of_here.
  - reflexivity.
  - vm_compute. reflexivity.
  - apply H. vm_compute. discriminate.
Defined.

(* ------------------------------------------------------------------ *)
(** ** The identifiers of a plan ([src/execution], the uuid library) *)
(* ------------------------------------------------------------------ *)

Section draws.
(** Sixteen bytes for every identifier. *)
Variable draws : nat → list Z.
Hypothesis draws_ok : ∀ i, uuid_ok (draws i).

(** [uuid.New().String()], which panics on no such draw. *)
Definition drawn (i : nat) : string := UUID_String (stamped (draws i)).

Lemma drawn_NewString i : NewString (Ok (draws i)) = Some (drawn i).
Proof. unfold NewString. by rewrite NewRandom_stamped. Qed.

Lemma drawn_same i j : drawn i = drawn j → same_draw (draws i) (draws j).
Proof.
  intros Hij. apply stamped_eq; [done..|]. apply UUID_String_inj in Hij; [done|by apply stamped_bytes..].
Qed.

Lemma drawn_reads i : ∃ u, Parse (drawn i) = Ok u ∧ UUID_String u = drawn i ∧ Version u = 4%Z ∧ Variant u = RFC4122.
Proof.
  exists (stamped (draws i)). destruct (stamped_bytes _ (draws_ok i)) as (Hok & _).
  destruct (Parse_written _ Hok) as (Hp & _). destruct (stamped_kind _ (draws_ok i)) as [Hv Hr]. done.
Qed.

Lemma drawn_NoDup l :
  NoDup l → (∀ i j, i ∈ l → j ∈ l → same_draw (draws i) (draws j) → i = j) → NoDup (map drawn l).
Proof.
  induction 1 as [|i l Hi Hl IH]; intros Hd; simpl; [constructor|]. constructor.
  - intros (j & Hij & Hj)%list_elem_of_fmap. apply Hi. rewrite (Hd i j); [done|by left|by right|].
    by apply drawn_same.
  - apply IH. intros j k Hj Hk. apply Hd; by right.
Qed.
End draws.

(** A plan that comes without identifiers and validates has pairwise different
    ones afterwards, the plan's and every step's, when no two of the draws of sixteen
    random bytes it takes agree outside the six bits the library overwrites; each of
    them is read back as an identifier of version 4 and the variant of RFC 4122. *)
Theorem validated_plans_have_distinct_uuids draws n p p' n' :
  (∀ i, uuid_ok (draws i)) →
  (∀ i j, n ≤ i < n' → n ≤ j < n' → same_draw (draws i) (draws j) → i = j) →
  ep_ID p = "" → Forall (λ s, es_StepID s = "") (ep_Steps p) →
  Validate (drawn draws) n p = (p', n', None) →
  NoDup (ep_ID p' :: map es_StepID (ep_Steps p')) ∧
  Forall (λ id, ∃ i u, NewString (Ok (draws i)) = Some id ∧ Parse id = Ok u ∧ UUID_String u = id ∧
                       Version u = 4%Z ∧ Variant u = RFC4122)
    (ep_ID p' :: map es_StepID (ep_Steps p')).
Proof.
  intros Hok Hdiff Hid Hall Hv. destruct (Validate_ids _ n p p' n' Hid Hall Hv) as [-> ->]. split.
  - apply drawn_NoDup; [done|apply NoDup_seq|]. intros i j Hi%elem_of_seq Hj%elem_of_seq. apply Hdiff; lia.
  - apply Forall_map, Forall_forall. intros i _. destruct (drawn_reads draws Hok i) as (u & ?). exists i, u.
    split; [apply drawn_NewString|done].
Qed.

(** Draws that count, as far as a byte goes. *)
Definition counting (i : nat) : list Z := replicate 15 0%Z ++ [Z.of_nat i mod 256]%Z.

Lemma counting_ok i : uuid_ok (counting i).
Proof.
  split; [done|]. unfold counting. rewrite Forall_app. split; [by repeat constructor|].
  constructor; [|constructor]. unfold byte_ok. pose proof (Z.mod_pos_bound (Z.of_nat i) 256).
  apply andb_true_iff. rewrite Z.leb_le, Z.ltb_lt. lia.
Qed.

Lemma counting_differ i j : 0 ≤ i < 3 → 0 ≤ j < 3 → same_draw (counting i) (counting j) → i = j.
Proof.
  intros Hi Hj (H & _). specialize (H 15 ltac:(lia) ltac:(lia)). unfold byte_of, counting in H. cbn in H.
  rewrite !Z.mod_small in H by lia. lia.
Qed.

Lemma validated_plans_have_distinct_uuids_witness :
  NoDup ["00000000-0000-4000-8000-000000000000"; "00000000-0000-4000-8000-000000000001";
         "00000000-0000-4000-8000-000000000002"].
Proof.
  pose (p := mkExecutionPlan "" "" "asst" two_steps "" false).
  assert (Hv : Validate (drawn counting) 0 p = ((Validate (drawn counting) 0 p).1.1, 3, None))
    by (vm_compute; reflexivity).
  destruct (validated_plans_have_distinct_uuids counting 0 p _ 3 counting_ok counting_differ eq_refl
    ltac:(repeat constructor) Hv) as [H _].
  vm_compute in H. exact H.
Defined.

(* ------------------------------------------------------------------ *)
(** ** The planner at the end of a concurrent stream
    ([src/planner], [src/ai/providers]) *)
(* ------------------------------------------------------------------ *)

(** However the consumer and the context behave, the reader sends the beginning of
    what a patient consumer gets, and then perhaps an error. *)
Definition maybe_error (l : list StreamChunk) : Prop := l = [] ∨ ∃ e, l = [error_chunk e].

Lemma send_error_maybe room e : maybe_error (send_error room e).
Proof. destruct room; [right; by exists e|by left]. Qed.

Lemma read_lines_cut {S} (step : S → string → line_effect S) wrap cn lines err s i :
  ∃ k tail, maybe_error tail ∧
    read_lines step wrap cn lines err s i
    = take k (read_lines step wrap patient lines None s i) ++ tail.
Proof.
  revert s i. induction lines as [|line lines IH]; intros s i; cbn [read_lines].
  - exists 0. eexists. split; [|reflexivity]. destruct err; [apply send_error_maybe|by left].
  - destruct (step s line) as [s'|s' c|]; [apply IH| |].
    + destruct (cn_done cn i) as [[e room]|]; cbn.
      * exists 0. eexists. split; [apply send_error_maybe|reflexivity].
      * destruct (IH s' (Datatypes.S i)) as (k & tail & Ht & ->). by exists (Datatypes.S k), tail.
    + exists 0, []. split; [by left|reflexivity].
Qed.

Lemma prefix_of_cut {A} (l chunks tail : list A) k :
  l `prefix_of` take k chunks ++ tail → ∃ j t, l = take j chunks ++ t ∧ t `prefix_of` tail.
Proof.
  intros [rest Hl]. destruct (Nat.le_gt_cases (length l) (length (take k chunks))) as [Hle|Hgt].
  - exists (length l `min` k), []. rewrite app_nil_r. split; [|by exists tail].
    apply (f_equal (take (length l))) in Hl. rewrite take_app_length, take_app_le in Hl by done.
    by rewrite take_take in Hl.
  - apply (f_equal (take (length l))) in Hl as Ht. rewrite take_app_length, take_app_ge in Ht by lia.
    eexists k, _. split; [symmetry; exact Ht|]. apply prefix_take.
Qed.

Lemma prefix_of_maybe t tail : maybe_error tail → t `prefix_of` tail → maybe_error t.
Proof.
  intros [->|[e ->]] Hp; [left; by apply prefix_nil_inv|].
  destruct t as [|c t]; [by left|right; exists e]. apply prefix_cons_inv_1 in Hp as Hc.
  apply prefix_cons_inv_2, prefix_nil_inv in Hp. by subst.
Qed.

(** What the planner makes of the beginning of a stream and perhaps an error. *)
Lemma read_cut token ps j t :
  maybe_error t →
  let texts := take j (map payload_text ps) in
  read_stream token (take j (chunks_after [] ps) ++ t) ""
  = (map (λ x, (token, x)) (filter (λ x, x ≠ "") texts),
     match t with error :: _ => Err (default (ESentinel "") (sc_Error error)) | [] => Ok (concat_str texts) end).
Proof.
  intros Ht texts. destruct (chunks_after_content [] ps) as [Hc Hok]. apply (Forall_take _ j) in Hok.
  assert (Htexts : chunk_texts (take j (chunks_after [] ps)) = filter (λ x, x ≠ "") texts)
    by (unfold chunk_texts, texts; by rewrite <-Hc, firstn_map).
  destruct Ht as [->|[e ->]].
  - rewrite app_nil_r, read_stream_ok, Htexts by done. by rewrite concat_nonempty.
  - rewrite (read_stream_error _ _ _ _ _ e) by done. by rewrite Htexts.
Qed.

Lemma read_whole token ps t :
  maybe_error t →
  let texts := map payload_text ps in
  read_stream token (chunks_after [] ps ++ t) ""
  = (map (λ x, (token, x)) (filter (λ x, x ≠ "") texts),
     match t with error :: _ => Err (default (ESentinel "") (sc_Error error)) | [] => Ok (concat_str texts) end).
Proof.
  intros Ht texts. pose proof (read_cut token ps (length ps) t Ht) as H.
  destruct (chunks_after_content [] ps) as [Hm _]. apply (f_equal length) in Hm. rewrite !length_map in Hm.
  by rewrite (firstn_all2 (chunks_after [] ps)), (firstn_all2 (map payload_text ps)) in H
    by (rewrite ?length_map; lia).
Qed.

Lemma openai_read_whole unmarshal wrap lines ps fin :
  payloads unmarshal lines = (ps, fin) → Forall sane_index (deltas_of ps) →
  read_lines (openai_line unmarshal) wrap patient lines None (∅, 0%Z) 0 = chunks_after [] ps.
Proof.
  intros Hp Hsane. pose proof (openai_read_spec unmarshal wrap patient lines None [] 0 (λ _, eq_refl)) as H.
  rewrite Hp in H. cbn [fst snd] in H. etransitivity; [by apply H|]. destruct fin; apply app_nil_r.
Qed.

(** C12: At every moment of every schedule of the goroutine that reads an OpenAI
    stream, the planner that receives from it and the context, the progress calls
    the planner has made carry the texts of the first payloads of the body, in order
    and nothing else; if it takes the answer for complete, the answer is the text of
    these payloads. Under a context that does not end, a planner that receives until
    the channel is closed and empty has the text of all payloads, or has been told
    of the error that broke the body, unless there was no room to tell it. *)
Theorem planner_follows_every_schedule unmarshal wrap token body lines err ps fin ch r :
  scan_lines body = (lines, err) → payloads unmarshal lines = (ps, fin) →
  Forall sane_index (deltas_of ps) →
  rtc (run_step (openai_line unmarshal) wrap) (started body (∅, 0%Z)) (ch, r) →
  let texts := map payload_text ps in
  (∃ k, (read_stream token (ch_received ch) "").1
        = map (λ t, (token, t)) (filter (λ t, t ≠ "") (take k texts)) ∧
        ∀ answer, (read_stream token (ch_received ch) "").2 = Ok answer → answer = concat_str (take k texts)) ∧
  (ch_closed ch = true → ch_buffer ch = [] → ch_context ch = None →
   (read_stream token (ch_received ch) "").1 = map (λ t, (token, t)) (filter (λ t, t ≠ "") texts) ∧
   ((read_stream token (ch_received ch) "").2 = Ok (concat_str texts) ∨
    fin = false ∧ ∃ e, err = Some e ∧ (read_stream token (ch_received ch) "").2 = Err (wrap e))).
Proof.
  intros Hscan Hps Hsane Hrun texts. pose proof (run_prefix _ wrap body (∅, 0%Z) ch r Hrun) as (cn & Hpre & _).
  unfold read_body in Hpre. rewrite Hscan in Hpre. split.
  - destruct (read_lines_cut (openai_line unmarshal) wrap cn lines err (∅, 0%Z) 0) as (k & tail & Htail & Hcut).
    rewrite (openai_read_whole _ _ _ _ _ Hps Hsane) in Hcut.
    assert (Hrec : ch_received ch `prefix_of` take k (chunks_after [] ps) ++ tail)
      by (rewrite <-Hcut; etransitivity; [by eexists|exact Hpre]).
    apply prefix_of_cut in Hrec as (j & t & Hr & Ht). apply (prefix_of_maybe _ _ Htail) in Ht.
    exists j. rewrite Hr, (read_cut token ps j t Ht). split; [done|]. intros answer. cbn [snd].
    destruct t; [|done]. by intros [= <-].
  - intros Hc Hb Hctx.
    destruct (drained_payloads unmarshal wrap body lines err ps fin ch r) as (room & Hr & _); [done..|].
    set (t := if fin then [] else _) in Hr.
    assert (Ht : maybe_error t) by (unfold t; destruct fin, err; try (by left); apply send_error_maybe).
    rewrite Hr, (read_whole token ps t Ht). split; [done|]. cbn [snd]. unfold t.
    destruct fin; [by left|]. destruct err as [e|]; [|by left]. destruct room; simpl; eauto 6.
Qed.

Lemma planner_follows_every_schedule_witness :
  (read_stream "planning_token" (ch_received (mkChannel [] true None [one_chunk])) "").2 = Ok "done".
Proof.
  destruct (planner_follows_every_schedule sample_payload (λ e, e) "planning_token" one_payload _ _ _ _
    (mkChannel [] true None [one_chunk]) Returned eq_refl eq_refl) as [_ H].
  - cbn. repeat (apply Forall_cons_2; [by split; vm_compute|]). apply Forall_nil_2.
  - apply one_payload_run.
  - destruct (H eq_refl eq_refl eq_refl) as [_ [Hok|(Hf & _)]]; [exact Hok|discriminate Hf].
Defined.

(** The lines that end a stream are its end markers. *)
Lemma openai_stops unmarshal lines st : stops (openai_line unmarshal) lines st = (payloads unmarshal lines).2.
Proof.
  revert st. induction lines as [|line lines IH]; intros st; [done|]. cbn [stops payloads].
  rewrite openai_line_classify. destruct (classify unmarshal line) as [p| |]; [|done|apply IH].
  destruct (openai_chunk st p) as [st' c]. rewrite IH. by destruct (payloads unmarshal lines).
Qed.

(** C13: When the connection breaks in the middle of an answer, the planner can take
    the part that came for the whole of it, no error being reported, exactly when at
    least 64 payloads came before the break: the error is sent without waiting, and a
    consumer that is 64 chunks behind leaves it no room. *)
Theorem broken_answers_pass_for_whole_ones unmarshal wrap token body lines e ps :
  scan_lines body = (lines, Some e) → payloads unmarshal lines = (ps, false) →
  Forall sane_index (deltas_of ps) →
  (∃ ch r, rtc (run_step (openai_line unmarshal) wrap) (started body (∅, 0%Z)) (ch, r) ∧
     ch_closed ch = true ∧ ch_buffer ch = [] ∧ ch_context ch = None ∧
     (read_stream token (ch_received ch) "").2 = Ok (concat_str (map payload_text ps)))
  ↔ capacity ≤ length ps.
Proof.
  intros Hscan Hps Hsane. destruct (chunks_after_content [] ps) as [Hlen _].
  apply (f_equal length) in Hlen. rewrite !length_map in Hlen. split.
  - intros (ch & r & Hrun & Hc & Hb & Hctx & Hok).
    destruct (drained_payloads unmarshal wrap body lines (Some e) ps false ch r) as (room & Hr & Hroom); [done..|].
    rewrite Hr, (read_whole token ps _ (send_error_maybe _ _)) in Hok. cbn [snd] in Hok.
    destruct room; [done|]. destruct Hroom as [?|Hroom]; [done|]. rewrite Hr in Hroom. cbn in Hroom.
    rewrite app_nil_r in Hroom. by rewrite Hlen in Hroom.
  - intros Hcap. destruct (lazy_run (openai_line unmarshal) wrap lines (Some e) (∅, 0%Z) opened)
      as (ch & st & Hrun & Hctx & Hcl & Hsent & Hb); [by rewrite openai_stops, Hps|done|apply Nat.le_0_l|].
    rewrite (openai_read_whole _ _ _ _ _ Hps Hsane), Hlen in Hb. rewrite Nat.min_l in Hb by (cbn [opened ch_buffer length]; lia).
    assert (Hf : full ch = true) by (unfold full; apply Nat.leb_le; lia).
    pose (c := mkChannel [] true None (sent ch)).
    assert (Hall : rtc (run_step (openai_line unmarshal) wrap) (started body (∅, 0%Z)) (c, Returned)).
    { unfold started. rewrite Hscan. etransitivity; [exact Hrun|]. do 2 (eapply rtc_l; [by apply (reader_runs _ _ true)|]).
      unfold try_push. rewrite Hf. eapply rtc_l; [by apply (reader_runs _ _ true)|].
      destruct ch as [buffer closed ctx received]. simpl in Hctx. subst ctx. apply drain_run. }
    exists c, Returned. split_and!; [exact Hall|done..|].
    destruct (drained_payloads unmarshal wrap body lines (Some e) ps false c Returned) as (room & Hr & _); [done..|].
    assert (Hn : length (ch_received c) = length ps).
    { cbn. rewrite Hsent. cbn. by rewrite (openai_read_whole _ _ _ _ _ Hps Hsane), Hlen. }
    rewrite Hr in Hn |- *. rewrite length_app, Hlen in Hn. destruct room; [simpl in Hn; lia|].
    by rewrite (read_whole token ps _ (send_error_maybe false (wrap e))).
Qed.

(** A connection reset after 64 payloads. *)
Definition reset : error := ESentinel "connection reset".
Definition reset_body : http_body := mkHttpBody (unlines (replicate 64 "data: d")) (Some reset).

Lemma reset_sane : Forall sane_index (deltas_of (payloads sample_payload (replicate 64 "data: d")).1).
Proof.
  assert (E : deltas_of (payloads sample_payload (replicate 64 "data: d")).1
              = replicate 64 (mkStreamToolCallDelta 0 "" "" "]")) by (vm_compute; reflexivity).
  rewrite E. apply Forall_replicate. by split; vm_compute.
Qed.

Lemma broken_answers_pass_for_whole_ones_witness :
  ∃ ch, ch_closed ch = true ∧ ch_buffer ch = [] ∧ ch_context ch = None ∧
    (read_stream "planning_token" (ch_received ch) "").2 = Ok (concat_str (replicate 64 "done")).
Proof.
  pose (lines := replicate 64 "data: d"). pose (ps := (payloads sample_payload lines).1).
  destruct (broken_answers_pass_for_whole_ones sample_payload (λ e, e) "planning_token" reset_body lines
    reset ps) as [_ H].
  - vm_compute. reflexivity.
  - vm_compute. reflexivity.
  - apply reset_sane.
  - destruct H as (ch & r & _ & Hc & Hb & Hctx & Hok); [apply Nat.leb_le; vm_compute; reflexivity|].
    exists ch. split; [exact Hc|]. split; [exact Hb|]. split; [exact Hctx|]. rewrite Hok. vm_compute. reflexivity.
Defined.
